(* ===== verification/_CoqProject ===== *)
-Q . S2P
Prelude.v
ByteOrder.v
CStr.v
NetUtils.v
Checksum.v
Tcp.v
Udp.v
Icmp.v
Ipv4.v
Arp.v
Ethernet.v
Log.v
Device.v
Fdt.v
Devices.v
Resources.v
Console.v
Stubs.v
DeviceScan.v
Netdev.v
NetStack.v
HttpHello.v
PacketPrint.v
Mac.v
ArpBroadcast.v
Io.v
VirtioMmio.v
Pci.v
EcamScan.v
FdtScan.v
DevicesAmd64.v
DevicesRiscv.v
DevicesArm64.v
Ring.v
Driver.v
E1000.v
Rtl8139.v
Rtl8139Card.v
Virtqueue.v
VirtioRng.v
VirtioRngSession.v
Random.v
RngStack.v
InitApps.v
PlatformAmd64.v
TrapAmd64.v
PlatformArm64.v
TrapArm64.v
PlatformRiscv.v
TrapRiscv.v
Kernel.v
BootAmd64.v
BootEcam.v
BootBoards.v
VirtioNet.v
WebServer.v
VirtioNetDevice.v
