(* ===== verification/Prelude.v ===== *)
(** * YasouOS in Rocq

    A model of the kernel YasouOS (C23, freestanding; AMD64, ARM64, RISC-V) and the
    theorems that its parts do what they are for.  The definitions follow the sources
    under src/ function by function and keep their names; each file opens with what it
    holds.  Everything is computable: the samples at the end of the files run the code.

    ** How C is represented

    - A function that can fail returns [res] ([Ok], [UB], [NoFuel]): [UB] is an access
      outside its object, a null dereference, a signed overflow; a theorem that a
      function returns [Ok] is therefore also one of memory safety.  A function that
      touches the machine is a state-passing [St W A] over a world [W].
    - A w-bit unsigned integer is the [Z] in its range, truncations written as [u8],
      [u16], [u32], [u64].  An object is the list of its bytes or elements, a pointer
      into it a list and an offset.  A C string is the list of its characters; a string
      that the boot loader or a device-tree blob owns is read from a [memory].
    - Static variables are records that are passed and returned ([log_state],
      [registry], [manager], [net_statics], [app_statics], ...).
    - Loops are [Fixpoint]s on fuel, and running out of it is [NoFuel], which no theorem
      that concludes [Ok] allows.  The bounds: the command-line scanners (Log.v,
      InitApps.v) take the length of the line plus one; the device-tree walks a bound
      computed from the blob's header (Fdt.v, shown never to be reached on any memory
      contents); list walks the size of the static array plus two (Devices.v,
      Resources.v); the polls of the drivers their C limit (100,000 in VirtioRng.v); the
      one's complement folding of Checksum.v the number of times a 32-bit sum can need;
      decimal printers the digits of their width; the reclaim loop of VirtioNet.v 2^16,
      all values of a 16-bit index; the wait for the UART (PlatformAmd64.v)
      any fuel above the device's delay.  The wait for the RTL8139's reset is cut after
      a number of polls that the model takes as an argument.  The endless loops of the network
      applications are cut after n frames, for every n; those in which the processor is
      halted are followed for n rounds ([forever]), and a call that has entered one never
      comes back ([Looping]).

    ** Parts

    The numbers in brackets order the files from the bottom up.

    [1] Prelude.v: outcomes, integers, buffers, their lemmas and tactics.  ByteOrder.v:
    common/byteorder.*, the three architectures' byte swaps.  CStr.v: common/common.c.
    Log.v: common/log.c.  Console.v: the interface [Console] (characters and the logger as
    part of a world, with [ConsoleLaws]) against which everything that prints is written.

    [2] NetUtils.v, Checksum.v, Tcp.v, Udp.v, Icmp.v, Ipv4.v, Arp.v, Ethernet.v:
    apps/network, builders, parsers and printers of packet headers.

    [3] Device.v, Devices.v (the registry and tree of kernel/devices/devices.c), Fdt.v
    (kernel/platform/fdt_parser.c), Resources.v (kernel/resources/resources.c), Stubs.v
    (virtio-blk and resources_update_devices), DeviceScan.v (devices_scan and
    device_tree_print, against the interface [Enumerator]).

    [4] Io.v: the hardware bus as the interface [Bus].  VirtioMmio.v, Pci.v,
    DevicesAmd64.v, DevicesArm64.v, DevicesRiscv.v: kernel/devices/virtio_mmio.* and the
    three devices_enumerate, over a host bridge ([ConfigPorts], [EcamHost], [ConfigSpace]).
    EcamScan.v: the functional reference of the ARM64 and RISC-V scans ([scan_ref]) and
    the rules ([scans], [passive]) by which a scan is shown to follow it.  FdtScan.v:
    the devices of the device tree's nodes.

    [5] Driver.v (what the drivers share: static tags, contexts in memory [CtxMem], the
    machine of a driver and its card), Ring.v (ring indices), E1000.v, Rtl8139.v and
    Rtl8139Card.v, Virtqueue.v (virtio split queues), VirtioRng.v and VirtioRngSession.v
    (the driver with its device from initialisation on), VirtioNet.v and
    VirtioNetDevice.v: src/drivers.  The cards are transition relations or classes that state what the
    manuals document.

    [6] Netdev.v (apps/netdev-mac/netdev.c, against the interface [NetDriver]),
    NetStack.v (that interface over the resource manager), Mac.v, ArpBroadcast.v,
    HttpHello.v, PacketPrint.v, Random.v (against [RngDriver]): the applications.
    InitApps.v: kernel/init_apps.c, which starts them.  WebServer.v: app_http_hello on
    the whole stack, down to an e1000 card.  RngStack.v: the random numbers on the whole
    stack, down to an entropy device.

    [7] PlatformAmd64.v, PlatformArm64.v, PlatformRiscv.v: kernel/platform.
    TrapAmd64.v, TrapArm64.v, TrapRiscv.v: the inline assembly of these files, the stubs
    and vectors through which the processor reaches the C handlers, and the instruction of
    apps/illegal-instruction.  Kernel.v:
    kernel_main, against the interfaces of the other parts.  BootAmd64.v: the AMD64 scan
    and platform behind these interfaces, and a machine that boots.  BootEcam.v: the
    ARM64 and RISC-V enumerators behind [Enumerator].  BootBoards.v: an ARM64 and a RISC-V
    board on which kernel_main is run.

    ** How the parts interact

    kernel_main (Kernel.v) initialises the platform, parses the command line into the
    logger, lets the architecture's devices_enumerate call back into the registry, hands
    the registry's list to the resource manager and starts the applications.  An
    application acquires devices through netdev.c, which asks the resource manager for
    the first free device a driver accepts, and then talks to the driver through its
    function table.  These boundaries are the classes [Enumerator], [NetDriver],
    [RngDriver], [Platform]; a client's theorem assumes the class's laws, and the files
    of the implementations prove them: [amd64_enumerator] in BootAmd64.v,
    [arm64_enumerator] and [riscv_enumerator] in BootEcam.v, machine_net_laws
    in E1000.v and VirtioNetDevice.v, [stack_net] with stack_laws and stack_acquires in
    NetStack.v, which WebServer.v puts together, and [rng_stack_laws] in RngStack.v.

    ** What the theorems show

    - Boot: kernel_main reaches the applications on every command line, with the logger
      configured, the registry, tree and resource list built from the hardware's devices
      (kernel_main_correct, log_init_register, log_bounds, init_apps_correct,
      devices_registry_correct, device_tree_correct, device_tree_print_correct).
    - Discovery: the scans report exactly the devices present, those of PCI also enable
      them (amd64_scan_correct, arm64_enumerate_correct, riscv_enumerate_correct,
      virtio_enumerate_correct,
      fdt_enumerate_devices_correct, fdt_get_bootargs_correct),
      terminate on any memory (fdt_terminates), and allocate disjoint aligned windows
      (riscv_bar_windows).
    - Resources: a device is granted to at most one owner, first match first, and release
      undoes acquire (resource_acquire_correct, resource_release_correct,
      acquire_release_roundtrip, netdev_acquire_all_correct, netdev_owns_hardware).
    - The whole system: a web server started on an unallocated card puts exactly the
      answers of a stateless specification on the wire, in whatever order frames arrive,
      the card sends and the server takes its turns, if it is never more than four frames
      ahead of the card (web_server_correct); the random numbers of any sequence of calls
      on an unallocated entropy device, which answers in time through a queue of the
      driver's size, are those of an abstract supply (random_supply).
    - Drivers: for every interleaving of calls and device steps e1000 and virtio-net are
      two bounded queues of packets, transmit queues drain, and rtl8139, virtio-rng and
      the generator deliver what they promise (e1000_refines_queues, e1000_tx_drains,
      virtio_net_refines_queues, virtio_net_tx_drains, virtio_net_limits,
      rtl8139_receive_correct, rtl8139_sends_in_order, random_get_bytes_correct,
      prng_never_stuck).  The registers virtio-rng is initialised with are given write by
      write, on every branch, and its reads are draws from the device's stream
      (virtio_rng_session).
    - Packets: builders and parsers are inverse, checksums verify and detect changes,
      printers stay inside the frame (tcp_build_header_correct, ipv4_build_verify,
      icmp_build_parse, arp_build_print, ethernet_print_safe, print_decimal_correct,
      byteorder_agree).
    - Applications: the servers answer as a stateless specification says and never leave
      their buffers, as long as they do not print malformed frames (http_answers_segment, http_server_safe, http_response_correct,
      packet_print_answers, packet_print_safe, arp_broadcast_correct, mac_all_correct).
    - Platform: the serial port sends every byte, the interrupt table has exactly the one
      gate, exceptions are reported in full (platform_puts_correct, init_com1_correct,
      exception_handlers_correct, platform_get_cmdline_correct, exception_report_correct,
      trap_handler_correct).  From the processor's entry on, through the assembly: an
      exception reaches its handler with the stack the ABI asks for, is reported, and the
      machine halts: on AMD64 and ARM64 in the loop that ends platform_halt, which never
      returns to the assembly; on RISC-V platform_halt returns and the trap vector loops
      (amd64_illegal_instruction, arm64_exception_halts, riscv_trap_halts).
    - Errors: theorems that show a defect of the code instead (fdt_duplicate_report,
      ethernet_print_overread, log_override_order, arm64_bar_overlap, e1000_stalls,
      rtl8139_ring_errors, http_wrong_answers, virtio_net_limits).

    ** Not modelled

    - The boot code in assembly files (boot_kernel.S, boot_disk.S, boot_iso.S): what runs
      before kernel_main is a hypothesis on its world (an initial configuration space, the
      memory with the boot loader's structures); linker scripts and build files.
    - The message of the mac applications for a driver whose get_driver returns NULL:
      the three drivers never do.
    - Processors beyond their exceptions: the Trap files model the instructions of the
      assembly text and nothing else; a C function leaves an arbitrary state that the
      calling convention allows.  For the applications' launcher the undefined instruction
      is the class [IllegalInstruction].
    - The cards of virtio-blk: its driver in the source is a stub, modelled in Stubs.v.
    - The unit tests and the test kernel (src/common/*.test.c, src/tests).
    - Concurrency inside the kernel: there is none, interrupts are never enabled. *)

From stdpp Require Export base numbers list option strings gmap.
From Stdlib Require Export ZArith Lia.

Open Scope Z_scope.

(** [cbn] reduces integer operations on numerals only. *)
#[global] Arguments Z.add !_ !_ : simpl nomatch.
#[global] Arguments Z.sub !_ !_ : simpl nomatch.
#[global] Arguments Z.mul !_ !_ : simpl nomatch.
#[global] Arguments Z.pow !_ !_ : simpl nomatch.
#[global] Arguments Z.modulo !_ !_ : simpl nomatch.
#[global] Arguments Z.div !_ !_ : simpl nomatch.
#[global] Arguments Z.shiftl !_ !_ : simpl nomatch.
#[global] Arguments Z.shiftr !_ !_ : simpl nomatch.
#[global] Arguments Z.land !_ !_ : simpl nomatch.
#[global] Arguments Z.lor !_ !_ : simpl nomatch.
#[global] Arguments Z.eqb !_ !_ : simpl nomatch.
#[global] Arguments Z.leb !_ !_ : simpl nomatch.
#[global] Arguments Z.ltb !_ !_ : simpl nomatch.

(* ------------------------------------------------------------------ *)
(** ** Outcomes of C code *)

(** [Ok a]: the code returns [a].  [UB]: the code executes an operation C leaves
    undefined (an access outside its object, signed overflow, a null
    dereference).  [NoFuel]: the bound given to a loop was too small. *)
Inductive res (A : Type) : Type :=
  | Ok (a : A)
  | UB
  | NoFuel.
Arguments Ok {A} a.
Arguments UB {A}.
Arguments NoFuel {A}.

#[export] Instance res_ret : MRet res := fun A a => Ok a.
#[export] Instance res_bind : MBind res := fun A B f m =>
  match m with Ok a => f a | UB => UB | NoFuel => NoFuel end.
#[export] Instance res_fmap : FMap res := fun A B f m =>
  match m with Ok a => Ok (f a) | UB => UB | NoFuel => NoFuel end.

(** State passing over a world [W], with the outcomes of [res]. *)
Definition St (W A : Type) : Type := W -> res (A * W).

#[export] Instance St_ret W : MRet (St W) := fun A a w => Ok (a, w).
#[export] Instance St_bind W : MBind (St W) := fun A B f m w =>
  match m w with
  | Ok (a, w') => f a w'
  | UB => UB
  | NoFuel => NoFuel
  end.

Definition lift {W A} (r : res A) : St W A := fun w =>
  match r with Ok a => Ok (a, w) | UB => UB | NoFuel => NoFuel end.
Definition gets {W A} (f : W -> A) : St W A := fun w => Ok (f w, w).
Definition modify {W} (f : W -> W) : St W unit := fun w => Ok (tt, f w).
Definition skip {W} : St W unit := fun w => Ok (tt, w).
Definition when {W} (b : bool) (m : St W unit) : St W unit := if b then m else skip.

(** How a call is left: it has returned, or it is in a loop that never ends. *)
Inductive control := Returned | Looping.

(** [for (;;) body], followed for [n] rounds. *)
Fixpoint forever {W} (n : nat) (body : St W unit) : St W control :=
  match n with O => mret Looping | S n => _ ← body; forever n body end.

(* ------------------------------------------------------------------ *)
(** ** Machine integers: a w-bit unsigned value is the Z in [0, 2^w) *)

Definition u8 (x : Z) : Z := x mod 2 ^ 8.
Definition u16 (x : Z) : Z := x mod 2 ^ 16.
Definition u32 (x : Z) : Z := x mod 2 ^ 32.
Definition u64 (x : Z) : Z := x mod 2 ^ 64.

#[global] Arguments u8 : simpl never.
#[global] Arguments u16 : simpl never.
#[global] Arguments u32 : simpl never.
#[global] Arguments u64 : simpl never.

Definition is_u8 (x : Z) : Prop := 0 <= x < 2 ^ 8.
Definition is_u16 (x : Z) : Prop := 0 <= x < 2 ^ 16.
Definition is_u32 (x : Z) : Prop := 0 <= x < 2 ^ 32.
Definition is_u64 (x : Z) : Prop := 0 <= x < 2 ^ 64.

(* ------------------------------------------------------------------ *)
(** ** Byte buffers *)

(** A C object of n bytes is the list of its n bytes; a pointer into it is the
    list and an offset.  Reading or writing outside the list is [UB]. *)
Abbreviation bytes := (list Z).

Definition len {A} (b : list A) : Z := Z.of_nat (length b).

Definition rd {A} (b : list A) (i : Z) : res A :=
  if 0 <=? i then
    match b !! Z.to_nat i with Some v => Ok v | None => UB end
  else UB.

(** [n] consecutive elements from offset [o]. *)
Definition load {A} (b : list A) (o n : Z) : res (list A) :=
  if (0 <=? o) && (0 <=? n) && (o + n <=? len b)
  then Ok (take (Z.to_nat n) (drop (Z.to_nat o) b)) else UB.

(** Overwrites the elements from offset [o] with [xs]. *)
Definition store {A} (b : list A) (o : Z) (xs : list A) : res (list A) :=
  if (0 <=? o) && (o + len xs <=? len b)
  then Ok (take (Z.to_nat o) b ++ xs ++ drop (Z.to_nat o + length xs) b) else UB.

Definition wr {A} (b : list A) (i : Z) (v : A) : res (list A) := store b i [v].

(** Little-endian encodings: the three architectures store integers so. *)
Definition le16 (v : Z) : bytes := [u8 v; u8 (Z.shiftr v 8)].
Definition le32 (v : Z) : bytes :=
  [u8 v; u8 (Z.shiftr v 8); u8 (Z.shiftr v 16); u8 (Z.shiftr v 24)].
(** Network order. *)
Definition be16 (v : Z) : bytes := [u8 (Z.shiftr v 8); u8 v].
Definition be32 (v : Z) : bytes :=
  [u8 (Z.shiftr v 24); u8 (Z.shiftr v 16); u8 (Z.shiftr v 8); u8 v].

(** Aligned or packed struct field accesses of the host. *)
Definition ld16 (b : bytes) (o : Z) : res Z :=
  b0 ← rd b o; b1 ← rd b (o + 1); mret (b0 + b1 * 2 ^ 8).
Definition ld32 (b : bytes) (o : Z) : res Z :=
  b0 ← rd b o; b1 ← rd b (o + 1); b2 ← rd b (o + 2); b3 ← rd b (o + 3);
  mret (b0 + b1 * 2 ^ 8 + b2 * 2 ^ 16 + b3 * 2 ^ 24).
Definition st8 (b : bytes) (o v : Z) : res bytes := store b o [u8 v].
Definition st16 (b : bytes) (o v : Z) : res bytes := store b o (le16 v).
Definition st32 (b : bytes) (o v : Z) : res bytes := store b o (le32 v).

Definition is_bytes (b : bytes) : Prop := Forall is_u8 b.

(** Runs [f] for i = 0, 1, ..., n-1 (a C [for] loop with a fixed bound). *)
Definition for_n {M : Type -> Type} `{MRet M} `{MBind M} {A}
    (n : nat) (f : nat -> A -> M A) (a : A) : M A :=
  foldl (fun m i => m ≫= f i) (mret a) (seq 0 n).

(* ------------------------------------------------------------------ *)
(** ** Console output and string literals *)

(** The characters of a string literal (no terminating NUL). *)
Definition str (s : string) : bytes :=
  (fun a => Z.of_N (Ascii.N_of_ascii a)) <$> String.list_ascii_of_string s.
Definition nl : bytes := [10].

(** What a printing function writes, in order. *)
Abbreviation out := (res bytes).
Definition puts (s : bytes) : out := Ok s.
Definition seq_out (p q : out) : out := a ← p; b ← q; mret (a ++ b).

Declare Scope out_scope.
Delimit Scope out_scope with out.
Infix "+++" := seq_out (at level 60, right associativity) : out_scope.

(* ------------------------------------------------------------------ *)
(** ** Lemmas on integers and bits *)

Ltac zdm := Z.div_mod_to_equations; lia.
Ltac unfold_ints :=
  unfold u8, u16, u32, u64, is_u8, is_u16, is_u32, is_u64 in *.

Lemma u8_range x : is_u8 (u8 x).
Proof. unfold is_u8, u8. apply Z.mod_pos_bound. lia. Qed.
Lemma u16_range x : is_u16 (u16 x).
Proof. unfold is_u16, u16. apply Z.mod_pos_bound. lia. Qed.
Lemma u32_range x : is_u32 (u32 x).
Proof. unfold is_u32, u32. apply Z.mod_pos_bound. lia. Qed.
Lemma u64_range x : is_u64 (u64 x).
Proof. unfold is_u64, u64. apply Z.mod_pos_bound. lia. Qed.

Lemma u8_id x : is_u8 x -> u8 x = x.
Proof. apply Z.mod_small. Qed.
Lemma u16_id x : is_u16 x -> u16 x = x.
Proof. apply Z.mod_small. Qed.
Lemma u32_id x : is_u32 x -> u32 x = x.
Proof. apply Z.mod_small. Qed.
Lemma u64_id x : is_u64 x -> u64 x = x.
Proof. apply Z.mod_small. Qed.

(** A field placed above [k] low bits is added to them. *)
Lemma lor_shiftl_add a b k :
  0 <= k -> 0 <= b < 2 ^ k -> Z.lor (Z.shiftl a k) b = a * 2 ^ k + b.
Proof.
  intros Hk Hb. rewrite <- Z.shiftl_mul_pow2 by lia.
  symmetry. apply Z.add_nocarry_lxor || idtac.
  rewrite <- Z.lxor_lor; [apply Z.add_nocarry_lxor |].
  all: apply Z.bits_inj'; intros i Hi; rewrite Z.land_spec, Z.bits_0.
  all: destruct (Z.lt_ge_cases i k) as [Hlt|Hge];
    [rewrite Z.shiftl_spec_low by lia; reflexivity|].
  all: replace b with (b mod 2 ^ k) by (apply Z.mod_small; lia);
    rewrite Z.mod_pow2_bits_high by lia; apply andb_false_r.
Qed.

Lemma lor_add_shiftl a b k :
  0 <= k -> 0 <= b < 2 ^ k -> Z.lor b (Z.shiftl a k) = a * 2 ^ k + b.
Proof. intros. rewrite Z.lor_comm. by apply lor_shiftl_add. Qed.

Lemma land_255 x : Z.land x 255 = u8 x.
Proof. apply (Z.land_ones x 8). lia. Qed.
Lemma land_ffff x : Z.land x 65535 = u16 x.
Proof. apply (Z.land_ones x 16). lia. Qed.
Lemma land_ffffffff x : Z.land x 4294967295 = u32 x.
Proof. apply (Z.land_ones x 32). lia. Qed.

Lemma u8_le x : is_u8 x -> x <= 255.
Proof. unfold is_u8. lia. Qed.

(** [u16] and friends absorb an inner truncation to a wider or equal width. *)
Lemma u8_u16 x : u8 (u16 x) = u8 x.
Proof. unfold u8, u16. change (2 ^ 16) with (2 ^ 8 * 2 ^ 8). zdm. Qed.
Lemma u8_u32 x : u8 (u32 x) = u8 x.
Proof. unfold u8, u32. zdm. Qed.

(* ------------------------------------------------------------------ *)
(** ** Lemmas on buffers *)

Lemma len_nonneg {A} (b : list A) : 0 <= len b.
Proof. unfold len. lia. Qed.
Lemma len_nil {A} : len (@nil A) = 0.
Proof. done. Qed.
Lemma len_cons {A} (x : A) b : len (x :: b) = 1 + len b.
Proof. unfold len. cbn [length]. lia. Qed.
Lemma len_app {A} (a b : list A) : len (a ++ b) = len a + len b.
Proof. unfold len. rewrite length_app. lia. Qed.
Create Rewrite HintDb len.
#[export] Hint Rewrite @len_nil @len_cons @len_app : len.
Ltac len_simpl := autorewrite with len in *.
(** Arithmetic on buffer lengths. *)
Ltac llia := unfold len in *; lia.

Lemma len_to_nat {A} (b : list A) : Z.to_nat (len b) = length b.
Proof. unfold len. lia. Qed.

Lemma rd_lookup {A} (b : list A) i v :
  rd b i = Ok v <-> 0 <= i /\ b !! Z.to_nat i = Some v.
Proof.
  unfold rd. destruct (Z.leb_spec 0 i); [|split; [done|lia]].
  destruct (b !! Z.to_nat i); split; intros; destruct_and?; simplify_eq; eauto.
Qed.

Lemma rd_in_range {A} (b : list A) i :
  0 <= i < len b -> exists v, rd b i = Ok v /\ b !! Z.to_nat i = Some v.
Proof.
  unfold len. intros Hi.
  destruct (lookup_lt_is_Some_2 b (Z.to_nat i)) as [v Hv]; [lia|].
  exists v. split; [|done]. apply rd_lookup. split; [lia|done].
Qed.

Lemma rd_app_l {A} (a b : list A) i : 0 <= i < len a -> rd (a ++ b) i = rd a i.
Proof.
  unfold len, rd. intros Hi. destruct (Z.leb_spec 0 i); [|lia].
  by rewrite lookup_app_l by lia.
Qed.
Lemma rd_app_r {A} (a b : list A) i :
  len a <= i -> rd (a ++ b) i = rd b (i - len a).
Proof.
  unfold len, rd. intros Hi.
  destruct (Z.leb_spec 0 i); [|lia].
  destruct (Z.leb_spec 0 (i - Z.of_nat (length a))); [|lia].
  rewrite lookup_app_r by lia.
  by replace (Z.to_nat i - length a)%nat with (Z.to_nat (i - Z.of_nat (length a))) by lia.
Qed.

(** Reading element [k] of a middle part. *)
Lemma rd_mid {A} (h m t : list A) o k :
  o = len h -> 0 <= k < len m -> rd (h ++ m ++ t) (o + k) = rd m k.
Proof.
  intros -> Hk. rewrite rd_app_r by llia.
  rewrite rd_app_l by llia. f_equal. llia.
Qed.

Lemma load_ok {A} (h m t : list A) : load (h ++ m ++ t) (len h) (len m) = Ok m.
Proof.
  unfold load.
  pose proof (len_nonneg h). pose proof (len_nonneg m). pose proof (len_nonneg t).
  rewrite !len_app.
  destruct (Z.leb_spec 0 (len h)); [|lia].
  destruct (Z.leb_spec 0 (len m)); [|lia].
  destruct (Z.leb_spec (len h + len m) (len h + (len m + len t))); [|lia].
  cbn [andb]. f_equal. rewrite !len_to_nat.
  rewrite drop_app_length. apply take_app_length.
Qed.

Lemma load_inv {A} (b : list A) o n xs :
  load b o n = Ok xs ->
  len xs = n /\ exists h t, b = h ++ xs ++ t /\ len h = o.
Proof.
  unfold load. intros H.
  destruct (Z.leb_spec 0 o); [|done].
  destruct (Z.leb_spec 0 n); [|done].
  destruct (Z.leb_spec (o + n) (len b)); [|done].
  cbn [andb] in H. injection H as <-. unfold len in *.
  split; [rewrite length_take, length_drop; lia|].
  exists (take (Z.to_nat o) b), (drop (Z.to_nat n) (drop (Z.to_nat o) b)).
  rewrite take_drop, take_drop. split; [done|]. rewrite length_take. lia.
Qed.

Lemma load_len {A} (b : list A) o n f : load b o n = Ok f -> len f = n.
Proof. by intros [? _]%load_inv. Qed.

Lemma store_ok {A} (h m t xs : list A) :
  len xs = len m -> store (h ++ m ++ t) (len h) xs = Ok (h ++ xs ++ t).
Proof.
  intros Hl. unfold store.
  pose proof (len_nonneg h). pose proof (len_nonneg m). pose proof (len_nonneg t).
  rewrite !len_app.
  destruct (Z.leb_spec 0 (len h)); [|lia].
  destruct (Z.leb_spec (len h + len xs) (len h + (len m + len t))); [|lia].
  cbn [andb]. rewrite len_to_nat.
  rewrite take_app_length. do 3 f_equal.
  rewrite drop_app_add. unfold len in Hl.
  replace (length xs) with (length m) by lia. apply drop_app_length.
Qed.

Lemma store_inv {A} (b : list A) o xs b' :
  store b o xs = Ok b' ->
  exists h m t, b = h ++ m ++ t /\ len h = o /\ len m = len xs /\ b' = h ++ xs ++ t.
Proof.
  unfold store. intros H.
  destruct (Z.leb_spec 0 o); [|done].
  destruct (Z.leb_spec (o + len xs) (len b)); [|done].
  cbn [andb] in H. injection H as <-. unfold len in *.
  exists (take (Z.to_nat o) b), (take (length xs) (drop (Z.to_nat o) b)),
    (drop (length xs) (drop (Z.to_nat o) b)).
  rewrite take_drop, take_drop. split_and!; [done| | |].
  - rewrite length_take. lia.
  - rewrite length_take, length_drop. lia.
  - by rewrite drop_drop.
Qed.

Lemma store_in_range {A} (b : list A) o xs :
  0 <= o -> o + len xs <= len b -> exists b', store b o xs = Ok b'.
Proof.
  intros Ho Hl. unfold store.
  destruct (Z.leb_spec 0 o); [|lia].
  destruct (Z.leb_spec (o + len xs) (len b)); [|lia]. eauto.
Qed.

Lemma store_out_of_range {A} (b : list A) o xs :
  len b < o + len xs -> store b o xs = UB.
Proof.
  intros Hl. unfold store.
  destruct (Z.leb_spec (o + len xs) (len b)); [lia|].
  by rewrite andb_false_r.
Qed.

Lemma store_len {A} (b : list A) o xs b' : store b o xs = Ok b' -> len b' = len b.
Proof.
  intros (h & m & t & -> & _ & Hm & ->)%store_inv. rewrite !len_app. lia.
Qed.

(** Splits a buffer around the [n] elements from offset [o]. *)
Lemma split_at {A} (b : list A) o n :
  0 <= o -> 0 <= n -> o + n <= len b ->
  exists h m t, b = h ++ m ++ t /\ len h = o /\ len m = n.
Proof.
  unfold len. intros Ho Hn Hl.
  exists (take (Z.to_nat o) b), (take (Z.to_nat n) (drop (Z.to_nat o) b)),
    (drop (Z.to_nat n) (drop (Z.to_nat o) b)).
  rewrite take_drop, take_drop.
  rewrite !length_take, length_drop. split; [done|]. lia.
Qed.

(** Accesses inside the middle part of a buffer only see that part. *)
Lemma store_mid {A} (h m t xs : list A) o k :
  o = len h -> 0 <= k -> k + len xs <= len m ->
  store (h ++ m ++ t) (o + k) xs = (m' ← store m k xs; Ok (h ++ m' ++ t)).
Proof.
  intros -> Hk Hx.
  destruct (split_at m k (len xs)) as (a & x & c & -> & Ha & Hxl);
    [lia|apply len_nonneg|lia|].
  rewrite <- Ha, store_ok by lia. cbn.
  replace (h ++ (a ++ x ++ c) ++ t) with ((h ++ a) ++ x ++ (c ++ t))
    by (by rewrite <- !app_assoc).
  rewrite <- len_app, store_ok by lia. by rewrite <- !app_assoc.
Qed.

Lemma load_mid {A} (h m t : list A) o k n :
  o = len h -> 0 <= k -> 0 <= n -> k + n <= len m ->
  load (h ++ m ++ t) (o + k) n = load m k n.
Proof.
  intros -> Hk Hn Hx.
  destruct (split_at m k n) as (a & x & c & -> & Ha & Hxl); [lia..|].
  rewrite <- Ha, <- Hxl, load_ok.
  replace (h ++ (a ++ x ++ c) ++ t) with ((h ++ a) ++ x ++ (c ++ t))
    by (by rewrite <- !app_assoc).
  by rewrite <- len_app, load_ok.
Qed.

Lemma wr_insert {A} (l : list A) i v : 0 <= i < len l -> wr l i v = Ok (<[Z.to_nat i := v]> l).
Proof.
  intros Hi. unfold wr, store. change (len [v]) with 1.
  destruct (Z.leb_spec 0 i); [|lia]. destruct (Z.leb_spec (i + 1) (len l)); [|lia].
  cbn [andb]. f_equal. rewrite insert_take_drop by llia. cbn [app length]. do 3 f_equal. lia.
Qed.

Lemma rd_ok {A} (l : list A) i v : 0 <= i -> l !! Z.to_nat i = Some v -> rd l i = Ok v.
Proof. intros. by apply rd_lookup. Qed.

Lemma is_bytes_rd b i v : is_bytes b -> rd b i = Ok v -> is_u8 v.
Proof.
  intros Hb [_ Hv]%rd_lookup. unfold is_bytes in Hb.
  rewrite Forall_lookup in Hb. eauto.
Qed.

Lemma is_bytes_app a b : is_bytes (a ++ b) <-> is_bytes a /\ is_bytes b.
Proof. apply Forall_app. Qed.

Lemma le16_len v : len (le16 v) = 2.
Proof. done. Qed.
Lemma le32_len v : len (le32 v) = 4.
Proof. done. Qed.
Lemma be16_len v : len (be16 v) = 2.
Proof. done. Qed.
Lemma be32_len v : len (be32 v) = 4.
Proof. done. Qed.
#[export] Hint Rewrite le16_len le32_len be16_len be32_len : len.

Lemma is_bytes_be16 v : is_bytes (be16 v).
Proof. repeat constructor; apply u8_range || apply u8_range. Qed.
Lemma is_bytes_be32 v : is_bytes (be32 v).
Proof. repeat constructor; apply u8_range. Qed.
Lemma is_bytes_le16 v : is_bytes (le16 v).
Proof. repeat constructor; apply u8_range. Qed.
Lemma is_bytes_le32 v : is_bytes (le32 v).
Proof. repeat constructor; apply u8_range. Qed.

Lemma is_bytes_nil : is_bytes [].
Proof. constructor. Qed.
Lemma is_bytes_cons x b : is_u8 x -> is_bytes b -> is_bytes (x :: b).
Proof. by constructor. Qed.

(** Literals, by computation. *)
Lemma is_bytes_str_check (s : bytes) : forallb (fun c => (0 <=? c) && (c <? 256)) s = true ->
  is_bytes s.
Proof.
  intros Hs. apply Forall_forall. intros c Hc.
  rewrite forallb_forall in Hs. specialize (Hs c (proj1 (list_elem_of_In _ _) Hc)).
  unfold is_u8. lia.
Qed.

(** Buffers assembled from encoded fields consist of bytes. *)
Ltac solve_bytes :=
  repeat match goal with
    | H : is_bytes ?x |- is_bytes ?x => exact H
    | H : Forall is_u8 ?x |- is_bytes ?x => exact H
    | |- is_bytes (_ ++ _) => apply is_bytes_app; split
    | |- is_bytes (be16 _) => apply is_bytes_be16
    | |- is_bytes (be32 _) => apply is_bytes_be32
    | |- is_bytes (le16 _) => apply is_bytes_le16
    | |- is_bytes (le32 _) => apply is_bytes_le32
    | |- is_bytes [] => apply is_bytes_nil
    | |- is_bytes (_ :: _) => apply is_bytes_cons
    | |- is_u8 (u8 _) => apply u8_range
    | |- is_u8 _ => first [assumption | unfold is_u8 in *; lia]
    end.

(** Two adjacent stores are one store. *)
Lemma store_seq {A} (b : list A) o xs ys k :
  k = o + len xs ->
  (b' ← store b o xs; store b' k ys) = store b o (xs ++ ys).
Proof.
  intros ->.
  destruct (Z.ltb_spec o 0) as [Ho|Ho].
  { unfold store. destruct (Z.leb_spec 0 o); [lia|reflexivity]. }
  destruct (Z.leb_spec (o + (len xs + len ys)) (len b)) as [Hl|Hl].
  - destruct (split_at b o (len xs)) as (h & x & r & -> & <- & Hx); [llia..|].
    rewrite !len_app in Hl.
    destruct (split_at r 0 (len ys)) as (e & y & t & -> & He & Hy); [llia..|].
    destruct e; [|unfold len in He; cbn in He; lia]. cbn [app].
    rewrite store_ok by lia. cbn [mbind res_bind].
    rewrite (app_assoc h xs), <- len_app, store_ok by lia.
    rewrite (app_assoc x y t), store_ok by (rewrite !len_app; lia).
    by rewrite <- !app_assoc.
  - rewrite (store_out_of_range b o (xs ++ ys)) by (rewrite len_app; lia).
    destruct (store b o xs) as [b'| |] eqn:E; [|done|].
    + apply store_len in E. cbn [mbind res_bind]. apply store_out_of_range. lia.
    + unfold store in E. by case_match.
Qed.

Lemma wr_seq {A} (b : list A) o xs v k :
  k = o + len xs -> (b' ← store b o xs; wr b' k v) = store b o (xs ++ [v]).
Proof. apply store_seq. Qed.

Lemma store_not_nofuel {A} (b : list A) o xs : store b o xs <> NoFuel.
Proof. unfold store. by case_match. Qed.

Lemma res_bind_assoc {A B C} (m : res A) (f : A -> res B) (g : B -> res C) :
  ((m ≫= f) ≫= g) = (m ≫= fun a => f a ≫= g).
Proof. by destruct m. Qed.
Lemma res_bind_ok {A} (m : res A) : (m ≫= Ok) = m.
Proof. by destruct m. Qed.

Lemma res_bind_inv {A B} (r : res A) (f : A -> res B) b :
  (r ≫= f) = Ok b -> exists a, r = Ok a /\ f a = Ok b.
Proof. destruct r as [a| |]; [|done..]. intros H. by exists a. Qed.

(** Inverts the successful steps of a computation in a hypothesis. *)
Ltac bind_inv H :=
  repeat match type of H with
    | (_ ≫= _) = Ok _ =>
        let a := fresh "a" in let E := fresh "E" in
        apply res_bind_inv in H as (a & E & H)
    end.

(** Rewriting under the continuation of a bind. *)
#[export] Instance res_bind_proper A B :
  Proper (pointwise_relation A (=) ==> (=) ==> (=)) (@mbind res res_bind A B).
Proof. intros f g Hfg m ? <-. destruct m; cbn; [apply Hfg|done..]. Qed.

Lemma store_seq_bind {A B} (b : list A) o xs ys k (f : list A -> res B) :
  k = o + len xs ->
  (b' ← store b o xs; b'' ← store b' k ys; f b'') = (b' ← store b o (xs ++ ys); f b').
Proof. intros Hk. rewrite <- (store_seq b o xs ys k Hk). apply eq_sym, res_bind_assoc. Qed.

(** Overwrites part of what was just stored. *)
Lemma store_ok' {A} (h m t xs : list A) o :
  o = len h -> len xs = len m -> store (h ++ m ++ t) o xs = Ok (h ++ xs ++ t).
Proof. intros ->. apply store_ok. Qed.

(** Equations between lengths of concatenated fields. *)
Ltac solve_len := autorewrite with len; lia.

(** Joins consecutive stores of a header under construction. *)
Ltac merge_stores :=
  unfold wr, st8, st16, st32 in *;
  repeat first
    [ rewrite store_seq_bind by solve_len
    | rewrite store_seq by solve_len ];
  cbn [app].

(* ------------------------------------------------------------------ *)
(** ** Laws of state passing, at a state *)

Lemma St_bind_assoc {W A B C} (m : St W A) (f : A -> St W B) (g : B -> St W C) w :
  ((m ≫= f) ≫= g) w = (m ≫= fun a => f a ≫= g) w.
Proof. unfold mbind, St_bind. by destruct (m w) as [[a w']| |]. Qed.

Lemma St_bind_ret {W A} (m : St W A) w : (m ≫= fun a => mret a) w = m w.
Proof. unfold mbind, St_bind, mret, St_ret. by destruct (m w) as [[a w']| |]. Qed.

Lemma St_bind_ok {W A B} (m : St W A) (f : A -> St W B) w a w' :
  m w = Ok (a, w') -> (m ≫= f) w = f a w'.
Proof. intros Hm. unfold mbind, St_bind. by rewrite Hm. Qed.

(** Continuations that agree on what the first computation can return. *)
Lemma St_bind_ext {W A B} (m : St W A) (f g : A -> St W B) w :
  (forall a w', m w = Ok (a, w') -> f a w' = g a w') -> (m ≫= f) w = (m ≫= g) w.
Proof.
  intros Hfg. unfold mbind, St_bind. destruct (m w) as [[a w']| |]; [|done..]. by apply Hfg.
Qed.

Lemma St_bind_eq_l {W A B} (m m' : St W A) (f : A -> St W B) w :
  m w = m' w -> (m ≫= f) w = (m' ≫= f) w.
Proof. intros E. unfold mbind, St_bind. by rewrite E. Qed.

Lemma St_bind_move {W A B} (m m' : St W A) (f : A -> St W B) w w' :
  m w = m' w' -> (m ≫= f) w = (m' ≫= f) w'.
Proof. intros E. unfold mbind, St_bind. by rewrite E. Qed.

Lemma forever_loops {W} n (body : St W unit) : forall w,
  forever n body w = (_ ← forever n body; mret Looping) w.
Proof.
  induction n as [|n IH]; intros w; [done|]. cbn [forever]. rewrite St_bind_assoc.
  apply St_bind_ext. intros _ w1 _. apply IH.
Qed.

Lemma St_bind_inv {W A B} (m : St W A) (f : A -> St W B) w b w2 :
  (m ≫= f) w = Ok (b, w2) -> exists a w1, m w = Ok (a, w1) /\ f a w1 = Ok (b, w2).
Proof.
  unfold mbind, St_bind. destruct (m w) as [[a w1]| |] eqn:E; [|done..]. intros Hf.
  by exists a, w1.
Qed.

(** A bounded loop over state passing, as a recursion over its indices. *)
Fixpoint iter_list {W A I} (f : I -> A -> St W A) (l : list I) (a : A) : St W A :=
  match l with [] => mret a | i :: l => a ← f i a; iter_list f l a end.

Lemma foldl_iter {W A I} (f : I -> A -> St W A) l : forall (m : St W A) w,
  foldl (fun m i => m ≫= f i) m l w = (m ≫= iter_list f l) w.
Proof.
  induction l as [|i l IH]; intros m w; cbn [foldl iter_list].
  - symmetry. apply St_bind_ret.
  - rewrite IH, St_bind_assoc. done.
Qed.

Lemma for_n_iter {W A} n (f : nat -> A -> St W A) a w :
  for_n n f a w = iter_list f (seq 0 n) a w.
Proof. unfold for_n. by rewrite foldl_iter. Qed.

Lemma iter_list_app {W A I} (f : I -> A -> St W A) l1 : forall l2 a w,
  iter_list f (l1 ++ l2) a w = (a ← iter_list f l1 a; iter_list f l2 a) w.
Proof.
  induction l1 as [|i l1 IH]; intros l2 a w; [done|]. cbn [app iter_list].
  rewrite St_bind_assoc. apply St_bind_ext. intros a' w' _. apply IH.
Qed.

Lemma iter_list_fmap {W A I J} (f : I -> A -> St W A) (g : J -> I) l : forall a w,
  iter_list f (g <$> l) a w = iter_list (fun j => f (g j)) l a w.
Proof.
  induction l as [|j l IH]; intros a w; [done|]. cbn [fmap list_fmap iter_list].
  apply St_bind_ext. intros a' w' _. apply IH.
Qed.

Lemma lift_ok {W A} (r : res A) a (w : W) : r = Ok a -> lift r w = Ok (a, w).
Proof. by intros ->. Qed.

(* ------------------------------------------------------------------ *)
(** ** Prints and loops that complete *)

(** A bounded loop whose steps succeed succeeds. *)
Lemma for_n_ok {A} (n : nat) (f : nat -> A -> res A) (a : A) :
  (forall i a, (i < n)%nat -> exists a', f i a = Ok a') -> exists a', for_n n f a = Ok a'.
Proof.
  unfold for_n. induction n as [|n IH]; intros Hf; [by eexists|].
  rewrite seq_S, foldl_snoc. destruct IH as [a1 ->]; [intros; apply Hf; lia|].
  cbn [mbind res_bind]. apply Hf. lia.
Qed.

Lemma seq_out_safe (p q : out) :
  (exists x, p = Ok x) -> (exists y, q = Ok y) -> exists z, (p +++ q)%out = Ok z.
Proof. intros [x ->] [y ->]. by eexists. Qed.

Lemma puts_safe s : exists x, puts s = Ok x.
Proof. by eexists. Qed.

Create HintDb outs.
#[export] Hint Resolve puts_safe : outs.
(** Sequences of prints none of whose reads leaves its object. *)
Ltac solve_out :=
  repeat match goal with
    | |- exists z, seq_out _ _ = Ok z => apply seq_out_safe
    | |- exists z, puts _ = Ok z => by eexists
    end; eauto with outs.

Lemma rd_safe {A} (b : list A) i (f : A -> out) :
  0 <= i < len b -> (forall v, exists x, f v = Ok x) -> exists x, (v ← rd b i; f v) = Ok x.
Proof. intros (v & -> & _)%rd_in_range Hf. apply Hf. Qed.

Lemma seq_out_puts a b : (puts a +++ puts b)%out = puts (a ++ b).
Proof. done. Qed.

Lemma for_n_ext {A} (n : nat) (f g : nat -> A -> res A) (a : A) :
  (forall i a, (i < n)%nat -> f i a = g i a) -> for_n n f a = for_n n g a.
Proof.
  unfold for_n. induction n as [|n IH]; intros Hf; [done|].
  rewrite !seq_S, !foldl_snoc, IH by (intros; apply Hf; lia).
  destruct (foldl (fun m i => m ≫= g i) (mret a) (seq 0 n)); cbn; [apply Hf; lia|done..].
Qed.
