(* ===== verification/ByteOrder.v ===== *)
(** Byte order (common/byteorder.h, common/byteorder.c): the three inline
    assembly implementations of htonl/htons, the public wrappers, and the
    byte-wise accessors for unaligned data. *)

From S2P Require Export Prelude.

Open Scope Z_scope.

(** The three supported architectures; all are little-endian hosts. *)
Inductive arch_t := RISCV | ARM64 | AMD64.
Class Arch := the_arch : arch_t.

#[export] Instance arch_eq_dec : EqDecision arch_t.
Proof. solve_decision. Defined.

(* ------------------------------------------------------------------ *)
(** ** Instructions *)

(** A 32-bit result sign-extended into a 64-bit register (RV64 "W" forms). *)
Definition sext32 (x : Z) : Z :=
  if Z.testbit x 31 then u32 x + (2 ^ 64 - 2 ^ 32) else u32 x.
Definition srliw (x n : Z) : Z := sext32 (Z.shiftr (u32 x) n).
Definition slliw (x n : Z) : Z := sext32 (u32 (Z.shiftl (u32 x) n)).
Definition slli (x n : Z) : Z := u64 (Z.shiftl x n).
Definition srli (x n : Z) : Z := Z.shiftr x n.
Definition andi (x m : Z) : Z := Z.land x m.

(** REV (32-bit), BSWAP: the four bytes of the operand reversed. *)
Definition bswap32 (x : Z) : Z :=
  u8 x * 2 ^ 24 + u8 (Z.shiftr x 8) * 2 ^ 16 + u8 (Z.shiftr x 16) * 2 ^ 8
  + u8 (Z.shiftr x 24).
(** The two low bytes exchanged (XCHG of the two byte halves of a register). *)
Definition bswap16 (x : Z) : Z := u8 x * 2 ^ 8 + u8 (Z.shiftr x 8).
(** REV16: the bytes of each 16-bit half exchanged. *)
Definition rev16 (x : Z) : Z :=
  bswap16 (Z.shiftr x 16) * 2 ^ 16 + bswap16 x.

(* ------------------------------------------------------------------ *)
(** ** The C functions *)

Definition htonl_riscv (x : Z) : Z :=
  let t0 := srliw x 24 in
  let t1 := slliw x 24 in
  let t0 := Z.lor t0 t1 in
  let t1 := srliw x 16 in
  let t1 := andi t1 0xff in
  let t1 := slli t1 8 in
  let t0 := Z.lor t0 t1 in
  let t1 := srliw x 8 in
  let t1 := andi t1 0xff in
  let t1 := slli t1 16 in
  let r := Z.lor t0 t1 in
  let r := slli r 32 in
  srli r 32.

Definition htons_riscv (x : Z) : Z :=
  let t0 := andi x 0xff in
  let t0 := slli t0 8 in
  let t1 := srli x 8 in
  let t1 := andi t1 0xff in
  Z.lor t0 t1.

Definition ntohl_riscv (x : Z) : Z := htonl_riscv x.
Definition ntohs_riscv (x : Z) : Z := htons_riscv x.

Definition htonl_arm64 (x : Z) : Z := bswap32 x.
Definition htons_arm64 (x : Z) : Z := u16 (rev16 x).
Definition ntohl_arm64 (x : Z) : Z := htonl_arm64 x.
Definition ntohs_arm64 (x : Z) : Z := htons_arm64 x.

Definition htonl_amd64 (x : Z) : Z := bswap32 x.
Definition htons_amd64 (x : Z) : Z := bswap16 x.
Definition ntohl_amd64 (x : Z) : Z := htonl_amd64 x.
Definition ntohs_amd64 (x : Z) : Z := htons_amd64 x.

Definition htonl `{Arch} (x : Z) : Z :=
  match the_arch with
  | RISCV => htonl_riscv x | ARM64 => htonl_arm64 x | AMD64 => htonl_amd64 x end.
Definition htons `{Arch} (x : Z) : Z :=
  match the_arch with
  | RISCV => htons_riscv x | ARM64 => htons_arm64 x | AMD64 => htons_amd64 x end.
Definition ntohl `{Arch} (x : Z) : Z :=
  match the_arch with
  | RISCV => ntohl_riscv x | ARM64 => ntohl_arm64 x | AMD64 => ntohl_amd64 x end.
Definition ntohs `{Arch} (x : Z) : Z :=
  match the_arch with
  | RISCV => ntohs_riscv x | ARM64 => ntohs_arm64 x | AMD64 => ntohs_amd64 x end.

(** Byte-wise accessors: [b] is the object, [o] the offset of the pointer. *)
Definition ntohl_unaligned (b : bytes) (o : Z) : res Z :=
  b0 ← rd b o; b1 ← rd b (o + 1); b2 ← rd b (o + 2); b3 ← rd b (o + 3);
  mret (Z.lor (Z.lor (Z.lor (Z.shiftl b0 24) (Z.shiftl b1 16)) (Z.shiftl b2 8)) b3).

Definition htonl_unaligned (b : bytes) (o : Z) : res Z := ntohl_unaligned b o.

Definition write_htonl_unaligned (b : bytes) (o value : Z) : res bytes :=
  b ← wr b o (Z.land (Z.shiftr value 24) 0xFF);
  b ← wr b (o + 1) (Z.land (Z.shiftr value 16) 0xFF);
  b ← wr b (o + 2) (Z.land (Z.shiftr value 8) 0xFF);
  wr b (o + 3) (Z.land value 0xFF).

Definition write_ntohl_unaligned (b : bytes) (o value : Z) : res bytes :=
  write_htonl_unaligned b o value.

Definition ntohs_unaligned (b : bytes) (o : Z) : res Z :=
  b0 ← rd b o; b1 ← rd b (o + 1); mret (Z.lor (Z.shiftl b0 8) b1).

Definition htons_unaligned (b : bytes) (o : Z) : res Z := ntohs_unaligned b o.

Definition write_htons_unaligned (b : bytes) (o value : Z) : res bytes :=
  b ← wr b o (Z.land (Z.shiftr value 8) 0xFF);
  wr b (o + 1) (Z.land value 0xFF).

Definition write_ntohs_unaligned (b : bytes) (o value : Z) : res bytes :=
  write_htons_unaligned b o value.

(* ------------------------------------------------------------------ *)
(** ** Lemmas *)


(** A 32-bit (16-bit) value from its bytes, least significant first. *)
Definition of_le4 (b0 b1 b2 b3 : Z) : Z := b0 + b1 * 2 ^ 8 + b2 * 2 ^ 16 + b3 * 2 ^ 24.
Definition of_le2 (b0 b1 : Z) : Z := b0 + b1 * 2 ^ 8.

Section bytes_of.
  Context (b0 b1 b2 b3 : Z).
  Context (H0 : is_u8 b0) (H1 : is_u8 b1) (H2 : is_u8 b2) (H3 : is_u8 b3).

Lemma of_le4_range : is_u32 (of_le4 b0 b1 b2 b3).
  Proof using H0 H1 H2 H3. unfold_ints. unfold of_le4. lia. Qed.
Lemma of_le4_0 : u8 (of_le4 b0 b1 b2 b3) = b0.
  Proof using H0 H1 H2 H3. unfold_ints. unfold of_le4. zdm. Qed.
Lemma of_le4_1 : u8 (Z.shiftr (of_le4 b0 b1 b2 b3) 8) = b1.
  Proof using H0 H1 H2 H3.
    unfold_ints. unfold of_le4. rewrite Z.shiftr_div_pow2 by lia. zdm.
  Qed.
Lemma of_le4_2 : u8 (Z.shiftr (of_le4 b0 b1 b2 b3) 16) = b2.
  Proof using H0 H1 H2 H3.
    unfold_ints. unfold of_le4. rewrite Z.shiftr_div_pow2 by lia. zdm.
  Qed.
Lemma of_le4_3 : u8 (Z.shiftr (of_le4 b0 b1 b2 b3) 24) = b3.
  Proof using H0 H1 H2 H3.
    unfold_ints. unfold of_le4. rewrite Z.shiftr_div_pow2 by lia. zdm.
  Qed.
End bytes_of.

Section halves_of.
  Context (b0 b1 : Z) (H0 : is_u8 b0) (H1 : is_u8 b1).

Lemma of_le2_range : is_u16 (of_le2 b0 b1).
  Proof using H0 H1. unfold_ints. unfold of_le2. lia. Qed.
Lemma of_le2_0 : u8 (of_le2 b0 b1) = b0.
  Proof using H0 H1. unfold_ints. unfold of_le2. zdm. Qed.
Lemma of_le2_1 : u8 (Z.shiftr (of_le2 b0 b1) 8) = b1.
  Proof using H0 H1.
    unfold_ints. unfold of_le2. rewrite Z.shiftr_div_pow2 by lia. zdm.
  Qed.
End halves_of.

Lemma to_le4 x : is_u32 x -> exists b0 b1 b2 b3,
  x = of_le4 b0 b1 b2 b3 /\ is_u8 b0 /\ is_u8 b1 /\ is_u8 b2 /\ is_u8 b3.
Proof.
  intros Hx.
  exists (u8 x), (u8 (Z.shiftr x 8)), (u8 (Z.shiftr x 16)), (u8 (Z.shiftr x 24)).
  split; [|by split_and!; apply u8_range].
  rewrite !Z.shiftr_div_pow2 by lia. unfold_ints. unfold of_le4. zdm.
Qed.

Lemma to_le2 x : is_u16 x -> exists b0 b1, x = of_le2 b0 b1 /\ is_u8 b0 /\ is_u8 b1.
Proof.
  intros Hx. exists (u8 x), (u8 (Z.shiftr x 8)).
  split; [|by split; apply u8_range].
  rewrite !Z.shiftr_div_pow2 by lia. unfold_ints. unfold of_le2. zdm.
Qed.

Create Rewrite HintDb byteorder.
#[export] Hint Rewrite of_le4_0 of_le4_1 of_le4_2 of_le4_3 of_le2_0 of_le2_1
  using assumption : byteorder.

Lemma bswap32_of_le4 b0 b1 b2 b3 :
  is_u8 b0 -> is_u8 b1 -> is_u8 b2 -> is_u8 b3 ->
  bswap32 (of_le4 b0 b1 b2 b3) = of_le4 b3 b2 b1 b0.
Proof.
  intros. unfold bswap32. autorewrite with byteorder. unfold of_le4. lia.
Qed.
Lemma bswap16_of_le2 b0 b1 :
  is_u8 b0 -> is_u8 b1 -> bswap16 (of_le2 b0 b1) = of_le2 b1 b0.
Proof.
  intros. unfold bswap16. autorewrite with byteorder. unfold of_le2. lia.
Qed.

Lemma bswap16_range x : is_u16 (bswap16 x).
Proof.
  unfold bswap16. pose proof (u8_range x). pose proof (u8_range (Z.shiftr x 8)).
  unfold is_u8, is_u16 in *. lia.
Qed.
Lemma bswap32_range x : is_u32 (bswap32 x).
Proof.
  unfold bswap32. pose proof (u8_range x). pose proof (u8_range (Z.shiftr x 8)).
  pose proof (u8_range (Z.shiftr x 16)). pose proof (u8_range (Z.shiftr x 24)).
  unfold is_u8, is_u32 in *. lia.
Qed.

Lemma bswap16_invol x : is_u16 x -> bswap16 (bswap16 x) = x.
Proof. intros (b0 & b1 & -> & ? & ?)%to_le2. by rewrite !bswap16_of_le2. Qed.
Lemma bswap32_invol x : is_u32 x -> bswap32 (bswap32 x) = x.
Proof.
  intros (b0 & b1 & b2 & b3 & -> & ? & ? & ? & ?)%to_le4.
  by rewrite !bswap32_of_le4.
Qed.

Lemma le16_bswap16 x : is_u16 x -> le16 (bswap16 x) = be16 x.
Proof.
  intros (b0 & b1 & -> & ? & ?)%to_le2. rewrite bswap16_of_le2 by done.
  unfold le16, be16. by autorewrite with byteorder.
Qed.
Lemma le32_bswap32 x : is_u32 x -> le32 (bswap32 x) = be32 x.
Proof.
  intros (b0 & b1 & b2 & b3 & -> & ? & ? & ? & ?)%to_le4.
  rewrite bswap32_of_le4 by done. unfold le32, be32. by autorewrite with byteorder.
Qed.

(** The assembly sequences compute the byte reversal. *)
Lemma sext32_lo8 x : 0 <= x < 2 ^ 8 -> sext32 x = x.
Proof.
  intros. unfold sext32.
  replace (Z.testbit x 31) with false; [apply u32_id; unfold is_u32; lia|].
  symmetry. rewrite Z.testbit_false by lia. rewrite Z.div_small by lia. done.
Qed.

Lemma u8_sext32 x : u8 (sext32 x) = u8 x.
Proof.
  unfold sext32. destruct (Z.testbit x 31); [|apply u8_u32].
  rewrite <- (u8_u32 x). unfold u8.
  replace (2 ^ 64 - 2 ^ 32) with ((2 ^ 56 - 2 ^ 24) * 2 ^ 8) by lia.
  by rewrite Z.mod_add by lia.
Qed.

Lemma u32_sext32 x : u32 (sext32 x) = u32 x.
Proof.
  unfold sext32, u32. destruct (Z.testbit x 31); [|by rewrite Z.mod_mod by lia].
  replace (2 ^ 64 - 2 ^ 32) with ((2 ^ 32 - 1) * 2 ^ 32) by lia.
  rewrite Z.mod_add by lia. by rewrite Z.mod_mod by lia.
Qed.

Lemma slli_srli_32 x : 0 <= x -> srli (slli x 32) 32 = u32 x.
Proof.
  intros. unfold slli, srli, u64, u32.
  rewrite Z.shiftl_mul_pow2, Z.shiftr_div_pow2 by lia.
  replace (2 ^ 64) with (2 ^ 32 * 2 ^ 32) by lia.
  rewrite Z.mul_mod_distr_r by lia. by rewrite Z.div_mul by lia.
Qed.

Lemma u32_lor x y : u32 (Z.lor x y) = Z.lor (u32 x) (u32 y).
Proof.
  unfold u32. rewrite <- !Z.land_ones by lia. apply Z.land_lor_distr_l.
Qed.

(** Big-endian combination by shifts and ors. *)
Lemma lor_be4 b0 b1 b2 b3 : is_u8 b0 -> is_u8 b1 -> is_u8 b2 -> is_u8 b3 ->
  Z.lor (Z.shiftl b0 24) (Z.lor (Z.shiftl b1 16) (Z.lor (Z.shiftl b2 8) b3))
  = of_le4 b3 b2 b1 b0.
Proof.
  unfold is_u8, of_le4. intros.
  rewrite (lor_shiftl_add b2 b3 8) by lia.
  rewrite (lor_shiftl_add b1 _ 16) by lia.
  rewrite (lor_shiftl_add b0 _ 24) by lia. lia.
Qed.

Lemma lor_be2 b0 b1 : is_u8 b1 -> Z.lor (Z.shiftl b0 8) b1 = of_le2 b1 b0.
Proof. unfold is_u8, of_le2. intros. rewrite lor_shiftl_add by lia. lia. Qed.

Lemma andi_ff_u8 x : andi x 255 = u8 x.
Proof. apply land_255. Qed.

Lemma u32_slli_byte b n :
  is_u8 b -> 0 <= n <= 24 -> u32 (slli b n) = Z.shiftl b n.
Proof.
  unfold is_u8, slli, u32, u64. intros Hb Hn.
  rewrite Z.shiftl_mul_pow2 by lia.
  assert (0 <= b * 2 ^ n < 2 ^ 32).
  { assert (2 ^ n <= 2 ^ 24) by (apply Z.pow_le_mono_r; lia).
    assert (0 < 2 ^ n) by (apply Z.pow_pos_nonneg; lia). nia. }
  rewrite (Z.mod_small _ (2 ^ 64)) by lia. by rewrite Z.mod_small by lia.
Qed.

Lemma htonl_riscv_bswap x : is_u32 x -> htonl_riscv x = bswap32 x.
Proof.
  intros Hx. unfold htonl_riscv. rewrite slli_srli_32.
  2:{ rewrite !Z.lor_nonneg. unfold srliw, slliw, slli, u64, sext32.
      pose proof (u32_range (Z.shiftr (u32 x) 24)).
      pose proof (u32_range (u32 (Z.shiftl (u32 x) 24))). unfold is_u32 in *.
      split_and!; try apply Z.mod_pos_bound; repeat case_match; lia. }
  rewrite !andi_ff_u8. unfold srliw, slliw. rewrite !u8_sext32, !(u32_id x) by done.
  rewrite !u32_lor, !u32_sext32.
  destruct (to_le4 x Hx) as (b0 & b1 & b2 & b3 & -> & ? & ? & ? & ?).
  rewrite of_le4_1, of_le4_2, !u32_slli_byte, bswap32_of_le4 by (done || lia).
  replace (u32 (Z.shiftr (of_le4 b0 b1 b2 b3) 24)) with b3.
  2:{ rewrite <- (of_le4_3 b0 b1 b2 b3) at 1 by done. unfold_ints. unfold of_le4.
      rewrite Z.shiftr_div_pow2 by lia. zdm. }
  replace (u32 (u32 (Z.shiftl (of_le4 b0 b1 b2 b3) 24))) with (Z.shiftl b0 24).
  2:{ rewrite (u32_id (u32 _)) by apply u32_range. unfold_ints. unfold of_le4.
      rewrite !Z.shiftl_mul_pow2 by lia. zdm. }
  rewrite <- (lor_be4 b0 b1 b2 b3) by done.
  apply Z.bits_inj'. intros i _. rewrite !Z.lor_spec.
  destruct (Z.testbit b3 i), (Z.testbit (Z.shiftl b0 24) i),
    (Z.testbit (Z.shiftl b1 16) i), (Z.testbit (Z.shiftl b2 8) i); done.
Qed.

Lemma htons_riscv_bswap x : is_u16 x -> htons_riscv x = bswap16 x.
Proof.
  intros (b0 & b1 & -> & ? & ?)%to_le2. unfold htons_riscv, slli, srli.
  rewrite !andi_ff_u8, bswap16_of_le2 by done. autorewrite with byteorder.
  rewrite <- lor_be2 by done. f_equal. unfold_ints.
  rewrite Z.shiftl_mul_pow2 by lia. apply Z.mod_small. lia.
Qed.

Lemma htons_arm64_bswap x : htons_arm64 x = bswap16 x.
Proof.
  unfold htons_arm64, rev16, u16. rewrite Z.add_comm, Z.mod_add by lia.
  apply u16_id, bswap16_range.
Qed.

Section public_api.
  Context `{Arch}.

Lemma htonl_swap x : is_u32 x -> htonl x = bswap32 x.
  Proof using. unfold htonl. intros. case_match; [by apply htonl_riscv_bswap|done..]. Qed.
Lemma ntohl_swap x : is_u32 x -> ntohl x = bswap32 x.
  Proof using. apply htonl_swap. Qed.
Lemma htons_swap x : is_u16 x -> htons x = bswap16 x.
  Proof using.
    unfold htons. intros.
    case_match; [by apply htons_riscv_bswap|apply htons_arm64_bswap|done].
  Qed.
Lemma ntohs_swap x : is_u16 x -> ntohs x = bswap16 x.
  Proof using. apply htons_swap. Qed.

Lemma le16_htons x : is_u16 x -> le16 (htons x) = be16 x.
  Proof using. intros. rewrite htons_swap by done. by apply le16_bswap16. Qed.
Lemma le32_htonl x : is_u32 x -> le32 (htonl x) = be32 x.
  Proof using. intros. rewrite htonl_swap by done. by apply le32_bswap32. Qed.
End public_api.

(** The byte-wise writers store network order; the byte-wise readers read it. *)
Lemma write_htons_unaligned_be b o v : write_htons_unaligned b o v = store b o (be16 v).
Proof.
  unfold write_htons_unaligned, be16, wr. rewrite !land_255.
  by rewrite store_seq.
Qed.

Lemma write_htonl_unaligned_be b o v : write_htonl_unaligned b o v = store b o (be32 v).
Proof.
  unfold write_htonl_unaligned, be32, wr. rewrite !land_255.
  rewrite <- !res_bind_assoc. rewrite !store_seq by (done || cbn; lia). done.
Qed.

Lemma ntohs_unaligned_mid h b0 b1 t o :
  o = len h -> is_u8 b1 -> ntohs_unaligned (h ++ [b0; b1] ++ t) o = Ok (of_le2 b1 b0).
Proof.
  intros -> ?. unfold ntohs_unaligned.
  rewrite <- (Z.add_0_r (len h)) at 1. rewrite !rd_mid by (done || cbn; lia).
  change (rd [b0; b1] 0) with (Ok b0). change (rd [b0; b1] 1) with (Ok b1).
  cbn [mbind res_bind]. by rewrite lor_be2.
Qed.

Lemma ntohl_unaligned_mid h b0 b1 b2 b3 t o :
  o = len h -> is_u8 b0 -> is_u8 b1 -> is_u8 b2 -> is_u8 b3 ->
  ntohl_unaligned (h ++ [b0; b1; b2; b3] ++ t) o = Ok (of_le4 b3 b2 b1 b0).
Proof.
  intros -> ? ? ? ?. unfold ntohl_unaligned.
  rewrite <- (Z.add_0_r (len h)) at 1. rewrite !rd_mid by (done || cbn; lia).
  change (rd [b0; b1; b2; b3] 0) with (Ok b0).
  change (rd [b0; b1; b2; b3] 1) with (Ok b1).
  change (rd [b0; b1; b2; b3] 2) with (Ok b2).
  change (rd [b0; b1; b2; b3] 3) with (Ok b3).
  cbn [mbind res_bind]. rewrite <- lor_be4 by done. by rewrite !Z.lor_assoc.
Qed.

Lemma be16_of_le2 b0 b1 : is_u8 b0 -> is_u8 b1 -> be16 (of_le2 b1 b0) = [b0; b1].
Proof. intros. unfold be16. by autorewrite with byteorder. Qed.
Lemma be32_of_le4 b0 b1 b2 b3 : is_u8 b0 -> is_u8 b1 -> is_u8 b2 -> is_u8 b3 ->
  be32 (of_le4 b3 b2 b1 b0) = [b0; b1; b2; b3].
Proof. intros. unfold be32. by autorewrite with byteorder. Qed.

Lemma ntohs_be16 h v t o :
  o = len h -> is_u16 v -> ntohs_unaligned (h ++ be16 v ++ t) o = Ok v.
Proof.
  intros Ho (b0 & b1 & -> & ? & ?)%to_le2. rewrite be16_of_le2 by done.
  by apply ntohs_unaligned_mid.
Qed.

Lemma ntohl_be32 h v t o :
  o = len h -> is_u32 v -> ntohl_unaligned (h ++ be32 v ++ t) o = Ok v.
Proof.
  intros Ho (b0 & b1 & b2 & b3 & -> & ? & ? & ? & ?)%to_le4.
  rewrite be32_of_le4 by done. by apply ntohl_unaligned_mid.
Qed.

(** The aligned field read followed by ntohs is the byte-wise read. *)
Lemma ntohs_ld16 `{Arch} b o : is_bytes b ->
  (x ← ld16 b o; mret (ntohs x)) = ntohs_unaligned b o.
Proof.
  intros Hb. unfold ld16, ntohs_unaligned.
  destruct (rd b o) as [b0| |] eqn:E0; [|done..].
  destruct (rd b (o + 1)) as [b1| |] eqn:E1; [|done..]. cbn [mbind mret res_bind res_ret].
  assert (is_u8 b0) by eauto using is_bytes_rd.
  assert (is_u8 b1) by eauto using is_bytes_rd.
  change (b0 + b1 * 2 ^ 8) with (of_le2 b0 b1).
  by rewrite ntohs_swap, bswap16_of_le2, lor_be2 by eauto using of_le2_range.
Qed.

Lemma ntohl_ld32 `{Arch} b o : is_bytes b ->
  (x ← ld32 b o; mret (ntohl x)) = ntohl_unaligned b o.
Proof.
  intros Hb. unfold ld32, ntohl_unaligned.
  destruct (rd b o) as [b0| |] eqn:E0; [|done..].
  destruct (rd b (o + 1)) as [b1| |] eqn:E1; [|done..].
  destruct (rd b (o + 2)) as [b2| |] eqn:E2; [|done..].
  destruct (rd b (o + 3)) as [b3| |] eqn:E3; [|done..]. cbn [mbind mret res_bind res_ret].
  assert (is_u8 b0) by eauto using is_bytes_rd.
  assert (is_u8 b1) by eauto using is_bytes_rd.
  assert (is_u8 b2) by eauto using is_bytes_rd.
  assert (is_u8 b3) by eauto using is_bytes_rd.
  change (b0 + b1 * 2 ^ 8 + b2 * 2 ^ 16 + b3 * 2 ^ 24) with (of_le4 b0 b1 b2 b3).
  rewrite ntohl_swap by eauto using of_le4_range.
  rewrite bswap32_of_le4, <- lor_be4 by done. by rewrite !Z.lor_assoc.
Qed.

(** Reads inside an object succeed. *)
Lemma ntohs_ok b o : 0 <= o -> o + 2 <= len b -> exists v, ntohs_unaligned b o = Ok v.
Proof.
  intros Ho Hl. unfold ntohs_unaligned.
  destruct (rd_in_range b o) as (b0 & -> & _); [lia|].
  destruct (rd_in_range b (o + 1)) as (b1 & -> & _); [lia|]. by eexists.
Qed.

Lemma ntohl_ok b o : 0 <= o -> o + 4 <= len b -> exists v, ntohl_unaligned b o = Ok v.
Proof.
  intros Ho Hl. unfold ntohl_unaligned.
  destruct (rd_in_range b o) as (b0 & -> & _); [lia|].
  destruct (rd_in_range b (o + 1)) as (b1 & -> & _); [lia|].
  destruct (rd_in_range b (o + 2)) as (b2 & -> & _); [lia|].
  destruct (rd_in_range b (o + 3)) as (b3 & -> & _); [lia|]. by eexists.
Qed.

Lemma ld32_ok b o : 0 <= o -> o + 4 <= len b -> exists v, ld32 b o = Ok v.
Proof.
  intros Ho Hl. unfold ld32.
  destruct (rd_in_range b o) as (b0 & -> & _); [lia|].
  destruct (rd_in_range b (o + 1)) as (b1 & -> & _); [lia|].
  destruct (rd_in_range b (o + 2)) as (b2 & -> & _); [lia|].
  destruct (rd_in_range b (o + 3)) as (b3 & -> & _); [lia|]. by eexists.
Qed.

Lemma ld32_range b o v : is_bytes b -> ld32 b o = Ok v -> is_u32 v.
Proof.
  intros Hb H. unfold ld32 in H. bind_inv H. injection H as <-.
  assert (is_u8 a /\ is_u8 a0 /\ is_u8 a1 /\ is_u8 a2) as (? & ? & ? & ?)
    by (split_and!; eauto using is_bytes_rd).
  unfold is_u8, is_u32 in *. lia.
Qed.

(* ------------------------------------------------------------------ *)
(** ** Properties *)

(** C18: On every architecture the inline assembly and the byte-wise accessors
    agree: storing htonl(v) as a host word is write_htonl_unaligned, reading a
    host word and applying ntohl is ntohl_unaligned, and likewise for 16 bits. *)
Theorem byteorder_agree `{Arch} (b : bytes) (o v w : Z) :
  is_bytes b -> is_u32 v -> is_u16 w ->
  st32 b o (htonl v) = write_htonl_unaligned b o v /\
  st16 b o (htons w) = write_htons_unaligned b o w /\
  (x ← ld32 b o; mret (ntohl x)) = ntohl_unaligned b o /\
  (x ← ld16 b o; mret (ntohs x)) = ntohs_unaligned b o.
Proof.
  intros Hb Hv Hw. split_and!.
  - unfold st32. by rewrite le32_htonl, write_htonl_unaligned_be.
  - unfold st16. by rewrite le16_htons, write_htons_unaligned_be.
  - by apply ntohl_ld32.
  - by apply ntohs_ld16.
Qed.

(** What the byte-wise writers write, the byte-wise readers read back. *)
Theorem unaligned_roundtrip (b b' : bytes) (o v : Z) :
  (is_u32 v -> write_htonl_unaligned b o v = Ok b' -> ntohl_unaligned b' o = Ok v) /\
  (is_u16 v -> write_htons_unaligned b o v = Ok b' -> ntohs_unaligned b' o = Ok v).
Proof.
  split.
  - rewrite write_htonl_unaligned_be.
    intros Hv (h & m & t & -> & <- & _ & ->)%store_inv. by apply ntohl_be32.
  - rewrite write_htons_unaligned_be.
    intros Hv (h & m & t & -> & <- & _ & ->)%store_inv. by apply ntohs_be16.
Qed.

Theorem byteorder_agree_witness :
  let b := [0xDE; 0xAD; 0xBE; 0xEF] in
  is_bytes b /\
  (let _ : Arch := RISCV in
   st32 b 0 (htonl 0x01020304) = write_htonl_unaligned b 0 0x01020304 /\
   st16 b 1 (htons 0x0506) = write_htons_unaligned b 1 0x0506 /\
   (x ← ld32 b 0; mret (ntohl x)) = ntohl_unaligned b 0).
Proof.
  assert (Hb : is_bytes [0xDE; 0xAD; 0xBE; 0xEF]) by (repeat constructor; lia).
  split; [exact Hb|]. intros a.
  destruct (@byteorder_agree a _ 0 0x01020304 0x0506 Hb) as (H1 & _ & H3 & _); [unfold is_u32; lia|unfold is_u16; lia|].
  destruct (@byteorder_agree a _ 1 0x01020304 0x0506 Hb) as (_ & H2 & _ & _); [unfold is_u32; lia|unfold is_u16; lia|].
  exact (conj H1 (conj H2 H3)).
Defined.

Theorem unaligned_roundtrip_witness :
  write_htonl_unaligned [9; 9; 9; 9; 9; 9] 1 0x0A00020F = Ok [9; 10; 0; 2; 15; 9] /\
  ntohl_unaligned [9; 10; 0; 2; 15; 9] 1 = Ok 0x0A00020F /\
  ntohs_unaligned [9; 9; 31; 144; 9] 2 = Ok 8080.
Proof.
  split; [vm_compute; reflexivity|]. split.
  - apply (unaligned_roundtrip [9; 9; 9; 9; 9; 9]); [unfold is_u32; lia|vm_compute; reflexivity].
  - apply (unaligned_roundtrip [9; 9; 0; 0; 9]); [unfold is_u16; lia|vm_compute; reflexivity].
Defined.
