(* ===== verification/CStr.v ===== *)
(** The freestanding C library of the kernel (common/common.c): memory and
    string functions and hexadecimal output.

    A [const char *] is represented by the characters from the pointer to the
    terminating NUL, which is implicit at the end of the list: [deref s] is
    [*s], [ch s i] is [s[i]] and [drop] advances the pointer.  The callers
    only index at or before the NUL (see [strncmp_prefix]).  Strings inside a
    raw memory (the device tree) are read through [memory]. *)

From S2P Require Export Prelude.

Open Scope Z_scope.

Abbreviation cstr := (list Z).

Definition deref (s : cstr) : Z := match s with [] => 0 | c :: _ => c end.
Definition ch (s : cstr) (i : nat) : Z := default 0 (s !! i).

Fixpoint memset (buf : bytes) (p c : Z) (n : nat) : res bytes :=
  match n with
  | O => Ok buf
  | S n => buf ← wr buf p (u8 c); memset buf (p + 1) c n
  end.

Fixpoint memcpy (dst : bytes) (d : Z) (src : bytes) (s : Z) (n : nat) : res bytes :=
  match n with
  | O => Ok dst
  | S n => v ← rd src s; dst ← wr dst d v; memcpy dst (d + 1) src (s + 1) n
  end.

Fixpoint strlen (s : cstr) : nat :=
  match s with
  | [] => 0
  | c :: s => if c =? 0 then 0 else S (strlen s)
  end.

Fixpoint strcmp (s1 s2 : cstr) {struct s1} : Z :=
  match s1 with
  | [] => 0 - deref s2
  | c :: t1 =>
      if negb (c =? 0) && (c =? deref s2)
      then strcmp t1 (tail s2) else c - deref s2
  end.

Fixpoint strncmp (s1 s2 : cstr) (n : nat) : Z :=
  match n with
  | O => 0
  | S n =>
      if negb (deref s1 =? 0) && (deref s1 =? deref s2)
      then strncmp (tail s1) (tail s2) n
      else deref s1 - deref s2
  end.

(** Byte-addressed memory: [None] is an address no object covers. *)
Definition memory : Type := Z -> option Z.
Definition ldb (mem : memory) (a : Z) : res Z :=
  match mem a with Some v => Ok v | None => UB end.

(** strcmp with its first argument in [mem] and a literal second argument. *)
Fixpoint strcmp_mem (mem : memory) (a : Z) (s2 : cstr) : res Z :=
  c ← ldb mem a;
  match s2 with
  | [] => Ok c
  | x :: s2 =>
      if negb (c =? 0) && (c =? x) then strcmp_mem mem (a + 1) s2 else Ok (c - x)
  end.

(** The characters of the string at [a]; [fuel] bounds its length. *)
Fixpoint cstr_at (mem : memory) (a : Z) (fuel : nat) : res cstr :=
  match fuel with
  | O => NoFuel
  | S fuel =>
      c ← ldb mem a;
      if c =? 0 then Ok [] else s ← cstr_at mem (a + 1) fuel; Ok (c :: s)
  end.

Definition hex_chars : cstr := str "0123456789abcdef".
Definition putchar (c : Z) : bytes := [u8 c].
Definition hex_digit (value sh : Z) : bytes :=
  putchar (ch hex_chars (Z.to_nat (Z.land (Z.shiftr value sh) 0xF))).

Definition put_hex8 (value : Z) : bytes := hex_digit value 4 ++ hex_digit value 0.
Definition put_hex16 (value : Z) : bytes :=
  hex_digit value 12 ++ hex_digit value 8 ++ hex_digit value 4 ++ hex_digit value 0.
Definition put_hex32 (value : Z) : bytes :=
  hex_digit value 28 ++ hex_digit value 24 ++ hex_digit value 20 ++ hex_digit value 16
  ++ hex_digit value 12 ++ hex_digit value 8 ++ hex_digit value 4 ++ hex_digit value 0.
Definition put_hex64 (value : Z) : bytes :=
  put_hex32 (u32 (Z.shiftr value 32)) ++ put_hex32 (u32 (Z.land value 0xFFFFFFFF)).

(** A character string with no NUL inside. *)
Definition no_nul (s : cstr) : Prop := Forall (fun c => c <> 0) s.
(** The NUL-terminated string [s] is at [a]. *)
Fixpoint string_at (mem : memory) (a : Z) (s : cstr) : Prop :=
  match s with
  | [] => mem a = Some 0
  | c :: s => mem a = Some c /\ c <> 0 /\ string_at mem (a + 1) s
  end.

(** The value a lower-case hexadecimal string denotes. *)
Definition hex_value (c : Z) : Z := if c <? 97 then c - 48 else c - 97 + 10.
Definition parse_hex (s : bytes) : Z := foldl (fun acc c => acc * 16 + hex_value c) 0 s.

(* ------------------------------------------------------------------ *)
(** ** Lemmas *)

Lemma memset_store n : forall buf p c,
  0 <= p -> memset buf p c n = store buf p (replicate n (u8 c)) \/ n = O.
Proof.
  induction n as [|n IH]; intros buf p c Hp; [by right|left].
  cbn [memset replicate]. unfold wr.
  change (u8 c :: replicate n (u8 c)) with ([u8 c] ++ replicate n (u8 c)).
  rewrite <- (store_seq buf p [u8 c] (replicate n (u8 c)) (p + 1)) by done.
  destruct (store buf p [u8 c]) as [b| |] eqn:E; [|done..]. cbn.
  destruct (IH b (p + 1) c) as [->| ->]; [lia|done|].
  cbn. apply store_inv in E as (h & m & t & _ & Hh & Hm & ->).
  cbn in Hm. symmetry.
  replace (h ++ [u8 c] ++ t) with ((h ++ [u8 c]) ++ [] ++ t) by (by rewrite <- app_assoc).
  replace (p + 1) with (len (h ++ [u8 c])) by (rewrite len_app, len_cons, len_nil; lia).
  by rewrite store_ok.
Qed.

(** A copy inside both objects stores what it loads. *)
Lemma memcpy_store n : forall dst d src o xs,
  load src o (Z.of_nat n) = Ok xs -> 0 <= d -> d + Z.of_nat n <= len dst ->
  memcpy dst d src o n = store dst d xs.
Proof.
  induction n as [|n IH]; intros dst d src o xs Hs Hd Hl.
  - apply load_inv in Hs as [Hx _]. destruct xs; [|unfold len in Hx; cbn in Hx; lia]. cbn.
    destruct (split_at dst d 0) as (h & m & t & -> & <- & Hm); [lia..|].
    destruct m; [|unfold len in Hm; cbn in Hm; lia]. by rewrite (store_ok h [] t []).
  - apply load_inv in Hs as (Hx & h & t & -> & <-).
    destruct xs as [|x xs]; [unfold len in Hx; cbn in Hx; lia|]. rewrite len_cons in Hx.
    cbn [memcpy].
    assert (rd (h ++ (x :: xs) ++ t) (len h) = Ok x) as ->.
    { replace (len h) with (len h + 0) by lia.
      rewrite (rd_mid h (x :: xs) t (len h) 0) by
        (rewrite ?len_cons; pose proof (len_nonneg xs); lia). done. }
    cbn [mbind res_bind].
    change (x :: xs) with ([x] ++ xs). rewrite <- (store_seq dst d [x] xs (d + 1)) by done.
    unfold wr. destruct (store dst d [x]) as [b| |] eqn:E; [|done..].
    cbn [mbind res_bind]. apply IH; [|lia|apply store_len in E; lia].
    replace (len h + 1) with (len (h ++ [x])) by (rewrite len_app, len_cons, len_nil; lia).
    replace (h ++ ([x] ++ xs) ++ t) with ((h ++ [x]) ++ xs ++ t) by (by rewrite <- !app_assoc).
    replace (Z.of_nat n) with (len xs) by lia. apply load_ok.
Qed.

(** A copy past the end of the destination. *)
Lemma memcpy_overrun n : forall dst d src o xs,
  load src o (Z.of_nat n) = Ok xs -> 0 <= d <= len dst -> len dst < d + Z.of_nat n ->
  memcpy dst d src o n = UB.
Proof.
  induction n as [|n IH]; intros dst d src o xs Hs Hd Hl; [lia|]. cbn [memcpy].
  apply load_inv in Hs as (Hx & h & t & -> & <-). destruct xs as [|x xs]; [unfold len in Hx; cbn in Hx; lia|].
  rewrite len_cons in Hx.
  assert (rd (h ++ (x :: xs) ++ t) (len h) = Ok x) as ->.
  { rewrite rd_app_r by lia. by rewrite Z.sub_diag. }
  cbn [mbind res_bind]. unfold wr. destruct (store dst d [x]) as [dst'| |] eqn:E; cbn [mbind res_bind];
    [|done|by apply store_not_nofuel in E].
  pose proof (store_len _ _ _ _ E) as Hlen. apply store_inv in E as (a & m & c & -> & <- & Hm & _).
  rewrite !len_app, len_cons, len_nil in *. pose proof (len_nonneg c).
  apply (IH _ _ _ _ xs); [|lia..].
  replace (h ++ (x :: xs) ++ t) with ((h ++ [x]) ++ xs ++ t) by (by rewrite <- app_assoc).
  replace (len h + 1) with (len (h ++ [x])) by (by rewrite len_app).
  replace (Z.of_nat n) with (len xs) by lia. apply load_ok.
Qed.

Lemma strlen_no_nul s : no_nul s -> strlen s = length s.
Proof.
  induction 1 as [|c s Hc _ IH]; cbn; [done|].
  destruct (Z.eqb_spec c 0); [done|]. by rewrite IH.
Qed.

Lemma strcmp_eq s1 : forall s2,
  no_nul s1 -> no_nul s2 -> strcmp s1 s2 = 0 <-> s1 = s2.
Proof.
  induction s1 as [|c s1 IH]; intros s2 H1 H2; cbn [strcmp].
  - destruct s2 as [|d s2]; cbn; [done|]. inversion_clear H2. split; [lia|done].
  - inversion_clear H1 as [|? ? Hc H1'].
    destruct (Z.eqb_spec c 0); [done|].
    destruct s2 as [|d s2]; cbn.
    + destruct (Z.eqb_spec c 0); [done|]. cbn. split; [lia|done].
    + inversion_clear H2 as [|? ? Hd H2']. destruct (Z.eqb_spec c d) as [->|Hne].
      * cbn. rewrite (IH s2) by done. split; [by intros ->|by intros [=]].
      * cbn. split; [lia|by intros [=]].
Qed.

(** strncmp against a whole literal succeeds exactly on its extensions; so
    the callers' s[n] after a match is at or before the NUL. *)
Lemma strncmp_prefix lit : forall s,
  no_nul lit -> no_nul s ->
  strncmp s lit (length lit) = 0 <-> exists t, s = lit ++ t.
Proof.
  induction lit as [|x lit IH]; intros s Hl Hs; cbn [length strncmp].
  { split; [by exists s|done]. }
  inversion_clear Hl as [|? ? Hx Hl'].
  destruct s as [|c s]; cbn.
  { split; [lia|by intros [t [=]]]. }
  inversion_clear Hs as [|? ? Hc Hs'].
  destruct (Z.eqb_spec c 0); [done|].
  destruct (Z.eqb_spec c x) as [->|Hne]; cbn.
  - rewrite IH by done. split; intros [t Ht]; exists t; [by rewrite Ht|by injection Ht].
  - split; [lia|]. intros [t [=]]. done.
Qed.

Lemma strcmp_mem_at mem s2 : forall a s,
  string_at mem a s -> no_nul s2 ->
  exists d, strcmp_mem mem a s2 = Ok d /\ (d = 0 <-> s = s2).
Proof.
  induction s2 as [|x s2 IH]; intros a s Hs H2.
  - cbn [strcmp_mem]. destruct s as [|c s]; cbn in Hs.
    + exists 0. unfold ldb. rewrite Hs. done.
    + destruct Hs as (Ha & Hc & _). exists c. unfold ldb. by rewrite Ha.
  - inversion_clear H2 as [|? ? Hx H2']. cbn [strcmp_mem].
    destruct s as [|c s]; cbn in Hs.
    + exists (0 - x). unfold ldb. rewrite Hs. cbn. split; [done|]. split; [lia|done].
    + destruct Hs as (Ha & Hc & Hs'). unfold ldb. rewrite Ha. cbn.
      destruct (Z.eqb_spec c 0); [done|].
      destruct (Z.eqb_spec c x) as [->|Hne]; cbn.
      * destruct (IH (a + 1) s) as (d & -> & Hd); [done..|].
        exists d. split; [done|]. rewrite Hd. split; [by intros ->|by intros [=]].
      * exists (c - x). split; [done|]. split; [lia|by intros [=]].
Qed.

Lemma cstr_at_string mem s : forall a fuel,
  string_at mem a s -> (length s < fuel)%nat -> cstr_at mem a fuel = Ok s.
Proof.
  induction s as [|c s IH]; intros a [|fuel] Hs Hf; cbn in *; try lia.
  - unfold ldb. by rewrite Hs.
  - destruct Hs as (Ha & Hc & Hs). unfold ldb. rewrite Ha. cbn.
    destruct (Z.eqb_spec c 0); [done|]. by rewrite IH by (done || lia).
Qed.

(** One digit. *)
Lemma hex_digit_spec v sh :
  exists c, hex_digit v sh = [c] /\ hex_value c = Z.shiftr v sh mod 16
            /\ (48 <= c <= 57 \/ 97 <= c <= 102).
Proof.
  unfold hex_digit. change 15 with (Z.ones 4). rewrite Z.land_ones by lia.
  change (2 ^ 4) with 16.
  assert (H : 0 <= Z.shiftr v sh mod 16 < 16) by (apply Z.mod_pos_bound; lia).
  remember (Z.shiftr v sh mod 16) as d. clear Heqd.
  assert (d = 0 \/ d = 1 \/ d = 2 \/ d = 3 \/ d = 4 \/ d = 5 \/ d = 6 \/ d = 7 \/
          d = 8 \/ d = 9 \/ d = 10 \/ d = 11 \/ d = 12 \/ d = 13 \/ d = 14 \/ d = 15)
    as Hd by lia.
  repeat destruct Hd as [->|Hd]; try subst d.
  all: eexists; split; [vm_compute; reflexivity|]; split; [reflexivity|lia].
Qed.

Lemma parse_hex_app a b :
  parse_hex (a ++ b) = parse_hex a * 16 ^ len b + parse_hex b.
Proof.
  unfold parse_hex. rewrite foldl_app.
  generalize (foldl (fun acc c => acc * 16 + hex_value c) 0 a).
  induction b as [|c b IH] using rev_ind; intros acc.
  - cbn. rewrite len_nil. lia.
  - rewrite (foldl_snoc _ acc b c), (foldl_snoc _ 0 b c), (IH acc).
    replace (len (b ++ [c])) with (Z.succ (len b)) by (rewrite len_app, len_cons, len_nil; lia).
    rewrite Z.pow_succ_r by apply len_nonneg. lia.
Qed.

Lemma put_hex32_spec v : is_u32 v ->
  len (put_hex32 v) = 8 /\ parse_hex (put_hex32 v) = v.
Proof.
  intros Hv. unfold put_hex32.
  destruct (hex_digit_spec v 28) as (c7 & -> & H7 & _).
  destruct (hex_digit_spec v 24) as (c6 & -> & H6 & _).
  destruct (hex_digit_spec v 20) as (c5 & -> & H5 & _).
  destruct (hex_digit_spec v 16) as (c4 & -> & H4 & _).
  destruct (hex_digit_spec v 12) as (c3 & -> & H3 & _).
  destruct (hex_digit_spec v 8) as (c2 & -> & H2 & _).
  destruct (hex_digit_spec v 4) as (c1 & -> & H1 & _).
  destruct (hex_digit_spec v 0) as (c0 & -> & H0 & _).
  split; [done|]. cbn [app]. unfold parse_hex. cbn [foldl].
  rewrite H0, H1, H2, H3, H4, H5, H6, H7.
  rewrite !Z.shiftr_div_pow2 by lia. unfold is_u32 in Hv.
  clear -Hv. zdm.
Qed.

Lemma put_hex8_spec v : is_u8 v -> len (put_hex8 v) = 2 /\ parse_hex (put_hex8 v) = v.
Proof.
  intros Hv. unfold put_hex8.
  destruct (hex_digit_spec v 4) as (c1 & -> & H1 & _).
  destruct (hex_digit_spec v 0) as (c0 & -> & H0 & _).
  split; [done|]. cbn [app]. unfold parse_hex. cbn [foldl].
  rewrite H0, H1. rewrite !Z.shiftr_div_pow2 by lia. unfold is_u8 in Hv. clear -Hv. zdm.
Qed.

(** The two halves of a 64-bit value. *)
Lemma put_hex_halves v : is_u64 v ->
  parse_hex (put_hex32 (u32 (Z.shiftr v 32)) ++ put_hex32 (u32 v)) = v.
Proof.
  intros Hv. rewrite parse_hex_app.
  destruct (put_hex32_spec (u32 (Z.shiftr v 32)) (u32_range _)) as [_ ->].
  destruct (put_hex32_spec (u32 v) (u32_range _)) as [-> ->].
  rewrite Z.shiftr_div_pow2 by lia. revert Hv. unfold_ints. intros. zdm.
Qed.
