(* ===== verification/NetUtils.v ===== *)
(** Console output of network values (apps/network/net_utils.h): MAC and IPv4
    addresses and decimal numbers. *)

From S2P Require Export CStr.

Open Scope Z_scope.

(** [for (i = 0; i < 6; i++) { put_hex8(mac[i]); if (i < 5) puts(":"); }] *)
Definition net_print_mac (b : bytes) (o : Z) : out :=
  for_n 6 (fun i acc =>
    m ← rd b (o + Z.of_nat i);
    mret (acc ++ put_hex8 m ++ if (i <? 5)%nat then str ":" else [])) [].

Definition net_print_decimal_u8 (value : Z) : bytes :=
  let value := u8 value in
  if 100 <=? value then
    let v2 := value mod 100 in
    putchar (48 + value / 100) ++ putchar (48 + v2 / 10) ++ putchar (48 + v2 mod 10)
  else if 10 <=? value then
    putchar (48 + value / 10) ++ putchar (48 + value mod 10)
  else putchar (48 + value).

(** [while (value > 0) { buf[i++] = '0' + (value % 10); value /= 10; }] *)
Fixpoint dec_loop (fuel : nat) (buf : bytes) (i value : Z) : res (bytes * Z) :=
  match fuel with
  | O => NoFuel
  | S fuel =>
      if 0 <? value then
        buf ← wr buf i (48 + value mod 10);
        dec_loop fuel buf (i + 1) (value / 10)
      else Ok (buf, i)
  end.

(** [while (i > 0) putchar(buf[--i]);] *)
Fixpoint dec_emit (buf : bytes) (i : nat) : out :=
  match i with
  | O => Ok []
  | S i => c ← rd buf (Z.of_nat i); rest ← dec_emit buf i; Ok (putchar c ++ rest)
  end.

Definition net_print_decimal_u16 (value : Z) : out :=
  let value := u16 value in
  if value =? 0 then Ok (putchar 48)
  else '(buf, i) ← dec_loop 6 (replicate 6 0) 0 value; dec_emit buf (Z.to_nat i).

Definition net_print_decimal_u32 (value : Z) : out :=
  let value := u32 value in
  if value =? 0 then Ok (putchar 48)
  else '(buf, i) ← dec_loop 11 (replicate 12 0) 0 value; dec_emit buf (Z.to_nat i).

Definition net_print_ip (ip : Z) : bytes :=
  net_print_decimal_u8 (Z.land (Z.shiftr ip 24) 0xFF) ++ str "." ++
  net_print_decimal_u8 (Z.land (Z.shiftr ip 16) 0xFF) ++ str "." ++
  net_print_decimal_u8 (Z.land (Z.shiftr ip 8) 0xFF) ++ str "." ++
  net_print_decimal_u8 (Z.land ip 0xFF).

(** [for (int i = 0; i < leftpad; i++) putchar(' ');] *)
Definition pad (leftpad : Z) : bytes := replicate (Z.to_nat leftpad) 32.

(** The value a decimal string denotes. *)
Definition parse_dec (s : bytes) : Z := foldl (fun acc c => acc * 10 + (c - 48)) 0 s.
(** A decimal numeral without leading zeros. *)
Definition is_decimal (s : bytes) : Prop :=
  Forall (fun c => 48 <= c <= 57) s /\ s <> [] /\ (head s = Some 48 -> s = [48]).

(* ------------------------------------------------------------------ *)
(** ** Lemmas *)

(** The digits of [v], least significant first. *)
Fixpoint digits (fuel : nat) (v : Z) : bytes :=
  match fuel with
  | O => []
  | S fuel => if 0 <? v then (48 + v mod 10) :: digits fuel (v / 10) else []
  end.

Lemma digits_range fuel : forall v, Forall (fun c => 48 <= c <= 57) (digits fuel v).
Proof.
  induction fuel as [|fuel IH]; intros v; cbn [digits]; [constructor|].
  case_match; [|constructor]. constructor; [|apply IH].
  pose proof (Z.mod_pos_bound v 10). lia.
Qed.

Lemma digits_bound k : forall fuel v,
  0 <= v < 10 ^ Z.of_nat k -> (length (digits fuel v) <= k)%nat.
Proof.
  induction k as [|k IH]; intros [|fuel] v Hv; cbn [digits length]; try lia.
  - change (10 ^ Z.of_nat 0) with 1 in Hv.
    destruct (Z.ltb_spec 0 v); [lia|cbn; lia].
  - destruct (Z.ltb_spec 0 v); [|cbn; lia]. cbn [length].
    rewrite Nat2Z.inj_succ, Z.pow_succ_r in Hv by lia.
    specialize (IH fuel (v / 10)). enough (length (digits fuel (v / 10)) <= k)%nat by lia.
    apply IH. zdm.
Qed.

Lemma digits_value k : forall fuel v,
  0 <= v < 10 ^ Z.of_nat k -> (k <= fuel)%nat ->
  parse_dec (rev (digits fuel v)) = v.
Proof.
  induction k as [|k IH]; intros [|fuel] v Hv Hf; cbn [digits]; try lia.
  - change (10 ^ Z.of_nat 0) with 1 in Hv. cbn. lia.
  - change (10 ^ Z.of_nat 0) with 1 in Hv.
    destruct (Z.ltb_spec 0 v); [lia|]. cbn. lia.
  - destruct (Z.ltb_spec 0 v); [|cbn; lia].
    rewrite Nat2Z.inj_succ, Z.pow_succ_r in Hv by lia.
    cbn [rev]. unfold parse_dec. rewrite foldl_snoc.
    fold (parse_dec (rev (digits fuel (v / 10)))).
    rewrite IH by (zdm || lia). zdm.
Qed.

Lemma digits_last k : forall fuel v,
  0 < v < 10 ^ Z.of_nat k -> (k <= fuel)%nat ->
  exists c, last (digits fuel v) = Some c /\ c <> 48.
Proof.
  induction k as [|k IH]; intros [|fuel] v Hv Hf; try lia;
    try (change (10 ^ Z.of_nat 0) with 1 in Hv; lia).
  cbn [digits]. destruct (Z.ltb_spec 0 v); [|lia].
  rewrite Nat2Z.inj_succ, Z.pow_succ_r in Hv by lia.
  destruct (Z.eq_dec (v / 10) 0) as [E|E].
  - rewrite E. exists (48 + v mod 10). split; [by destruct fuel|]. zdm.
  - destruct (IH fuel (v / 10)) as (c & Hc & Hne); [zdm|lia|].
    exists c. split; [|done]. by rewrite last_cons, Hc.
Qed.

Lemma dec_loop_spec fuel : forall h t v,
  0 <= v < 10 ^ (Z.of_nat fuel - 1) -> (length (digits fuel v) <= length t)%nat ->
  (0 < fuel)%nat ->
  dec_loop fuel (h ++ t) (len h) v =
  Ok (h ++ digits fuel v ++ drop (length (digits fuel v)) t,
      len h + len (digits fuel v)).
Proof.
  induction fuel as [|fuel IH]; intros h t v Hv Ht Hf; [lia|].
  cbn [dec_loop digits] in *. destruct (Z.ltb_spec 0 v).
  2:{ cbn. rewrite len_nil, Z.add_0_r. done. }
  cbn [length] in Ht. destruct t as [|x t]; [cbn in Ht; lia|].
  unfold wr. change (h ++ x :: t) with (h ++ [x] ++ t).
  rewrite store_ok by done. cbn [mbind res_bind]. rewrite (app_assoc h).
  replace (len h + 1) with (len (h ++ [48 + v mod 10])) by (rewrite len_app; done).
  destruct fuel as [|fuel].
  { exfalso. change (Z.of_nat 1 - 1) with 0 in Hv. change (10 ^ 0) with 1 in Hv. lia. }
  cbn [length] in Ht. rewrite IH; [| |cbn in Ht |-*; lia|lia].
  - rewrite <- app_assoc, !len_app, !len_cons, len_nil. cbn [app length drop].
    do 2 f_equal. lia.
  - replace (Z.of_nat (S (S fuel)) - 1) with (Z.succ (Z.of_nat (S fuel) - 1)) in Hv by lia.
    rewrite Z.pow_succ_r in Hv by lia. zdm.
Qed.

Lemma dec_emit_spec buf : forall n t,
  is_bytes buf -> (n = length buf)%nat -> dec_emit (buf ++ t) n = Ok (rev buf).
Proof.
  induction buf as [|c buf IH] using rev_ind; intros n t Hb ->; [done|].
  rewrite length_app. cbn [length]. rewrite Nat.add_1_r. cbn [dec_emit].
  apply is_bytes_app in Hb as [Hb Hc]. inversion_clear Hc as [|? ? Hc' _].
  rewrite <- app_assoc. change (Z.of_nat (length buf)) with (len buf).
  rewrite rd_app_r by lia. rewrite Z.sub_diag. change (rd ([c] ++ t) 0) with (Ok c).
  cbn [mbind res_bind]. rewrite (IH _ ([c] ++ t)) by done. cbn [mbind res_bind].
  unfold putchar. by rewrite u8_id, rev_app_distr.
Qed.

Lemma is_bytes_digits fuel v : is_bytes (digits fuel v).
Proof.
  eapply Forall_impl; [apply digits_range|]. cbn. unfold is_u8. lia.
Qed.

Lemma is_decimal_digits k fuel v :
  0 < v < 10 ^ Z.of_nat k -> (k <= fuel)%nat -> is_decimal (rev (digits fuel v)).
Proof.
  intros Hv Hf.
  destruct (digits_last k fuel v) as (c & Hc & Hne); [done..|].
  split_and!.
  - apply Forall_rev, digits_range.
  - intros E. apply (f_equal (@rev Z)) in E. rewrite rev_involutive in E.
    by rewrite E in Hc.
  - assert (Hr : rev (digits fuel v) = reverse (digits fuel v)) by apply rev_alt.
    rewrite <- head_reverse, <- Hr in Hc. intros E. congruence.
Qed.

(** A decimal loop over a buffer large enough prints the numeral. *)
Lemma dec_print k fuel n v :
  0 < v < 10 ^ Z.of_nat k -> (k < fuel)%nat -> (k <= n)%nat ->
  exists s, ('(buf, i) ← dec_loop fuel (replicate n 0) 0 v; dec_emit buf (Z.to_nat i)) = Ok s
    /\ parse_dec s = v /\ is_decimal s.
Proof.
  intros Hv Hf Hn. exists (rev (digits fuel v)).
  pose proof (digits_bound k fuel v ltac:(lia)).
  pose proof (dec_loop_spec fuel [] (replicate n 0) v) as Hd. cbn [app] in Hd.
  change (len []) with 0 in Hd. rewrite Hd.
  - cbn [mbind res_bind]. rewrite Z.add_0_l, len_to_nat, dec_emit_spec
      by (done || apply is_bytes_digits).
    split; [done|]. split; [apply (digits_value k); lia|].
    apply (is_decimal_digits k); lia.
  - split; [lia|]. eapply Z.lt_le_trans; [apply Hv|]. apply Z.pow_le_mono_r; lia.
  - rewrite length_replicate. lia.
  - lia.
Qed.

(* ------------------------------------------------------------------ *)
(** ** Properties *)

Lemma decimal_u8 v : is_u8 v ->
  parse_dec (net_print_decimal_u8 v) = v /\ is_decimal (net_print_decimal_u8 v).
Proof.
  intros Hv. unfold net_print_decimal_u8, putchar. rewrite (u8_id v) by done.
  unfold is_u8 in Hv.
  destruct (Z.leb_spec 100 v); [|destruct (Z.leb_spec 10 v)].
  all: rewrite !u8_id by (unfold is_u8; zdm); cbn [app]; unfold parse_dec; cbn [foldl].
  all: split; [zdm|split; [repeat (apply Forall_cons; split; [zdm|]); apply Forall_nil_2
    |split; [done|cbn [head]]]].
  - intros [=]. zdm.
  - intros [=]. zdm.
  - intros [=]. f_equal. lia.
Qed.

Lemma decimal_0 : parse_dec (putchar 48) = 0 /\ is_decimal (putchar 48).
Proof. split; [done|]. split; [repeat constructor; vm_compute; congruence|done]. Qed.

Lemma decimal_u16 v : is_u16 v ->
  exists s, net_print_decimal_u16 v = Ok s /\ parse_dec s = v /\ is_decimal s.
Proof.
  intros Hv. unfold net_print_decimal_u16. rewrite u16_id by done. unfold is_u16 in Hv.
  destruct (Z.eqb_spec v 0) as [->|Hn]; [eauto using decimal_0|]. apply (dec_print 5); lia.
Qed.

Lemma decimal_u32 v : is_u32 v ->
  exists s, net_print_decimal_u32 v = Ok s /\ parse_dec s = v /\ is_decimal s.
Proof.
  intros Hv. unfold net_print_decimal_u32. rewrite u32_id by done. unfold is_u32 in Hv.
  destruct (Z.eqb_spec v 0) as [->|Hn]; [eauto using decimal_0|]. apply (dec_print 10); lia.
Qed.

Lemma decimal_u16_safe v : exists s, net_print_decimal_u16 v = Ok s.
Proof.
  destruct (decimal_u16 (u16 v)) as (s & Hs & _); [apply u16_range|]. exists s.
  unfold net_print_decimal_u16 in *. by rewrite (u16_id (u16 v)) in Hs by apply u16_range.
Qed.
Lemma decimal_u32_safe v : exists s, net_print_decimal_u32 v = Ok s.
Proof.
  destruct (decimal_u32 (u32 v)) as (s & Hs & _); [apply u32_range|]. exists s.
  unfold net_print_decimal_u32 in *. by rewrite (u32_id (u32 v)) in Hs by apply u32_range.
Qed.
#[export] Hint Resolve decimal_u16_safe decimal_u32_safe : outs.

Lemma net_print_mac_safe b o :
  0 <= o -> o + 6 <= len b -> exists s, net_print_mac b o = Ok s.
Proof.
  intros. apply for_n_ok. intros i a Hi.
  destruct (rd_in_range b (o + Z.of_nat i)) as (v & -> & _); [lia|]. by eexists.
Qed.

Lemma net_print_mac_mid h m t o :
  o = len h -> len m = 6 -> net_print_mac (h ++ m ++ t) o = net_print_mac m 0.
Proof.
  intros -> Hm. apply for_n_ext. intros i a Hi. by rewrite rd_mid by (done || lia).
Qed.

(** The decimal printers write the canonical numeral of their argument and stay
    inside their digit buffers: net_print_decimal_u16 in buf[6],
    net_print_decimal_u32 in buf[12], net_print_decimal_u8 without a buffer. *)
Theorem print_decimal_correct (v : Z) :
  (is_u8 v -> parse_dec (net_print_decimal_u8 v) = v
              /\ is_decimal (net_print_decimal_u8 v)) /\
  (is_u16 v -> exists s, net_print_decimal_u16 v = Ok s
              /\ parse_dec s = v /\ is_decimal s) /\
  (is_u32 v -> exists s, net_print_decimal_u32 v = Ok s
              /\ parse_dec s = v /\ is_decimal s).
Proof. split_and!; [apply decimal_u8|apply decimal_u16|apply decimal_u32]. Qed.

Theorem print_decimal_correct_witness :
  net_print_decimal_u32 4294967295 = Ok (str "4294967295") /\
  exists s, net_print_decimal_u32 4294967295 = Ok s /\ parse_dec s = 4294967295 /\ is_decimal s.
Proof.
  split; [vm_compute; reflexivity|].
  apply (print_decimal_correct 4294967295). unfold is_u32; lia.
Defined.
