(* ===== verification/Checksum.v ===== *)
(** The Internet checksum shared by IPv4, ICMP and TCP (apps/network): the
    32-bit sum of the big-endian 16-bit words of the data, its folding to 16
    bits, and RFC 1071's arithmetic that makes a completed checksum verify. *)

From S2P Require Export ByteOrder NetUtils.

Open Scope Z_scope.

(** [for (i = 0; i < n; i++) sum += ntohs(ptr[i]);] over the object at [o]. *)
Definition sum_words `{Arch} (b : bytes) (o : Z) (n : nat) : res Z :=
  for_n n (fun i sum =>
    w ← ld16 b (o + 2 * Z.of_nat i); mret (u32 (sum + ntohs w))) 0.

(** [while (sum >> 16) sum = (sum & 0xFFFF) + (sum >> 16);] *)
Fixpoint fold_loop (fuel : nat) (sum : Z) : res Z :=
  match fuel with
  | O => NoFuel
  | S fuel =>
      if Z.shiftr sum 16 =? 0 then Ok sum
      else fold_loop fuel (u32 (Z.land sum 0xFFFF + Z.shiftr sum 16))
  end.

(** A 32-bit sum needs at most two foldings. *)
Definition fold_fuel : nat := 3.

(* ------------------------------------------------------------------ *)
(** ** Specification *)

(** The sum of the big-endian 16-bit words of [b], an odd last byte being the
    high half of a word whose low half is zero. *)
Fixpoint be_sum (b : bytes) : Z :=
  match b with
  | [] => 0
  | [x] => x * 2 ^ 8
  | x :: y :: t => x * 2 ^ 8 + y + be_sum t
  end.

(** One's complement reduction: the representative of [s] modulo 65535 that is
    zero only for zero. *)
Definition ones (s : Z) : Z := if s =? 0 then 0 else (s - 1) mod 65535 + 1.

(** A receiver accepts data whose one's complement sum is 0xFFFF. *)
Definition sum_valid (s : Z) : Prop := ones s = 65535.

(* ------------------------------------------------------------------ *)
(** ** Lemmas *)

Lemma ones_small s : 0 <= s <= 65535 -> ones s = s.
Proof. unfold ones. intros. destruct (Z.eqb_spec s 0); zdm. Qed.

Lemma ones_range s : 0 <= s -> 0 <= ones s <= 65535.
Proof. unfold ones. intros. destruct (Z.eqb_spec s 0); zdm. Qed.

Lemma ones_fold s : 0 <= s -> ones (s mod 2 ^ 16 + s / 2 ^ 16) = ones s.
Proof.
  unfold ones. intros.
  destruct (Z.eqb_spec s 0) as [->|]; [done|].
  destruct (Z.eqb_spec (s mod 2 ^ 16 + s / 2 ^ 16) 0); [zdm|]. f_equal.
  replace (s - 1) with ((s mod 2 ^ 16 + s / 2 ^ 16 - 1) + (s / 2 ^ 16) * 65535) by zdm.
  by rewrite Z.mod_add.
Qed.

Lemma sum_valid_iff s : 0 <= s -> sum_valid s <-> 0 < s /\ s mod 65535 = 0.
Proof. unfold sum_valid, ones. intros. destruct (Z.eqb_spec s 0); zdm. Qed.

(** Completing a sum with the complement of its reduction makes it valid. *)
Lemma sum_valid_complete s : 0 <= s -> sum_valid (s + (65535 - ones s)).
Proof.
  intros. apply sum_valid_iff; pose proof (ones_range s); [lia|].
  unfold ones in *. destruct (Z.eqb_spec s 0); zdm.
Qed.

Lemma fold_step s : is_u32 s ->
  u32 (Z.land s 0xFFFF + Z.shiftr s 16) = s mod 2 ^ 16 + s / 2 ^ 16.
Proof.
  intros. rewrite (land_ffff s), Z.shiftr_div_pow2 by lia. unfold_ints. zdm.
Qed.

(** Folding a 32-bit sum returns its one's complement reduction. *)
Lemma fold_loop_ones s : is_u32 s -> fold_loop fold_fuel s = Ok (ones s).
Proof.
  intros Hs. assert (Hi : forall x, is_u32 x -> Z.shiftr x 16 = 0 -> Ok x = Ok (ones x)).
  { intros x Hx Hz. rewrite Z.shiftr_div_pow2 in Hz by lia. unfold is_u32 in Hx.
    rewrite ones_small by zdm. done. }
  unfold fold_fuel. cbn [fold_loop].
  destruct (Z.eqb_spec (Z.shiftr s 16) 0) as [E|_]; [by apply Hi|].
  rewrite fold_step by done. rewrite <- ones_fold by (unfold is_u32 in Hs; lia).
  set (s1 := s mod 2 ^ 16 + s / 2 ^ 16).
  assert (H1 : 0 <= s1 <= 131070) by (unfold is_u32 in Hs; subst s1; zdm).
  assert (is_u32 s1) by (unfold is_u32; lia).
  destruct (Z.eqb_spec (Z.shiftr s1 16) 0) as [E|_]; [by apply Hi|].
  rewrite fold_step by done. rewrite <- ones_fold by lia.
  set (s2 := s1 mod 2 ^ 16 + s1 / 2 ^ 16).
  assert (H2 : 0 <= s2 < 65536) by (subst s2; zdm).
  rewrite Z.shiftr_div_pow2 by lia. destruct (Z.eqb_spec (s2 / 2 ^ 16) 0) as [E|E].
  - rewrite ones_small by lia. done.
  - zdm.
Qed.

Lemma be_sum_app a b : Nat.Even (length a) -> be_sum (a ++ b) = be_sum a + be_sum b.
Proof.
  intros [n Hn]. revert a Hn. induction n as [|n IH]; intros a Hn.
  - destruct a; [done|cbn in Hn; lia].
  - destruct a as [|x [|y a]]; cbn [length] in Hn; [lia..|].
    cbn [app be_sum]. rewrite IH by lia. lia.
Qed.

Lemma be_sum_bound b : is_bytes b -> 0 <= be_sum b <= 65535 * ((len b + 1) / 2).
Proof.
  unfold len. remember (length b) as n eqn:Hn. revert b Hn.
  induction n as [n IH] using lt_wf_ind. intros b -> Hb.
  destruct b as [|x [|y b]]; [cbn [be_sum length]; zdm| |].
  - inversion_clear Hb. unfold is_u8 in *. cbn [be_sum length]. zdm.
  - inversion_clear Hb as [|? ? Hx Hb']. inversion_clear Hb' as [|? ? Hy Hb].
    cbn [length be_sum] in *. specialize (IH (length b) ltac:(lia) b eq_refl Hb).
    unfold is_u8 in *.
    replace ((Z.of_nat (S (S (length b))) + 1) / 2)
      with ((Z.of_nat (length b) + 1) / 2 + 1) by zdm. lia.
Qed.

Lemma be_sum_be16 v t : is_u16 v -> be_sum (be16 v ++ t) = v + be_sum t.
Proof.
  intros (b0 & b1 & -> & ? & ?)%to_le2. rewrite be16_of_le2 by done.
  cbn [app be_sum]. unfold of_le2. lia.
Qed.

Lemma be_sum_be32 v t :
  is_u32 v -> be_sum (be32 v ++ t) = v mod 2 ^ 16 + v / 2 ^ 16 + be_sum t.
Proof.
  intros (b0 & b1 & b2 & b3 & -> & ? & ? & ? & ?)%to_le4.
  rewrite be32_of_le4 by done. cbn [app be_sum]. unfold of_le4. unfold_ints. zdm.
Qed.

(** The word loop over a header in the middle of a buffer. *)
Lemma sum_words_spec `{Arch} n : forall h m t,
  is_bytes m -> len m = 2 * Z.of_nat n -> Z.of_nat n <= 2 ^ 16 ->
  sum_words (h ++ m ++ t) (len h) n = Ok (be_sum m).
Proof.
  unfold sum_words, for_n. induction n as [|n IH]; intros h m t Hm Hl Hn.
  - destruct m; [done|rewrite len_cons in Hl; pose proof (len_nonneg m); lia].
  - destruct (split_at m 0 (2 * Z.of_nat n)) as (e & m1 & m2 & -> & He & Hm1); [lia..|].
    destruct e; [|rewrite len_cons in He; pose proof (len_nonneg e); lia].
    cbn [app] in *. rewrite len_app in Hl. apply is_bytes_app in Hm as [Hb1 Hb2].
    rewrite seq_S, foldl_snoc, <- app_assoc, IH by (done || lia).
    cbn [mbind res_bind Nat.add].
    destruct m2 as [|x [|y m2]]; rewrite ?len_cons, ?len_nil in Hl; [lia..|].
    destruct m2; [|rewrite len_cons in Hl; pose proof (len_nonneg m2); lia].
    inversion_clear Hb2 as [|? ? Hx Hb2']. inversion_clear Hb2' as [|? ? Hy _].
    pose proof (be_sum_bound m1 Hb1) as Hs.
    unfold ld16. rewrite (app_assoc h). rewrite <- Hm1, <- len_app.
    rewrite <- (Z.add_0_r (len (h ++ m1))) at 1. rewrite !rd_mid by (done || cbn; lia).
    change (rd [x; y] 0) with (Ok x). change (rd [x; y] 1) with (Ok y).
    cbn [mbind res_bind mret res_ret]. change (x + y * 2 ^ 8) with (of_le2 x y).
    rewrite ntohs_swap, bswap16_of_le2 by eauto using of_le2_range.
    rewrite be_sum_app; [|exists n; llia].
    cbn [be_sum]. unfold of_le2. f_equal. rewrite u32_id; [lia|].
    unfold is_u8, is_u32 in *. rewrite Hm1 in Hs.
    replace ((2 * Z.of_nat n + 1) / 2) with (Z.of_nat n) in Hs by zdm. lia.
Qed.

(** [htons(~sum)] of a folded sum, stored in the checksum field. *)
Lemma u16_lnot s : 0 <= s <= 65535 -> u16 (Z.lnot s) = 65535 - s.
Proof. intros. unfold u16, Z.lnot. zdm. Qed.

(** A zero checksum field replaced by the complement of the whole reduced sum
    (with [p] the sum of a pseudo-header) makes the sum valid. *)
Lemma be_sum_complete p a c :
  Nat.Even (length a) -> is_bytes a -> is_bytes c -> 0 <= p ->
  sum_valid (p + be_sum (a ++ be16 (65535 - ones (p + be_sum (a ++ [0; 0] ++ c))) ++ c)).
Proof.
  intros He Ha Hc Hp. pose proof (be_sum_bound a Ha). pose proof (be_sum_bound c Hc).
  rewrite (be_sum_app a ([0; 0] ++ c)), be_sum_app by done.
  change (be_sum ([0; 0] ++ c)) with (be_sum c).
  set (s := p + (be_sum a + be_sum c)).
  assert (0 <= s). { subst s. clear He. clear Hc. lia. } pose proof (ones_range s ltac:(done)).
  rewrite be_sum_be16 by (unfold is_u16; lia).
  replace (p + (be_sum a + (65535 - ones s + be_sum c))) with (s + (65535 - ones s))
    by (subst s; lia).
  by apply sum_valid_complete.
Qed.

(** One byte contributes with weight 1 or 256. *)
Lemma be_sum_byte a c : exists k, (k = 1 \/ k = 256) /\
  forall x y, be_sum (a ++ y :: c) = be_sum (a ++ x :: c) + k * (y - x).
Proof.
  remember (length a) as n eqn:Hn. revert a Hn.
  induction n as [n IH] using lt_wf_ind. intros a ->.
  destruct a as [|u [|v a]]; cbn [app].
  - exists 256. split; [by right|]. intros x y. destruct c; cbn [be_sum]; lia.
  - exists 1. split; [by left|]. intros x y. cbn [be_sum]. lia.
  - cbn [length] in IH. destruct (IH (length a) ltac:(lia) a eq_refl) as (k & Hk & E).
    exists k. split; [done|]. intros x y. cbn [be_sum]. rewrite (E x y). lia.
Qed.

(** Changing one byte of valid data makes it invalid. *)
Lemma sum_valid_byte a x y c :
  is_bytes (a ++ x :: c) -> is_u8 y -> x <> y ->
  sum_valid (be_sum (a ++ x :: c)) -> ~ sum_valid (be_sum (a ++ y :: c)).
Proof.
  intros Hb Hy Hne Hv Hv'.
  assert (Hb' : is_bytes (a ++ y :: c)).
  { apply is_bytes_app in Hb as [Ha Hc]. inversion_clear Hc. solve_bytes. }
  assert (Hx : is_u8 x) by (apply is_bytes_app in Hb as [_ Hc]; by inversion_clear Hc).
  pose proof (be_sum_bound _ Hb). pose proof (be_sum_bound _ Hb').
  apply sum_valid_iff in Hv as [_ Hv]; [|lia]. apply sum_valid_iff in Hv' as [_ Hv']; [|lia].
  destruct (be_sum_byte a c) as (k & Hk & E). rewrite (E x y) in Hv'.
  unfold is_u8 in *. destruct Hk as [-> | ->]; zdm.
Qed.

(* ------------------------------------------------------------------ *)
(** ** Prints of header fields that stay inside their object *)

Lemma ntohs_safe b o (f : Z -> out) :
  0 <= o -> o + 2 <= len b -> (forall v, exists x, f v = Ok x) ->
  exists x, (v ← ntohs_unaligned b o; f v) = Ok x.
Proof.
  intros Ho Hl Hf. unfold ntohs_unaligned.
  destruct (rd_in_range b o) as (b0 & -> & _); [lia|].
  destruct (rd_in_range b (o + 1)) as (b1 & -> & _); [lia|]. apply Hf.
Qed.

Lemma ntohl_safe b o (f : Z -> out) :
  0 <= o -> o + 4 <= len b -> (forall v, exists x, f v = Ok x) ->
  exists x, (v ← ntohl_unaligned b o; f v) = Ok x.
Proof.
  intros Ho Hl Hf. unfold ntohl_unaligned.
  destruct (rd_in_range b o) as (b0 & -> & _); [lia|].
  destruct (rd_in_range b (o + 1)) as (b1 & -> & _); [lia|].
  destruct (rd_in_range b (o + 2)) as (b2 & -> & _); [lia|].
  destruct (rd_in_range b (o + 3)) as (b3 & -> & _); [lia|]. apply Hf.
Qed.

(** Reads of header fields, in sequence. *)
Ltac read_fields :=
  repeat match goal with
    | |- exists x, (ntohs_unaligned _ _ ≫= _) = Ok x => apply ntohs_safe; [lia|lia|intros ?]
    | |- exists x, (ntohl_unaligned _ _ ≫= _) = Ok x => apply ntohl_safe; [lia|lia|intros ?]
    | |- exists x, (rd _ _ ≫= _) = Ok x => apply rd_safe; [lia|intros ?]
    end.
