(* ===== verification/Tcp.v ===== *)
(** TCP headers (apps/network/tcp): building, checksumming and printing a
    segment.  A [const uint8_t *] is [Some] offset into the object [b], or
    [None] for NULL. *)

From S2P Require Export Checksum.

Open Scope Z_scope.

Definition TCP_FLAG_FIN : Z := 0x01.
Definition TCP_FLAG_SYN : Z := 0x02.
Definition TCP_FLAG_RST : Z := 0x04.
Definition TCP_FLAG_PSH : Z := 0x08.
Definition TCP_FLAG_ACK : Z := 0x10.
Definition TCP_FLAG_URG : Z := 0x20.

Definition IPPROTO_ICMP : Z := 1.
Definition IPPROTO_TCP : Z := 6.
Definition IPPROTO_UDP : Z := 17.

Definition sizeof_tcp_hdr : Z := 20.

(** Field offsets of the packed [tcp_hdr_t]. *)
Module tcp.
Definition src_port : Z := 0.
Definition dst_port : Z := 2.
Definition seq_num : Z := 4.
Definition ack_num : Z := 8.
Definition data_offset : Z := 12.
Definition flags : Z := 13.
Definition window : Z := 14.
Definition checksum : Z := 16.
Definition urgent_ptr : Z := 18.
End tcp.

(** The comma-separated names of the flags that are set; each test prints a
    comma unless [first_flag]. *)
Definition flag_name (flags : Z) (acc : bytes * bool) (f : Z * string) : bytes * bool :=
  let '(o, first_flag) := acc in
  if Z.land flags f.1 =? 0 then (o, first_flag)
  else (o ++ (if first_flag then [] else str ",") ++ str f.2, false).

Definition tcp_flag_names (flags : Z) : bytes :=
  (foldl (flag_name flags) ([], true)
    [(TCP_FLAG_SYN, "SYN"%string); (TCP_FLAG_ACK, "ACK"%string);
     (TCP_FLAG_FIN, "FIN"%string); (TCP_FLAG_RST, "RST"%string);
     (TCP_FLAG_PSH, "PSH"%string); (TCP_FLAG_URG, "URG"%string)]).1.

Definition tcp_print (b : bytes) (tcp_segment : option Z) (length leftpad : Z) : out :=
  let too_small := puts (str "  [TCP] Segment too small" ++ nl) in
  match tcp_segment with
  | None => too_small
  | Some o =>
      if length <? sizeof_tcp_hdr then too_small else
      src_port ← ntohs_unaligned b (o + tcp.src_port);
      dst_port ← ntohs_unaligned b (o + tcp.dst_port);
      seq ← ntohl_unaligned b (o + tcp.seq_num);
      ack ← ntohl_unaligned b (o + tcp.ack_num);
      win ← ntohs_unaligned b (o + tcp.window);
      d ← rd b (o + tcp.data_offset);
      let data_offset := u8 (Z.shiftr d 4 * 4) in
      flags ← rd b (o + tcp.flags);
      (puts (pad leftpad ++ str "[TCP] ") +++ net_print_decimal_u16 src_port
       +++ puts (str " -> ") +++ net_print_decimal_u16 dst_port
       +++ puts (str " seq=") +++ net_print_decimal_u32 seq
       +++ puts (str " ack=") +++ net_print_decimal_u32 ack
       +++ puts (str " flags=[") +++ puts (tcp_flag_names flags)
       +++ puts (str "] win=") +++ net_print_decimal_u16 win
       +++ puts (str " len=") +++ net_print_decimal_u16 data_offset
       +++ puts nl)%out
  end.

(** [while (remaining > 1)]: the segment's 16-bit words, read byte-wise. *)
Fixpoint tcp_sum_loop (fuel : nat) (b : bytes) (o offset remaining sum : Z)
    : res (Z * Z) :=
  match fuel with
  | O => NoFuel
  | S fuel =>
      if 1 <? remaining then
        b0 ← rd b (o + offset); b1 ← rd b (o + offset + 1);
        let word := Z.lor (Z.shiftl b0 8) b1 in
        tcp_sum_loop fuel b o (offset + 2) (u16 (remaining - 2)) (u32 (sum + word))
      else Ok (remaining, sum)
  end.

Definition tcp_checksum `{Arch} (src_ip dst_ip : Z) (b : bytes) (o tcp_length : Z) : res Z :=
  let sum := 0 in
  let sum := u32 (sum + ntohs (u16 (Z.land src_ip 0xFFFF))) in
  let sum := u32 (sum + ntohs (u16 (Z.shiftr src_ip 16))) in
  let sum := u32 (sum + ntohs (u16 (Z.land dst_ip 0xFFFF))) in
  let sum := u32 (sum + ntohs (u16 (Z.shiftr dst_ip 16))) in
  let sum := u32 (sum + IPPROTO_TCP) in
  let sum := u32 (sum + tcp_length) in
  '(remaining, sum) ← tcp_sum_loop (S (Z.to_nat tcp_length)) b o 0 tcp_length sum;
  sum ← (if remaining =? 1 then
           x ← rd b (o + (tcp_length - 1)); mret (u32 (sum + Z.shiftl x 8))
         else mret sum);
  sum ← fold_loop fold_fuel sum;
  mret (htons (u16 (Z.lnot sum))).

Definition tcp_build_header `{Arch} (b : bytes) (o : Z)
    (src_port dst_port seq ack flags window src_ip dst_ip payload_length : Z) : res bytes :=
  b ← write_htons_unaligned b (o + tcp.src_port) src_port;
  b ← write_htons_unaligned b (o + tcp.dst_port) dst_port;
  b ← write_htonl_unaligned b (o + tcp.seq_num) seq;
  b ← write_htonl_unaligned b (o + tcp.ack_num) ack;
  b ← st8 b (o + tcp.data_offset) (Z.shiftl 5 4);
  b ← st8 b (o + tcp.flags) flags;
  b ← write_htons_unaligned b (o + tcp.window) window;
  b ← st16 b (o + tcp.checksum) 0;
  b ← st16 b (o + tcp.urgent_ptr) 0;
  let tcp_length := u16 (sizeof_tcp_hdr + payload_length) in
  cksum ← tcp_checksum src_ip dst_ip b o tcp_length;
  st16 b (o + tcp.checksum) cksum.

(* ------------------------------------------------------------------ *)
(** ** Specification *)

(** The pseudo-header's sum (RFC 793); addresses as stored in memory. *)
Definition pseudo_sum (src_ip dst_ip tcp_length : Z) : Z :=
  be_sum (le32 src_ip) + be_sum (le32 dst_ip) + IPPROTO_TCP + tcp_length.

(** The 12 bytes of the pseudo-header itself. *)
Definition pseudo_header (src_ip dst_ip tcp_length : Z) : bytes :=
  le32 src_ip ++ le32 dst_ip ++ [0; IPPROTO_TCP] ++ be16 tcp_length.

(** The 20 bytes of a header without options. *)
Definition tcp_header (src_port dst_port seq ack flags window cksum : Z) : bytes :=
  be16 src_port ++ be16 dst_port ++ be32 seq ++ be32 ack ++ [0x50; u8 flags]
  ++ be16 window ++ be16 cksum ++ [0; 0].

(* ------------------------------------------------------------------ *)
(** ** Lemmas *)

Lemma be_sum_le32_swap `{Arch} ip : is_u32 ip ->
  be_sum (le32 ip) = ntohs (u16 (Z.land ip 0xFFFF)) + ntohs (u16 (Z.shiftr ip 16)).
Proof.
  intros (b0 & b1 & b2 & b3 & -> & ? & ? & ? & ?)%to_le4.
  unfold le32. autorewrite with byteorder. rewrite land_ffff.
  replace (u16 (u16 (of_le4 b0 b1 b2 b3))) with (of_le2 b0 b1)
    by (unfold of_le4, of_le2; unfold_ints; zdm).
  replace (u16 (Z.shiftr (of_le4 b0 b1 b2 b3) 16)) with (of_le2 b2 b3)
    by (rewrite Z.shiftr_div_pow2 by lia; unfold of_le4, of_le2; unfold_ints; zdm).
  rewrite !ntohs_swap, !bswap16_of_le2 by eauto using of_le2_range.
  cbn [be_sum]. unfold of_le2. lia.
Qed.

Lemma be_sum_le32_range ip : 0 <= be_sum (le32 ip) <= 131070.
Proof. pose proof (be_sum_bound (le32 ip) (is_bytes_le32 ip)) as Hb. exact Hb. Qed.

(** The word loop and the odd byte sum the whole segment. *)
Lemma tcp_sum_loop_spec fuel : forall h p m t sum,
  is_bytes m -> Nat.Even (length p) ->
  (length m < fuel)%nat -> 0 <= sum -> len m < 2 ^ 16 ->
  sum + be_sum m < 2 ^ 32 ->
  ('(remaining, s) ← tcp_sum_loop fuel (h ++ p ++ m ++ t) (len h) (len p) (len m) sum;
   if remaining =? 1 then
     x ← rd (h ++ p ++ m ++ t) (len h + (len p + len m - 1));
     mret (u32 (s + Z.shiftl x 8))
   else mret s) = Ok (sum + be_sum m).
Proof.
  induction fuel as [|fuel IH]; intros h p m t sum Hm Hp Hf Hs Hl Hb; [lia|].
  cbn [tcp_sum_loop]. destruct m as [|x [|y m]].
  - cbn [app mbind res_bind be_sum]. change (len []) with 0. cbn. by rewrite Z.add_0_r.
  - cbn [app]. change (1 <? len [x]) with false. cbn [mbind res_bind].
    change (len [x] =? 1) with true. cbv iota.
    replace (h ++ p ++ x :: t) with ((h ++ p) ++ [x] ++ t) by (by rewrite <- !app_assoc).
    replace (len h + (len p + len [x] - 1)) with (len (h ++ p) + 0)
      by (rewrite len_app; change (len [x]) with 1; lia).
    rewrite rd_mid by (done || cbn; lia). change (rd [x] 0) with (Ok x).
    cbn [mbind res_bind mret res_ret be_sum].
    inversion_clear Hm. unfold is_u8 in *. cbn [be_sum] in Hb.
    rewrite Z.shiftl_mul_pow2, u32_id by (unfold is_u32; lia). done.
  - inversion_clear Hm as [|? ? Hx Hm']. inversion_clear Hm' as [|? ? Hy Hm].
    rewrite !len_cons in Hl. pose proof (len_nonneg m).
    destruct (Z.ltb_spec 1 (len (x :: y :: m))); [|rewrite !len_cons in *; lia].
    replace (h ++ p ++ (x :: y :: m) ++ t) with ((h ++ p) ++ [x; y] ++ (m ++ t))
      by (by rewrite <- !app_assoc).
    rewrite <- (Z.add_0_r (len h + len p)) at 1. rewrite <- !len_app.
    rewrite (rd_mid (h ++ p) [x; y] (m ++ t) (len (h ++ p)) 0),
      (rd_mid (h ++ p) [x; y] (m ++ t) (len (h ++ p)) 1) by (done || cbn; lia).
    change (rd [x; y] 0) with (Ok x). change (rd [x; y] 1) with (Ok y).
    cbn [mbind res_bind]. rewrite lor_be2 by done. cbn [be_sum length] in *.
    pose proof (be_sum_bound m Hm).
    rewrite u32_id by (unfold is_u32, of_le2 in *; unfold is_u8 in *; lia).
    rewrite !len_app, !len_cons. replace (u16 (1 + (1 + len m) - 2)) with (len m)
      by (unfold u16; rewrite Z.mod_small; lia).
    specialize (IH h (p ++ [x; y]) m t (sum + of_le2 y x)).
    rewrite <- !app_assoc in *. cbn [app] in *.
    rewrite len_app in IH. change (len [x; y]) with 2 in IH.
    replace (len h + (len p + (1 + (1 + len m)) - 1))
      with (len h + (len p + 2 + len m - 1)) by lia.
    rewrite IH; [f_equal; unfold of_le2; lia|done| |lia| |lia|].
    + destruct Hp as [k Hk]. exists (S k). rewrite length_app. cbn [length]. lia.
    + unfold of_le2. unfold is_u8 in *. lia.
    + unfold of_le2. lia.
Qed.

Lemma pseudo_sum_range src_ip dst_ip n :
  is_u16 n -> 0 <= pseudo_sum src_ip dst_ip n <= 327681.
Proof.
  pose proof (be_sum_le32_range src_ip). pose proof (be_sum_le32_range dst_ip).
  unfold pseudo_sum, IPPROTO_TCP, is_u16. lia.
Qed.

(** The complement of the one's complement sum of pseudo-header and segment. *)
Lemma tcp_checksum_spec `{Arch} src_ip dst_ip h m t :
  is_u32 src_ip -> is_u32 dst_ip -> is_bytes m -> len m < 2 ^ 16 ->
  tcp_checksum src_ip dst_ip (h ++ m ++ t) (len h) (len m) =
  Ok (htons (65535 - ones (pseudo_sum src_ip dst_ip (len m) + be_sum m))).
Proof.
  intros Hsrc Hdst Hm Hl. pose proof (len_nonneg m). pose proof (be_sum_bound m Hm).
  assert (Hn : is_u16 (len m)) by (unfold is_u16; lia).
  pose proof (pseudo_sum_range src_ip dst_ip (len m) Hn).
  pose proof (be_sum_le32_range src_ip). pose proof (be_sum_le32_range dst_ip).
  assert (Hbs : be_sum m <= 2147450880) by zdm.
  unfold tcp_checksum.
  set (sum := u32 (u32 (u32 _ + IPPROTO_TCP) + len m)).
  assert (Hsum : sum = pseudo_sum src_ip dst_ip (len m)).
  { subst sum. unfold pseudo_sum in *. rewrite !be_sum_le32_swap in * by done.
    assert (Hr : forall x, 0 <= ntohs (u16 x) < 2 ^ 16).
    { intros x. rewrite ntohs_swap by apply u16_range. apply bswap16_range. }
    pose proof (Hr (Z.land src_ip 65535)). pose proof (Hr (Z.shiftr src_ip 16)).
    pose proof (Hr (Z.land dst_ip 65535)). pose proof (Hr (Z.shiftr dst_ip 16)).
    clear - H0 Hl H5 H6 H7 H8. unfold IPPROTO_TCP.
    rewrite !u32_id by (repeat (rewrite u32_id || unfold is_u32 || lia)). lia. }
  rewrite Hsum.
  pose proof (tcp_sum_loop_spec (S (Z.to_nat (len m))) h [] m t
    (pseudo_sum src_ip dst_ip (len m)) Hm) as HL.
  cbn [app] in HL. change (len []) with 0 in HL. rewrite Z.add_0_l in HL.
  assert (Hf : (length m < S (Z.to_nat (len m)))%nat) by (unfold len; lia).
  specialize (HL ltac:(by exists 0%nat) Hf ltac:(lia) Hl ltac:(lia)).
  destruct (tcp_sum_loop _ _ _ _ _ _) as [[r s]| |]; cbn [mbind res_bind] in *; [|done..].
  rewrite HL. cbn [mbind res_bind]. rewrite fold_loop_ones by (unfold is_u32; lia).
  cbn [mbind res_bind mret res_ret]. do 2 f_equal.
  apply u16_lnot, ones_range. lia.
Qed.

Lemma tcp_header_len sp dp seq ack fl win ck :
  len (tcp_header sp dp seq ack fl win ck) = 20.
Proof. done. Qed.

Lemma be16_0 : be16 0 = [0; 0].
Proof. done. Qed.

(** The header's stores, before the checksum is computed. *)
Lemma tcp_build_header_layout `{Arch} h m t sp dp seq ack fl win src dst n :
  len m = 20 ->
  tcp_build_header (h ++ m ++ t) (len h) sp dp seq ack fl win src dst n =
  let b := h ++ tcp_header sp dp seq ack fl win 0 ++ t in
  cksum ← tcp_checksum src dst b (len h) (u16 (20 + n));
  st16 b (len h + 16) cksum.
Proof.
  intros Hm. unfold tcp_build_header. 
  unfold tcp.src_port, tcp.dst_port, tcp.seq_num, tcp.ack_num, tcp.data_offset,
    tcp.flags, tcp.window, tcp.checksum, tcp.urgent_ptr, sizeof_tcp_hdr.
  rewrite Z.add_0_r.
  setoid_rewrite write_htons_unaligned_be. setoid_rewrite write_htonl_unaligned_be.
  merge_stores. rewrite store_ok by (by rewrite Hm). reflexivity.
Qed.

(** A built header, and the segment it starts. *)
Definition tcp_segment_bytes (sp dp seq ack fl win src dst : Z) (payload : bytes) : bytes :=
  let hdr0 := tcp_header sp dp seq ack fl win 0 in
  let ck := 65535 - ones (pseudo_sum src dst (20 + len payload)
                          + be_sum (hdr0 ++ payload)) in
  tcp_header sp dp seq ack fl win ck ++ payload.

Lemma tcp_build_header_spec `{Arch} h m payload t sp dp seq ack fl win src dst :
  len m = 20 -> is_u32 src -> is_u32 dst -> is_bytes payload ->
  20 + len payload < 2 ^ 16 ->
  tcp_build_header (h ++ m ++ payload ++ t) (len h) sp dp seq ack fl win src dst
    (len payload)
  = Ok (h ++ tcp_segment_bytes sp dp seq ack fl win src dst payload ++ t).
Proof.
  intros Hm Hsrc Hdst Hp Hl. pose proof (len_nonneg payload).
  rewrite tcp_build_header_layout by done. cbv zeta.
  set (hdr0 := tcp_header sp dp seq ack fl win 0).
  assert (Hb : is_bytes (hdr0 ++ payload)).
  { unfold hdr0, tcp_header. solve_bytes. }
  replace (h ++ hdr0 ++ payload ++ t) with (h ++ (hdr0 ++ payload) ++ t)
    by (by rewrite <- !app_assoc).
  assert (Hn : len (hdr0 ++ payload) = 20 + len payload) by (by rewrite len_app).
  replace (u16 (20 + len payload)) with (len (hdr0 ++ payload))
    by (rewrite u16_id; [done|unfold is_u16; lia]).
  rewrite tcp_checksum_spec by (done || lia). cbn [mbind res_bind].
  unfold st16. rewrite Hn, le16_htons.
  2:{ unfold is_u16. pose proof (be_sum_bound _ Hb).
      pose proof (pseudo_sum_range src dst (20 + len payload) ltac:(unfold is_u16; lia)).
      pose proof (ones_range (pseudo_sum src dst (20 + len payload)
        + be_sum (hdr0 ++ payload))). lia. }
  unfold tcp_segment_bytes. cbv zeta. fold hdr0. set (ck := 65535 - _).
  unfold hdr0, tcp_header. rewrite be16_0.
  set (a := be16 sp ++ be16 dp ++ be32 seq ++ be32 ack ++ [80; u8 fl] ++ be16 win).
  replace (len h + 16) with (len (h ++ a)) by (unfold a; solve_len).
  pose proof (store_ok (h ++ a) [0; 0] ([0; 0] ++ payload ++ t) (be16 ck) eq_refl) as Hs.
  subst a. repeat rewrite <- app_assoc in *. exact Hs.
Qed.

(** The segment's checksum is correct for the receiver. *)
Lemma tcp_segment_sum_valid sp dp seq ack fl win src dst payload :
  is_bytes payload -> 20 + len payload < 2 ^ 16 ->
  sum_valid (pseudo_sum src dst (20 + len payload)
             + be_sum (tcp_segment_bytes sp dp seq ack fl win src dst payload)).
Proof.
  intros Hp Hl. pose proof (len_nonneg payload).
  set (a := be16 sp ++ be16 dp ++ be32 seq ++ be32 ack ++ [80; u8 fl] ++ be16 win).
  change (sum_valid (pseudo_sum src dst (20 + len payload) + be_sum (a ++ be16
    (65535 - ones (pseudo_sum src dst (20 + len payload)
       + be_sum (a ++ [0; 0] ++ ([0; 0] ++ payload)))) ++ ([0; 0] ++ payload)))).
  pose proof (pseudo_sum_range src dst (20 + len payload) ltac:(unfold is_u16; lia)).
  apply be_sum_complete; [by exists 8%nat| | |lia].
  - unfold a. solve_bytes.
  - solve_bytes.
Qed.

Lemma htons_0 `{Arch} : htons 0 = 0.
Proof. unfold htons. by case_match. Qed.

Lemma tcp_segment_bytes_is_bytes sp dp seq ack fl win src dst payload :
  is_bytes payload -> is_bytes (tcp_segment_bytes sp dp seq ack fl win src dst payload).
Proof. intros. unfold tcp_segment_bytes, tcp_header. solve_bytes. Qed.

Lemma tcp_segment_bytes_len sp dp seq ack fl win src dst payload :
  len (tcp_segment_bytes sp dp seq ack fl win src dst payload) = 20 + len payload.
Proof. unfold tcp_segment_bytes, tcp_header. solve_len. Qed.

Lemma be_sum_pseudo src_ip dst_ip n m : is_u16 n ->
  be_sum (pseudo_header src_ip dst_ip n ++ m) = pseudo_sum src_ip dst_ip n + be_sum m.
Proof.
  intros Hn. unfold pseudo_header, pseudo_sum. rewrite <- !app_assoc.
  rewrite !be_sum_app by (by exists 2%nat). cbn [app be_sum]. rewrite be_sum_be16 by done.
  unfold IPPROTO_TCP. lia.
Qed.

(** A receiver's test is the one of RFC 793, over pseudo-header and segment. *)
Lemma tcp_checksum_zero `{Arch} src_ip dst_ip h m t :
  is_u32 src_ip -> is_u32 dst_ip -> is_bytes m -> len m < 2 ^ 16 ->
  tcp_checksum src_ip dst_ip (h ++ m ++ t) (len h) (len m) = Ok 0 <->
  sum_valid (be_sum (pseudo_header src_ip dst_ip (len m) ++ m)).
Proof.
  intros Hs Hd Hm Hl. pose proof (len_nonneg m). pose proof (be_sum_bound m Hm).
  assert (is_u16 (len m)) as Hn by (unfold is_u16; lia).
  pose proof (pseudo_sum_range src_ip dst_ip (len m) Hn).
  rewrite tcp_checksum_spec, be_sum_pseudo by done. unfold sum_valid.
  set (s := ones _). pose proof (ones_range (pseudo_sum src_ip dst_ip (len m) + be_sum m) ltac:(lia)) as Hr.
  fold s in Hr. split.
  - intros [= E]. rewrite htons_swap in E by (unfold is_u16; lia).
    apply (f_equal bswap16) in E. rewrite bswap16_invol in E by (unfold is_u16; lia).
    change (bswap16 0) with 0 in E. lia.
  - intros ->. by rewrite htons_0.
Qed.

(** Printing a segment reads its first 20 bytes. *)
Lemma tcp_print_safe b o length leftpad :
  0 <= o -> (20 <= length -> o + 20 <= len b) ->
  exists s, tcp_print b (Some o) length leftpad = Ok s.
Proof.
  intros Ho Hl. unfold tcp_print, sizeof_tcp_hdr. cbv zeta.
  destruct (Z.ltb_spec length 20); [solve_out|]. specialize (Hl ltac:(lia)).
  unfold tcp.src_port, tcp.dst_port, tcp.seq_num, tcp.ack_num, tcp.data_offset,
    tcp.flags, tcp.window. read_fields. solve_out.
Qed.

(* ------------------------------------------------------------------ *)
(** ** Properties *)

(** C9: tcp_build_header writes exactly the 20 header bytes in network order in
    front of a payload that is already in place.  The checksum it stores is RFC 793's:
    the 16-bit words of the pseudo-header (addresses, protocol, segment length), header
    and payload have the one's complement sum 0xFFFF; and tcp_checksum over any segment
    of a 16-bit length is zero exactly when its words have that sum, so a receiver
    accepts what was built.  The 32-bit sum never overflows. *)
Theorem tcp_build_header_correct `{Arch} h m payload t
    src_port dst_port seq ack flags window src_ip dst_ip :
  len m = 20 -> is_u32 src_ip -> is_u32 dst_ip -> is_bytes payload ->
  20 + len payload < 2 ^ 16 ->
  (exists cksum,
    let seg := tcp_header src_port dst_port seq ack flags window cksum ++ payload in
    tcp_build_header (h ++ m ++ payload ++ t) (len h) src_port dst_port seq ack flags
      window src_ip dst_ip (len payload) = Ok (h ++ seg ++ t) /\
    sum_valid (be_sum (pseudo_header src_ip dst_ip (20 + len payload) ++ seg)) /\
    tcp_checksum src_ip dst_ip (h ++ seg ++ t) (len h) (20 + len payload) = Ok 0) /\
  forall received, is_bytes received -> len received < 2 ^ 16 ->
    tcp_checksum src_ip dst_ip (h ++ received ++ t) (len h) (len received) = Ok 0 <->
    sum_valid (be_sum (pseudo_header src_ip dst_ip (len received) ++ received)).
Proof.
  intros Hm Hsrc Hdst Hp Hl. split; [|intros received ??; by apply tcp_checksum_zero].
  pose proof (len_nonneg payload). eexists. cbv zeta.
  rewrite tcp_build_header_spec by done. split; [reflexivity|].
  set (seg := tcp_segment_bytes src_port dst_port seq ack flags window src_ip dst_ip payload).
  change (sum_valid (be_sum (pseudo_header src_ip dst_ip (20 + len payload) ++ seg)) /\
    tcp_checksum src_ip dst_ip (h ++ seg ++ t) (len h) (20 + len payload) = Ok 0).
  assert (El : len seg = 20 + len payload) by apply tcp_segment_bytes_len.
  assert (Hv : sum_valid (be_sum (pseudo_header src_ip dst_ip (20 + len payload) ++ seg))).
  { rewrite be_sum_pseudo by (unfold is_u16; lia). by apply tcp_segment_sum_valid. }
  split; [done|]. rewrite <- El in Hv |- *.
  apply tcp_checksum_zero; [done|done|by apply tcp_segment_bytes_is_bytes|by rewrite El|done].
Qed.

Lemma tcp_build_header_correct_witness :
  let payload := str "hello" in
  exists cksum,
    let seg := tcp_header 80 50000 7 9 (Z.lor TCP_FLAG_PSH TCP_FLAG_ACK) 65535 cksum
               ++ payload in
    tcp_build_header (H := RISCV) ([1; 2] ++ replicate 20 0 ++ payload ++ [3]) 2 80 50000
      7 9 (Z.lor TCP_FLAG_PSH TCP_FLAG_ACK) 65535 0x0202000A 0x0F02000A 5
    = Ok ([1; 2] ++ seg ++ [3]) /\
    sum_valid (be_sum ([10; 0; 2; 2; 10; 0; 2; 15; 0; 6; 0; 25] ++ seg)) /\
    tcp_checksum (H := RISCV) 0x0202000A 0x0F02000A ([1; 2] ++ seg ++ [3]) 2 25 = Ok 0.
Proof.
  apply (tcp_build_header_correct (H := RISCV) [1; 2] (replicate 20 0) (str "hello") [3]);
    [reflexivity|unfold is_u32; lia|unfold is_u32; lia|
     repeat constructor; vm_compute; congruence|reflexivity].
Defined.
