(* ===== verification/Udp.v ===== *)
(** UDP headers and the hexdump of a datagram's IP packet (apps/network/udp). *)

From S2P Require Export Tcp.

Open Scope Z_scope.

Definition sizeof_udp_hdr : Z := 8.
Definition sizeof_ipv4_hdr : Z := 20.

(** Field offsets of the packed [udp_hdr_t]. *)
Module udp.
Definition src_port : Z := 0.
Definition dst_port : Z := 2.
Definition length : Z := 4.
Definition checksum : Z := 6.
End udp.

(** One of the 16 columns: two hex digits or blanks, a space, and a second
    space after the eighth column. *)
Definition hex_column (b : bytes) (o offset line_len : Z) (i : nat) : out :=
  ((if Z.of_nat i <? line_len
    then x ← rd b (o + (offset + Z.of_nat i)); puts (put_hex8 x)
    else puts (str "  "))
   +++ puts (putchar 32) +++ puts (if (i =? 7)%nat then putchar 32 else []))%out.

Definition ascii_column (b : bytes) (o offset : Z) (i : nat) : out :=
  c ← rd b (o + (offset + Z.of_nat i));
  puts (if (32 <=? c) && (c <=? 126) then putchar c else putchar 46).

(** One line of the dump, 16 bytes of the packet. *)
Definition hexdump_line (b : bytes) (o length leftpad offset : Z) : out :=
  let line_len := if 16 <? length - offset then 16 else length - offset in
  (puts (pad (leftpad + 4)) +++ puts (str "0x") +++ puts (put_hex16 offset)
   +++ puts (str ":  ")
   +++ for_n 16 (fun i acc => puts acc +++ hex_column b o offset line_len i) []
   +++ puts (str " ")
   +++ for_n (Z.to_nat line_len) (fun i acc => puts acc +++ ascii_column b o offset i) []
   +++ puts nl)%out.

(** [while (offset < length) { ...; offset += 16; }] *)
Fixpoint hexdump_loop (fuel : nat) (b : bytes) (o length leftpad offset : Z) : out :=
  match fuel with
  | O => NoFuel
  | S fuel =>
      if offset <? length then
        (hexdump_line b o length leftpad offset
         +++ hexdump_loop fuel b o length leftpad (u64 (offset + 16)))%out
      else Ok []
  end.

Definition hexdump (b : bytes) (o length leftpad : Z) : out :=
  hexdump_loop (S (S (Z.to_nat (length / 16)))) b o length leftpad 0.

Definition udp_print (b : bytes) (ip_packet : option Z) (length leftpad : Z) : out :=
  let too_small := puts (str "  [UDP] Packet too small" ++ nl) in
  match ip_packet with
  | None => too_small
  | Some o =>
      if length <? sizeof_ipv4_hdr + sizeof_udp_hdr then too_small else
      v ← rd b o;
      let ihl := u8 (Z.land v 0x0F * 4) in
      if length <? ihl + sizeof_udp_hdr
      then puts (str "  [UDP] Packet too small for UDP header" ++ nl) else
      let u := o + ihl in
      src_port ← ntohs_unaligned b (u + udp.src_port);
      dst_port ← ntohs_unaligned b (u + udp.dst_port);
      l ← ntohs_unaligned b (u + udp.length);
      (puts (pad leftpad ++ str "[UDP] ") +++ net_print_decimal_u16 src_port
       +++ puts (str " -> ") +++ net_print_decimal_u16 dst_port
       +++ puts (str " len=") +++ net_print_decimal_u16 l +++ puts nl
       +++ hexdump b o length leftpad)%out
  end.

Definition udp_build_header `{Arch} (b : bytes) (o src_port dst_port payload_length : Z)
    : res bytes :=
  b ← st16 b (o + udp.src_port) (htons src_port);
  b ← st16 b (o + udp.dst_port) (htons dst_port);
  b ← st16 b (o + udp.length) (htons (u16 (sizeof_udp_hdr + payload_length)));
  st16 b (o + udp.checksum) 0.

(* ------------------------------------------------------------------ *)
(** ** Lemmas *)

(** The built header: ports and length in network order, no checksum. *)
Lemma udp_build_header_spec `{Arch} h m t src_port dst_port n :
  len m = 8 -> is_u16 src_port -> is_u16 dst_port ->
  udp_build_header (h ++ m ++ t) (len h) src_port dst_port n
  = Ok (h ++ (be16 src_port ++ be16 dst_port ++ be16 (u16 (8 + n)) ++ [0; 0]) ++ t).
Proof.
  intros Hm Hs Hd. unfold udp_build_header, udp.src_port, udp.dst_port, udp.length,
    udp.checksum, sizeof_udp_hdr. rewrite Z.add_0_r. unfold st16.
  rewrite !le16_htons by (done || apply u16_range).
  merge_stores. rewrite store_ok by (by rewrite Hm). reflexivity.
Qed.

(** A dump that stays inside its object terminates and prints. *)
Lemma hexdump_line_safe b o length leftpad offset :
  0 <= o -> o + length <= len b -> 0 <= offset < length ->
  exists s, hexdump_line b o length leftpad offset = Ok s.
Proof.
  intros Ho Hl Hoff. unfold hexdump_line.
  set (line_len := if 16 <? length - offset then 16 else length - offset).
  assert (Hll : 0 <= line_len /\ offset + line_len <= length).
  { unfold line_len. destruct (Z.ltb_spec 16 (length - offset)); lia. }
  solve_out.
  - apply for_n_ok. intros i a Hi. unfold hex_column. solve_out.
    destruct (Z.ltb_spec (Z.of_nat i) line_len); [|solve_out].
    apply rd_safe; [lia|]. eauto with outs.
  - apply for_n_ok. intros i a Hi. unfold ascii_column. solve_out.
    apply rd_safe; [lia|]. eauto with outs.
Qed.

Lemma hexdump_loop_safe fuel b o length leftpad : forall offset,
  0 <= o -> o + length <= len b -> length + 16 < 2 ^ 64 -> 0 <= offset ->
  length - offset <= 16 * Z.of_nat fuel - 16 -> (0 < fuel)%nat ->
  exists s, hexdump_loop fuel b o length leftpad offset = Ok s.
Proof.
  induction fuel as [|fuel IH]; intros offset Ho Hl Hw Hoff Hf Hp; [lia|].
  cbn [hexdump_loop]. destruct (Z.ltb_spec offset length); [|by eexists].
  apply seq_out_safe; [by apply hexdump_line_safe|].
  rewrite u64_id by (unfold is_u64; lia). apply IH; lia.
Qed.

Lemma hexdump_safe b o length leftpad :
  0 <= o -> 0 <= length -> o + length <= len b -> length + 16 < 2 ^ 64 ->
  exists s, hexdump b o length leftpad = Ok s.
Proof. intros. apply hexdump_loop_safe; try done; try lia. zdm. Qed.

(** Printing a datagram reads its IP packet only. *)
Lemma udp_print_safe b o length leftpad :
  0 <= o -> o + length <= len b -> length + 16 < 2 ^ 64 ->
  exists s, udp_print b (Some o) length leftpad = Ok s.
Proof.
  intros Ho Hl Hw. unfold udp_print, sizeof_ipv4_hdr, sizeof_udp_hdr. cbv zeta.
  destruct (Z.ltb_spec length (20 + 8)); [solve_out|].
  apply rd_safe; [lia|]. intros v. pose proof (u8_range (Z.land v 15 * 4)) as Hi.
  set (ihl := u8 _) in *. unfold is_u8 in Hi.
  destruct (Z.ltb_spec length (ihl + 8)); [solve_out|].
  unfold udp.src_port, udp.dst_port, udp.length. read_fields. solve_out.
  apply hexdump_safe; lia.
Qed.
