(* ===== verification/Icmp.v ===== *)
(** ICMP echo headers (apps/network/icmp): building, parsing, printing. *)

From S2P Require Export Checksum.

Open Scope Z_scope.

Definition ICMP_ECHO_REPLY : Z := 0.
Definition ICMP_ECHO_REQUEST : Z := 8.
Definition sizeof_icmp_hdr : Z := 8.

(** Field offsets of the packed [icmp_hdr_t]. *)
Module icmp.
Definition type : Z := 0.
Definition code : Z := 1.
Definition checksum : Z := 2.
Definition id : Z := 4.
Definition sequence : Z := 6.
End icmp.

Definition icmp_checksum `{Arch} (b : bytes) (o length : Z) : res Z :=
  if length <? sizeof_icmp_hdr then Ok 0 else
  sum ← sum_words b o 4;
  sum ← fold_loop fold_fuel sum;
  mret (htons (u16 (Z.lnot sum))).

Definition icmp_print (b : bytes) (packet : option Z) (length leftpad : Z) : out :=
  let too_small := puts (str "[ICMP] Packet too small" ++ nl) in
  match packet with
  | None => too_small
  | Some o =>
      if length <? sizeof_icmp_hdr then too_small else
      id ← ntohs_unaligned b (o + icmp.id);
      seq ← ntohs_unaligned b (o + icmp.sequence);
      type ← rd b (o + icmp.type);
      code ← rd b (o + icmp.code);
      (puts (pad leftpad ++ str "[ICMP] type=") +++ puts (net_print_decimal_u8 type)
       +++ puts (str " code=") +++ puts (net_print_decimal_u8 code)
       +++ puts (str " id=") +++ net_print_decimal_u16 id
       +++ puts (str " seq=") +++ net_print_decimal_u16 seq
       +++ puts (str " len=") +++ puts (net_print_decimal_u8 length)
       +++ puts nl)%out
  end.

Definition icmp_build_request `{Arch} (b : bytes) (o id sequence : Z) : res bytes :=
  b ← st8 b (o + icmp.type) ICMP_ECHO_REQUEST;
  b ← st8 b (o + icmp.code) 0;
  b ← st16 b (o + icmp.checksum) 0;
  b ← st16 b (o + icmp.id) (htons id);
  b ← st16 b (o + icmp.sequence) (htons sequence);
  cksum ← icmp_checksum b o sizeof_icmp_hdr;
  st16 b (o + icmp.checksum) cksum.

Definition icmp_build_response `{Arch} (b : bytes) (o id sequence : Z) : res bytes :=
  b ← st8 b (o + icmp.type) ICMP_ECHO_REPLY;
  b ← st8 b (o + icmp.code) 0;
  b ← st16 b (o + icmp.checksum) 0;
  b ← st16 b (o + icmp.id) (htons id);
  b ← st16 b (o + icmp.sequence) (htons sequence);
  cksum ← icmp_checksum b o sizeof_icmp_hdr;
  st16 b (o + icmp.checksum) cksum.

(** An output parameter: [None] is a NULL pointer, which is not written. *)
Definition write_out (p : option Z) (value : res Z) : res (option Z) :=
  match p with None => Ok None | Some _ => v ← value; Ok (Some v) end.

(** The output parameters of [icmp_parse]. *)
Record icmp_out := IcmpOut {
  out_type : option Z; out_code : option Z; out_id : option Z; out_sequence : option Z }.

Definition icmp_parse (b : bytes) (packet : option Z) (length : Z) (outs : icmp_out)
    : res (bool * icmp_out) :=
  match packet with
  | None => Ok (false, outs)
  | Some o =>
      if length <? sizeof_icmp_hdr then Ok (false, outs) else
      t ← write_out (out_type outs) (rd b (o + icmp.type));
      c ← write_out (out_code outs) (rd b (o + icmp.code));
      i ← write_out (out_id outs) (ntohs_unaligned b (o + icmp.id));
      s ← write_out (out_sequence outs) (ntohs_unaligned b (o + icmp.sequence));
      Ok (true, IcmpOut t c i s)
  end.

(* ------------------------------------------------------------------ *)
(** ** Specification *)

Definition icmp_header (type cksum id sequence : Z) : bytes :=
  [type; 0] ++ be16 cksum ++ be16 id ++ be16 sequence.

(** The checksum a receiver expects in an echo header. *)
Definition icmp_echo_sum (type id sequence : Z) : Z :=
  65535 - ones (be_sum (icmp_header type 0 id sequence)).

(** The body shared by the two builders. *)
Definition icmp_build `{Arch} (type : Z) (b : bytes) (o id sequence : Z) : res bytes :=
  b ← st8 b (o + icmp.type) type;
  b ← st8 b (o + icmp.code) 0;
  b ← st16 b (o + icmp.checksum) 0;
  b ← st16 b (o + icmp.id) (htons id);
  b ← st16 b (o + icmp.sequence) (htons sequence);
  cksum ← icmp_checksum b o sizeof_icmp_hdr;
  st16 b (o + icmp.checksum) cksum.

(* ------------------------------------------------------------------ *)
(** ** Lemmas *)

Lemma icmp_checksum_spec `{Arch} h m t length :
  is_bytes m -> len m = 8 -> 8 <= length ->
  icmp_checksum (h ++ m ++ t) (len h) length = Ok (htons (65535 - ones (be_sum m))).
Proof.
  intros Hm Hl Hlen. unfold icmp_checksum, sizeof_icmp_hdr.
  destruct (Z.ltb_spec length 8); [lia|].
  rewrite sum_words_spec by (done || lia). cbn [mbind res_bind].
  pose proof (be_sum_bound m Hm) as Hb. rewrite Hl in Hb.
  change (65535 * ((8 + 1) / 2)) with 262140 in Hb.
  rewrite fold_loop_ones by (unfold is_u32; lia). cbn [mbind res_bind mret res_ret].
  do 2 f_equal. apply u16_lnot, ones_range. lia.
Qed.

Lemma icmp_build_spec `{Arch} type h m t id sequence :
  len m = 8 -> is_u8 type -> is_u16 id -> is_u16 sequence ->
  icmp_build type (h ++ m ++ t) (len h) id sequence =
  Ok (h ++ icmp_header type (icmp_echo_sum type id sequence) id sequence ++ t).
Proof.
  intros Hm Ht Hi Hs. unfold icmp_build, icmp.type, icmp.code, icmp.checksum, icmp.id,
    icmp.sequence, sizeof_icmp_hdr. rewrite Z.add_0_r. unfold st16 at 2 3.
  rewrite !le16_htons by done. merge_stores. rewrite store_ok by (by rewrite Hm).
  cbn [mbind res_bind]. change (u8 0) with 0. rewrite (u8_id type) by done.
  change (type :: 0 :: (le16 0 ++ be16 id) ++ be16 sequence)
    with (icmp_header type 0 id sequence).
  rewrite icmp_checksum_spec; [|unfold icmp_header; solve_bytes|done|lia].
  cbn [mbind res_bind]. fold (icmp_echo_sum type id sequence).
  rewrite le16_htons.
  2:{ unfold icmp_echo_sum, is_u16.
      pose proof (be_sum_bound (icmp_header type 0 id sequence)
        ltac:(unfold icmp_header; solve_bytes)).
      pose proof (ones_range (be_sum (icmp_header type 0 id sequence))). lia. }
  set (ck := icmp_echo_sum _ _ _). unfold icmp_header.
  replace (len h + 2) with (len (h ++ [type; 0])) by solve_len.
  pose proof (store_ok (h ++ [type; 0]) (be16 0) (be16 id ++ be16 sequence ++ t)
    (be16 ck) eq_refl) as He.
  repeat rewrite <- app_assoc in *. exact He.
Qed.

Lemma icmp_header_sum_valid type id sequence : is_u8 type ->
  sum_valid (be_sum (icmp_header type (icmp_echo_sum type id sequence) id sequence)).
Proof.
  intros Ht.
  apply (be_sum_complete 0 [type; 0] (be16 id ++ be16 sequence));
    [by exists 1%nat|solve_bytes|solve_bytes|done].
Qed.

Lemma icmp_parse_header h type cksum id sequence t outs length :
  is_u8 type -> is_u16 id -> is_u16 sequence -> 8 <= length ->
  icmp_parse (h ++ icmp_header type cksum id sequence ++ t) (Some (len h)) length outs =
  Ok (true, IcmpOut (const type <$> out_type outs) (const 0 <$> out_code outs)
    (const id <$> out_id outs)
    (const sequence <$> out_sequence outs)).
Proof.
  intros Ht Hi Hs Hl. unfold icmp_parse, sizeof_icmp_hdr.
  destruct (Z.ltb_spec length 8); [lia|].
  unfold icmp.type, icmp.code, icmp.id, icmp.sequence.
  rewrite !rd_mid by (done || cbn; lia).
  change (rd (icmp_header _ _ _ _) 0) with (Ok type).
  change (rd (icmp_header _ _ _ _) 1) with (Ok 0).
  assert (E1 : ntohs_unaligned (h ++ icmp_header type cksum id sequence ++ t) (len h + 4)
    = Ok id).
  { replace (len h + 4) with (len (h ++ [type; 0] ++ be16 cksum)) by solve_len.
    unfold icmp_header. rewrite <- !app_assoc, (app_assoc h), (app_assoc (h ++ _)).
    rewrite <- (app_assoc h). by apply ntohs_be16. }
  assert (E2 : ntohs_unaligned (h ++ icmp_header type cksum id sequence ++ t) (len h + 6)
    = Ok sequence).
  { replace (len h + 6) with (len (h ++ [type; 0] ++ be16 cksum ++ be16 id)) by solve_len.
    unfold icmp_header.
    replace (h ++ ([type; 0] ++ be16 cksum ++ be16 id ++ be16 sequence) ++ t)
      with ((h ++ [type; 0] ++ be16 cksum ++ be16 id) ++ be16 sequence ++ t)
      by (by rewrite <- !app_assoc).
    by apply ntohs_be16. }
  rewrite E1, E2. destruct outs as [[] [] [] []]; reflexivity.
Qed.

Lemma icmp_print_safe b o length leftpad :
  0 <= o -> (8 <= length -> o + 8 <= len b) ->
  exists s, icmp_print b (Some o) length leftpad = Ok s.
Proof.
  intros Ho Hl. unfold icmp_print, sizeof_icmp_hdr. cbv zeta.
  destruct (Z.ltb_spec length 8); [solve_out|]. specialize (Hl ltac:(lia)).
  unfold icmp.type, icmp.code, icmp.id, icmp.sequence. read_fields. solve_out.
Qed.

(* ------------------------------------------------------------------ *)
(** ** Properties *)

(** The echo builders write the 8 header bytes with a checksum that makes
    the header's one's complement sum valid, and icmp_parse of the built header
    reports the type, code 0, identifier and sequence number through every
    non-NULL output parameter. *)
Theorem icmp_build_parse `{Arch} (reply : bool) h m t id sequence length outs :
  len m = 8 -> is_u16 id -> is_u16 sequence -> 8 <= length ->
  let type := if reply then ICMP_ECHO_REPLY else ICMP_ECHO_REQUEST in
  let build := if reply then icmp_build_response else icmp_build_request in
  exists hdr,
    build (h ++ m ++ t) (len h) id sequence = Ok (h ++ hdr ++ t) /\
    len hdr = 8 /\ sum_valid (be_sum hdr) /\
    icmp_parse (h ++ hdr ++ t) (Some (len h)) length outs =
      Ok (true, IcmpOut (const type <$> out_type outs) (const 0 <$> out_code outs)
            (const id <$> out_id outs) (const sequence <$> out_sequence outs)).
Proof.
  intros Hm Hi Hs Hl type build.
  assert (Ht : is_u8 type) by (unfold type; destruct reply; done).
  exists (icmp_header type (icmp_echo_sum type id sequence) id sequence).
  split; [|split; [done|split]].
  - replace (build (h ++ m ++ t)) with (icmp_build type (h ++ m ++ t))
      by (unfold build, type; by destruct reply).
    by apply icmp_build_spec.
  - by apply icmp_header_sum_valid.
  - by apply icmp_parse_header.
Qed.

Lemma icmp_build_parse_witness :
  exists hdr,
    icmp_build_request (H := AMD64) ([7] ++ replicate 8 9 ++ [5]) 1 0x1234 3
      = Ok ([7] ++ hdr ++ [5]) /\
    len hdr = 8 /\ sum_valid (be_sum hdr) /\
    icmp_parse ([7] ++ hdr ++ [5]) (Some 1) 8 (IcmpOut (Some 0) None (Some 0) (Some 0))
      = Ok (true, IcmpOut (Some 8) None (Some 0x1234) (Some 3)).
Proof.
  apply (icmp_build_parse (H := AMD64) false [7] (replicate 8 9) [5] 0x1234 3 8
    (IcmpOut (Some 0) None (Some 0) (Some 0))); [reflexivity|unfold is_u16; lia..|lia].
Defined.
