(* ===== verification/Ipv4.v ===== *)
(** IPv4 headers (apps/network/ipv4): building, checksumming, verifying, and
    printing a packet with the protocol it carries. *)

From S2P Require Export Udp Icmp.

Open Scope Z_scope.

(** [IPV4(a, b, c, d)]: the address as a host integer. *)
Definition IPV4 (a b c d : Z) : Z :=
  u32 (Z.lor (Z.lor (Z.lor (Z.shiftl a 24) (Z.shiftl b 16)) (Z.shiftl c 8)) d).

(** Field offsets of the packed [ipv4_hdr_t]. *)
Module ip.
Definition version_ihl : Z := 0.
Definition tos : Z := 1.
Definition total_length : Z := 2.
Definition identification : Z := 4.
Definition flags_fragment : Z := 6.
Definition ttl : Z := 8.
Definition protocol : Z := 9.
Definition checksum : Z := 10.
Definition src_ip : Z := 12.
Definition dst_ip : Z := 16.
End ip.

Definition ipv4_print (b : bytes) (packet : option Z) (length leftpad : Z) : out :=
  let too_small := puts (str "[IPv4] Packet too small" ++ nl) in
  match packet with
  | None => too_small
  | Some o =>
      if length <? sizeof_ipv4_hdr then too_small else
      total_len ← ntohs_unaligned b (o + ip.total_length);
      src_ip ← ntohl_unaligned b (o + ip.src_ip);
      dst_ip ← ntohl_unaligned b (o + ip.dst_ip);
      protocol ← rd b (o + ip.protocol);
      ttl ← rd b (o + ip.ttl);
      version_ihl ← rd b (o + ip.version_ihl);
      (puts (pad leftpad ++ str "[IPv4] ") +++ puts (net_print_ip src_ip)
       +++ puts (str " -> ") +++ puts (net_print_ip dst_ip)
       +++ puts (str " proto=") +++ puts (net_print_decimal_u8 protocol)
       +++ puts (str " ttl=") +++ puts (net_print_decimal_u8 ttl)
       +++ puts (str " len=") +++ net_print_decimal_u16 total_len +++ puts nl
       +++ (let ihl := u8 (Z.land version_ihl 0x0F * 4) in
            if length <? ihl then Ok [] else
            let payload := o + ihl in
            let payload_len :=
              if total_len <? length then u64 (total_len - ihl) else length - ihl in
            if protocol =? IPPROTO_TCP then
              tcp_print b (Some payload) payload_len (leftpad + 2)
            else if protocol =? IPPROTO_UDP then
              udp_print b packet length (leftpad + 2)
            else if protocol =? IPPROTO_ICMP then
              icmp_print b (Some payload) payload_len (leftpad + 2)
            else Ok []))%out
  end.

Definition ipv4_checksum `{Arch} (b : bytes) (o : Z) : res Z :=
  sum ← sum_words b o 10;
  sum ← fold_loop fold_fuel sum;
  mret (htons (u16 (Z.lnot sum))).

Definition ipv4_verify_checksum `{Arch} (b : bytes) (o : Z) : res bool :=
  sum ← sum_words b o 10;
  sum ← fold_loop fold_fuel sum;
  mret (Z.land sum 0xFFFF =? 0xFFFF).

Definition ipv4_build_header `{Arch} (b : bytes) (o : Z)
    (src_ip dst_ip protocol payload_length ttl : Z) : res bytes :=
  b ← st8 b (o + ip.version_ihl) 0x45;
  b ← st8 b (o + ip.tos) 0;
  b ← st16 b (o + ip.total_length) (htons (u16 (sizeof_ipv4_hdr + payload_length)));
  b ← st16 b (o + ip.identification) (htons 1);
  b ← st16 b (o + ip.flags_fragment) 0;
  b ← st8 b (o + ip.ttl) ttl;
  b ← st8 b (o + ip.protocol) protocol;
  b ← st16 b (o + ip.checksum) 0;
  b ← st32 b (o + ip.src_ip) src_ip;
  b ← st32 b (o + ip.dst_ip) dst_ip;
  cksum ← ipv4_checksum b o;
  st16 b (o + ip.checksum) cksum.

(* ------------------------------------------------------------------ *)
(** ** Specification *)

(** The 20 bytes of a header without options; addresses are stored as the
    caller has them in memory. *)
Definition ipv4_header (total cksum src_ip dst_ip protocol ttl : Z) : bytes :=
  [0x45; 0] ++ be16 total ++ be16 1 ++ [0; 0; ttl; protocol] ++ be16 cksum
  ++ le32 src_ip ++ le32 dst_ip.

Definition ipv4_sum (total src_ip dst_ip protocol ttl : Z) : Z :=
  65535 - ones (be_sum (ipv4_header total 0 src_ip dst_ip protocol ttl)).

(* ------------------------------------------------------------------ *)
(** ** Lemmas *)

Lemma ipv4_sum_spec `{Arch} h m t :
  is_bytes m -> len m = 20 ->
  sum_words (h ++ m ++ t) (len h) 10 = Ok (be_sum m) /\
  fold_loop fold_fuel (be_sum m) = Ok (ones (be_sum m)) /\ 0 <= ones (be_sum m) <= 65535.
Proof.
  intros Hm Hl. split; [by apply sum_words_spec|].
  pose proof (be_sum_bound m Hm) as Hb. rewrite Hl in Hb.
  change (65535 * ((20 + 1) / 2)) with 655350 in Hb.
  split; [apply fold_loop_ones; unfold is_u32; lia|apply ones_range; lia].
Qed.

Lemma ipv4_checksum_spec `{Arch} h m t :
  is_bytes m -> len m = 20 ->
  ipv4_checksum (h ++ m ++ t) (len h) = Ok (htons (65535 - ones (be_sum m))).
Proof.
  intros Hm Hl. destruct (ipv4_sum_spec h m t Hm Hl) as (E & E' & Hr). unfold ipv4_checksum.
  rewrite E. cbn [mbind res_bind]. rewrite E'. cbn [mbind res_bind mret res_ret].
  by rewrite u16_lnot.
Qed.

(** Verification accepts exactly the headers whose sum is valid. *)
Lemma ipv4_verify_spec `{Arch} h m t :
  is_bytes m -> len m = 20 ->
  ipv4_verify_checksum (h ++ m ++ t) (len h) = Ok (ones (be_sum m) =? 65535).
Proof.
  intros Hm Hl. destruct (ipv4_sum_spec h m t Hm Hl) as (E & E' & Hr).
  unfold ipv4_verify_checksum.
  rewrite E. cbn [mbind res_bind]. rewrite E'. cbn [mbind res_bind mret res_ret].
  by rewrite land_ffff, u16_id by (unfold is_u16; lia).
Qed.

Lemma is_bytes_ipv4_header total ck s d p ttl :
  is_u8 p -> is_u8 ttl -> is_bytes (ipv4_header total ck s d p ttl).
Proof. intros. unfold ipv4_header. solve_bytes. Qed.

Lemma ipv4_header_len total ck s d p ttl : len (ipv4_header total ck s d p ttl) = 20.
Proof. done. Qed.

Lemma ipv4_build_spec `{Arch} h m t src_ip dst_ip protocol n ttl :
  len m = 20 -> is_u8 protocol -> is_u8 ttl ->
  let total := u16 (20 + n) in
  ipv4_build_header (h ++ m ++ t) (len h) src_ip dst_ip protocol n ttl =
  Ok (h ++ ipv4_header total (ipv4_sum total src_ip dst_ip protocol ttl)
             src_ip dst_ip protocol ttl ++ t).
Proof.
  intros Hm Hp Ht total. unfold ipv4_build_header, ip.version_ihl, ip.tos,
    ip.total_length, ip.identification, ip.flags_fragment, ip.ttl, ip.protocol,
    ip.checksum, ip.src_ip, ip.dst_ip, sizeof_ipv4_hdr.
  rewrite Z.add_0_r. unfold st16. fold total.
  rewrite (le16_htons total), (le16_htons 1) by (done || apply u16_range).
  merge_stores. rewrite store_ok by (by rewrite Hm). cbn [mbind res_bind].
  rewrite (u8_id ttl), (u8_id protocol) by done.
  set (m0 := u8 69 :: _).
  assert (Em : m0 = ipv4_header total 0 src_ip dst_ip protocol ttl) by reflexivity.
  rewrite Em, ipv4_checksum_spec by (done || by apply is_bytes_ipv4_header).
  cbn [mbind res_bind]. fold (ipv4_sum total src_ip dst_ip protocol ttl).
  rewrite le16_htons.
  2:{ unfold ipv4_sum, is_u16.
      destruct (ipv4_sum_spec [] (ipv4_header total 0 src_ip dst_ip protocol ttl) []);
        [by apply is_bytes_ipv4_header|done|lia]. }
  set (ck := ipv4_sum _ _ _ _ _). unfold ipv4_header.
  set (a := [69; 0] ++ be16 total ++ be16 1 ++ [0; 0; ttl; protocol]).
  replace (len h + 10) with (len (h ++ a)) by (unfold a; solve_len).
  pose proof (store_ok (h ++ a) (be16 0) ((le32 src_ip ++ le32 dst_ip) ++ t)
    (be16 ck) eq_refl) as He.
  subst a. repeat rewrite <- app_assoc in *. exact He.
Qed.

Lemma ipv4_header_sum_valid total src_ip dst_ip protocol ttl :
  is_u8 protocol -> is_u8 ttl ->
  ones (be_sum (ipv4_header total (ipv4_sum total src_ip dst_ip protocol ttl)
                  src_ip dst_ip protocol ttl)) = 65535.
Proof.
  intros Hp Ht.
  apply (be_sum_complete 0
    ([69; 0] ++ be16 total ++ be16 1 ++ [0; 0; ttl; protocol]) (le32 src_ip ++ le32 dst_ip));
    [by exists 5%nat|solve_bytes|solve_bytes|done].
Qed.

Lemma ntohs_range b o v : is_bytes b -> ntohs_unaligned b o = Ok v -> is_u16 v.
Proof.
  intros Hb. unfold ntohs_unaligned.
  destruct (rd b o) as [b0| |] eqn:E0; [|done..].
  destruct (rd b (o + 1)) as [b1| |] eqn:E1; [|done..]. cbn. intros [= <-].
  assert (is_u8 b0) by eauto using is_bytes_rd.
  assert (is_u8 b1) by eauto using is_bytes_rd.
  rewrite lor_be2 by done. by apply of_le2_range.
Qed.

(** ipv4_print stays inside the packet when a total length below the frame's
    length covers at least the header's own length. *)
Definition ipv4_length_ok (b : bytes) (o length : Z) : Prop :=
  exists total_len v,
    ntohs_unaligned b (o + ip.total_length) = Ok total_len /\
    rd b (o + ip.version_ihl) = Ok v /\
    (total_len < length -> u8 (Z.land v 0x0F * 4) <= total_len).

Lemma ipv4_print_safe_at b o length leftpad :
  is_bytes b -> 0 <= o -> o + length <= len b -> length + 16 < 2 ^ 64 ->
  (20 <= length -> ipv4_length_ok b o length) ->
  exists s, ipv4_print b (Some o) length leftpad = Ok s.
Proof.
  intros Hb Ho Hl Hw Hok. unfold ipv4_print, sizeof_ipv4_hdr. cbv zeta.
  destruct (Z.ltb_spec length 20); [solve_out|].
  destruct (Hok ltac:(lia)) as (total & v & Et & Ev & Hc). rewrite Et.
  pose proof (ntohs_range _ _ _ Hb Et) as Ht. unfold is_u16 in Ht. cbn [mbind res_bind].
  unfold ip.ttl, ip.protocol, ip.src_ip, ip.dst_ip. read_fields. rewrite Ev.
  cbn [mbind res_bind]. pose proof (u8_range (Z.land v 15 * 4)) as Hi.
  change (Z.land v 0x0F) with (Z.land v 15) in Hc.
  set (ihl := u8 _) in *. unfold is_u8 in Hi. solve_out.
  destruct (Z.ltb_spec length ihl); [solve_out|].
  set (payload_len := if total <? length then u64 (total - ihl) else length - ihl).
  assert (Hpl : 0 <= payload_len /\ ihl + payload_len <= length).
  { unfold payload_len. destruct (Z.ltb_spec total length); [|lia].
    rewrite u64_id by (unfold is_u64; lia). lia. }
  case_match; [apply tcp_print_safe; lia|].
  case_match; [apply udp_print_safe; lia|].
  case_match; [apply icmp_print_safe; lia|by eexists].
Qed.

(* ------------------------------------------------------------------ *)
(** ** Properties *)

(** C11: ipv4_build_header writes exactly the 20 header bytes (total length
    reduced to 16 bits), ipv4_verify_checksum accepts them, and it rejects the
    header as soon as any one of its bytes is replaced by a different one. *)
Theorem ipv4_build_verify `{Arch} h m t src_ip dst_ip protocol payload_length ttl :
  len m = 20 -> is_u8 protocol -> is_u8 ttl ->
  exists cksum,
    let hdr := ipv4_header (u16 (20 + payload_length)) cksum src_ip dst_ip protocol ttl in
    ipv4_build_header (h ++ m ++ t) (len h) src_ip dst_ip protocol payload_length ttl
      = Ok (h ++ hdr ++ t) /\
    ipv4_verify_checksum (h ++ hdr ++ t) (len h) = Ok true /\
    (forall a x y c, hdr = a ++ x :: c -> is_u8 y -> x <> y ->
       ipv4_verify_checksum (h ++ (a ++ y :: c) ++ t) (len h) = Ok false).
Proof.
  intros Hm Hp Ht. eexists. cbv zeta. rewrite ipv4_build_spec by done.
  split; [reflexivity|]. set (total := u16 (20 + payload_length)).
  set (ck := ipv4_sum _ _ _ _ _).
  assert (Hb : is_bytes (ipv4_header total ck src_ip dst_ip protocol ttl))
    by (by apply is_bytes_ipv4_header).
  assert (Hv : sum_valid (be_sum (ipv4_header total ck src_ip dst_ip protocol ttl)))
    by (by apply ipv4_header_sum_valid).
  split.
  - rewrite ipv4_verify_spec by done. by rewrite Hv.
  - intros a x y c E Hy Hne.
    assert (Hl : len (a ++ x :: c) = 20) by (by rewrite <- E). rewrite E in *.
    assert (is_bytes (a ++ y :: c)).
    { apply is_bytes_app in Hb as [Ha Hc]. inversion_clear Hc. solve_bytes. }
    rewrite ipv4_verify_spec; [|done|by rewrite len_app, len_cons in *].
    pose proof (sum_valid_byte a x y c Hb Hy Hne Hv) as Hn. unfold sum_valid in Hn.
    destruct (Z.eqb_spec (ones (be_sum (a ++ y :: c))) 65535); done.
Qed.

Lemma ipv4_build_verify_witness :
  exists cksum,
    let hdr := ipv4_header 60 cksum 0x0F02000A 0x0202000A IPPROTO_TCP 64 in
    ipv4_build_header (H := ARM64) ([] ++ replicate 20 0 ++ []) 0 0x0F02000A 0x0202000A
      IPPROTO_TCP 40 64 = Ok ([] ++ hdr ++ []) /\
    ipv4_verify_checksum (H := ARM64) ([] ++ hdr ++ []) 0 = Ok true /\
    (forall a x y c, hdr = a ++ x :: c -> is_u8 y -> x <> y ->
       ipv4_verify_checksum (H := ARM64) ([] ++ (a ++ y :: c) ++ []) 0 = Ok false).
Proof.
  apply (ipv4_build_verify (H := ARM64) [] (replicate 20 0) [] 0x0F02000A 0x0202000A
    IPPROTO_TCP 40 64); [reflexivity|unfold is_u8, IPPROTO_TCP; lia|unfold is_u8; lia].
Defined.
