(* ===== verification/Arp.v ===== *)
(** ARP over Ethernet (apps/network/arp): building requests and replies,
    parsing, printing. *)

From S2P Require Export Checksum.

Open Scope Z_scope.

Definition ETH_P_ARP : Z := 0x0806.
Definition ETH_P_IP : Z := 0x0800.
Definition ARP_HW_ETHER : Z := 1.
Definition ARP_OP_REQUEST : Z := 1.
Definition ARP_OP_REPLY : Z := 2.
Definition ARP_PACKET_SIZE : Z := 42.
Definition sizeof_eth_hdr : Z := 14.
Definition sizeof_arp_hdr : Z := 28.

(** Field offsets of the packed [eth_hdr_t] and [arp_hdr_t]. *)
Module eth.
Definition dst : Z := 0.
Definition src : Z := 6.
Definition type : Z := 12.
End eth.
Module arp.
Definition hw_type : Z := 0.
Definition proto_type : Z := 2.
Definition hw_len : Z := 4.
Definition proto_len : Z := 5.
Definition opcode : Z := 6.
Definition sender_mac : Z := 8.
Definition sender_ip : Z := 14.
Definition target_mac : Z := 18.
Definition target_ip : Z := 24.
End arp.

Definition arp_print `{Arch} (b : bytes) (arp : option Z) (leftpad : Z) : out :=
  match arp with
  | None => Ok []
  | Some a =>
      w ← ld16 b (a + arp.opcode);
      let opcode := ntohs w in
      (puts (pad leftpad) +++
       (if opcode =? ARP_OP_REQUEST then
          tip ← ntohl_unaligned b (a + arp.target_ip);
          sip ← ntohl_unaligned b (a + arp.sender_ip);
          puts (str "ARP Request: who-has " ++ net_print_ip tip)
          +++ puts (str " tell " ++ net_print_ip sip ++ str " (")
          +++ net_print_mac b (a + arp.sender_mac) +++ puts (str ")" ++ nl)
        else if opcode =? ARP_OP_REPLY then
          sip ← ntohl_unaligned b (a + arp.sender_ip);
          puts (str "ARP Reply: " ++ net_print_ip sip ++ str " is-at ")
          +++ net_print_mac b (a + arp.sender_mac) +++ puts nl
        else puts (str "ARP opcode=" ++ put_hex16 opcode ++ nl)))%out
  end.

(** [BROADCAST_MAC]. *)
Definition broadcast : bytes := [0xFF; 0xFF; 0xFF; 0xFF; 0xFF; 0xFF].

(** The two MAC fields at [o1] and [o2] written byte by byte. *)
Definition copy_macs (b : bytes) (o1 : Z) (m1 : bytes) (o2 : Z) (m2 : bytes) : res bytes :=
  for_n 6 (fun i b =>
    x ← rd m1 (Z.of_nat i); b ← wr b (o1 + Z.of_nat i) x;
    y ← rd m2 (Z.of_nat i); wr b (o2 + Z.of_nat i) y) b.

Definition arp_build_request `{Arch} (b : bytes) (packet : Z)
    (sender_mac : bytes) (sender_ip target_ip : Z) : res bytes :=
  let eth := packet in
  let arp := packet + sizeof_eth_hdr in
  b ← copy_macs b (eth + eth.dst) broadcast (eth + eth.src) sender_mac;
  b ← st16 b (eth + eth.type) (htons ETH_P_ARP);
  b ← st16 b (arp + arp.hw_type) (htons ARP_HW_ETHER);
  b ← st16 b (arp + arp.proto_type) (htons ETH_P_IP);
  b ← st8 b (arp + arp.hw_len) 6;
  b ← st8 b (arp + arp.proto_len) 4;
  b ← st16 b (arp + arp.opcode) (htons ARP_OP_REQUEST);
  b ← copy_macs b (arp + arp.sender_mac) sender_mac (arp + arp.target_mac) (replicate 6 0);
  b ← write_htonl_unaligned b (arp + arp.sender_ip) sender_ip;
  write_htonl_unaligned b (arp + arp.target_ip) target_ip.

Definition arp_build_reply `{Arch} (b : bytes) (packet : Z)
    (sender_mac : bytes) (sender_ip : Z) (target_mac : bytes) (target_ip : Z) : res bytes :=
  let eth := packet in
  let arp := packet + sizeof_eth_hdr in
  b ← copy_macs b (eth + eth.dst) target_mac (eth + eth.src) sender_mac;
  b ← st16 b (eth + eth.type) (htons ETH_P_ARP);
  b ← st16 b (arp + arp.hw_type) (htons ARP_HW_ETHER);
  b ← st16 b (arp + arp.proto_type) (htons ETH_P_IP);
  b ← st8 b (arp + arp.hw_len) 6;
  b ← st8 b (arp + arp.proto_len) 4;
  b ← st16 b (arp + arp.opcode) (htons ARP_OP_REPLY);
  b ← copy_macs b (arp + arp.sender_mac) sender_mac (arp + arp.target_mac) target_mac;
  b ← write_htonl_unaligned b (arp + arp.sender_ip) sender_ip;
  write_htonl_unaligned b (arp + arp.target_ip) target_ip.

(** The offset of the ARP header in the packet, or [None] for NULL; [out_arp]
    is the optional object the header is copied to. *)
Definition arp_parse (b : bytes) (packet length : Z) (out_arp : option bytes)
    : res (option Z * option bytes) :=
  if length <? ARP_PACKET_SIZE then Ok (None, out_arp) else
  let arp := packet + sizeof_eth_hdr in
  out_arp ← match out_arp with
            | None => Ok None
            | Some dst => x ← load b arp sizeof_arp_hdr; d ← store dst 0 x; Ok (Some d)
            end;
  Ok (Some arp, out_arp).

(* ------------------------------------------------------------------ *)
(** ** Specification *)

(** What follows the MAC addresses of the Ethernet header. *)
Definition arp_body (opcode : Z) (sender_mac : bytes) (sender_ip : Z)
    (target_mac : bytes) (target_ip : Z) : bytes :=
  be16 ETH_P_ARP ++ be16 ARP_HW_ETHER ++ be16 ETH_P_IP ++ [6; 4]
  ++ be16 opcode ++ sender_mac ++ be32 sender_ip ++ target_mac ++ be32 target_ip.

(** The 42 bytes of an ARP packet with its Ethernet header. *)
Definition arp_packet (dst src : bytes) (opcode : Z) (sender_mac : bytes) (sender_ip : Z)
    (target_mac : bytes) (target_ip : Z) : bytes :=
  dst ++ src ++ arp_body opcode sender_mac sender_ip target_mac target_ip.

(* ------------------------------------------------------------------ *)
(** ** Lemmas *)

Lemma store_cons_at {A} (h : list A) x t y : store (h ++ x :: t) (len h) [y] = Ok (h ++ y :: t).
Proof. exact (store_ok h [x] t [y] eq_refl). Qed.

(** [n] iterations over two fields that are [g] apart. *)
Lemma copy_macs_n n h g t m1 m2 u1 u2 o1 o2 :
  length m1 = 6%nat -> length m2 = 6%nat -> length u1 = 6%nat -> length u2 = 6%nat ->
  o1 = len h -> o2 = o1 + 6 + len g -> (n <= 6)%nat ->
  for_n n (fun i (b : bytes) =>
    x ← rd m1 (Z.of_nat i); b ← wr b (o1 + Z.of_nat i) x;
    y ← rd m2 (Z.of_nat i); wr b (o2 + Z.of_nat i) y) (h ++ u1 ++ g ++ u2 ++ t)
  = Ok (h ++ (take n m1 ++ drop n u1) ++ g ++ (take n m2 ++ drop n u2) ++ t).
Proof.
  intros Hm1 Hm2 Hu1 Hu2 -> -> Hn. unfold for_n. induction n as [|n IH]; [done|].
  rewrite seq_S, foldl_snoc, IH by lia. cbn [mbind res_bind Nat.add].
  destruct (lookup_lt_is_Some_2 m1 n) as [x Hx]; [lia|].
  destruct (lookup_lt_is_Some_2 m2 n) as [y Hy]; [lia|].
  destruct (lookup_lt_is_Some_2 u1 n) as [u Hu]; [lia|].
  destruct (lookup_lt_is_Some_2 u2 n) as [v Hv]; [lia|].
  rewrite (take_S_r m1 n x), (take_S_r m2 n y), (drop_S u1 u n), (drop_S u2 v n) by done.
  assert (Ex : rd m1 (Z.of_nat n) = Ok x) by (apply rd_lookup; rewrite Nat2Z.id; auto with lia).
  assert (Ey : rd m2 (Z.of_nat n) = Ok y) by (apply rd_lookup; rewrite Nat2Z.id; auto with lia).
  rewrite Ex. cbn [mbind res_bind]. unfold wr.
  replace (len h + Z.of_nat n) with (len (h ++ take n m1))
    by (rewrite len_app; unfold len; rewrite length_take; lia).
  rewrite <- !app_assoc, (app_assoc h (take n m1)). cbn [app].
  rewrite store_cons_at. cbn [mbind res_bind]. rewrite Ey. cbn [mbind res_bind].
  set (p := (h ++ take n m1) ++ x :: drop (S n) u1 ++ g ++ take n m2).
  replace (len h + 6 + len g + Z.of_nat n) with (len p).
  2:{ unfold p. rewrite !len_app, len_cons, !len_app. unfold len.
      rewrite !length_take, length_drop. lia. }
  pose proof (store_cons_at p v (drop (S n) u2 ++ t) y) as Hs. unfold p in *.
  repeat (rewrite <- app_assoc in Hs; cbn [app] in Hs).
  repeat (rewrite <- app_assoc; cbn [app]). exact Hs.
Qed.

Lemma copy_macs_spec h g t m1 m2 u1 u2 o1 o2 :
  len m1 = 6 -> len m2 = 6 -> len u1 = 6 -> len u2 = 6 ->
  o1 = len h -> o2 = o1 + 6 + len g ->
  copy_macs (h ++ u1 ++ g ++ u2 ++ t) o1 m1 o2 m2 = Ok (h ++ m1 ++ g ++ m2 ++ t).
Proof.
  unfold len at 1 2 3 4. intros. unfold copy_macs.
  rewrite (copy_macs_n 6 h g t m1 m2 u1 u2) by (done || lia).
  rewrite !firstn_all2, !skipn_all2 by lia. by rewrite !app_nil_r.
Qed.

(** The body shared by the two builders. *)
Definition arp_build `{Arch} (b : bytes) (packet : Z) (dst : bytes) (opcode : Z)
    (sender_mac : bytes) (sender_ip : Z) (target_mac : bytes) (target_ip : Z) : res bytes :=
  let eth := packet in
  let arp := packet + sizeof_eth_hdr in
  b ← copy_macs b (eth + eth.dst) dst (eth + eth.src) sender_mac;
  b ← st16 b (eth + eth.type) (htons ETH_P_ARP);
  b ← st16 b (arp + arp.hw_type) (htons ARP_HW_ETHER);
  b ← st16 b (arp + arp.proto_type) (htons ETH_P_IP);
  b ← st8 b (arp + arp.hw_len) 6;
  b ← st8 b (arp + arp.proto_len) 4;
  b ← st16 b (arp + arp.opcode) (htons opcode);
  b ← copy_macs b (arp + arp.sender_mac) sender_mac (arp + arp.target_mac) target_mac;
  b ← write_htonl_unaligned b (arp + arp.sender_ip) sender_ip;
  write_htonl_unaligned b (arp + arp.target_ip) target_ip.

Lemma arp_build_spec `{Arch} h m t dst opcode smac sip tmac tip :
  len m = 42 -> len dst = 6 -> len smac = 6 -> len tmac = 6 -> is_u16 opcode ->
  arp_build (h ++ m ++ t) (len h) dst opcode smac sip tmac tip =
  Ok (h ++ arp_packet dst smac opcode smac sip tmac tip ++ t).
Proof.
  intros Hm Hd Hs Ht Hop.
  destruct (split_at m 6 6) as (u1 & u2 & r & -> & Hu1 & Hu2); [lia..|].
  rewrite !len_app in Hm.
  destruct (split_at r 10 6) as (w & s1 & r' & -> & Hw & Hs1); [lia..|].
  rewrite !len_app in Hm.
  destruct (split_at r' 4 6) as (i1 & t1 & i2 & -> & Hi1 & Ht1); [lia..|].
  rewrite !len_app in Hm.
  unfold arp_build, eth.dst, eth.src, eth.type, arp.hw_type, arp.proto_type, arp.hw_len,
    arp.proto_len, arp.opcode, arp.sender_mac, arp.sender_ip, arp.target_mac,
    arp.target_ip, sizeof_eth_hdr. rewrite !Z.add_0_r, <- !app_assoc.
  pose proof (copy_macs_spec h [] (w ++ s1 ++ i1 ++ t1 ++ i2 ++ t) dst smac u1 u2
    (len h) (len h + 6) Hd Hs Hu1 Hu2 eq_refl) as E1.
  cbn [app] in E1. rewrite E1 by (rewrite len_nil; lia). cbn [mbind res_bind].
  unfold st16. rewrite !le16_htons by done. merge_stores.
  rewrite (app_assoc h), (app_assoc (h ++ dst)).
  rewrite store_ok' by (rewrite ?len_app, ?Hw; solve_len || done).
  cbn [mbind res_bind].
  set (w' := be16 ETH_P_ARP ++ be16 ARP_HW_ETHER ++ be16 ETH_P_IP ++ [6; 4] ++ be16 opcode).
  match goal with |- context [((h ++ dst) ++ smac) ++ ?x ++ s1 ++ _] => change x with w' end.
  assert (Hw' : len w' = 10) by done.
  rewrite (app_assoc _ w').
  rewrite copy_macs_spec by (done || (rewrite ?len_app; lia)).
  cbn [mbind res_bind]. setoid_rewrite write_htonl_unaligned_be. rewrite (app_assoc _ smac).
  rewrite store_ok' by (rewrite ?len_app, ?be32_len; lia). cbn [mbind res_bind].
  rewrite (app_assoc _ (be32 sip)), (app_assoc _ tmac).
  rewrite store_ok' by (rewrite ?len_app, ?be32_len; lia).
  unfold arp_packet, arp_body. by rewrite <- !app_assoc.
Qed.

Lemma arp_build_request_spec `{Arch} h m t smac sip tip :
  len m = 42 -> len smac = 6 ->
  arp_build_request (h ++ m ++ t) (len h) smac sip tip =
  Ok (h ++ arp_packet broadcast smac ARP_OP_REQUEST smac sip (replicate 6 0) tip ++ t).
Proof. intros. by apply (arp_build_spec h m t broadcast ARP_OP_REQUEST). Qed.

Lemma arp_build_reply_spec `{Arch} h m t smac sip tmac tip :
  len m = 42 -> len smac = 6 -> len tmac = 6 ->
  arp_build_reply (h ++ m ++ t) (len h) smac sip tmac tip =
  Ok (h ++ arp_packet tmac smac ARP_OP_REPLY smac sip tmac tip ++ t).
Proof. intros. by apply (arp_build_spec h m t tmac ARP_OP_REPLY). Qed.

Lemma arp_packet_len dst src op smac sip tmac tip :
  len dst = 6 -> len src = 6 -> len smac = 6 -> len tmac = 6 ->
  len (arp_packet dst src op smac sip tmac tip) = 42.
Proof. intros H1 H2 H3 H4. unfold arp_packet, arp_body. rewrite !len_app, H1, H2, H3, H4. done. Qed.

(** Printing reads at most the 28 bytes of the header. *)
Lemma arp_print_safe `{Arch} b a leftpad :
  0 <= a -> a + 28 <= len b -> exists s, arp_print b (Some a) leftpad = Ok s.
Proof.
  intros Ha Hl. unfold arp_print, arp.opcode, arp.target_ip, arp.sender_ip, arp.sender_mac.
  unfold ld16.
  destruct (rd_in_range b (a + 6)) as (b0 & -> & _); [lia|].
  destruct (rd_in_range b (a + 6 + 1)) as (b1 & -> & _); [lia|].
  cbn [mbind res_bind mret res_ret]. cbv zeta. solve_out.
  case_match; [|case_match]; read_fields; solve_out; apply net_print_mac_safe; lia.
Qed.

(** The fields of a built packet, as the readers find them. *)
Lemma arp_packet_fields `{Arch} h t dst src op smac sip tmac tip :
  len dst = 6 -> len src = 6 -> len smac = 6 -> len tmac = 6 ->
  is_u16 op -> is_u32 sip -> is_u32 tip ->
  let b := h ++ arp_packet dst src op smac sip tmac tip ++ t in
  let a := len h + 14 in
  (w ← ld16 b (a + arp.opcode); mret (ntohs w)) = Ok op /\
  ntohl_unaligned b (a + arp.sender_ip) = Ok sip /\
  ntohl_unaligned b (a + arp.target_ip) = Ok tip /\
  net_print_mac b (a + arp.sender_mac) = net_print_mac smac 0.
Proof.
  intros Hd Hs Hm Ht Hop Hsip Htip b a.
  assert (E : forall p x q, arp_packet dst src op smac sip tmac tip = p ++ x ++ q ->
    b = (h ++ p) ++ x ++ (q ++ t)) by (intros p x q E; unfold b; rewrite E; by rewrite <- !app_assoc).
  unfold a, arp.opcode, arp.sender_ip, arp.target_ip, arp.sender_mac.
  set (p0 := dst ++ src ++ be16 ETH_P_ARP ++ be16 ARP_HW_ETHER ++ be16 ETH_P_IP ++ [6; 4]).
  assert (L0 : len p0 = 20) by (unfold p0; rewrite !len_app, Hd, Hs; done).
  split_and!.
  - rewrite (E p0 (be16 op) (smac ++ be32 sip ++ tmac ++ be32 tip))
      by (unfold arp_packet, arp_body, p0; by rewrite <- !app_assoc).
    destruct (to_le2 op Hop) as (b0 & b1 & -> & ? & ?).
    rewrite be16_of_le2 by done. unfold ld16.
    replace (len h + 14 + 6) with (len (h ++ p0) + 0) by (rewrite len_app; lia).
    rewrite <- Z.add_assoc, !rd_mid by (done || cbn; lia).
    change (rd [b1; b0] 0) with (Ok b1). change (rd [b1; b0] (0 + 1)) with (Ok b0).
    cbn [mbind res_bind mret res_ret]. change (b1 + b0 * 2 ^ 8) with (of_le2 b1 b0).
    by rewrite ntohs_swap, bswap16_of_le2 by (done || by apply of_le2_range).
  - rewrite (E (p0 ++ be16 op ++ smac) (be32 sip) (tmac ++ be32 tip))
      by (unfold arp_packet, arp_body, p0; by rewrite <- !app_assoc).
    apply ntohl_be32; [|done]. rewrite !len_app, be16_len. lia.
  - rewrite (E (p0 ++ be16 op ++ smac ++ be32 sip ++ tmac) (be32 tip) [])
      by (unfold arp_packet, arp_body, p0; by rewrite <- !app_assoc).
    apply ntohl_be32; [|done]. rewrite !len_app, be16_len, be32_len. lia.
  - rewrite (E (p0 ++ be16 op) smac (be32 sip ++ tmac ++ be32 tip))
      by (unfold arp_packet, arp_body, p0; by rewrite <- !app_assoc).
    apply net_print_mac_mid; [|done]. rewrite !len_app, be16_len. lia.
Qed.

(* ------------------------------------------------------------------ *)
(** ** Properties *)

(** C16: A reply built for a requester is addressed to it, arp_parse finds its ARP
    header, and arp_print of that header prints the sender's address and MAC; a
    request is broadcast and printed as who-has.  A frame shorter than 42 bytes is
    refused by arp_parse. *)
Theorem arp_build_print `{Arch} h m t smac sip tmac tip length leftpad :
  len m = ARP_PACKET_SIZE -> len smac = 6 -> len tmac = 6 -> is_u32 sip -> is_u32 tip ->
  ARP_PACKET_SIZE <= length ->
  (exists b r, arp_build_reply (h ++ m ++ t) (len h) smac sip tmac tip = Ok b /\
     b = h ++ (tmac ++ smac ++ r) ++ t /\
     arp_parse b (len h) length None = Ok (Some (len h + 14), None) /\
     arp_print b (Some (len h + 14)) leftpad =
       (puts (pad leftpad) +++ puts (str "ARP Reply: " ++ net_print_ip sip ++ str " is-at ")
        +++ net_print_mac smac 0 +++ puts nl)%out) /\
  (exists b r, arp_build_request (h ++ m ++ t) (len h) smac sip tip = Ok b /\
     b = h ++ (broadcast ++ smac ++ r) ++ t /\
     arp_parse b (len h) length None = Ok (Some (len h + 14), None) /\
     arp_print b (Some (len h + 14)) leftpad =
       (puts (pad leftpad) +++ puts (str "ARP Request: who-has " ++ net_print_ip tip)
        +++ puts (str " tell " ++ net_print_ip sip ++ str " (")
        +++ net_print_mac smac 0 +++ puts (str ")" ++ nl))%out).
Proof.
  intros Hm Hs Ht Hsip Htip Hl. unfold ARP_PACKET_SIZE in *.
  assert (Hp : forall b, arp_parse b (len h) length None = Ok (Some (len h + 14), None)).
  { intros b. unfold arp_parse, ARP_PACKET_SIZE.
    destruct (Z.ltb_spec length 42); [lia|done]. }
  split.
  - rewrite arp_build_reply_spec by done.
    destruct (arp_packet_fields h t tmac smac ARP_OP_REPLY smac sip tmac tip)
      as (E1 & E2 & E3 & E4); [done..|].
    eexists _, _. split; [reflexivity|]. split; [reflexivity|].
    split; [apply Hp|]. unfold arp_print.
    destruct (ld16 _ _); [|done..]. cbn [mbind res_bind mret res_ret] in *. injection E1 as ->.
    by rewrite E2, E4.
  - rewrite arp_build_request_spec by done.
    destruct (arp_packet_fields h t broadcast smac ARP_OP_REQUEST smac sip (replicate 6 0) tip)
      as (E1 & E2 & E3 & E4); [done..|].
    eexists _, _. split; [reflexivity|]. split; [reflexivity|].
    split; [apply Hp|]. unfold arp_print.
    destruct (ld16 _ _); [|done..]. cbn [mbind res_bind mret res_ret] in *. injection E1 as ->.
    by rewrite E2, E3, E4.
Qed.

Lemma arp_build_print_witness :
  let mac := [0x52; 0x54; 0; 0x12; 0x34; 0x56] in
  let tmac := [2; 4; 6; 8; 10; 12] in
  (exists b r, arp_build_reply (H := RISCV) ([] ++ replicate 42 0 ++ []) 0 mac 0x0A00020F
       tmac 0x0A000202 = Ok b /\
     b = [] ++ (tmac ++ mac ++ r) ++ [] /\
     arp_parse b 0 42 None = Ok (Some 14, None) /\
     arp_print (H := RISCV) b (Some 14) 2 =
       (puts (pad 2) +++ puts (str "ARP Reply: " ++ net_print_ip 0x0A00020F ++ str " is-at ")
        +++ net_print_mac mac 0 +++ puts nl)%out) /\
  (exists b r, arp_build_request (H := RISCV) ([] ++ replicate 42 0 ++ []) 0 mac 0x0A00020F
       0x0A000202 = Ok b /\
     b = [] ++ (broadcast ++ mac ++ r) ++ [] /\
     arp_parse b 0 42 None = Ok (Some 14, None) /\
     arp_print (H := RISCV) b (Some 14) 2 =
       (puts (pad 2) +++ puts (str "ARP Request: who-has " ++ net_print_ip 0x0A000202)
        +++ puts (str " tell " ++ net_print_ip 0x0A00020F ++ str " (")
        +++ net_print_mac mac 0 +++ puts (str ")" ++ nl))%out).
Proof.
  apply (arp_build_print (H := RISCV) [] (replicate 42 0) [] [0x52; 0x54; 0; 0x12; 0x34; 0x56]
    0x0A00020F [2; 4; 6; 8; 10; 12] 0x0A000202 42 2);
    [reflexivity|reflexivity|reflexivity|unfold is_u32; lia|unfold is_u32; lia|
     unfold ARP_PACKET_SIZE; lia].
Defined.
