(* ===== verification/Ethernet.v ===== *)
(** Printing an Ethernet frame with what it carries (apps/network/ethernet). *)

From S2P Require Export Ipv4 Arp.

Open Scope Z_scope.

Section ethernet.
  Context `{Arch}.
  (** A resource and the tag resource_print_tag (kernel/resources) prints for it. *)
  Context {R : Type} (resource_print_tag : R -> out).

Definition ethernet_print (b : bytes) (frame : option Z) (length : Z)
    (resource : option R) (leftpad : Z) : out :=
  let too_small := puts (str "Ethernet frame too small" ++ nl) in
  match frame with
  | None => too_small
  | Some o =>
      if length <? sizeof_eth_hdr then too_small else
      eth_type ← ntohs_unaligned b (o + eth.type);
      ((match resource with
        | Some r => resource_print_tag r +++ puts (str " ")
        | None => Ok [] end)
       +++ puts (pad leftpad ++ str "Ethernet ") +++ net_print_mac b (o + eth.src)
       +++ puts (str " -> ") +++ net_print_mac b (o + eth.dst)
       +++ puts (str " type=0x") +++ puts (put_hex16 eth_type)
       +++ puts (str " len=") +++ puts (net_print_decimal_u8 length) +++ puts nl
       +++ (let payload := o + sizeof_eth_hdr in
            let payload_len := length - sizeof_eth_hdr in
            if eth_type =? ETH_P_ARP then arp_print b (Some payload) (leftpad + 2)
            else if eth_type =? ETH_P_IP then
              ipv4_print b (Some payload) payload_len (leftpad + 2)
            else Ok []))%out
  end.

(** The frames the printer handles without leaving the frame: an ARP frame
    holds a whole ARP header, and the total length of an IPv4 packet that is
    shorter than its frame covers the header's own length. *)
Definition printable (b : bytes) (o length : Z) : Prop :=
  (ntohs_unaligned b (o + eth.type) = Ok ETH_P_ARP -> ARP_PACKET_SIZE <= length) /\
  (ntohs_unaligned b (o + eth.type) = Ok ETH_P_IP -> 20 <= length - sizeof_eth_hdr ->
   ipv4_length_ok b (o + sizeof_eth_hdr) (length - sizeof_eth_hdr)).

(** The printer on a frame inside a larger object. *)
Lemma ethernet_print_ok b o length resource leftpad :
  is_bytes b -> 0 <= o -> o + length <= len b -> length + 16 < 2 ^ 64 ->
  (forall r, exists s, resource_print_tag r = Ok s) -> printable b o length ->
  exists s, ethernet_print b (Some o) length resource leftpad = Ok s.
Proof using.
  intros Hb Ho Hl Hw Hr [Ha Hi]. unfold ethernet_print, sizeof_eth_hdr in *. cbv zeta.
  destruct (Z.ltb_spec length 14); [solve_out|]. unfold eth.type, eth.src, eth.dst in *.
  destruct (ntohs_unaligned b (o + 12)) as [ty| |] eqn:Et.
  2,3: (destruct (ntohs_safe b (o + 12) (fun _ => Ok [])) as [? E]; [lia|lia|by eexists|];
        rewrite Et in E; done).
  cbn [mbind res_bind]. solve_out.
  - destruct resource; [|by eexists]. apply seq_out_safe; [apply Hr|solve_out].
  - apply net_print_mac_safe; lia.
  - apply net_print_mac_safe; lia.
  - destruct (Z.eqb_spec ty ETH_P_ARP) as [->|_].
    { specialize (Ha eq_refl). unfold ARP_PACKET_SIZE in Ha. apply arp_print_safe; lia. }
    destruct (Z.eqb_spec ty ETH_P_IP) as [->|_]; [|by eexists].
    apply ipv4_print_safe_at; [done|lia|lia|lia|auto].
Qed.
(** C14: ethernet_print of a frame held in a buffer completes without reading
    outside the frame, whatever the frame contains, when the frame is
    [printable]: every nested header, flag list and the hexdump of a UDP packet
    stay inside its bytes. *)
Theorem ethernet_print_safe b o length resource leftpad :
  is_bytes b -> 0 <= o -> len b = o + length -> length + 16 < 2 ^ 64 ->
  (forall r, exists s, resource_print_tag r = Ok s) -> printable b o length ->
  exists s, ethernet_print b (Some o) length resource leftpad = Ok s.
Proof using. intros. apply ethernet_print_ok; (done || lia). Qed.
End ethernet.

(** A frame of 14 bytes whose type says ARP, in a buffer of its own size. *)
Definition runt_arp : bytes := replicate 12 0 ++ [0x08; 0x06].
(** A frame carrying 60 bytes of IPv4: TCP, header length 60, total length 20. *)
Definition short_total : bytes :=
  replicate 12 0 ++ [0x08; 0x00] ++ [0x4F; 0; 0; 20] ++ replicate 5 0 ++ [6]
  ++ replicate 50 0.

(** The printer has no length check for an ARP header: a 14-byte ARP frame is
    read past its end.  A total length below the header length makes the
    payload length wrap around, so that the TCP header is read past the end of the
    frame although the payload is empty. *)
Theorem ethernet_print_overread :
  ethernet_print (H := RISCV) (R := unit) (fun _ => Ok []) runt_arp (Some 0) 14 None 0 = UB /\
  len short_total = 74 /\
  ethernet_print (H := RISCV) (R := unit) (fun _ => Ok []) (short_total) (Some 0) 74 None 0 = UB.
Proof. split_and!; vm_compute; reflexivity. Qed.

Lemma ethernet_print_safe_witness :
  exists s, ethernet_print (H := RISCV) (R := unit) (fun _ => Ok (str "[tag]"))
    (replicate 12 1 ++ [0x08; 0x06] ++ replicate 28 0) (Some 0) 42 (Some tt) 0 = Ok s.
Proof.
  apply (ethernet_print_safe (H := RISCV) (R := unit) (fun _ => Ok (str "[tag]"))
    (replicate 12 1 ++ [0x08; 0x06] ++ replicate 28 0) 0 42 (Some tt) 0);
    [repeat constructor; vm_compute; congruence|lia|reflexivity|lia|by eexists|].
  split; [intros _; unfold ARP_PACKET_SIZE; lia|intros E; exfalso; by vm_compute in E].
Defined.
