(* ===== verification/Log.v ===== *)
(** The logging system (common/log.c): a registry of at most 32 tags, the
    global level and at most 16 per-tag overrides parsed from the kernel command
    line.  The static variables are the fields of [log_state]; the array slots
    beyond tag_count and override_count are not represented. *)

From S2P Require Export CStr.

Open Scope Z_scope.

Definition MAX_LOG_TAGS : nat := 32.
Definition MAX_OVERRIDES : nat := 16.

(** [log_level_t]. *)
Definition LOG_ERROR : Z := 0.
Definition LOG_WARN : Z := 1.
Definition LOG_INFO : Z := 2.
Definition LOG_DEBUG : Z := 3.

(** [struct log_tag]. *)
Record log_tag := LogTag { tag_name : cstr; tag_level : Z }.

(** An entry of pending_overrides: the name starts the rest of the command
    line and is cut to [ov_name_len] characters. *)
Record override := Override { ov_name : cstr; ov_name_len : nat; ov_level : Z }.

Record log_state := LogState {
  tag_registry : list log_tag;
  global_level : Z;
  global_level_set : bool;
  pending_overrides : list override
}.

Definition log_empty : log_state := LogState [] LOG_INFO false [].

Definition level_names : list cstr := [str "ERROR"; str "WARN"; str "INFO"; str "DEBUG"].

(** -1 when the string is no level. *)
Definition parse_level (s : cstr) (n : nat) : Z :=
  if (n =? 5)%nat && (strncmp s (str "error") 5 =? 0) then LOG_ERROR
  else if (n =? 4)%nat && (strncmp s (str "warn") 4 =? 0) then LOG_WARN
  else if (n =? 4)%nat && (strncmp s (str "info") 4 =? 0) then LOG_INFO
  else if (n =? 5)%nat && (strncmp s (str "debug") 5 =? 0) then LOG_DEBUG
  else -1.

Definition is_ws (c : Z) : bool := (c =? 32) || (c =? 9).

(** [while (s[len] && s[len] != ' ' && s[len] != '\t') len++;] *)
Fixpoint token_len (s : cstr) : nat :=
  match s with
  | [] => 0
  | c :: s => if (c =? 0) || is_ws c then 0 else S (token_len s)
  end.

Definition set_tag_level (l : Z) (t : log_tag) : log_tag := LogTag (tag_name t) l.

(** The first override whose name is the tag's sets its level. *)
Fixpoint apply_overrides_from (ovs : list override) (tag : log_tag) : log_tag :=
  match ovs with
  | [] => tag
  | o :: ovs =>
      if (strlen (tag_name tag) =? ov_name_len o)%nat &&
         (strncmp (tag_name tag) (ov_name o) (ov_name_len o) =? 0)
      then set_tag_level (ov_level o) tag
      else apply_overrides_from ovs tag
  end.

Definition apply_overrides (st : log_state) (tag : log_tag) : log_tag :=
  apply_overrides_from (pending_overrides st) tag.

Fixpoint skip_ws (s : cstr) : cstr :=
  match s with c :: t => if is_ws c then skip_ws t else s | [] => [] end.
Fixpoint skip_token (s : cstr) : cstr :=
  match s with
  | c :: t => if (c =? 0) || is_ws c then s else skip_token t
  | [] => []
  end.
(** The scan of [eq] up to '=', a space, a tab or the end: the number of
    characters passed. *)
Fixpoint name_scan (s : cstr) : nat :=
  match s with
  | [] => 0
  | c :: s => if (c =? 0) || (c =? 61) || is_ws c then 0 else S (name_scan s)
  end.

(** The check for a global level, lines 74 to 89. *)
Definition log_global (st : log_state) (pos : cstr) : log_state :=
  if (strncmp pos (str "log=") 4 =? 0) && negb (ch pos 4 =? 0)
     && negb (ch pos 4 =? 32) && negb (ch pos 4 =? 9)
  then
    let val := drop 4 pos in
    let lvl := parse_level val (token_len val) in
    if 0 <=? lvl then
      LogState
        ((fun t => apply_overrides st (set_tag_level lvl t)) <$> tag_registry st)
        lvl true (pending_overrides st)
    else st
  else st.

(** The check for a per-tag level, lines 91 to 116. *)
Definition log_per_tag (st : log_state) (pos : cstr) : log_state :=
  if strncmp pos (str "log.") 4 =? 0 then
    let tag_start := drop 4 pos in
    let name_len := name_scan tag_start in
    let eq := drop name_len tag_start in
    if (deref eq =? 61) && (0 <? name_len)%nat then
      let val := drop 1 eq in
      let lvl := parse_level val (token_len val) in
      if (0 <=? lvl) && (length (pending_overrides st) <? MAX_OVERRIDES)%nat then
        LogState
          ((fun t =>
              if (strlen (tag_name t) =? name_len)%nat &&
                 (strncmp (tag_name t) tag_start name_len =? 0)
              then set_tag_level lvl t else t) <$> tag_registry st)
          (global_level st) (global_level_set st)
          (pending_overrides st ++ [Override tag_start name_len lvl])
      else st
    else st
  else st.

(** The loop over the tokens of the command line. *)
Fixpoint log_init_loop (fuel : nat) (st : log_state) (pos : cstr) : res log_state :=
  match fuel with
  | O => NoFuel
  | S fuel =>
      if deref pos =? 0 then Ok st else
      let pos := skip_ws pos in
      if deref pos =? 0 then Ok st else
      let st := log_global st pos in
      let st := log_per_tag st pos in
      log_init_loop fuel st (skip_token pos)
  end.

(** [None] is a NULL command line.  Every iteration consumes a character. *)
Definition log_init (st : log_state) (cmdline : option cstr) : res log_state :=
  match cmdline with
  | None => Ok st
  | Some s => log_init_loop (S (length s)) st s
  end.

(** A [log_tag_t *]: NULL or the index of the registry slot. *)
Abbreviation tag_ptr := (option nat).

Definition log_register (st : log_state) (name : cstr) (default_level : Z)
    : tag_ptr * log_state :=
  if (MAX_LOG_TAGS <=? length (tag_registry st))%nat then (None, st) else
  let tag := LogTag name (if global_level_set st then global_level st else default_level) in
  let tag := apply_overrides st tag in
  (Some (length (tag_registry st)),
   LogState (tag_registry st ++ [tag]) (global_level st) (global_level_set st)
     (pending_overrides st)).

(** The tag a pointer designates. *)
Definition get_tag (st : log_state) (p : tag_ptr) : option log_tag :=
  p ≫= fun i => tag_registry st !! i.

Definition log_enabled (tag : option log_tag) (level : Z) : bool :=
  match tag with None => false | Some t => level <=? tag_level t end.

Definition log_prefix (tag : option log_tag) (level : Z) : out :=
  match tag with
  | None => Ok []
  | Some t =>
      if LOG_DEBUG <? level then Ok [] else
      n ← rd level_names level;
      puts (str "[" ++ n ++ str "][" ++ tag_name t ++ str "] ")
  end.

Definition log_msg (tag : option log_tag) (level : Z) (msg : cstr) : out :=
  if negb (log_enabled tag level) then Ok []
  else (log_prefix tag level +++ puts msg)%out.

Definition log_error (tag : option log_tag) (msg : cstr) : out := log_msg tag LOG_ERROR msg.
Definition log_warn (tag : option log_tag) (msg : cstr) : out := log_msg tag LOG_WARN msg.
Definition log_info (tag : option log_tag) (msg : cstr) : out := log_msg tag LOG_INFO msg.
Definition log_debug (tag : option log_tag) (msg : cstr) : out := log_msg tag LOG_DEBUG msg.

(* ------------------------------------------------------------------ *)
(** ** Specification *)

(** The maximal runs of characters that are no space or tab; [cur] is the
    current run, reversed. *)
Fixpoint tokens_from (cur : cstr) (s : cstr) : list cstr :=
  match s with
  | [] => match cur with [] => [] | _ => [rev cur] end
  | c :: s =>
      if is_ws c then
        match cur with [] => tokens_from [] s | _ => rev cur :: tokens_from [] s end
      else tokens_from (c :: cur) s
  end.
Definition tokens (s : cstr) : list cstr := tokens_from [] s.

(** What a token of the command line asks for. *)
Inductive directive := Global (level : Z) | PerTag (name : cstr) (level : Z).

Definition level_of (s : cstr) : option Z :=
  if decide (s = str "error") then Some LOG_ERROR
  else if decide (s = str "warn") then Some LOG_WARN
  else if decide (s = str "info") then Some LOG_INFO
  else if decide (s = str "debug") then Some LOG_DEBUG
  else None.

(** The text before the first '=' and the text after it. *)
Fixpoint cut_eq (s : cstr) : option (cstr * cstr) :=
  match s with
  | [] => None
  | c :: s =>
      if c =? 61 then Some ([], s)
      else '(a, b) ← cut_eq s; Some (c :: a, b)
  end.

Definition directive_of (tok : cstr) : option directive :=
  if decide (take 4 tok = str "log=") then Global <$> level_of (drop 4 tok)
  else if decide (take 4 tok = str "log.") then
    '(name, val) ← cut_eq (drop 4 tok);
    match name with [] => None | _ => PerTag name <$> level_of val end
  else None.

Definition directives (cmdline : cstr) : list directive :=
  omap directive_of (tokens cmdline).

Definition globals (ds : list directive) : list Z :=
  omap (fun d => match d with Global l => Some l | _ => None end) ds.
Definition per_tags (ds : list directive) : list (cstr * Z) :=
  omap (fun d => match d with PerTag n l => Some (n, l) | _ => None end) ds.

(** The level of a tag registered after the command line was parsed: the first
    override of that name among the first 16 overrides, else the last global
    level, else the tag's default. *)
Definition level_for (ds : list directive) (name : cstr) (default : Z) : Z :=
  match list_find (fun p => p.1 = name) (take MAX_OVERRIDES (per_tags ds)) with
  | Some (_, (_, l)) => l
  | None => match last (globals ds) with Some l => l | None => default end
  end.

(* ------------------------------------------------------------------ *)
(** ** Lemmas on strings and tokens *)

(** Characters of a token: no NUL, space or tab. *)
Definition plain (s : cstr) : Prop := Forall (fun c => c <> 0 /\ is_ws c = false) s.
(** What can follow a token. *)
Definition at_break (s : cstr) : Prop :=
  match s with [] => True | c :: _ => is_ws c = true end.

Lemma plain_no_nul s : plain s -> no_nul s.
Proof. intros H. eapply Forall_impl; [exact H|]. by intros c [? _]. Qed.

Lemma at_break_deref s : at_break s -> deref s = 0 \/ is_ws (deref s) = true.
Proof. destruct s; cbn; auto. Qed.

Lemma strncmp_take s1 : forall s2,
  no_nul s1 -> strncmp s1 s2 (length s1) = 0 <-> s1 = take (length s1) s2.
Proof.
  induction s1 as [|c s1 IH]; intros s2 H1; [done|]. inversion_clear H1 as [|? ? Hc H1'].
  cbn [length strncmp deref tail]. destruct (Z.eqb_spec c 0); [done|].
  destruct s2 as [|d s2]; cbn [deref tail take].
  - destruct (Z.eqb_spec c 0); [done|]. cbn. split; [lia|done].
  - destruct (Z.eqb_spec c d) as [->|Hne]; cbn [negb andb].
    + rewrite IH by done. split; [by intros <-|by intros [= <-]].
    + split; [lia|by intros [= ->]].
Qed.

(** The comparison of a tag's name with an override's. *)
Lemma name_match name s n : no_nul name -> (n <= length s)%nat ->
  ((strlen name =? n)%nat && (strncmp name s n =? 0)) = bool_decide (take n s = name).
Proof.
  intros Hn Hl. rewrite strlen_no_nul by done.
  destruct (Nat.eqb_spec (length name) n) as [<-|Hne]; cbn [andb].
  - pose proof (strncmp_take name s Hn) as Hs.
    destruct (Z.eqb_spec (strncmp name s (length name)) 0) as [E|E];
      case_bool_decide as D; try done.
    + destruct D. symmetry. by apply Hs.
    + destruct E. by apply Hs.
  - case_bool_decide as D; [|done].
    subst name. rewrite length_take in Hne. lia.
Qed.

Lemma take_lit lit : forall tok rest,
  plain lit -> at_break rest ->
  take (length lit) (tok ++ rest) = lit <-> take (length lit) tok = lit.
Proof.
  induction lit as [|x lit IH]; intros tok rest Hl Hr; [done|].
  inversion_clear Hl as [|? ? [Hx Hw] Hl']. cbn [length].
  destruct tok as [|c tok].
  - cbn [app take]. split; [|done]. destruct rest as [|c rest]; [done|].
    cbn in Hr |- *. intros [= -> _]. congruence.
  - cbn [app take]. split; intros [= -> E]; f_equal; by eapply IH.
Qed.

Lemma strncmp_lit lit tok rest :
  plain lit -> plain tok -> at_break rest -> no_nul rest ->
  (strncmp (tok ++ rest) lit (length lit) =? 0) = bool_decide (take (length lit) tok = lit).
Proof.
  intros Hl Ht Hr Hn.
  assert (Hno : no_nul (tok ++ rest)) by (apply Forall_app; split; [by apply plain_no_nul|done]).
  pose proof (strncmp_prefix lit (tok ++ rest) (plain_no_nul _ Hl) Hno) as Hp.
  pose proof (take_lit lit tok rest Hl Hr) as Hk.
  destruct (Z.eqb_spec (strncmp (tok ++ rest) lit (length lit)) 0) as [E|E];
    case_bool_decide as D; try done.
  - destruct D. apply Hk. apply Hp in E as [t ->]. apply take_app_length.
  - destruct E. apply Hp. exists (drop (length lit) (tok ++ rest)).
    apply Hk in D. rewrite <- D at 1. by rewrite take_drop.
Qed.

Lemma token_len_app tok rest : plain tok -> at_break rest -> token_len (tok ++ rest) = length tok.
Proof.
  intros Ht Hr. induction Ht as [|c tok [Hc Hw] _ IH]; cbn [app token_len length].
  - destruct rest as [|c rest]; [done|]. cbn in *. by rewrite Hr, orb_true_r.
  - destruct (Z.eqb_spec c 0); [done|]. rewrite Hw. cbn. by rewrite IH.
Qed.

Lemma skip_token_app tok rest : plain tok -> at_break rest -> skip_token (tok ++ rest) = rest.
Proof.
  intros Ht Hr. induction Ht as [|c tok [Hc Hw] _ IH]; cbn [app skip_token].
  - destruct rest as [|c rest]; [done|]. cbn in *. by rewrite Hr, orb_true_r.
  - destruct (Z.eqb_spec c 0); [done|]. by rewrite Hw.
Qed.

(** A string is its first token and what follows. *)
Lemma split_token s : no_nul s ->
  exists tok rest, s = tok ++ rest /\ plain tok /\ at_break rest /\ no_nul rest.
Proof.
  induction 1 as [|c s Hc Hs IH].
  { exists [], []. split_and!; [done|apply Forall_nil_2|done|apply Forall_nil_2]. }
  destruct (is_ws c) eqn:Hw.
  - exists [], (c :: s). split_and!; [done|constructor|done|by constructor].
  - destruct IH as (tok & rest & -> & Ht & Hr & Hn). exists (c :: tok), rest.
    split_and!; [done|by constructor|done|done].
Qed.

Lemma skip_ws_props s : no_nul s ->
  no_nul (skip_ws s) /\ (length (skip_ws s) <= length s)%nat /\
  tokens s = tokens (skip_ws s) /\
  match skip_ws s with [] => True | c :: _ => is_ws c = false end.
Proof.
  induction 1 as [|c s Hc Hs IH]; [by split_and!; [constructor|..]|].
  cbn [skip_ws]. destruct (is_ws c) eqn:Hw.
  - destruct IH as (? & ? & Et & ?). split_and!; [done|cbn; lia| |done].
    unfold tokens. cbn [tokens_from]. rewrite Hw. exact Et.
  - split_and!; [by constructor|done|done|done].
Qed.

Lemma tokens_from_app tok : forall cur rest,
  plain tok -> at_break rest -> tok <> [] \/ cur <> [] ->
  tokens_from cur (tok ++ rest) = (rev cur ++ tok) :: tokens rest.
Proof.
  induction tok as [|c tok IH]; intros cur rest Ht Hr Hne; cbn [app tokens_from].
  - destruct cur as [|x cur]; [by destruct Hne|]. rewrite app_nil_r.
    destruct rest as [|c rest]; [done|]. cbn in Hr. unfold tokens. cbn [tokens_from].
    by rewrite Hr.
  - inversion_clear Ht as [|? ? [Hc Hw] Ht']. rewrite Hw.
    rewrite IH by (try done; right; done). cbn [rev]. by rewrite <- app_assoc.
Qed.

Lemma parse_level_app v rest : plain v -> at_break rest -> no_nul rest ->
  parse_level (v ++ rest) (length v) =
  match level_of v with Some l => l | None => -1 end.
Proof.
  intros Hv Hr Hn. unfold parse_level, level_of.
  assert (E : forall lit, plain lit ->
    (length v =? length lit)%nat && (strncmp (v ++ rest) lit (length lit) =? 0)
    = bool_decide (v = lit)).
  { intros lit Hl. rewrite strncmp_lit by done.
    destruct (Nat.eqb_spec (length v) (length lit)) as [El|El]; cbn [andb].
    - rewrite <- El, firstn_all. done.
    - case_bool_decide; [by subst|done]. }
  assert (P : forall l : cstr, bool_decide (Forall (fun c => c <> 0 /\ is_ws c = false) l) = true
    -> plain l) by (intros l Hb; by apply bool_decide_eq_true in Hb).
  pose proof (E (str "error") ltac:(apply P; vm_compute; reflexivity)) as E1.
  pose proof (E (str "warn") ltac:(apply P; vm_compute; reflexivity)) as E2.
  pose proof (E (str "info") ltac:(apply P; vm_compute; reflexivity)) as E3.
  pose proof (E (str "debug") ltac:(apply P; vm_compute; reflexivity)) as E4.
  change (length (str "error")) with 5%nat in E1. change (length (str "warn")) with 4%nat in E2.
  change (length (str "info")) with 4%nat in E3. change (length (str "debug")) with 5%nat in E4.
  rewrite E1, E2, E3, E4.
  repeat case_decide; repeat case_bool_decide; try done; by subst.
Qed.

(* ------------------------------------------------------------------ *)
(** ** The tokens' effects *)

(** The text before the first '=' is what the scan passes. *)
Lemma name_scan_cut tok : forall rest, plain tok -> at_break rest ->
  match cut_eq tok with
  | Some (a, b) => tok = a ++ 61 :: b /\ name_scan (tok ++ rest) = length a
  | None => deref (drop (name_scan (tok ++ rest)) (tok ++ rest)) <> 61
  end.
Proof.
  induction tok as [|c tok IH]; intros rest Ht Hr.
  - cbn [cut_eq app]. destruct rest as [|c rest]; [done|]. cbn in Hr |- *.
    rewrite Hr, orb_true_r. cbn. intros ->. done.
  - inversion_clear Ht as [|? ? [Hc Hw] Ht']. cbn [cut_eq app name_scan].
    destruct (Z.eqb_spec c 0); [done|]. rewrite Hw, orb_false_r. cbn [orb].
    destruct (Z.eqb_spec c 61) as [->|Hne]; [done|].
    specialize (IH rest Ht' Hr). destruct (cut_eq tok) as [[a b]|]; cbn.
    + destruct IH as [-> ->]. done.
    + done.
Qed.

Definition ov_abs (o : override) : cstr * Z := (take (ov_name_len o) (ov_name o), ov_level o).
Definition ov_ok (o : override) : Prop := (ov_name_len o <= length (ov_name o))%nat.

(** A registry without tags after the directives [ds]. *)
Record parsed (st : log_state) (ds : list directive) : Prop := Parsed {
  parsed_tags : tag_registry st = [];
  parsed_global : (if global_level_set st then Some (global_level st) else None)
                  = last (globals ds);
  parsed_overrides : ov_abs <$> pending_overrides st = take MAX_OVERRIDES (per_tags ds);
  parsed_ok : Forall ov_ok (pending_overrides st)
}.

Lemma level_of_range s l : level_of s = Some l -> 0 <= l.
Proof. unfold level_of. repeat case_decide; by intros [= <-]. Qed.

Lemma str_plain s : bool_decide (Forall (fun c => c <> 0 /\ is_ws c = false) (str s)) = true ->
  plain (str s).
Proof. intros H. by apply bool_decide_eq_true in H. Qed.

Lemma drop4_app (tok rest lit : cstr) : take 4 tok = lit -> length lit = 4%nat ->
  drop 4 (tok ++ rest) = drop 4 tok ++ rest.
Proof.
  intros <- Hl. rewrite length_take in Hl. apply drop_app_le. lia.
Qed.

Lemma plain_drop n s : plain s -> plain (drop n s).
Proof. intros. by apply Forall_drop. Qed.

Lemma log_global_step st ds tok rest :
  plain tok -> at_break rest -> no_nul rest -> parsed st ds ->
  match directive_of tok with
  | Some (Global l) => parsed (log_global st (tok ++ rest)) (ds ++ [Global l])
  | _ => log_global st (tok ++ rest) = st
  end.
Proof.
  intros Ht Hr Hn [Hp1 Hp2 Hp3 Hp4]. unfold log_global, directive_of.
  pose proof (strncmp_lit (str "log=") tok rest
    ltac:(apply str_plain; vm_compute; reflexivity) Ht Hr Hn) as E.
  change (length (str "log=")) with 4%nat in E. rewrite E. clear E.
  destruct (decide (take 4 tok = str "log=")) as [E|E].
  2:{ rewrite bool_decide_eq_false_2 by done. cbn [andb].
      case_decide; [|done]. destruct (cut_eq (drop 4 tok)) as [[[|] b]|]; [done| |done].
      cbn. by destruct (level_of b). }
  rewrite bool_decide_eq_true_2 by done. cbn [andb].
  rewrite (drop4_app tok rest _ E) by done.
  rewrite token_len_app, parse_level_app by (try done; by apply plain_drop).
  destruct (level_of (drop 4 tok)) as [l|] eqn:El; cbn [fmap option_fmap option_map].
  2: { change (0 <=? -1) with false. cbv iota. by destruct (_ && _). }
  pose proof (level_of_range _ _ El).
  assert (Hch : ch (tok ++ rest) 4 <> 0 /\ is_ws (ch (tok ++ rest) 4) = false).
  { assert (Hlen : (4 < length tok)%nat).
    { destruct (decide (length tok <= 4)%nat) as [Hle|]; [|lia].
      rewrite drop_ge in El by done. done. }
    destruct (lookup_lt_is_Some_2 tok 4 Hlen) as [c Hc].
    unfold ch. rewrite lookup_app_l, Hc by done. cbn. unfold plain in Ht.
    rewrite Forall_lookup in Ht. eauto. }
  destruct Hch as [Hc0 Hcw]. apply orb_false_iff in Hcw as [Hc1 Hc2].
  destruct (Z.eqb_spec (ch (tok ++ rest) 4) 0); [done|]. rewrite Hc1, Hc2. cbn [negb andb].
  destruct (Z.leb_spec 0 l); [|lia]. constructor; cbn.
  - by rewrite Hp1.
  - unfold globals. rewrite omap_app. cbn. by rewrite last_snoc.
  - unfold per_tags in *. rewrite omap_app. cbn. by rewrite app_nil_r.
  - done.
Qed.

Lemma take_snoc_cap {A} n (l : list A) x :
  take n (l ++ [x]) = if (length (take n l) <? n)%nat then take n l ++ [x] else take n l.
Proof.
  rewrite length_take. destruct (Nat.ltb_spec (n `min` length l) n).
  - by rewrite !take_ge by (rewrite ?length_app; cbn; lia).
  - rewrite take_app_le by lia. done.
Qed.

Lemma log_per_tag_step st ds tok rest :
  plain tok -> at_break rest -> no_nul rest -> parsed st ds ->
  match directive_of tok with
  | Some (PerTag n l) => parsed (log_per_tag st (tok ++ rest)) (ds ++ [PerTag n l])
  | _ => log_per_tag st (tok ++ rest) = st
  end.
Proof.
  intros Ht Hr Hn [Hp1 Hp2 Hp3 Hp4]. unfold log_per_tag, directive_of.
  pose proof (strncmp_lit (str "log.") tok rest
    ltac:(apply str_plain; vm_compute; reflexivity) Ht Hr Hn) as E.
  change (length (str "log.")) with 4%nat in E. rewrite E. clear E.
  destruct (decide (take 4 tok = str "log=")) as [E|_].
  { rewrite E, bool_decide_eq_false_2 by done. by destruct (level_of _). }
  destruct (decide (take 4 tok = str "log.")) as [E|E].
  2:{ by rewrite bool_decide_eq_false_2. }
  rewrite bool_decide_eq_true_2 by done. rewrite (drop4_app tok rest _ E) by done.
  pose proof (name_scan_cut (drop 4 tok) rest (plain_drop 4 tok Ht) Hr) as Hc.
  destruct (cut_eq (drop 4 tok)) as [[a b]|] eqn:Ec; cbn [mbind option_bind].
  2:{ destruct (Z.eqb_spec (deref (drop (name_scan (drop 4 tok ++ rest)) (drop 4 tok ++ rest)))
        61); done. }
  destruct Hc as [Ed Es]. rewrite Es, Ed, <- app_assoc. cbn [app].
  rewrite drop_app_length. cbn [deref]. change (drop 1 (61 :: b ++ rest)) with (b ++ rest).
  rewrite Z.eqb_refl.
  destruct a as [|x a]; [done|]. set (name := x :: a) in *.
  change (0 <? length name)%nat with true. cbn [andb].
  assert (Hb : plain b).
  { pose proof (plain_drop 4 tok Ht) as Hd. rewrite Ed in Hd.
    apply Forall_app in Hd as [_ Hd]. by inversion_clear Hd. }
  rewrite token_len_app, parse_level_app by done. rewrite Hp1.
  destruct (level_of b) as [l|] eqn:El; cbn [fmap option_fmap option_map].
  2:{ by change (0 <=? -1) with false. }
  pose proof (level_of_range _ _ El). destruct (Z.leb_spec 0 l); [|lia]. cbn [andb].
  assert (Eo : length (pending_overrides st) = length (take MAX_OVERRIDES (per_tags ds)))
    by (by rewrite <- Hp3, length_fmap).
  assert (Ep : per_tags (ds ++ [PerTag name l]) = per_tags ds ++ [(name, l)])
    by (unfold per_tags; by rewrite omap_app).
  assert (Eg : globals (ds ++ [PerTag name l]) = globals ds)
    by (unfold globals; rewrite omap_app; cbn; by rewrite app_nil_r).
  rewrite Eo.
  destruct (Nat.ltb_spec (length (take MAX_OVERRIDES (per_tags ds))) MAX_OVERRIDES) as [Hlt|Hge];
    constructor; cbn [tag_registry global_level global_level_set pending_overrides];
    rewrite ?Eg, ?Ep, ?take_snoc_cap; try done.
  - destruct (Nat.ltb_spec (length (take MAX_OVERRIDES (per_tags ds))) MAX_OVERRIDES); [|lia].
    rewrite fmap_app, Hp3. cbn [fmap list_fmap]. unfold ov_abs; cbn [ov_name ov_name_len ov_level].
    change (x :: a ++ 61 :: b ++ rest) with (name ++ 61 :: b ++ rest).
    by rewrite take_app_length.
  - apply Forall_app. split; [done|]. constructor; [|constructor]. unfold ov_ok. cbn.
    rewrite length_app. lia.
  - destruct (Nat.ltb_spec (length (take MAX_OVERRIDES (per_tags ds))) MAX_OVERRIDES); [lia|].
    done.
Qed.

(** The loop interprets the command line token by token and terminates. *)
Lemma log_init_loop_spec fuel : forall st ds s,
  no_nul s -> (length s < fuel)%nat -> parsed st ds ->
  exists st', log_init_loop fuel st s = Ok st' /\ parsed st' (ds ++ directives s).
Proof.
  induction fuel as [|fuel IH]; intros st ds s Hs Hf Hp; [lia|]. cbn [log_init_loop].
  destruct s as [|c0 s0]; [by exists st; rewrite app_nil_r|].
  replace (deref (c0 :: s0) =? 0) with false
    by (inversion_clear Hs; cbn; symmetry; by apply Z.eqb_neq).
  destruct (skip_ws_props (c0 :: s0) Hs) as (Hs' & Hl & Et & Hw).
  unfold directives. rewrite Et. set (w := skip_ws (c0 :: s0)) in *.
  destruct w as [|c s] eqn:Es; [by exists st; rewrite app_nil_r|].
  replace (deref (c :: s) =? 0) with false
    by (inversion_clear Hs'; cbn; symmetry; by apply Z.eqb_neq).
  destruct (split_token (c :: s) Hs') as (tok & rest & E & Ht & Hr & Hn).
  assert (Hne : tok <> []).
  { intros ->. cbn in E. subst rest. cbn in Hr. congruence. }
  rewrite E in Hl |- *. rewrite skip_token_app by done. unfold tokens.
  rewrite tokens_from_app by auto. cbn [rev app].
  pose proof (log_global_step st ds tok rest Ht Hr Hn Hp) as Hg.
  assert (Hlen : (length rest < fuel)%nat).
  { rewrite length_app in Hl. destruct tok; [done|]. cbn in *. lia. }
  destruct (directive_of tok) as [[l|n l]|] eqn:Ed; cbn [omap list_omap]; rewrite Ed.
  - pose proof (log_per_tag_step _ _ tok rest Ht Hr Hn Hg) as Hq. rewrite Ed in Hq. rewrite Hq.
    destruct (IH _ _ rest Hn Hlen Hg) as (st' & -> & Hp'). exists st'. split; [done|].
    by rewrite <- app_assoc in Hp'.
  - pose proof (log_per_tag_step _ _ tok rest Ht Hr Hn Hp) as Hq. rewrite Ed in Hq. rewrite Hg.
    destruct (IH _ _ rest Hn Hlen Hq) as (st' & -> & Hp'). exists st'. split; [done|].
    by rewrite <- app_assoc in Hp'.
  - pose proof (log_per_tag_step _ _ tok rest Ht Hr Hn Hp) as Hq. rewrite Ed in Hq.
    rewrite Hg, Hq. by apply IH.
Qed.

(** The first override with the tag's name decides. *)
Lemma apply_overrides_find ovs tag : no_nul (tag_name tag) -> Forall ov_ok ovs ->
  apply_overrides_from ovs tag =
  match list_find (fun p => p.1 = tag_name tag) (ov_abs <$> ovs) with
  | Some (_, (_, l)) => set_tag_level l tag
  | None => tag
  end.
Proof.
  intros Hn Hok. induction Hok as [|o ovs Ho _ IH]; [done|].
  cbn [apply_overrides_from fmap list_fmap list_find]. rewrite name_match by done.
  unfold ov_abs at 1. cbn [fst].
  case_bool_decide as D; destruct (decide (take (ov_name_len o) (ov_name o) = tag_name tag));
    try done.
  rewrite IH. by destruct (list_find _ _) as [[? [? ?]]|].
Qed.

(* ------------------------------------------------------------------ *)
(** ** Properties *)

(** A logger that applies the directives [ds] to the tags registered from now on. *)
Record log_follows (ds : list directive) (st : log_state) : Prop := LogFollows {
  follows_global : (if global_level_set st then Some (global_level st) else None)
                   = last (globals ds);
  follows_overrides : ov_abs <$> pending_overrides st = take MAX_OVERRIDES (per_tags ds);
  follows_ok : Forall ov_ok (pending_overrides st)
}.

Lemma log_follows_empty : log_follows [] log_empty.
Proof. by split. Qed.

Lemma parsed_follows st ds : parsed st ds -> log_follows ds st.
Proof. by intros []. Qed.

Lemma log_register_follows ds st name default : log_follows ds st ->
  log_follows ds (log_register st name default).2.
Proof. intros []. unfold log_register. destruct (_ <=? _)%nat; by split. Qed.

(** Registering leaves the tags there are. *)
Lemma log_register_get st name default p t : get_tag st p = Some t ->
  get_tag (log_register st name default).2 p = Some t.
Proof.
  unfold log_register. destruct (_ <=? _)%nat; [done|]. cbn [snd].
  unfold get_tag. destruct p as [i|]; [|done]. cbn. apply lookup_app_l_Some.
Qed.

(** The level a registration gives. *)
Lemma log_register_level ds st name default : log_follows ds st -> no_nul name ->
  (length (tag_registry st) < MAX_LOG_TAGS)%nat ->
  log_register st name default =
    (Some (length (tag_registry st)),
     LogState (tag_registry st ++ [LogTag name (level_for ds name default)])
       (global_level st) (global_level_set st) (pending_overrides st)).
Proof.
  intros [Hg Ho Hok] Hn Hlt. unfold log_register.
  destruct (Nat.leb_spec MAX_LOG_TAGS (length (tag_registry st))); [lia|].
  unfold apply_overrides. rewrite apply_overrides_find by done. cbn [tag_name]. rewrite Ho.
  unfold level_for. repeat f_equal.
  destruct (list_find _ _) as [[? [? ?]]|]; [done|]. rewrite <- Hg.
  by destruct (global_level_set st).
Qed.

(** Parsing any command line terminates; without one, or with an empty one, there are no
    directives. *)
Lemma log_init_follows cmdline : no_nul (default [] cmdline) ->
  exists st, log_init log_empty cmdline = Ok st /\ tag_registry st = [] /\
    log_follows (directives (default [] cmdline)) st.
Proof.
  intros Hc. destruct cmdline as [c|]; [|by exists log_empty]. change (no_nul c) in Hc. unfold log_init.
  change (default [] (Some c)) with c.
  destruct (log_init_loop_spec (S (length c)) log_empty [] c) as (st & -> & Hp);
    [done|lia|by split|].
  exists st. split; [done|]. split; [apply Hp|by apply parsed_follows].
Qed.

(** C10: log_init terminates on every command line and parses it as its
    whitespace-separated tokens: a tag registered afterwards gets the level of the
    first of the first 16 overrides with its name, else the last global level,
    else its default; the first 32 registrations succeed. *)
Theorem log_init_register cmdline name default :
  no_nul cmdline -> no_nul name ->
  exists st, log_init log_empty (Some cmdline) = Ok st /\
    log_register st name default =
      (Some O, LogState [LogTag name (level_for (directives cmdline) name default)]
         (global_level st) (global_level_set st) (pending_overrides st)).
Proof.
  intros Hc Hn. destruct (log_init_follows (Some cmdline) Hc) as (st & E & Ht & Hf).
  exists st. split; [done|]. rewrite (log_register_level (directives cmdline)), Ht; try done.
  rewrite Ht. cbn. unfold MAX_LOG_TAGS. lia.
Qed.

Lemma log_init_register_witness :
  let cmdline := str "log=warn log.virtio-net=debug" in
  exists st, log_init log_empty (Some cmdline) = Ok st /\
    log_register st (str "virtio-net") LOG_INFO =
      (Some O, LogState [LogTag (str "virtio-net")
                           (level_for (directives cmdline) (str "virtio-net") LOG_INFO)]
         (global_level st) (global_level_set st) (pending_overrides st)).
Proof.
  apply (log_init_register (str "log=warn log.virtio-net=debug") (str "virtio-net") LOG_INFO);
    repeat constructor; vm_compute; congruence.
Defined.

(** The static arrays hold at most MAX_LOG_TAGS and MAX_OVERRIDES entries. *)
Definition log_wf (st : log_state) : Prop :=
  (length (tag_registry st) <= MAX_LOG_TAGS)%nat /\
  (length (pending_overrides st) <= MAX_OVERRIDES)%nat.

Lemma log_global_wf st pos : log_wf st -> log_wf (log_global st pos).
Proof.
  unfold log_wf, log_global. intros H. repeat case_match; cbn; rewrite ?length_fmap; done.
Qed.

Lemma log_per_tag_wf st pos : log_wf st -> log_wf (log_per_tag st pos).
Proof.
  unfold log_wf, log_per_tag. intros [H1 H2].
  destruct (strncmp pos (str "log.") 4 =? 0); [|done]. cbv zeta.
  destruct ((_ =? 61) && _); [|done].
  destruct ((0 <=? _) && _) eqn:E; [|done].
  apply andb_true_iff in E as [_ E]. apply Nat.ltb_lt in E. cbn.
  rewrite length_fmap, length_app. cbn. lia.
Qed.

Lemma log_init_loop_wf fuel : forall st s st',
  log_wf st -> log_init_loop fuel st s = Ok st' -> log_wf st'.
Proof.
  induction fuel as [|fuel IH]; intros st s st' Hst; cbn [log_init_loop]; [done|].
  case_match; [by intros [= <-]|]. case_match; [by intros [= <-]|].
  apply IH. by apply log_per_tag_wf, log_global_wf.
Qed.

(** The scan consumes a token in every iteration. *)
Lemma skip_token_length s : (length (skip_token s) <= length s)%nat.
Proof. induction s as [|c s IH]; cbn; [lia|]. destruct (_ || _); cbn; lia. Qed.
Lemma skip_ws_length s : (length (skip_ws s) <= length s)%nat.
Proof. induction s as [|c s IH]; cbn; [lia|]. destruct (is_ws c); cbn; lia. Qed.
Lemma skip_ws_head s : is_ws (deref (skip_ws s)) = false.
Proof. induction s as [|c s IH]; [done|]. cbn [skip_ws]. by destruct (is_ws c) eqn:E. Qed.
Lemma skip_token_consumes s : deref s <> 0 -> is_ws (deref s) = false ->
  (length (skip_token s) < length s)%nat.
Proof.
  destruct s as [|c s]; cbn [deref]; [done|]. intros Hc Hw. cbn [skip_token].
  destruct (Z.eqb_spec c 0); [done|]. rewrite Hw. cbn. pose proof (skip_token_length s). lia.
Qed.

Lemma log_init_loop_total fuel : forall st s, (length s < fuel)%nat ->
  exists st', log_init_loop fuel st s = Ok st'.
Proof.
  induction fuel as [|fuel IH]; intros st s Hf; [lia|]. cbn [log_init_loop].
  destruct (Z.eqb_spec (deref s) 0); [by eexists|].
  destruct (Z.eqb_spec (deref (skip_ws s)) 0) as [|Hne]; [by eexists|]. apply IH.
  pose proof (skip_ws_length s). pose proof (skip_token_consumes _ Hne (skip_ws_head s)). lia.
Qed.
Lemma log_init_total st cmdline : log_wf st ->
  exists st', log_init st cmdline = Ok st' /\ log_wf st'.
Proof.
  intros Hst. destruct cmdline as [s|]; [|by exists st].
  destruct (log_init_loop_total (S (length s)) st s) as [st' E]; [lia|].
  exists st'. split; [done|]. by eapply log_init_loop_wf.
Qed.

(** Tags registered one after the other, with their default levels. *)
Fixpoint register_all (tags : list (cstr * Z)) (st : log_state) : list tag_ptr * log_state :=
  match tags with
  | [] => ([], st)
  | (name, default) :: tags =>
      let '(p, st) := log_register st name default in
      let '(ps, st) := register_all tags st in (p :: ps, st)
  end.
(** The slot of the [i]th registration when [n] tags are registered, or NULL. *)
Definition slot_for (n i : nat) : tag_ptr := if (n + i <? MAX_LOG_TAGS)%nat then Some (n + i)%nat else None.

Lemma log_register_wf st name default : log_wf st -> log_wf (log_register st name default).2.
Proof.
  intros [? ?]. unfold log_register. destruct (Nat.leb_spec MAX_LOG_TAGS (length (tag_registry st)));
    [done|]. split; cbn; rewrite ?length_app; cbn; [lia|done].
Qed.
Lemma apply_overrides_name st tag : tag_name (apply_overrides st tag) = tag_name tag.
Proof.
  unfold apply_overrides. induction (pending_overrides st) as [|o ovs IH]; [done|].
  cbn [apply_overrides_from]. by destruct (_ && _).
Qed.
Lemma register_all_ok tags : forall st, log_wf st ->
  let n := length (tag_registry st) in
  let '(ps, st') := register_all tags st in
  log_wf st' /\ ps = slot_for n <$> seq 0 (length tags) /\
  tag_name <$> tag_registry st' = (tag_name <$> tag_registry st) ++ take (MAX_LOG_TAGS - n) tags.*1.
Proof.
  induction tags as [|[name default] tags IH]; intros st Hst; cbn [register_all].
  { split; [done|]. split; [done|]. cbn. by rewrite take_nil, app_nil_r. }
  pose proof (log_register_wf st name default Hst) as Hst1.
  unfold log_register in *. destruct (Nat.leb_spec MAX_LOG_TAGS (length (tag_registry st))) as [Hf|Hf].
  - specialize (IH st Hst). destruct (register_all tags st) as [ps st']. destruct IH as (Hw & -> & Hn).
    assert (forall i, slot_for (length (tag_registry st)) i = None) as Hs.
    { intros i. unfold slot_for. by destruct (Nat.ltb_spec (length (tag_registry st) + i) MAX_LOG_TAGS); [lia|]. }
    split; [done|]. split.
    + cbn [length seq fmap list_fmap]. rewrite Hs. f_equal. rewrite <- fmap_S_seq, <- list_fmap_compose.
      apply list_fmap_ext. intros i x _. cbn. by rewrite !Hs.
    + rewrite Hn. by replace (MAX_LOG_TAGS - length (tag_registry st))%nat with O by lia.
  - cbn [snd] in Hst1. specialize (IH _ Hst1). set (st1 := LogState _ _ _ _) in *.
    destruct (register_all tags st1) as [ps st']. destruct IH as (Hw & -> & Hn).
    assert (length (tag_registry st1) = S (length (tag_registry st))) as Hl
      by (cbn; rewrite length_app; cbn; lia).
    rewrite Hl in *. split; [done|]. split.
    + cbn [length seq fmap list_fmap]. f_equal.
      * unfold slot_for. rewrite Nat.add_0_r. by destruct (Nat.ltb_spec (length (tag_registry st)) MAX_LOG_TAGS); [|lia].
      * rewrite <- fmap_S_seq, <- list_fmap_compose. apply list_fmap_ext. intros i x _. unfold slot_for. cbn.
        by rewrite Nat.add_succ_r.
    + rewrite Hn. cbn [st1 tag_registry]. rewrite fmap_app, <- app_assoc. f_equal. cbn [fmap list_fmap].
      rewrite apply_overrides_name.
      replace (MAX_LOG_TAGS - length (tag_registry st))%nat
        with (S (MAX_LOG_TAGS - S (length (tag_registry st)))) by lia. done.
Qed.

(** C17: The registry and the override table never overflow their arrays: from any state
    where they have not, log_init ends on every command line, and any number of tags can
    register after it; they get the slots up to the 32nd in order, and from then on NULL,
    without an effect.  Messages for a NULL tag or above a tag's level print nothing. *)
Theorem log_bounds st cmdline tags level msg :
  log_wf st -> exists st', log_init st cmdline = Ok st' /\ log_wf st' /\
  (let n := length (tag_registry st') in
   let '(ps, st'') := register_all tags st' in
   log_wf st'' /\ ps = slot_for n <$> seq 0 (length tags) /\
   tag_name <$> tag_registry st''
   = (tag_name <$> tag_registry st') ++ take (MAX_LOG_TAGS - n) tags.*1) /\
  (forall name default, length (tag_registry st') = MAX_LOG_TAGS ->
     log_register st' name default = (None, st')) /\
  log_msg None level msg = Ok [] /\
  (forall t, tag_level t < level -> log_msg (Some t) level msg = Ok []).
Proof.
  intros Hst. destruct (log_init_total st cmdline Hst) as (st' & E & Hst').
  exists st'. split; [done|]. split; [done|]. split; [by apply register_all_ok|]. split_and!; try done.
  - intros name default E'. unfold log_register. by rewrite E', Nat.leb_refl.
  - intros t Ht. unfold log_msg, log_enabled. destruct (Z.leb_spec level (tag_level t)); [lia|].
    done.
Qed.

(** 34 tags of one name: the last two get NULL. *)
Lemma log_bounds_witness : exists st',
  log_init log_empty (Some (str "log=info log.a=debug")) = Ok st' /\
  (register_all (replicate 34 (str "a", LOG_INFO)) st').1 = (Some <$> seq 0 32) ++ [None; None] /\
  length (tag_registry (register_all (replicate 34 (str "a", LOG_INFO)) st').2) = 32%nat.
Proof.
  destruct (log_bounds log_empty (Some (str "log=info log.a=debug")) (replicate 34 (str "a", LOG_INFO))
    LOG_INFO []) as (st' & E & _ & H & _); [split; cbn; lia|].
  exists st'. split; [exact E|]. vm_compute in E. injection E as <-. vm_compute. split; reflexivity.
Defined.

(** With two overrides of one tag, a tag that registers before log_init gets
    the last one and a tag that registers after it gets the first one. *)
Theorem log_override_order :
  let cmdline := Some (str "log.x=debug log.x=error") in
  let early := log_register log_empty (str "x") LOG_INFO in
  (st ← log_init early.2 cmdline; mret (tag_level <$> get_tag st early.1))
    = Ok (Some LOG_ERROR) /\
  (st ← log_init log_empty cmdline;
   let late := log_register st (str "x") LOG_INFO in
   mret (tag_level <$> get_tag late.2 late.1)) = Ok (Some LOG_DEBUG).
Proof. split; vm_compute; reflexivity. Qed.
