(* ===== verification/Device.v ===== *)
(** The device record (kernel/devices/devices.h).  A [const char *] is the
    address of the string ([None] is NULL) in a [memory] that is never written:
    the device-tree blob and the kernel's literals.  A [device_t *] is the index
    of a slot of the device storage. *)

From S2P Require Export CStr.

Open Scope Z_scope.

Inductive device_state :=
  | DEVICE_STATE_DISCOVERED | DEVICE_STATE_BOUND | DEVICE_STATE_ACTIVE
  | DEVICE_STATE_REMOVED.

#[export] Instance device_state_eq_dec : EqDecision device_state.
Proof. solve_decision. Defined.

(** [struct device]. *)
Record device := Device {
  dev_compatible : option Z;
  dev_name : option Z;
  reg_base : Z;
  reg_size : Z;
  vendor_id : Z;
  device_id : Z;
  dev_bus : Z;
  device_num : Z;
  dev_function : Z;
  dev_driver : option Z;
  dev_state : device_state;
  mmio_virt : Z;
  driver_data : Z;
  dev_parent : option nat;
  first_child : option nat;
  next_sibling : option nat;
  dev_depth : Z;
  dev_next : option nat
}.

#[export] Instance device_eq_dec : EqDecision device.
Proof. solve_decision. Defined.

(** [(device_t){0}]. *)
Definition device_zero : device :=
  Device None None 0 0 0 0 0 0 0 None DEVICE_STATE_DISCOVERED 0 0 None None None 0 None.

(** Field updates. *)
Definition set_dev_compatible (d : device) (v : option Z) : device :=
  Device v (dev_name d) (reg_base d) (reg_size d) (vendor_id d) (device_id d) (dev_bus d)
    (device_num d) (dev_function d) (dev_driver d) (dev_state d) (mmio_virt d)
    (driver_data d) (dev_parent d) (first_child d) (next_sibling d) (dev_depth d) (dev_next d).
Definition set_reg (d : device) (base size : Z) : device :=
  Device (dev_compatible d) (dev_name d) base size (vendor_id d) (device_id d) (dev_bus d)
    (device_num d) (dev_function d) (dev_driver d) (dev_state d) (mmio_virt d)
    (driver_data d) (dev_parent d) (first_child d) (next_sibling d) (dev_depth d) (dev_next d).
Definition set_ids (d : device) (vendor device : Z) : Device.device :=
  Device (dev_compatible d) (dev_name d) (reg_base d) (reg_size d) vendor device (dev_bus d)
    (device_num d) (dev_function d) (dev_driver d) (dev_state d) (mmio_virt d)
    (driver_data d) (dev_parent d) (first_child d) (next_sibling d) (dev_depth d) (dev_next d).
Definition set_location (d : device) (bus num : Z) : device :=
  Device (dev_compatible d) (dev_name d) (reg_base d) (reg_size d) (vendor_id d) (device_id d)
    bus num (dev_function d) (dev_driver d) (dev_state d) (mmio_virt d)
    (driver_data d) (dev_parent d) (first_child d) (next_sibling d) (dev_depth d) (dev_next d).
Definition set_dev_driver (d : device) (v : option Z) : device :=
  Device (dev_compatible d) (dev_name d) (reg_base d) (reg_size d) (vendor_id d) (device_id d)
    (dev_bus d) (device_num d) (dev_function d) v (dev_state d) (mmio_virt d)
    (driver_data d) (dev_parent d) (first_child d) (next_sibling d) (dev_depth d) (dev_next d).
Definition set_mmio_virt (d : device) (v : Z) : device :=
  Device (dev_compatible d) (dev_name d) (reg_base d) (reg_size d) (vendor_id d) (device_id d)
    (dev_bus d) (device_num d) (dev_function d) (dev_driver d) (dev_state d) v
    (driver_data d) (dev_parent d) (first_child d) (next_sibling d) (dev_depth d) (dev_next d).
Definition set_parent (d : device) (v : option nat) : device :=
  Device (dev_compatible d) (dev_name d) (reg_base d) (reg_size d) (vendor_id d) (device_id d)
    (dev_bus d) (device_num d) (dev_function d) (dev_driver d) (dev_state d) (mmio_virt d)
    (driver_data d) v (first_child d) (next_sibling d) (dev_depth d) (dev_next d).
Definition set_first_child (d : device) (v : option nat) : device :=
  Device (dev_compatible d) (dev_name d) (reg_base d) (reg_size d) (vendor_id d) (device_id d)
    (dev_bus d) (device_num d) (dev_function d) (dev_driver d) (dev_state d) (mmio_virt d)
    (driver_data d) (dev_parent d) v (next_sibling d) (dev_depth d) (dev_next d).
Definition set_next_sibling (d : device) (v : option nat) : device :=
  Device (dev_compatible d) (dev_name d) (reg_base d) (reg_size d) (vendor_id d) (device_id d)
    (dev_bus d) (device_num d) (dev_function d) (dev_driver d) (dev_state d) (mmio_virt d)
    (driver_data d) (dev_parent d) (first_child d) v (dev_depth d) (dev_next d).
Definition set_dev_next (d : device) (v : option nat) : device :=
  Device (dev_compatible d) (dev_name d) (reg_base d) (reg_size d) (vendor_id d) (device_id d)
    (dev_bus d) (device_num d) (dev_function d) (dev_driver d) (dev_state d) (mmio_virt d)
    (driver_data d) (dev_parent d) (first_child d) (next_sibling d) (dev_depth d) v.
