(* ===== verification/Fdt.v ===== *)
(** The flattened device tree parser (kernel/platform/fdt_parser.c): the walk
    of the structure block for the boot arguments and for the devices. *)

From S2P Require Export ByteOrder Device.

Open Scope Z_scope.

Definition FDT_MAGIC : Z := 0xd00dfeed.
Definition FDT_BEGIN_NODE : Z := 1.
Definition FDT_END_NODE : Z := 2.
Definition FDT_PROP : Z := 3.
Definition FDT_NOP : Z := 4.
Definition FDT_END : Z := 9.
Definition sizeof_fdt_prop : Z := 8.

(** Field offsets of the packed [fdt_header_t]. *)
Module fdt.
Definition magic : Z := 0.
Definition totalsize : Z := 4.
Definition off_dt_struct : Z := 8.
Definition off_dt_strings : Z := 12.
Definition size_dt_struct : Z := 36.
End fdt.

Definition be32_to_cpu (val : Z) : Z :=
  Z.lor (Z.lor (Z.lor (Z.shiftr (Z.land val 0xFF000000) 24)
                      (Z.shiftr (Z.land val 0x00FF0000) 8))
               (u32 (Z.shiftl (Z.land val 0x0000FF00) 8)))
        (u32 (Z.shiftl (Z.land val 0x000000FF) 24)).

(** [(val + 3) & ~3] on uint32_t. *)
Definition align_up (val : Z) : Z := Z.land (u32 (val + 3)) (u32 (Z.lnot 3)).

(** A uint32_t of the host at [a]. *)
Definition ldw (mem : memory) (a : Z) : res Z :=
  b0 ← ldb mem a; b1 ← ldb mem (a + 1); b2 ← ldb mem (a + 2); b3 ← ldb mem (a + 3);
  mret (b0 + b1 * 2 ^ 8 + b2 * 2 ^ 16 + b3 * 2 ^ 24).

Definition read_be32_unaligned (mem : memory) (a : Z) : res Z :=
  b0 ← ldb mem a; b1 ← ldb mem (a + 1); b2 ← ldb mem (a + 2); b3 ← ldb mem (a + 3);
  mret (Z.lor (Z.lor (Z.lor (u32 (Z.shiftl b0 24)) (Z.shiftl b1 16)) (Z.shiftl b2 8)) b3).

Definition str_equal (mem : memory) (a : Z) (s2 : cstr) : res bool :=
  d ← strcmp_mem mem a s2; mret (d =? 0).

(** The scan for the end of a node name; [n] is max_name_len - name_len. *)
Fixpoint node_name_scan (mem : memory) (node_name : Z) (n : nat) (name_len : Z) : res Z :=
  match n with
  | O => Ok name_len
  | S n =>
      c ← ldb mem (node_name + name_len);
      if c =? 0 then Ok name_len else node_name_scan mem node_name n (name_len + 1)
  end.

(** What one turn of a parser's loop does. *)
Inductive flow (S A : Type) := Continue (s : S) | Return (a : A).
Arguments Continue {S A} s.
Arguments Return {S A} a.

Fixpoint run_loop {S A} (fuel : nat) (step : S -> res (flow S A)) (s : S) : res A :=
  match fuel with
  | O => NoFuel
  | S fuel =>
      f ← step s;
      match f with Continue s => run_loop fuel step s | Return a => Ok a end
  end.

(* ------------------------------------------------------------------ *)
(** ** fdt_get_bootargs *)

Record args_state := ArgsState {
  a_ptr : Z; a_depth : Z; a_in_chosen : bool; a_bootargs : option Z }.

Definition bootargs_step (mem : memory) (fdt_end strings_base : Z) (s : args_state)
    : res (flow args_state (option Z)) :=
  let '(ArgsState struct_ptr depth in_chosen bootargs) := s in
  if fdt_end <=? struct_ptr then Ok (Return None) else
  w ← ldw mem struct_ptr;
  let token := be32_to_cpu w in
  let struct_ptr := struct_ptr + 4 in
  if token =? FDT_BEGIN_NODE then
    if fdt_end <=? struct_ptr then Ok (Return None) else
    let max_name_len := fdt_end - struct_ptr in
    name_len ← node_name_scan mem struct_ptr (Z.to_nat max_name_len) 0;
    if max_name_len <=? name_len then Ok (Return None) else
    chosen ← (if depth =? 1 then str_equal mem struct_ptr (str "chosen") else Ok false);
    Ok (Continue (ArgsState (struct_ptr + align_up (u32 (name_len + 1))) (depth + 1)
                    (chosen || in_chosen) bootargs))
  else if token =? FDT_END_NODE then
    let depth := depth - 1 in
    Ok (Continue (ArgsState struct_ptr depth
                    (if (depth =? 1) && in_chosen then false else in_chosen) bootargs))
  else if token =? FDT_PROP then
    if fdt_end <? struct_ptr + sizeof_fdt_prop then Ok (Return None) else
    l ← ldw mem struct_ptr; n ← ldw mem (struct_ptr + 4);
    let prop_len := be32_to_cpu l in
    let prop_nameoff := be32_to_cpu n in
    let struct_ptr := struct_ptr + 8 in
    if fdt_end <? struct_ptr + prop_len then Ok (Return None) else
    is_args ← (if in_chosen then str_equal mem (strings_base + prop_nameoff) (str "bootargs")
               else Ok false);
    Ok (Continue (ArgsState (struct_ptr + align_up prop_len) depth in_chosen
                    (if is_args && (0 <? prop_len) then Some struct_ptr else bootargs)))
  else if token =? FDT_NOP then Ok (Continue (ArgsState struct_ptr depth in_chosen bootargs))
  else if token =? FDT_END then Ok (Return bootargs)
  else Ok (Return None).

Definition fdt_get_bootargs (mem : memory) (fdt_addr : Z) : res (option Z) :=
  if fdt_addr =? 0 then Ok None else
  m ← ldw mem (fdt_addr + fdt.magic);
  if negb (be32_to_cpu m =? FDT_MAGIC) then Ok None else
  so ← ldw mem (fdt_addr + fdt.off_dt_struct);
  sto ← ldw mem (fdt_addr + fdt.off_dt_strings);
  ts ← ldw mem (fdt_addr + fdt.totalsize);
  let struct_offset := be32_to_cpu so in
  let strings_offset := be32_to_cpu sto in
  let totalsize := be32_to_cpu ts in
  run_loop (Z.to_nat (totalsize / 4 + 2))
    (bootargs_step mem (fdt_addr + totalsize) (fdt_addr + strings_offset))
    (ArgsState (fdt_addr + struct_offset) 0 false None).

(* ------------------------------------------------------------------ *)
(** ** fdt_enumerate_devices *)

Section enumerate.
  (** The callback's context is the state [C] it transforms. *)
  Context {C : Type} (mem : memory) (callback : option (device -> C -> res C)).

Record enum_state := EnumState {
  e_ptr : Z; e_depth : Z; e_count : Z; e_current : device; e_has_reg : bool;
  e_has_compatible : bool; e_context : C }.

(** The "reg" property: a 64-bit address and a 64-bit size. *)
Definition parse_reg (current : device) (prop_data prop_len struct_end : Z)
    : res (option device) :=
  if (16 <=? prop_len) && (prop_data + 16 <=? struct_end) then
    addr_hi ← read_be32_unaligned mem prop_data;
    addr_lo ← read_be32_unaligned mem (prop_data + 4);
    size_hi ← read_be32_unaligned mem (prop_data + 8);
    size_lo ← read_be32_unaligned mem (prop_data + 12);
    let addr := Z.lor (u64 (Z.shiftl addr_hi 32)) addr_lo in
    let size := Z.lor (u64 (Z.shiftl size_hi 32)) size_lo in
    Ok (Some (set_reg current addr size))
  else Ok None.

Definition enumerate_step (struct_end strings_base : Z) (s : enum_state)
    : res (flow enum_state (Z * C)) :=
  let '(EnumState struct_ptr depth device_count current has_reg has_compatible context) := s in
  let return_count := Ok (Return (device_count, context)) in
  if struct_end <=? struct_ptr then return_count else
  w ← ldw mem struct_ptr;
  let token := be32_to_cpu w in
  let struct_ptr := struct_ptr + 4 in
  if token =? FDT_BEGIN_NODE then
    if struct_end <=? struct_ptr then return_count else
    let max_name_len := struct_end - struct_ptr in
    name_len ← node_name_scan mem struct_ptr (Z.to_nat max_name_len) 0;
    if max_name_len <=? name_len then return_count else
    let current :=
      Device None (Some struct_ptr) 0 0 0 0 0 0 0 None DEVICE_STATE_DISCOVERED 0 0
        None None None depth None in
    let struct_ptr := struct_ptr + align_up (u32 (name_len + 1)) in
    if struct_end <? struct_ptr then return_count else
    Ok (Continue (EnumState struct_ptr (depth + 1) device_count current false false context))
  else if token =? FDT_END_NODE then
    match callback with
    | Some call =>
        if has_reg && has_compatible then
          context ← call current context;
          Ok (Continue (EnumState struct_ptr (depth - 1) (device_count + 1) current has_reg
                          has_compatible context))
        else Ok (Continue (EnumState struct_ptr (depth - 1) device_count current has_reg
                             has_compatible context))
    | None => Ok (Continue (EnumState struct_ptr (depth - 1) device_count current has_reg
                              has_compatible context))
    end
  else if token =? FDT_PROP then
    if struct_end <? struct_ptr + sizeof_fdt_prop then return_count else
    l ← ldw mem struct_ptr; n ← ldw mem (struct_ptr + 4);
    let prop_len := be32_to_cpu l in
    let prop_nameoff := be32_to_cpu n in
    let prop_data := struct_ptr + 8 in
    if struct_end <? prop_data + prop_len then return_count else
    let prop_name := strings_base + prop_nameoff in
    is_reg ← str_equal mem prop_name (str "reg");
    '(current, has_reg, has_compatible) ←
      (if (is_reg : bool) then
         r ← parse_reg current prop_data prop_len struct_end;
         match r with
         | Some current => Ok (current, true, has_compatible)
         | None => Ok (current, has_reg, has_compatible)
         end
       else
         is_compat ← str_equal mem prop_name (str "compatible");
         if is_compat && (0 <? prop_len)
         then Ok (set_dev_compatible current (Some prop_data), has_reg, true)
         else Ok (current, has_reg, has_compatible));
    let struct_ptr := prop_data + align_up prop_len in
    if struct_end <? struct_ptr then Ok (Return (device_count, context)) else
    Ok (Continue (EnumState struct_ptr depth device_count current has_reg has_compatible context))
  else if token =? FDT_NOP then
    Ok (Continue (EnumState struct_ptr depth device_count current has_reg has_compatible context))
  else Ok (Return (device_count, context)).

Definition fdt_enumerate_devices (fdt_addr : Z) (context : C) : res (Z * C) :=
  if fdt_addr =? 0 then Ok (-1, context) else
  m ← ldw mem (fdt_addr + fdt.magic);
  if negb (be32_to_cpu m =? FDT_MAGIC) then Ok (-1, context) else
  so ← ldw mem (fdt_addr + fdt.off_dt_struct);
  sto ← ldw mem (fdt_addr + fdt.off_dt_strings);
  ts ← ldw mem (fdt_addr + fdt.totalsize);
  ss ← ldw mem (fdt_addr + fdt.size_dt_struct);
  let struct_offset := be32_to_cpu so in
  let strings_offset := be32_to_cpu sto in
  let totalsize := be32_to_cpu ts in
  let struct_size := be32_to_cpu ss in
  if (totalsize <? struct_offset) || (totalsize <? strings_offset)
     || (totalsize <? u32 (struct_offset + struct_size))
  then Ok (-1, context) else
  run_loop (Z.to_nat (struct_size / 4 + 2))
    (enumerate_step (fdt_addr + struct_offset + struct_size) (fdt_addr + strings_offset))
    (EnumState (fdt_addr + struct_offset) 0 0 device_zero false false context).
End enumerate.
Arguments EnumState {C}.

(* ------------------------------------------------------------------ *)
(** ** Specification: the structure block as a list of tokens *)

Inductive fdt_token :=
  | BeginNode (name : cstr)
  | EndNode
  | Prop_ (nameoff : Z) (data : bytes)
  | Nop
  | End_.

(** Zero padding to a multiple of four. *)
Definition pad4 (n : Z) : bytes := replicate (Z.to_nat ((4 - n mod 4) mod 4)) 0.

Definition encode_token (t : fdt_token) : bytes :=
  match t with
  | BeginNode name => be32 FDT_BEGIN_NODE ++ (name ++ [0]) ++ pad4 (len name + 1)
  | EndNode => be32 FDT_END_NODE
  | Prop_ nameoff data =>
      be32 FDT_PROP ++ be32 (len data) ++ be32 nameoff ++ data ++ pad4 (len data)
  | Nop => be32 FDT_NOP
  | End_ => be32 FDT_END
  end.

(** The object [bs] is at [a]. *)
Definition bytes_at (mem : memory) (a : Z) (bs : bytes) : Prop :=
  forall i v, bs !! i = Some v -> mem (a + Z.of_nat i) = Some v.

(** The tokens' encodings, one after the other from [a]. *)
Fixpoint tokens_at (mem : memory) (a : Z) (ts : list fdt_token) : Prop :=
  match ts with
  | [] => True
  | t :: ts => bytes_at mem a (encode_token t) /\ tokens_at mem (a + len (encode_token t)) ts
  end.

Definition tokens_size (ts : list fdt_token) : Z := len (ts ≫= encode_token).

(** The big-endian value of four bytes. *)
Definition be_word (d : bytes) (i : nat) : Z :=
  of_le4 (ch d (i + 3)) (ch d (i + 2)) (ch d (i + 1)) (ch d i).

(** What the walk for devices keeps between tokens. *)
Record walk_state := WalkState {
  w_depth : Z; w_current : device; w_has_reg : bool; w_has_compatible : bool }.

Section walk.
  (** The strings block: the property name at each offset. *)
  Context (names : Z -> cstr).

(** The effect of the token at address [a], and the device it reports. *)
Definition walk_token (a : Z) (t : fdt_token) (w : walk_state) : walk_state * option device :=
  let '(WalkState depth current has_reg has_compatible) := w in
  match t with
  | BeginNode _ =>
      (WalkState (depth + 1)
         (Device None (Some (a + 4)) 0 0 0 0 0 0 0 None DEVICE_STATE_DISCOVERED 0 0
            None None None depth None) false false, None)
  | EndNode =>
      (WalkState (depth - 1) current has_reg has_compatible,
       if has_reg && has_compatible then Some current else None)
  | Prop_ nameoff data =>
      if decide (names nameoff = str "reg") then
        if 16 <=? len data then
          (WalkState depth
             (set_reg current (be_word data 0 * 2 ^ 32 + be_word data 4)
                (be_word data 8 * 2 ^ 32 + be_word data 12)) true has_compatible, None)
        else (w, None)
      else if decide (names nameoff = str "compatible") then
        if 0 <? len data then
          (WalkState depth (set_dev_compatible current (Some (a + 12))) has_reg true, None)
        else (w, None)
      else (w, None)
  | Nop | End_ => (w, None)
  end.

(** The devices reported for a token list that starts at [a], in order. *)
Fixpoint walk (a : Z) (ts : list fdt_token) (w : walk_state) : list device :=
  match ts with
  | [] | End_ :: _ => []
  | t :: ts =>
      let '(w', d) := walk_token a t w in
      option_list d ++ walk (a + len (encode_token t)) ts w'
  end.

Definition token_ok (t : fdt_token) : Prop :=
  match t with
  | BeginNode name => no_nul name /\ len name + 4 < 2 ^ 32
  | Prop_ nameoff data =>
      is_u32 nameoff /\ is_bytes data /\ len data + 4 < 2 ^ 32 /\ no_nul (names nameoff)
  | _ => True
  end.
End walk.

(** The names of the properties are in the strings block. *)
Definition names_at (mem : memory) (strings_base : Z) (names : Z -> cstr)
    (ts : list fdt_token) : Prop :=
  forall nameoff data, Prop_ nameoff data ∈ ts ->
    string_at mem (strings_base + nameoff) (names nameoff).

(** The callback applied to the reported devices in order. *)
Definition call_all {C} (call : device -> C -> res C) (ds : list device) (c : C) : res C :=
  foldl (fun r d => c ← r; call d c) (Ok c) ds.

(* ------------------------------------------------------------------ *)
(** ** Lemmas: bytes and words *)

Lemma bytes_at_app mem a xs ys :
  bytes_at mem a (xs ++ ys) <-> bytes_at mem a xs /\ bytes_at mem (a + len xs) ys.
Proof.
  unfold bytes_at, len. split.
  - intros H. split; intros i v Hi.
    + apply H. by apply lookup_app_l_Some.
    + specialize (H (length xs + i)%nat v). rewrite Nat2Z.inj_add, Z.add_assoc in H.
      apply H. rewrite lookup_app_r by lia. by replace (length xs + i - length xs)%nat with i by lia.
  - intros [H1 H2] i v Hi. apply lookup_app_Some in Hi as [Hi|[Hl Hi]]; [by apply H1|].
    specialize (H2 _ _ Hi). by replace (a + Z.of_nat (length xs) + Z.of_nat (i - length xs))
      with (a + Z.of_nat i) in H2 by lia.
Qed.

Lemma ldb_at mem a bs i v : bytes_at mem a bs -> bs !! i = Some v ->
  ldb mem (a + Z.of_nat i) = Ok v.
Proof. intros H Hi. unfold ldb. by rewrite (H _ _ Hi). Qed.

Lemma land_shiftl x m k : 0 <= k -> Z.land x (Z.shiftl m k) = Z.shiftl (Z.land (Z.shiftr x k) m) k.
Proof.
  intros Hk. apply Z.bits_inj'. intros i Hi. rewrite Z.land_spec, !Z.shiftl_spec by lia.
  destruct (Z.lt_ge_cases i k).
  - rewrite !(Z.testbit_neg_r _ (i - k)) by lia. apply andb_false_r.
  - rewrite Z.land_spec, Z.shiftr_spec by lia. by replace (i - k + k) with i by lia.
Qed.

(** be32_to_cpu reverses the four bytes. *)
Lemma be32_to_cpu_swap b0 b1 b2 b3 : is_u8 b0 -> is_u8 b1 -> is_u8 b2 -> is_u8 b3 ->
  be32_to_cpu (of_le4 b0 b1 b2 b3) = of_le4 b3 b2 b1 b0.
Proof.
  intros. unfold be32_to_cpu.
  change 0xFF000000 with (Z.shiftl 255 24). change 0x00FF0000 with (Z.shiftl 255 16).
  change 0x0000FF00 with (Z.shiftl 255 8).
  rewrite !land_shiftl by lia. rewrite !land_255, of_le4_3, of_le4_2, of_le4_1, of_le4_0 by done.
  rewrite Z.shiftr_shiftl_l, Z.shiftr_shiftl_l, Z.shiftl_shiftl by lia.
  change (24 - 24) with 0. change (16 - 8) with 8. change (8 + 8) with 16.
  rewrite Z.shiftl_0_r, !u32_id.
  - rewrite <- (lor_be4 b0 b1 b2 b3) by done.
    apply Z.bits_inj'. intros i _. rewrite !Z.lor_spec.
    destruct (Z.testbit b3 i), (Z.testbit (Z.shiftl b0 24) i),
      (Z.testbit (Z.shiftl b1 16) i), (Z.testbit (Z.shiftl b2 8) i); done.
  - rewrite Z.shiftl_mul_pow2 by lia. unfold_ints. lia.
  - rewrite Z.shiftl_mul_pow2 by lia. unfold_ints. lia.
Qed.

Lemma read4_at mem a b0 b1 b2 b3 : bytes_at mem a [b0; b1; b2; b3] ->
  ldb mem a = Ok b0 /\ ldb mem (a + 1) = Ok b1 /\ ldb mem (a + 2) = Ok b2 /\
  ldb mem (a + 3) = Ok b3.
Proof.
  intros H. split_and!; [rewrite <- (Z.add_0_r a)| | |].
  - by apply (ldb_at mem a _ 0 b0 H).
  - by apply (ldb_at mem a _ 1 b1 H).
  - by apply (ldb_at mem a _ 2 b2 H).
  - by apply (ldb_at mem a _ 3 b3 H).
Qed.

Lemma ldw_be32 mem a v : is_u32 v -> bytes_at mem a (be32 v) ->
  exists w, ldw mem a = Ok w /\ be32_to_cpu w = v.
Proof.
  intros (b0 & b1 & b2 & b3 & -> & ? & ? & ? & ?)%to_le4.
  rewrite be32_of_le4 by done. intros (E0 & E1 & E2 & E3)%read4_at.
  exists (of_le4 b3 b2 b1 b0). unfold ldw. rewrite E0, E1, E2, E3. split; [done|].
  by rewrite be32_to_cpu_swap.
Qed.

Lemma read_be32_at mem a b0 b1 b2 b3 :
  is_u8 b0 -> is_u8 b1 -> is_u8 b2 -> is_u8 b3 -> bytes_at mem a [b0; b1; b2; b3] ->
  read_be32_unaligned mem a = Ok (of_le4 b3 b2 b1 b0).
Proof.
  intros H0 H1 H2 H3 (E0 & E1 & E2 & E3)%read4_at. unfold read_be32_unaligned.
  rewrite E0, E1, E2, E3. cbn [mbind res_bind mret res_ret]. rewrite u32_id.
  - rewrite <- lor_be4 by done. by rewrite !Z.lor_assoc.
  - rewrite Z.shiftl_mul_pow2 by lia. unfold_ints. lia.
Qed.

Lemma align_up_pad n : 0 <= n -> n + 3 < 2 ^ 32 -> align_up n = n + len (pad4 n).
Proof.
  intros H0 H1. unfold align_up, pad4, len. rewrite length_replicate.
  change (u32 (Z.lnot 3)) with (Z.shiftl (Z.ones 30) 2).
  rewrite land_shiftl, Z.land_ones, Z.shiftl_mul_pow2, Z.shiftr_div_pow2 by lia.
  rewrite u32_id by (unfold is_u32; lia). zdm.
Qed.

Lemma node_name_scan_at mem p name : forall n pre,
  bytes_at mem p (pre ++ name ++ [0]) -> no_nul name -> (length name < n)%nat ->
  node_name_scan mem p n (len pre) = Ok (len pre + len name).
Proof.
  induction name as [|c name IH]; intros [|n] pre Hb Hn Hl; cbn [length] in Hl; try lia;
    cbn [node_name_scan].
  - change (p + len pre) with (p + Z.of_nat (length pre)). rewrite (ldb_at mem p _ _ 0 Hb) by (by rewrite lookup_app_r, Nat.sub_diag).
    cbn [mbind res_bind]. change (len []) with 0. by rewrite Z.add_0_r.
  - inversion_clear Hn as [|? ? Hc Hn'].
    change (p + len pre) with (p + Z.of_nat (length pre)).
    rewrite (ldb_at mem p _ _ c Hb) by (by rewrite lookup_app_r, Nat.sub_diag).
    cbn [mbind res_bind]. destruct (Z.eqb_spec c 0); [done|].
    replace (len pre + 1) with (len (pre ++ [c])) by (by rewrite len_app).
    rewrite IH; [|by rewrite <- app_assoc|done|lia]. rewrite len_app, !len_cons.
    change (len []) with 0. f_equal. lia.
Qed.

Lemma str_equal_at mem a s lit : string_at mem a s -> no_nul lit ->
  str_equal mem a lit = Ok (bool_decide (s = lit)).
Proof.
  intros Hs Hl. destruct (strcmp_mem_at mem lit a s Hs Hl) as (d & E & Hd).
  unfold str_equal. rewrite E. cbn [mbind res_bind mret res_ret]. f_equal.
  destruct (Z.eqb_spec d 0) as [->|Hne]; case_bool_decide as B; try done; tauto.
Qed.

Lemma no_nul_lit s : forallb (fun c => negb (c =? 0)) s = true -> no_nul s.
Proof.
  intros H. apply Forall_forall. intros c Hc. apply forallb_forall with (x := c) in H.
  - by destruct (Z.eqb_spec c 0).
  - by apply list_elem_of_In.
Qed.

Lemma call_all_app {C} (call : device -> C -> res C) xs ys c :
  call_all call (xs ++ ys) c = (c ← call_all call xs c; call_all call ys c).
Proof.
  unfold call_all. rewrite foldl_app.
  generalize (foldl (fun r d => c ← r; call d c) (Ok c) xs).
  intros r. destruct r as [c'| |]; [done| |];
    (induction ys as [|y ys IH]; [done|exact IH]).
Qed.

(** The four bytes of [data] from index [i]. *)
Lemma bytes_at_word mem a data i : bytes_at mem a data -> is_bytes data ->
  (i + 4 <= length data)%nat ->
  read_be32_unaligned mem (a + Z.of_nat i) = Ok (be_word data i) /\ is_u32 (be_word data i).
Proof.
  intros Hb Hd Hl. unfold be_word, ch.
  assert (G : forall k, (k < length data)%nat -> exists v, data !! k = Some v /\ is_u8 v).
  { intros k Hk. destruct (lookup_lt_is_Some_2 data k Hk) as [v Hv]. exists v.
    split; [done|]. unfold is_bytes in Hd. rewrite Forall_lookup in Hd. eauto. }
  destruct (G i ltac:(lia)) as (b0 & E0 & ?). destruct (G (i + 1)%nat ltac:(lia)) as (b1 & E1 & ?).
  destruct (G (i + 2)%nat ltac:(lia)) as (b2 & E2 & ?).
  destruct (G (i + 3)%nat ltac:(lia)) as (b3 & E3 & ?).
  rewrite E0, E1, E2, E3. cbn [default from_option id].
  split; [|by apply of_le4_range]. apply read_be32_at; try done.
  intros k v Hk. rewrite <- Z.add_assoc, <- Nat2Z.inj_add. apply Hb.
  do 4 (destruct k as [|k]; [by (injection Hk as <-; rewrite ?Nat.add_0_r)|]). done.
Qed.

Lemma lor_shl32 hi lo : is_u32 hi -> is_u32 lo ->
  Z.lor (u64 (Z.shiftl hi 32)) lo = hi * 2 ^ 32 + lo.
Proof.
  intros Hh Hl. rewrite u64_id.
  - by apply lor_shiftl_add.
  - rewrite Z.shiftl_mul_pow2 by lia. unfold_ints. lia.
Qed.

Lemma parse_reg_at mem cur p data struct_end :
  bytes_at mem p data -> is_bytes data -> p + len data <= struct_end ->
  parse_reg mem cur p (len data) struct_end =
  Ok (if 16 <=? len data
      then Some (set_reg cur (be_word data 0 * 2 ^ 32 + be_word data 4)
                   (be_word data 8 * 2 ^ 32 + be_word data 12))
      else None).
Proof.
  intros Hb Hd He. unfold parse_reg. destruct (Z.leb_spec 16 (len data)) as [Hl|]; [|done].
  destruct (Z.leb_spec (p + 16) struct_end); [|lia]. cbn [andb]. unfold len in Hl.
  destruct (bytes_at_word mem p data 0 Hb Hd) as [E0 R0]; [lia|].
  destruct (bytes_at_word mem p data 4 Hb Hd) as [E4 R4]; [lia|].
  destruct (bytes_at_word mem p data 8 Hb Hd) as [E8 R8]; [lia|].
  destruct (bytes_at_word mem p data 12 Hb Hd) as [E12 R12]; [lia|].
  change (Z.of_nat 0) with 0 in E0. rewrite Z.add_0_r in E0.
  change (Z.of_nat 4) with 4 in E4. change (Z.of_nat 8) with 8 in E8.
  change (Z.of_nat 12) with 12 in E12.
  rewrite E0, E4, E8, E12. cbn [mbind res_bind]. by rewrite !lor_shl32.
Qed.

Lemma token_len_pos t : 4 <= len (encode_token t).
Proof.
  destruct t; cbn [encode_token]; rewrite ?len_app, be32_len;
    repeat match goal with |- context [len ?x] =>
      lazymatch goal with H : 0 <= len x |- _ => fail | _ => pose proof (len_nonneg x) end end;
    lia.
Qed.

(** The header word of an encoded token. *)
Lemma token_word mem a t : bytes_at mem a (encode_token t) ->
  exists w, ldw mem a = Ok w /\
    be32_to_cpu w = match t with BeginNode _ => FDT_BEGIN_NODE | EndNode => FDT_END_NODE
      | Prop_ _ _ => FDT_PROP | Nop => FDT_NOP | End_ => FDT_END end.
Proof.
  intros Hb. apply ldw_be32; [by destruct t|].
  destruct t; cbn [encode_token] in Hb; try exact Hb; by apply bytes_at_app in Hb as [Hb _].
Qed.

(* ------------------------------------------------------------------ *)
(** ** Lemmas: the walk *)

Lemma call_none {C} (call : device -> C -> res C) ctx :
  call_all call (option_list None) ctx = Ok ctx.
Proof. done. Qed.
Lemma len_none : len (option_list (@None device)) = 0.
Proof. done. Qed.

Section refinement.
  Context {C : Type} (mem : memory) (call : device -> C -> res C).
  Context (names : Z -> cstr) (struct_end strings_base : Z).

  Abbreviation step := (enumerate_step mem (Some call) struct_end strings_base).

(** What one turn of the loop does on a token. *)
Definition token_step (a depth count : Z) (cur : device) (hr hc : bool) (ctx : C)
    (t : fdt_token) : res (flow (@enum_state C) (Z * C)) :=
  let '(WalkState depth' cur' hr' hc', d) :=
    walk_token names a t (WalkState depth cur hr hc) in
  ctx' ← call_all call (option_list d) ctx;
  Ok (Continue (EnumState (a + len (encode_token t)) depth'
                  (count + len (option_list d)) cur' hr' hc' ctx')).

Lemma step_begin a depth count cur hr hc ctx name :
  bytes_at mem a (encode_token (BeginNode name)) -> token_ok names (BeginNode name) ->
  a + len (encode_token (BeginNode name)) <= struct_end ->
  step (EnumState a depth count cur hr hc ctx) =
  token_step a depth count cur hr hc ctx (BeginNode name).
Proof using.
  intros Hb [Hn Hl] He. pose proof (len_nonneg name).
  destruct (token_word mem a _ Hb) as (w & Ew & Hw). cbn [encode_token] in Hb, He.
  apply bytes_at_app in Hb as [_ Hb]. apply bytes_at_app in Hb as [Hb _].
  rewrite be32_len in Hb.
  rewrite !len_app, be32_len in He. change (len [0]) with 1 in He.
  pose proof (len_nonneg (pad4 (len name + 1))).
  unfold enumerate_step. destruct (Z.leb_spec struct_end a); [lia|].
  rewrite Ew. cbn [mbind res_bind]. rewrite Hw. cbn [Z.eqb FDT_BEGIN_NODE Pos.eqb].
  destruct (Z.leb_spec struct_end (a + 4)); [lia|].
  rewrite (node_name_scan_at mem (a + 4) name _ []) by (done || (unfold len in *; lia)).
  change (len []) with 0. cbn [mbind res_bind]. rewrite Z.add_0_l.
  destruct (Z.leb_spec (struct_end - (a + 4)) (len name)); [lia|].
  rewrite u32_id, align_up_pad by (unfold is_u32; lia).
  destruct (Z.ltb_spec struct_end (a + 4 + (len name + 1 + len (pad4 (len name + 1))))); [lia|].
  unfold token_step. cbn [walk_token]. rewrite call_none, len_none. cbn [mbind res_bind encode_token].
  rewrite !len_app, be32_len.
  change (len [0]) with 1. do 3 f_equal; lia.
Qed.

Lemma step_end_node a depth count cur hr hc ctx :
  bytes_at mem a (encode_token EndNode) -> a + 4 <= struct_end ->
  step (EnumState a depth count cur hr hc ctx) =
  token_step a depth count cur hr hc ctx EndNode.
Proof using.
  intros Hb He. destruct (token_word mem a _ Hb) as (w & Ew & Hw).
  unfold enumerate_step. destruct (Z.leb_spec struct_end a); [lia|].
  rewrite Ew. cbn [mbind res_bind]. rewrite Hw.
  cbn [Z.eqb FDT_BEGIN_NODE FDT_END_NODE Pos.eqb].
  unfold token_step. cbn [walk_token encode_token]. rewrite be32_len.
  destruct (hr && hc).
  - done.
  - rewrite call_none, len_none. cbn [mbind res_bind]. by rewrite Z.add_0_r.
Qed.

Lemma step_prop a depth count cur hr hc ctx nameoff data :
  bytes_at mem a (encode_token (Prop_ nameoff data)) ->
  token_ok names (Prop_ nameoff data) ->
  string_at mem (strings_base + nameoff) (names nameoff) ->
  a + len (encode_token (Prop_ nameoff data)) <= struct_end ->
  step (EnumState a depth count cur hr hc ctx) =
  token_step a depth count cur hr hc ctx (Prop_ nameoff data).
Proof using.
  intros Hb (Hno & Hd & Hl & Hnn) Hs He. pose proof (len_nonneg data).
  destruct (token_word mem a _ Hb) as (w & Ew & Hw). cbn [encode_token] in Hb, He.
  apply bytes_at_app in Hb as [_ Hb]. apply bytes_at_app in Hb as [Hb1 Hb].
  apply bytes_at_app in Hb as [Hb2 Hb]. apply bytes_at_app in Hb as [Hb3 _].
  rewrite !be32_len in *. rewrite !len_app, !be32_len in He.
  pose proof (len_nonneg (pad4 (len data))).
  destruct (ldw_be32 mem (a + 4) (len data)) as (l & El & Hl'); [unfold is_u32; lia|done|].
  destruct (ldw_be32 mem (a + 4 + 4) nameoff) as (n & En & Hn'); [done..|].
  unfold enumerate_step. destruct (Z.leb_spec struct_end a); [lia|].
  rewrite Ew. cbn [mbind res_bind]. rewrite Hw.
  cbn [Z.eqb FDT_BEGIN_NODE FDT_END_NODE FDT_PROP Pos.eqb].
  unfold sizeof_fdt_prop. destruct (Z.ltb_spec struct_end (a + 4 + 8)); [lia|].
  rewrite El. cbn [mbind res_bind]. rewrite En. cbn [mbind res_bind]. rewrite Hl', Hn'.
  destruct (Z.ltb_spec struct_end (a + 4 + 8 + len data)); [lia|].
  rewrite (str_equal_at _ _ _ (str "reg") Hs) by (by apply no_nul_lit).
  rewrite (str_equal_at _ _ _ (str "compatible") Hs) by (by apply no_nul_lit).
  rewrite align_up_pad by lia.
  replace (a + 4 + 4 + 4) with (a + 4 + 8) in Hb3 by lia.
  rewrite (parse_reg_at mem cur (a + 4 + 8) data struct_end) by (done || lia).
  assert (Hfin : forall c' h1 h2,
    (if struct_end <? a + 4 + 8 + (len data + len (pad4 (len data)))
     then Ok (Return (count, ctx))
     else Ok (Continue (EnumState (a + 4 + 8 + (len data + len (pad4 (len data)))) depth
                          count c' h1 h2 ctx))) =
    (ctx' ← call_all call (option_list None) ctx;
     Ok (Continue (EnumState (a + len (encode_token (Prop_ nameoff data))) depth
                     (count + len (option_list (@None device))) c' h1 h2 ctx')))).
  { intros. destruct (Z.ltb_spec struct_end
      (a + 4 + 8 + (len data + len (pad4 (len data))))); [lia|].
    rewrite call_none, len_none. cbn [mbind res_bind encode_token].
    rewrite !len_app, !be32_len. do 3 f_equal; lia. }
  unfold token_step. cbn [walk_token mbind res_bind].
  destruct (decide (names nameoff = str "reg")) as [E|E].
  - rewrite bool_decide_eq_true_2 by done.
    destruct (16 <=? len data); cbn [mbind res_bind]; apply Hfin.
  - rewrite bool_decide_eq_false_2 by done. cbn [mbind res_bind].
    destruct (decide (names nameoff = str "compatible")) as [E'|E'].
    + rewrite bool_decide_eq_true_2 by done. cbn [andb].
      destruct (0 <? len data); cbn [mbind res_bind]; [|apply Hfin].
      replace (a + 12) with (a + 4 + 8) by lia. apply Hfin.
    + rewrite bool_decide_eq_false_2 by done. cbn [andb mbind res_bind]. apply Hfin.
Qed.

Lemma step_token a depth count cur hr hc ctx t :
  bytes_at mem a (encode_token t) -> token_ok names t -> t <> End_ ->
  (forall nameoff data, t = Prop_ nameoff data ->
     string_at mem (strings_base + nameoff) (names nameoff)) ->
  a + len (encode_token t) <= struct_end ->
  step (EnumState a depth count cur hr hc ctx) = token_step a depth count cur hr hc ctx t.
Proof using.
  intros Hb Ht Hne Hs He. destruct t as [name| |nameoff data| |]; [| | | |done].
  - by apply step_begin.
  - by apply step_end_node.
  - apply step_prop; eauto.
  - destruct (token_word mem a _ Hb) as (w & Ew & Hw). cbn [encode_token] in He.
    rewrite be32_len in He. unfold enumerate_step.
    destruct (Z.leb_spec struct_end a); [lia|]. rewrite Ew. cbn [mbind res_bind]. rewrite Hw.
    cbn [Z.eqb FDT_BEGIN_NODE FDT_END_NODE FDT_PROP FDT_NOP Pos.eqb].
    unfold token_step. cbn [walk_token]. rewrite call_none, len_none. cbn [mbind res_bind encode_token]. by rewrite be32_len, Z.add_0_r.
Qed.

(** The loop over the tokens calls the callback on the devices of the walk. *)
Lemma enumerate_loop ts : forall fuel a depth count cur hr hc ctx,
  tokens_at mem a (ts ++ [End_]) -> Forall (token_ok names) ts -> End_ ∉ ts ->
  names_at mem strings_base names ts ->
  a + tokens_size ts + 4 <= struct_end -> (length ts < fuel)%nat ->
  let ds := walk names a ts (WalkState depth cur hr hc) in
  run_loop fuel step (EnumState a depth count cur hr hc ctx) =
  (ctx' ← call_all call ds ctx; Ok (count + len ds, ctx')).
Proof using.
  induction ts as [|t ts IH]; intros [|fuel] a depth count cur hr hc ctx Ht Hok Hne Hs He Hf;
    cbn [length] in Hf; try lia; cbn [run_loop].
  - cbn [app tokens_at] in Ht. destruct Ht as [Hb _].
    destruct (token_word mem a _ Hb) as (w & Ew & Hw).
    change (tokens_size []) with 0 in He.
    assert (Es : step (EnumState a depth count cur hr hc ctx) = Ok (Return (count, ctx))).
    { unfold enumerate_step. destruct (Z.leb_spec struct_end a); [lia|]. rewrite Ew.
      cbn [mbind res_bind]. by rewrite Hw. }
    rewrite Es. cbn [mbind res_bind walk].
    change (call_all call [] ctx) with (Ok ctx). cbn [mbind res_bind].
    change (len []) with 0. by rewrite Z.add_0_r.
  - cbn [app tokens_at] in Ht. destruct Ht as [Hb Ht].
    inversion_clear Hok as [|? ? Hok1 Hok'].
    assert (Ets : tokens_size (t :: ts) = len (encode_token t) + tokens_size ts)
      by (unfold tokens_size; cbn; by rewrite len_app).
    rewrite Ets in He. pose proof (len_nonneg (ts ≫= encode_token)) as Hts.
    change (len (ts ≫= encode_token)) with (tokens_size ts) in Hts.
    assert (t <> End_) by (intros ->; apply Hne; by left).
    rewrite (step_token a depth count cur hr hc ctx t); [|done|done|done| |lia].
    2:{ intros nameoff data ->. apply (Hs nameoff data). by left. }
    unfold token_step. cbv zeta.
    assert (Ew : walk names a (t :: ts) (WalkState depth cur hr hc) =
      let '(w', d) := walk_token names a t (WalkState depth cur hr hc) in
      option_list d ++ walk names (a + len (encode_token t)) ts w') by (by destruct t).
    rewrite Ew.
    destruct (walk_token names a t (WalkState depth cur hr hc)) as [[d' c' r' h'] d].
    rewrite call_all_app.
    destruct (call_all call (option_list d) ctx) as [ctx'| |]; [|done..].
    cbn [mbind res_bind]. rewrite IH; [|done|done| | |lia|lia].
    + rewrite len_app. destruct (call_all call _ ctx'); [|done..]. cbn [mbind res_bind].
      by rewrite Z.add_assoc.
    + intros Hin. apply Hne. by right.
    + intros nameoff data Hin. apply (Hs nameoff data). by right.
Qed.
End refinement.

(* ------------------------------------------------------------------ *)
(** ** The walk for the boot arguments *)

Record args_walk := ArgsWalk { aw_depth : Z; aw_chosen : bool; aw_args : option Z }.

Definition args_token (names : Z -> cstr) (a : Z) (t : fdt_token) (w : args_walk) : args_walk :=
  let '(ArgsWalk depth in_chosen args) := w in
  match t with
  | BeginNode name =>
      ArgsWalk (depth + 1)
        (((depth =? 1) && bool_decide (name = str "chosen")) || in_chosen) args
  | EndNode => ArgsWalk (depth - 1) (if depth - 1 =? 1 then false else in_chosen) args
  | Prop_ nameoff data =>
      ArgsWalk depth in_chosen
        (if in_chosen && bool_decide (names nameoff = str "bootargs") && (0 <? len data)
         then Some (a + 12) else args)
  | Nop | End_ => w
  end.

Fixpoint args_of (names : Z -> cstr) (a : Z) (ts : list fdt_token) (w : args_walk) : option Z :=
  match ts with
  | [] | End_ :: _ => aw_args w
  | t :: ts => args_of names (a + len (encode_token t)) ts (args_token names a t w)
  end.

Lemma string_at_bytes mem name : forall a,
  bytes_at mem a (name ++ [0]) -> no_nul name -> string_at mem a name.
Proof.
  induction name as [|c name IH]; intros a Hb Hn.
  - cbn. rewrite <- (Z.add_0_r a). by apply (Hb O 0).
  - inversion_clear Hn as [|? ? Hc Hn']. cbn. split_and!; [|done|].
    + rewrite <- (Z.add_0_r a). by apply (Hb O c).
    + apply IH; [|done]. change ((c :: name) ++ [0]) with ([c] ++ name ++ [0]) in Hb.
      by apply bytes_at_app in Hb as [_ Hb].
Qed.

Section bootargs_refinement.
  Context (mem : memory) (names : Z -> cstr) (fdt_end strings_base : Z).

  Abbreviation astep := (bootargs_step mem fdt_end strings_base).
Definition args_cont (a : Z) (w : args_walk) : res (flow args_state (option Z)) :=
    Ok (Continue (ArgsState a (aw_depth w) (aw_chosen w) (aw_args w))).

Lemma astep_token a t w :
  bytes_at mem a (encode_token t) -> token_ok names t -> t <> End_ ->
  (forall nameoff data, t = Prop_ nameoff data ->
     string_at mem (strings_base + nameoff) (names nameoff)) ->
  a + len (encode_token t) <= fdt_end ->
  astep (ArgsState a (aw_depth w) (aw_chosen w) (aw_args w)) =
  args_cont (a + len (encode_token t)) (args_token names a t w).
Proof using.
  intros Hb Hok Hne Hs He. destruct w as [depth ch args]. cbn [aw_depth aw_chosen aw_args].
  destruct (token_word mem a _ Hb) as (w & Ew & Hw). pose proof (token_len_pos t).
  unfold bootargs_step. destruct (Z.leb_spec fdt_end a); [lia|].
  rewrite Ew. cbn [mbind res_bind]. rewrite Hw.
  destruct t as [name| |nameoff data| |]; [| | | |done];
    cbn [Z.eqb FDT_BEGIN_NODE FDT_END_NODE FDT_PROP FDT_NOP Pos.eqb];
    unfold args_cont; cbn [args_token aw_depth aw_chosen aw_args encode_token] in *.
  - destruct Hok as [Hn Hl]. pose proof (len_nonneg name).
    apply bytes_at_app in Hb as [_ Hb]. apply bytes_at_app in Hb as [Hb _].
    rewrite be32_len in Hb. rewrite !len_app, be32_len in *. change (len [0]) with 1 in *.
    pose proof (len_nonneg (pad4 (len name + 1))).
    destruct (Z.leb_spec fdt_end (a + 4)); [lia|].
    rewrite (node_name_scan_at mem (a + 4) name _ []) by (done || (unfold len in *; lia)).
    change (len []) with 0. cbn [mbind res_bind]. rewrite Z.add_0_l.
    destruct (Z.leb_spec (fdt_end - (a + 4)) (len name)); [lia|].
    rewrite u32_id, align_up_pad by (unfold is_u32; lia).
    rewrite (str_equal_at mem (a + 4) name (str "chosen"))
      by (by apply no_nul_lit || by apply string_at_bytes).
    destruct (depth =? 1); cbn [mbind res_bind andb orb]; do 3 f_equal; lia.
  - rewrite be32_len. destruct (depth - 1 =? 1), ch; reflexivity.
  - destruct Hok as (Hno & Hd & Hl & Hnn). pose proof (len_nonneg data).
    specialize (Hs nameoff data eq_refl).
    apply bytes_at_app in Hb as [_ Hb]. apply bytes_at_app in Hb as [Hb1 Hb].
    apply bytes_at_app in Hb as [Hb2 Hb]. apply bytes_at_app in Hb as [Hb3 _].
    rewrite !len_app, !be32_len in *. pose proof (len_nonneg (pad4 (len data))).
    destruct (ldw_be32 mem (a + 4) (len data)) as (l & El & Hl'); [unfold is_u32; lia|done|].
    destruct (ldw_be32 mem (a + 4 + 4) nameoff) as (n & En & Hn'); [done..|].
    unfold sizeof_fdt_prop. destruct (Z.ltb_spec fdt_end (a + 4 + 8)); [lia|].
    rewrite El. cbn [mbind res_bind]. rewrite En. cbn [mbind res_bind]. rewrite Hl', Hn'.
    destruct (Z.ltb_spec fdt_end (a + 4 + 8 + len data)); [lia|].
    rewrite (str_equal_at _ _ _ (str "bootargs") Hs) by (by apply no_nul_lit).
    rewrite align_up_pad by lia. replace (a + 4 + 8) with (a + 12) by lia.
    destruct ch; cbn [mbind res_bind andb]; do 3 f_equal; lia.
  - by rewrite be32_len.
Qed.

Lemma args_loop ts : forall fuel a w,
  tokens_at mem a (ts ++ [End_]) -> Forall (token_ok names) ts -> End_ ∉ ts ->
  names_at mem strings_base names ts ->
  a + tokens_size ts + 4 <= fdt_end -> (length ts < fuel)%nat ->
  run_loop fuel astep (ArgsState a (aw_depth w) (aw_chosen w) (aw_args w)) =
  Ok (args_of names a ts w).
Proof using.
  induction ts as [|t ts IH]; intros [|fuel] a w Ht Hok Hne Hs He Hf;
    cbn [length] in Hf; try lia; cbn [run_loop].
  - cbn [app tokens_at] in Ht. destruct Ht as [Hb _].
    destruct (token_word mem a _ Hb) as (x & Ex & Hx). change (tokens_size []) with 0 in He.
    assert (Es : astep (ArgsState a (aw_depth w) (aw_chosen w) (aw_args w))
      = Ok (Return (aw_args w))).
    { unfold bootargs_step. destruct (Z.leb_spec fdt_end a); [lia|]. rewrite Ex.
      cbn [mbind res_bind]. by rewrite Hx. }
    by rewrite Es.
  - cbn [app tokens_at] in Ht. destruct Ht as [Hb Ht].
    inversion_clear Hok as [|? ? Hok1 Hok'].
    assert (Ets : tokens_size (t :: ts) = len (encode_token t) + tokens_size ts)
      by (unfold tokens_size; cbn; by rewrite len_app).
    rewrite Ets in He. pose proof (len_nonneg (ts ≫= encode_token)) as Hts.
    change (len (ts ≫= encode_token)) with (tokens_size ts) in Hts.
    assert (t <> End_) by (intros ->; apply Hne; by left).
    rewrite (astep_token a t w); [|done|done|done| |lia].
    2:{ intros nameoff data ->. apply (Hs nameoff data). by left. }
    unfold args_cont. cbn [mbind res_bind].
    rewrite IH; [by destruct t|done|done| | |lia|lia].
    + intros Hin. apply Hne. by right.
    + intros nameoff data Hin. apply (Hs nameoff data). by right.
Qed.
End bootargs_refinement.

(* ------------------------------------------------------------------ *)
(** ** Well-formed blobs *)

(** A device tree blob at [addr] whose structure block, [so] bytes in, holds the
    tokens [ts] and FDT_END, and whose strings block holds the names. *)
Record fdt_blob (mem : memory) (addr so : Z) (names : Z -> cstr) (ts : list fdt_token) : Prop :=
  FdtBlob {
    blob_addr : addr <> 0;
    blob_magic : bytes_at mem (addr + fdt.magic) (be32 FDT_MAGIC);
    blob_so : is_u32 so /\ bytes_at mem (addr + fdt.off_dt_struct) (be32 so);
    blob_sizes : exists sto total,
      is_u32 sto /\ is_u32 total /\
      bytes_at mem (addr + fdt.off_dt_strings) (be32 sto) /\
      bytes_at mem (addr + fdt.totalsize) (be32 total) /\
      bytes_at mem (addr + fdt.size_dt_struct) (be32 (tokens_size ts + 4)) /\
      so + (tokens_size ts + 4) <= total /\ sto <= total /\
      names_at mem (addr + sto) names ts;
    blob_tokens : tokens_at mem (addr + so) (ts ++ [End_]);
    blob_ok : Forall (token_ok names) ts;
    blob_end : End_ ∉ ts
  }.

Lemma tokens_size_ge ts : 4 * Z.of_nat (length ts) <= tokens_size ts.
Proof.
  unfold tokens_size. induction ts as [|t ts IH]; [done|].
  cbn [length]. change ((t :: ts) ≫= encode_token) with (encode_token t ++ (ts ≫= encode_token)).
  rewrite len_app. pose proof (token_len_pos t). lia.
Qed.

Lemma ldb_u8_check mem a bs :
  forallb (fun p => bool_decide (mem (a + Z.of_nat p.1) = Some p.2)) (zip (seq 0 (length bs)) bs)
  = true -> bytes_at mem a bs.
Proof.
  intros H i v Hi. pose proof (proj1 (forallb_forall _ _) H) as Hf.
  specialize (Hf (i, v)). cbn in Hf. apply bool_decide_eq_true in Hf; [done|].
  apply list_elem_of_In, list_elem_of_lookup. exists i. apply lookup_zip_with_Some.
  exists i, v. split; [done|]. split; [|done].
  rewrite lookup_seq_lt; [done|]. by apply lookup_lt_Some in Hi.
Qed.

(** The parsers terminate on any memory. *)
Definition no_fuel_error {A} (r : res A) : Prop := r <> NoFuel.

Lemma bind_terminates {A B} (r : res A) (f : A -> res B) :
  no_fuel_error r -> (forall a, no_fuel_error (f a)) -> no_fuel_error (a ← r; f a).
Proof. unfold no_fuel_error. destruct r; cbn; auto. Qed.

Lemma ldb_terminates mem a : no_fuel_error (ldb mem a).
Proof. unfold no_fuel_error, ldb. by case_match. Qed.
Lemma ldw_terminates mem a : no_fuel_error (ldw mem a).
Proof. unfold ldw. repeat (apply bind_terminates; [apply ldb_terminates|intros ?]). done. Qed.
Lemma read_be32_terminates mem a : no_fuel_error (read_be32_unaligned mem a).
Proof.
  unfold read_be32_unaligned.
  repeat (apply bind_terminates; [apply ldb_terminates|intros ?]). done.
Qed.
Lemma str_equal_terminates mem a s : no_fuel_error (str_equal mem a s).
Proof.
  unfold str_equal. apply bind_terminates; [|done]. revert a.
  induction s as [|x s IH]; intros a; cbn [strcmp_mem];
    (apply bind_terminates; [apply ldb_terminates|intros c]); [done|].
  case_match; [apply IH|done].
Qed.
Lemma node_name_scan_terminates mem a n : forall k, no_fuel_error (node_name_scan mem a n k).
Proof.
  induction n as [|n IH]; intros k; cbn [node_name_scan]; [done|].
  apply bind_terminates; [apply ldb_terminates|intros c]. case_match; [done|apply IH].
Qed.
Create HintDb terminates.
#[export] Hint Resolve ldb_terminates ldw_terminates read_be32_terminates
  str_equal_terminates node_name_scan_terminates : terminates.

Lemma align_up_nonneg n : 0 <= align_up n.
Proof. unfold align_up. apply Z.land_nonneg. right. vm_compute. congruence. Qed.

Lemma be32_to_cpu_nonneg v : 0 <= be32_to_cpu v.
Proof.
  unfold be32_to_cpu. rewrite !Z.lor_nonneg. split_and!.
  - apply Z.shiftr_nonneg, Z.land_nonneg. by right.
  - apply Z.shiftr_nonneg, Z.land_nonneg. by right.
  - apply u32_range.
  - apply u32_range.
Qed.

(** A loop each of whose turns advances a pointer by at least four terminates. *)
Lemma run_loop_terminates {S A} (step : S -> res (flow S A)) (ptr : S -> Z) (stop : Z) :
  (forall s, no_fuel_error (step s)) ->
  (forall s s', step s = Ok (Continue s') -> ptr s < stop /\ ptr s + 4 <= ptr s') ->
  forall fuel s, stop - ptr s <= 4 * (Z.of_nat fuel - 1) -> (0 < fuel)%nat ->
  no_fuel_error (run_loop fuel step s).
Proof.
  intros Hns Hadv. induction fuel as [|fuel IH]; intros s Hf Hp; [lia|]. cbn [run_loop].
  specialize (Hns s) as Hs. destruct (step s) as [[s'|a]| |] eqn:E; try done.
  cbn [mbind res_bind]. destruct (Hadv s s' E). apply IH; lia.
Qed.

Ltac step_terminates :=
  repeat first
    [ apply bind_terminates; [solve [eauto with terminates] | intros ?]
    | case_match
    | done ].
Section termination.
  Context {C : Type} (mem : memory) (call : option (device -> C -> res C)).
  Context (Hcall : forall f d c, call = Some f -> f d c <> NoFuel).

Lemma parse_reg_terminates cur p l e : no_fuel_error (parse_reg mem cur p l e).
Proof using. unfold parse_reg. step_terminates. Qed.

Lemma enumerate_step_terminates e sb s : no_fuel_error (enumerate_step mem call e sb s).
Proof using Hcall.
  destruct s as [ptr depth count cur hr hc ctx]. unfold enumerate_step.
  case_match; [done|]. apply bind_terminates; [eauto with terminates|intros w].
  case_match; [step_terminates|]. case_match.
  { destruct call as [f|] eqn:Ef; [|done]. case_match; [|done].
    apply bind_terminates; [by apply (Hcall f)|done]. }
  case_match; [|step_terminates].
  case_match; [done|]. apply bind_terminates; [eauto with terminates|intros l].
  apply bind_terminates; [eauto with terminates|intros n]. case_match; [done|].
  apply bind_terminates; [eauto with terminates|intros is_reg].
  apply bind_terminates; [|intros [[? ?] ?]; step_terminates].
  destruct is_reg; [|step_terminates].
  apply bind_terminates; [apply parse_reg_terminates|intros [?|]; done].
Qed.
End termination.

Lemma continue_inj {S A} (s s' : S) : @Ok (flow S A) (Continue s) = Ok (Continue s') -> s' = s.
Proof. by intros [=]. Qed.

(** Every turn of the walk that continues advances the pointer. *)
Lemma enumerate_step_advances {C} mem (call : option (device -> C -> res C)) e sb s s' :
  enumerate_step mem call e sb s = Ok (Continue s') ->
  e_ptr s < e /\ e_ptr s + 4 <= e_ptr s'.
Proof.
  destruct s as [ptr depth count cur hr hc ctx]. unfold enumerate_step. cbn [e_ptr].
  destruct (Z.leb_spec e ptr); [done|]. intros H1. bind_inv H1.
  case_match.
  { case_match; [done|]. bind_inv H1. case_match; [done|]. case_match; [done|].
    apply continue_inj in H1 as ->. cbn [e_ptr a_ptr]. pose proof (align_up_nonneg (u32 (a0 + 1))). lia. }
  case_match.
  { destruct call; [|apply continue_inj in H1 as ->; cbn [e_ptr a_ptr]; lia].
    case_match; bind_inv H1; apply continue_inj in H1 as ->; cbn [e_ptr a_ptr]; lia. }
  case_match.
  { case_match; [done|]. bind_inv H1. case_match; [done|]. bind_inv H1.
    destruct a3 as [[? ?] ?]. case_match; [done|]. apply continue_inj in H1 as ->. cbn [e_ptr a_ptr].
    pose proof (align_up_nonneg (be32_to_cpu a0)). lia. }
  case_match; [|done]. apply continue_inj in H1 as ->. cbn [e_ptr a_ptr]. lia.
Qed.

Lemma bootargs_step_advances mem e sb s s' :
  bootargs_step mem e sb s = Ok (Continue s') -> a_ptr s < e /\ a_ptr s + 4 <= a_ptr s'.
Proof.
  destruct s as [ptr depth ch args]. unfold bootargs_step. cbn [a_ptr].
  destruct (Z.leb_spec e ptr); [done|]. intros H1. bind_inv H1.
  case_match.
  { case_match; [done|]. bind_inv H1. case_match; [done|]. bind_inv H1.
    apply continue_inj in H1 as ->. cbn [e_ptr a_ptr]. pose proof (align_up_nonneg (u32 (a0 + 1))). lia. }
  case_match; [apply continue_inj in H1 as ->; cbn [e_ptr a_ptr]; lia|].
  case_match.
  { case_match; [done|]. bind_inv H1. case_match; [done|]. bind_inv H1.
    apply continue_inj in H1 as ->. cbn [e_ptr a_ptr]. pose proof (align_up_nonneg (be32_to_cpu a0)). lia. }
  case_match; [apply continue_inj in H1 as ->; cbn [e_ptr a_ptr]; lia|]. by case_match.
Qed.

Lemma bootargs_step_terminates mem e sb s : no_fuel_error (bootargs_step mem e sb s).
Proof. destruct s. unfold bootargs_step. step_terminates. Qed.

(** The token walk is what fdt_enumerate_devices does. *)
Lemma fdt_enumerate_walk {C} mem (call : device -> C -> res C) addr so names ts ctx :
  fdt_blob mem addr so names ts ->
  let ds := walk names (addr + so) ts (WalkState 0 device_zero false false) in
  fdt_enumerate_devices mem (Some call) addr ctx =
  (ctx' ← call_all call ds ctx; Ok (len ds, ctx')).
Proof.
  intros [Ha Hm [Hso Hbso] (sto & total & Hsto & Htot & Hb1 & Hb2 & Hb3 & Hle & Hle' & Hn)
    Ht Hok He] ds.
  pose proof (tokens_size_ge ts). unfold is_u32 in Hso, Htot.
  unfold fdt_enumerate_devices. destruct (Z.eqb_spec addr 0); [done|].
  destruct (ldw_be32 mem _ FDT_MAGIC ltac:(done) Hm) as (w0 & E0 & W0).
  destruct (ldw_be32 mem _ so ltac:(unfold is_u32; lia) Hbso) as (w1 & E1 & W1).
  destruct (ldw_be32 mem _ sto Hsto Hb1) as (w2 & E2 & W2).
  destruct (ldw_be32 mem _ total Htot Hb2) as (w3 & E3 & W3).
  destruct (ldw_be32 mem _ (tokens_size ts + 4) ltac:(unfold is_u32; lia) Hb3) as (w4 & E4 & W4).
  rewrite E0. cbn [mbind res_bind]. rewrite W0. cbn [negb Z.eqb FDT_MAGIC Pos.eqb].
  rewrite E1, E2, E3, E4. cbn [mbind res_bind]. rewrite W1, W2, W3, W4.
  rewrite u32_id by (unfold is_u32; lia).
  destruct (Z.ltb_spec total so); [lia|]. destruct (Z.ltb_spec total sto); [lia|].
  destruct (Z.ltb_spec total (so + (tokens_size ts + 4))); [lia|]. cbn [orb].
  rewrite (enumerate_loop mem call names _ _ ts) by (done || lia || zdm).
  fold ds. by rewrite Z.add_0_l.
Qed.

(* ------------------------------------------------------------------ *)
(** ** Properties *)

(** C7: On a well-formed blob fdt_enumerate_devices reads only bytes of the blob,
    and calls the callback on exactly the devices of the token walk, in order, each
    with the name, depth, first reg range and first compatible string of the
    node most recently begun; it returns how many it reported. *)
Theorem fdt_enumerate_devices_correct {C} mem (call : device -> C -> res C) addr so names ts ctx :
  fdt_blob mem addr so names ts ->
  let ds := walk names (addr + so) ts (WalkState 0 device_zero false false) in
  fdt_enumerate_devices mem (Some call) addr ctx =
  (ctx' ← call_all call ds ctx; Ok (len ds, ctx')).
Proof. apply fdt_enumerate_walk. Qed.

(** C13: On a well-formed blob fdt_get_bootargs returns the address of the last
    non-empty bootargs property found while the walk is inside a child of the root
    called chosen, or NULL. *)
Theorem fdt_get_bootargs_correct mem addr so names ts :
  fdt_blob mem addr so names ts ->
  fdt_get_bootargs mem addr = Ok (args_of names (addr + so) ts (ArgsWalk 0 false None)).
Proof.
  intros [Ha Hm [Hso Hbso] (sto & total & Hsto & Htot & Hb1 & Hb2 & Hb3 & Hle & Hle' & Hn)
    Ht Hok He].
  pose proof (tokens_size_ge ts). unfold is_u32 in Hso, Htot.
  unfold fdt_get_bootargs. destruct (Z.eqb_spec addr 0); [done|].
  destruct (ldw_be32 mem _ FDT_MAGIC ltac:(done) Hm) as (w0 & E0 & W0).
  destruct (ldw_be32 mem _ so ltac:(unfold is_u32; lia) Hbso) as (w1 & E1 & W1).
  destruct (ldw_be32 mem _ sto Hsto Hb1) as (w2 & E2 & W2).
  destruct (ldw_be32 mem _ total Htot Hb2) as (w3 & E3 & W3).
  rewrite E0. cbn [mbind res_bind]. rewrite W0. cbn [negb Z.eqb FDT_MAGIC Pos.eqb].
  rewrite E1, E2, E3. cbn [mbind res_bind]. rewrite W1, W2, W3.
  apply (args_loop mem names _ _ ts _ _ (ArgsWalk 0 false None)); try done; [lia|zdm].
Qed.

(** C15: Both walks terminate on any memory contents, well-formed or not: the loop
    bounds computed from the header's sizes are never exhausted. *)
Theorem fdt_terminates {C} mem (call : option (device -> C -> res C)) addr ctx :
  (forall f d c, call = Some f -> f d c <> NoFuel) ->
  fdt_enumerate_devices mem call addr ctx <> NoFuel /\ fdt_get_bootargs mem addr <> NoFuel.
Proof.
  intros Hc. split.
  - unfold fdt_enumerate_devices. case_match; [done|].
    apply bind_terminates; [eauto with terminates|intros m]. case_match; [done|].
    apply bind_terminates; [eauto with terminates|intros so].
    apply bind_terminates; [eauto with terminates|intros sto].
    apply bind_terminates; [eauto with terminates|intros ts].
    apply bind_terminates; [eauto with terminates|intros ss]. case_match; [done|].
    pose proof (be32_to_cpu_nonneg ss).
    eapply (run_loop_terminates _ e_ptr).
    + intros s. by apply enumerate_step_terminates.
    + intros s s'. apply enumerate_step_advances.
    + cbn [e_ptr]. zdm.
    + zdm.
  - unfold fdt_get_bootargs. case_match; [done|].
    apply bind_terminates; [eauto with terminates|intros m]. case_match; [done|].
    apply bind_terminates; [eauto with terminates|intros so].
    apply bind_terminates; [eauto with terminates|intros sto].
    apply bind_terminates; [eauto with terminates|intros ts].
    pose proof (be32_to_cpu_nonneg ts). pose proof (be32_to_cpu_nonneg so).
    eapply (run_loop_terminates _ a_ptr).
    + intros s. apply bootargs_step_terminates.
    + intros s s'. apply bootargs_step_advances.
    + cbn [a_ptr]. zdm.
    + zdm.
Qed.

(* ------------------------------------------------------------------ *)
(** ** A sample blob *)

(** The memory that holds [bs] at [addr] and nothing else. *)
Definition mem_of (addr : Z) (bs : bytes) : memory := fun a =>
  if addr <=? a then bs !! Z.to_nat (a - addr) else None.

Definition sample_strings : bytes :=
  str "bootargs" ++ [0] ++ str "compatible" ++ [0] ++ str "reg" ++ [0].

(** A root node with a chosen node and one virtio,mmio device. *)
Definition sample_tokens : list fdt_token :=
  [BeginNode (str "");
   BeginNode (str "chosen"); Prop_ 0 (str "log=warn" ++ [0]); EndNode;
   BeginNode (str "virtio@10001000"); Prop_ 9 (str "virtio,mmio" ++ [0]);
   Prop_ 20 ([0; 0; 0; 0] ++ be32 0x10001000 ++ [0; 0; 0; 0] ++ be32 0x1000); EndNode;
   EndNode].

Definition sample_names (off : Z) : cstr :=
  if off =? 0 then str "bootargs" else if off =? 9 then str "compatible" else str "reg".

Definition sample_blob : bytes :=
  let size := tokens_size sample_tokens + 4 in
  be32 FDT_MAGIC ++ be32 (40 + size + len sample_strings) ++ be32 40 ++ be32 (40 + size)
  ++ be32 0 ++ be32 17 ++ be32 16 ++ be32 0 ++ be32 (len sample_strings) ++ be32 size
  ++ ((sample_tokens ++ [End_]) ≫= encode_token) ++ sample_strings.

Definition sample_mem : memory := mem_of 4096 sample_blob.

Lemma sample_blob_ok : fdt_blob sample_mem 4096 40 sample_names sample_tokens.
Proof.
  split.
  - done.
  - apply ldb_u8_check; vm_compute; reflexivity.
  - split; [done|]. apply ldb_u8_check; vm_compute; reflexivity.
  - exists 172, 196. split; [done|]. split; [done|].
    split; [apply ldb_u8_check; vm_compute; reflexivity|]. split; [apply ldb_u8_check; vm_compute; reflexivity|].
    split; [apply ldb_u8_check; vm_compute; reflexivity|]. split; [by vm_compute|]. split; [done|].
    intros nameoff data Hin. unfold sample_tokens in Hin.
    repeat (apply elem_of_cons in Hin as [Hin|Hin];
      [first [discriminate|injection Hin as -> _; vm_compute; repeat split; congruence]|]).
    by apply not_elem_of_nil in Hin.
  - cbn [sample_tokens app tokens_at]. repeat split; apply ldb_u8_check; vm_compute; reflexivity.
  - unfold sample_tokens. repeat (apply Forall_cons; split); try done.
    all: cbn [token_ok]; repeat split; try done; try (by apply no_nul_lit);
      try (repeat constructor; vm_compute; congruence).
  - unfold sample_tokens. intros Hin.
    repeat (apply elem_of_cons in Hin as [Hin|Hin]; [discriminate|]).
    by apply not_elem_of_nil in Hin.
Qed.

Lemma fdt_enumerate_devices_correct_witness :
  let call := fun (d : device) (acc : list device) => Ok (acc ++ [d]) in
  let ds := walk sample_names (4096 + 40) sample_tokens
              (WalkState 0 device_zero false false) in
  fdt_enumerate_devices sample_mem (Some call) 4096 [] =
  (ctx' ← call_all call ds []; Ok (len ds, ctx')).
Proof.
  apply (fdt_enumerate_devices_correct sample_mem _ 4096 40 sample_names sample_tokens []).
  exact sample_blob_ok.
Defined.

Lemma fdt_get_bootargs_correct_witness :
  fdt_get_bootargs sample_mem 4096 =
  Ok (args_of sample_names (4096 + 40) sample_tokens (ArgsWalk 0 false None)).
Proof. apply fdt_get_bootargs_correct. exact sample_blob_ok. Defined.

Lemma fdt_terminates_witness :
  fdt_enumerate_devices (fun a => Some 0xd0)
    (Some (fun (d : device) (n : Z) => Ok (n + 1))) 4096 0 <> NoFuel /\
  fdt_get_bootargs (fun a => Some 0xd0) 4096 <> NoFuel.
Proof.
  apply (fdt_terminates (fun a => Some 0xd0) (Some (fun (d : device) (n : Z) => Ok (n + 1))) 4096 0).
  intros f d c E. injection E as <-. discriminate.
Defined.

(** The node's reg and compatible flags are not cleared at the end of a node,
    so that the last device inside a node is reported once more for each enclosing
    node that ends: the sample blob has one device with a reg property, and two
    identical reports. *)
Theorem fdt_duplicate_report :
  exists d, dev_compatible d = Some 4216 /\
    string_at sample_mem 4216 (str "virtio,mmio") /\
    fdt_enumerate_devices sample_mem (Some (fun d acc => Ok (acc ++ [d]))) 4096 []
    = Ok (2, [d; d]).
Proof.
  eexists. split; [|split; [|vm_compute; reflexivity]]; [reflexivity|].
  vm_compute. repeat split; congruence.
Qed.
