(* ===== verification/Devices.v ===== *)
(** The device registry (kernel/devices/devices.c): a static array of 128
    slots threaded by [next] pointers in order of discovery, and the two-level
    tree built over it.  A [device_t *] into the array is a slot index. *)

From S2P Require Export Device.

Open Scope Z_scope.

Definition MAX_DEVICES : nat := 128.

(** The file's static variables; [device_storage] holds the slots in use. *)
Record registry := Registry {
  device_storage : list device;
  device_list_head : option nat;
  device_tree_root : option nat;
  fdt_address : Z
}.

Definition registry_empty : registry := Registry [] None None 0.

Definition set_storage (r : registry) (s : list device) : registry :=
  Registry s (device_list_head r) (device_tree_root r) (fdt_address r).

Definition slot (r : registry) (i : nat) : res device :=
  match device_storage r !! i with Some d => Ok d | None => UB end.
(** Stores to a field of a slot. *)
Definition update (r : registry) (i : nat) (f : device -> device) : res registry :=
  d ← slot r i; Ok (set_storage r (<[i := f d]> (device_storage r))).

(** [while (current->next) current = current->next;] *)
Fixpoint last_device (fuel : nat) (r : registry) (current : nat) : res nat :=
  match fuel with
  | O => NoFuel
  | S fuel =>
      d ← slot r current;
      match dev_next d with None => Ok current | Some n => last_device fuel r n end
  end.

(** The slot's fields copied from [d]; the pointers of the slot start as NULL. *)
Definition new_slot (d : device) : device :=
  Device (dev_compatible d) (dev_name d) (reg_base d) (reg_size d) (vendor_id d)
    (device_id d) (dev_bus d) (device_num d) (dev_function d) None DEVICE_STATE_DISCOVERED
    0 0 None None None (dev_depth d) None.

Definition add_device_to_registry (d : device) (r : registry) : res registry :=
  let device_count := length (device_storage r) in
  if (MAX_DEVICES <=? device_count)%nat then Ok r else
  let r := set_storage r (device_storage r ++ [new_slot d]) in
  match device_list_head r with
  | None => Ok (Registry (device_storage r) (Some device_count) (device_tree_root r)
                  (fdt_address r))
  | Some head =>
      current ← last_device (S MAX_DEVICES) r head;
      update r current (fun c => set_dev_next c (Some device_count))
  end.

(** The first device of depth 0. *)
Fixpoint find_root (fuel : nat) (r : registry) (current : option nat) : res (option nat) :=
  match fuel with
  | O => NoFuel
  | S fuel =>
      match current with
      | None => Ok None
      | Some c =>
          d ← slot r c;
          if dev_depth d =? 0 then Ok (Some c) else find_root fuel r (dev_next d)
      end
  end.

(** Links every device of depth 1 as a child of [root]. *)
Fixpoint link_children (fuel : nat) (r : registry) (root : nat) (current last_child : option nat)
    : res registry :=
  match fuel with
  | O => NoFuel
  | S fuel =>
      match current with
      | None => Ok r
      | Some c =>
          d ← slot r c;
          if (dev_depth d =? 1) && negb (c =? root)%nat then
            r ← update r c (fun x => set_parent x (Some root));
            rt ← slot r root;
            '(r, last_child) ←
              match first_child rt with
              | None =>
                  r ← update r root (fun x => set_first_child x (Some c)); Ok (r, Some c)
              | Some _ =>
                  match last_child with
                  | Some l =>
                      r ← update r l (fun x => set_next_sibling x (Some c)); Ok (r, Some c)
                  | None => Ok (r, last_child)
                  end
              end;
            cur ← slot r c;
            link_children fuel r root (dev_next cur) last_child
          else link_children fuel r root (dev_next d) last_child
      end
  end.

Definition build_tree_hierarchy (r : registry) : res registry :=
  root ← find_root (S (S MAX_DEVICES)) r (device_list_head r);
  match root with
  | None => Ok r
  | Some root =>
      let r := Registry (device_storage r) (device_list_head r) (Some root) (fdt_address r) in
      link_children (S (S MAX_DEVICES)) r root (device_list_head r) None
  end.

Definition devices_get_first (r : registry) : option nat := device_list_head r.
Definition devices_get_next (r : registry) (current : option nat) : res (option nat) :=
  match current with None => Ok None | Some c => d ← slot r c; Ok (dev_next d) end.
Definition device_get_driver (r : registry) (p : option nat) : res (option Z) :=
  match p with None => Ok None | Some i => d ← slot r i; Ok (dev_driver d) end.
Definition device_set_driver (r : registry) (p : option nat) (driver : option Z) : res registry :=
  match p with None => Ok r | Some i => update r i (fun d => set_dev_driver d driver) end.
(** Identity mapping; NULL is 0. *)
Definition device_map_mmio (r : registry) (p : option nat) : res (Z * registry) :=
  match p with
  | None => Ok (0, r)
  | Some i =>
      d ← slot r i; r ← update r i (fun d => set_mmio_virt d (reg_base d));
      Ok (reg_base d, r)
  end.
Definition device_unmap_mmio (r : registry) (p : option nat) : res registry :=
  match p with None => Ok r | Some i => update r i (fun d => set_mmio_virt d 0) end.
Definition device_tree_get_root (r : registry) : option nat := device_tree_root r.
Definition device_get_parent (r : registry) (p : option nat) : res (option nat) :=
  match p with None => Ok None | Some i => d ← slot r i; Ok (dev_parent d) end.
Definition device_get_first_child (r : registry) (p : option nat) : res (option nat) :=
  match p with None => Ok None | Some i => d ← slot r i; Ok (first_child d) end.
Definition device_get_next_sibling (r : registry) (p : option nat) : res (option nat) :=
  match p with None => Ok None | Some i => d ← slot r i; Ok (next_sibling d) end.
Definition device_set_fdt (r : registry) (addr : Z) : registry :=
  Registry (device_storage r) (device_list_head r) (device_tree_root r) addr.
Definition device_get_fdt (r : registry) : Z := fdt_address r.

Section strings.
  Context (mem : memory).

(** The loop of device_find_by_name. *)
Fixpoint find_by_name (fuel : nat) (r : registry) (name : cstr) (current : option nat)
    : res (option nat) :=
  match fuel with
  | O => NoFuel
  | S fuel =>
      match current with
      | None => Ok None
      | Some c =>
          d ← slot r c;
          eq ← match dev_name d with
               | None => Ok false
               | Some a => x ← strcmp_mem mem a name; Ok (x =? 0)
               end;
          if (eq : bool) then Ok (Some c) else find_by_name fuel r name (dev_next d)
      end
  end.

Definition device_find_by_name (r : registry) (name : option cstr) : res (option nat) :=
  match name with
  | None => Ok None
  | Some name => find_by_name (S (S MAX_DEVICES)) r name (device_list_head r)
  end.

(** [strmax] bounds the strings' lengths; [driver_name] is the name of the
    driver structure at an address. *)
Context (strmax : nat) (driver_name : Z -> cstr).

(** The line print_device writes for one device. *)
Definition print_device_line (d : device) (indent : Z) : out :=
  (puts (str "  ") +++ puts (replicate (Z.to_nat (2 * indent)) 32) +++ puts (str "- ")
   +++ match dev_name d with
       | Some a => cstr_at mem a strmax
       | None =>
           match dev_compatible d with
           | Some a => cstr_at mem a strmax
           | None => puts (str "(unnamed)")
           end
       end
   +++ puts (str " @ 0x" ++ put_hex64 (reg_base d))
   +++ puts (if negb (vendor_id d =? 0) || negb (device_id d =? 0)
             then str " [" ++ put_hex16 (vendor_id d) ++ str ":" ++ put_hex16 (device_id d)
                  ++ str "]" else [])
   +++ puts (match dev_driver d with
             | Some p => str " -> " ++ driver_name p
             | None => [] end)
   +++ puts nl)%out.

(** print_device and its loop over the children; the fuel bounds the number of
    devices visited on a path. *)
Fixpoint print_device (fuel : nat) (r : registry) (i : nat) (indent : Z) : out :=
  match fuel with
  | O => NoFuel
  | S fuel =>
      d ← slot r i;
      (print_device_line d indent +++ print_children fuel r (first_child d) (indent + 1))%out
  end
with print_children (fuel : nat) (r : registry) (child : option nat) (indent : Z) : out :=
  match child with
  | None => Ok []
  | Some c =>
      match fuel with
      | O => NoFuel
      | S fuel =>
          (print_device fuel r c indent
           +++ (d ← slot r c; print_children fuel r (next_sibling d) indent))%out
      end
  end.

(** The loop of device_tree_print: all devices, or those without a parent. *)
Fixpoint print_list (fuel : nat) (r : registry) (roots_only : bool) (current : option nat) : out :=
  match fuel with
  | O => NoFuel
  | S fuel =>
      match current with
      | None => Ok []
      | Some c =>
          d ← slot r c;
          ((if roots_only && bool_decide (dev_parent d <> None) then Ok []
            else print_device (S (S (MAX_DEVICES + MAX_DEVICES))) r c 0)
           +++ print_list fuel r roots_only (dev_next d))%out
      end
  end.

(** device_tree_print after its log check. *)
Definition device_tree_lines (r : registry) : out :=
  print_list (S (S MAX_DEVICES)) r (bool_decide (device_tree_root r <> None))
    (device_list_head r).
End strings.

(* ------------------------------------------------------------------ *)
(** ** The list of devices *)

(** Slots 0 to n-1 are threaded in order. *)
Definition threaded (s : list device) (n : nat) : Prop :=
  forall i, (i < n)%nat -> exists d, s !! i = Some d /\
    dev_next d = if (S i <? n)%nat then Some (S i) else None.

(** The registry's invariant. *)
Record registry_wf (r : registry) : Prop := RegistryWf {
  wf_count : (length (device_storage r) <= MAX_DEVICES)%nat;
  wf_head : device_list_head r = match device_storage r with [] => None | _ => Some O end;
  wf_thread : threaded (device_storage r) (length (device_storage r))
}.

(** The registered devices, without the list's pointers. *)
Definition registered (r : registry) : list device :=
  (fun d => set_dev_next d None) <$> device_storage r.

Lemma slot_lookup r i d : device_storage r !! i = Some d -> slot r i = Ok d.
Proof. unfold slot. by intros ->. Qed.

Lemma update_lookup r i d f : device_storage r !! i = Some d ->
  update r i f = Ok (set_storage r (<[i := f d]> (device_storage r))).
Proof. intros H. unfold update. by rewrite (slot_lookup r i d). Qed.

Lemma last_device_spec r n : threaded (device_storage r) n -> (0 < n)%nat ->
  forall fuel i, (i < n)%nat -> (n - i <= fuel)%nat ->
  last_device fuel r i = Ok (pred n).
Proof.
  intros Ht Hn. induction fuel as [|fuel IH]; intros i Hi Hf; [lia|].
  destruct (Ht i Hi) as (d & Hd & En). cbn [last_device].
  rewrite (slot_lookup r i d Hd). cbn [mbind res_bind]. rewrite En.
  destruct (Nat.ltb_spec (S i) n).
  - apply IH; lia.
  - f_equal. lia.
Qed.

Lemma threaded_app s n t : threaded s n -> threaded (s ++ t) n.
Proof.
  intros H i Hi. destruct (H i Hi) as (d & Hd & E). exists d. split; [|done].
  by apply lookup_app_l_Some.
Qed.

Lemma new_slot_next d : set_dev_next (new_slot d) None = new_slot d.
Proof. done. Qed.

(** Registering a device appends it, until the storage is full. *)
Lemma add_device_spec r d : registry_wf r ->
  exists r', add_device_to_registry d r = Ok r' /\ registry_wf r' /\
    registered r' = take MAX_DEVICES (registered r ++ [new_slot d]) /\
    device_tree_root r' = device_tree_root r /\ fdt_address r' = fdt_address r.
Proof.
  intros [Hc Hh Ht]. unfold add_device_to_registry, registered.
  destruct (Nat.leb_spec MAX_DEVICES (length (device_storage r))) as [Hf|Hf].
  { exists r. split_and!; try done. rewrite take_app_le, take_ge; [done|..];
      rewrite length_fmap; lia. }
  set (s := device_storage r) in *. set (n := length s) in *.
  cbn [set_storage device_storage device_list_head device_tree_root fdt_address]. rewrite Hh. destruct (decide (s = [])) as [E|E].
  - assert (En : n = O) by (subst n; by rewrite E). rewrite E, En.
    eexists. split; [reflexivity|]. split; [|split_and!; reflexivity].
    split; cbn; [unfold MAX_DEVICES; lia|done|].
    intros i Hi. assert (i = O) as -> by lia. by exists (new_slot d).
  - assert (Hn : (0 < n)%nat) by (subst n; destruct s; [done|cbn; lia]).
    replace (match s with [] => None | _ :: _ => Some O end) with (Some O) by (by destruct s).
    rewrite (last_device_spec _ n); [|by apply threaded_app|done|done|lia]. cbn [mbind res_bind].
    destruct (Ht (pred n) ltac:(lia)) as (dl & Hdl & El).
    assert (Hl : (s ++ [new_slot d]) !! pred n = Some dl) by (by apply lookup_app_l_Some).
    rewrite (update_lookup _ _ dl) by exact Hl. eexists. split; [reflexivity|].
    cbn [set_storage device_storage device_list_head device_tree_root fdt_address].
    rewrite insert_app_l by lia. split; [|split; [|split; reflexivity]].
    + split; cbn [set_storage device_storage device_list_head].
      * rewrite length_app, length_insert. cbn. fold n. lia.
      * rewrite Hh. destruct (<[pred n:=_]> s) eqn:Ei; [|by destruct s].
        apply (f_equal length) in Ei. rewrite length_insert in Ei. cbn in Ei. lia.
      * rewrite length_app, length_insert. cbn [length]. fold n. intros i Hi.
        destruct (decide (i = n)) as [->|Hne].
        { exists (new_slot d). rewrite lookup_app_r, length_insert by (rewrite length_insert; lia).
          fold n. rewrite Nat.sub_diag. split; [done|].
          destruct (Nat.ltb_spec (S n) (n + 1)); [lia|done]. }
        destruct (Ht i ltac:(lia)) as (x & Hx & Ex).
        destruct (decide (i = pred n)) as [->|Hne'].
        { exists (set_dev_next dl (Some n)). rewrite lookup_app_l by (rewrite length_insert; lia).
          rewrite list_lookup_insert_eq by lia. split; [done|]. cbn [set_dev_next dev_next].
          destruct (Nat.ltb_spec (S (pred n)) (n + 1)); [f_equal; lia|lia]. }
        exists x. rewrite lookup_app_l by (rewrite length_insert; lia).
        rewrite list_lookup_insert_ne by done. split; [done|]. rewrite Ex.
        destruct (Nat.ltb_spec (S i) n), (Nat.ltb_spec (S i) (n + 1)); done || lia.
    + cbn [set_storage device_storage]. rewrite fmap_app, list_fmap_insert. cbn [fmap list_fmap].
      rewrite take_ge by (rewrite length_app, length_fmap; cbn; fold n; lia). f_equal.
      apply list_insert_id. rewrite list_lookup_fmap, Hdl. done.
Qed.

(** Enumerating [ds] into an empty registry. *)
Fixpoint add_all (ds : list device) (r : registry) : res registry :=
  match ds with
  | [] => Ok r
  | d :: ds => r ← add_device_to_registry d r; add_all ds r
  end.

Lemma add_all_spec ds : forall r, registry_wf r ->
  exists r', add_all ds r = Ok r' /\ registry_wf r' /\
    registered r' = take MAX_DEVICES (registered r ++ (new_slot <$> ds)).
Proof.
  induction ds as [|d ds IH]; intros r Hr; cbn [add_all].
  - exists r. split_and!; [done|done|]. rewrite app_nil_r, take_ge; [done|].
    unfold registered. rewrite length_fmap. apply Hr.
  - destruct (add_device_spec r d Hr) as (r1 & -> & H1 & E1 & _). cbn [mbind res_bind].
    destruct (IH r1 H1) as (r2 & -> & H2 & E2). exists r2. split_and!; [done|done|].
    rewrite E2, E1, fmap_cons.
    rewrite (cons_middle (new_slot d) (registered r) (new_slot <$> ds)), (app_assoc (registered r)).
    set (x := registered r ++ [new_slot d]). set (y := new_slot <$> ds).
    destruct (decide (length x <= MAX_DEVICES)%nat).
    + by rewrite (take_ge x) by lia.
    + rewrite !take_app_le by (rewrite ?length_take; lia). by rewrite take_take, Nat.min_id.
Qed.

(** The devices met from [current] on through devices_get_next. *)
Fixpoint iterate (fuel : nat) (r : registry) (current : option nat) : res (list nat) :=
  match fuel with
  | O => NoFuel
  | S fuel =>
      match current with
      | None => Ok []
      | Some c =>
          next ← devices_get_next r (Some c);
          rest ← iterate fuel r next; Ok (c :: rest)
      end
  end.

Lemma iterate_spec r n : threaded (device_storage r) n ->
  forall fuel i, (i < n)%nat -> (n - i < fuel)%nat ->
  iterate fuel r (Some i) = Ok (seq i (n - i)).
Proof.
  intros Ht. induction fuel as [|fuel IH]; intros i Hi Hf; [lia|].
  destruct (Ht i Hi) as (d & Hd & En). cbn [iterate devices_get_next].
  rewrite (slot_lookup r i d Hd). cbn [mbind res_bind]. rewrite En.
  destruct (Nat.ltb_spec (S i) n).
  - rewrite IH by lia. cbn [mbind res_bind].
    replace (n - i)%nat with (S (n - S i)) by lia. done.
  - destruct fuel; [lia|]. replace (n - i)%nat with 1%nat by lia. done.
Qed.

(* ------------------------------------------------------------------ *)
(** ** The tree *)

(** The devices of depth 1 among the first [n] slots. *)
Definition depth_is (s : list device) (k : Z) (i : nat) : Prop := dev_depth <$> s !! i = Some k.
#[export] Instance depth_is_dec s k i : Decision (depth_is s k i).
Proof. unfold depth_is. apply _. Defined.
Definition children (s : list device) (n : nat) : list nat :=
  filter (depth_is s 1) (seq 0 n).

(** What follows [i] in [cs]. *)
Fixpoint next_after (cs : list nat) (i : nat) : option nat :=
  match cs with
  | [] => None
  | c :: cs => if decide (c = i) then head cs else next_after cs i
  end.

(** Slot [i] when the children [cs] of [root] are linked. *)
Definition tree_slot (root : nat) (cs : list nat) (i : nat) (d : device) : device :=
  let d := if decide (i = root) then set_first_child d (head cs) else d in
  if decide (i ∈ cs)
  then set_next_sibling (set_parent d (Some root)) (next_after cs i) else d.

(** A slot as add_device_to_registry leaves it. *)
Definition fresh (d : device) : Prop :=
  dev_parent d = None /\ first_child d = None /\ next_sibling d = None.

Lemma children_S s n : children s (S n) =
  children s n ++ (if decide (depth_is s 1 n) then [n] else []).
Proof. unfold children. by rewrite seq_S, filter_app. Qed.

Lemma children_lt s n i : i ∈ children s n <-> (i < n)%nat /\ depth_is s 1 i.
Proof. unfold children. rewrite list_elem_of_filter, elem_of_seq. split; intros [? ?]; split; auto; lia. Qed.

Lemma next_after_notin cs i : i ∉ cs -> next_after cs i = None.
Proof.
  induction cs as [|c cs IH]; intros Hi; [done|]. apply not_elem_of_cons in Hi as [Hne Hi].
  cbn [next_after]. rewrite decide_False by done. auto.
Qed.

Lemma next_after_snoc cs j i : NoDup cs -> j ∉ cs ->
  next_after (cs ++ [j]) i = if decide (last cs = Some i) then Some j else next_after cs i.
Proof.
  intros Hnd Hj. induction Hnd as [|c cs Hc Hnd IH]; cbn [app next_after].
  - rewrite (decide_False (P := last [] = Some i)) by done. by case_decide.
  - apply not_elem_of_cons in Hj as [Hne Hj]. specialize (IH Hj). rewrite last_cons.
    destruct (decide (c = i)) as [->|Hci].
    + destruct cs as [|c' cs]; cbn [head app last].
      * by rewrite decide_True.
      * destruct (last (c' :: cs)) as [l|] eqn:El; [|by apply last_None in El].
        rewrite decide_False; [done|]. intros [= ->]. apply Hc.
        apply last_Some_elem_of in El. done.
    + rewrite IH. destruct (last cs) as [l|] eqn:El; [done|].
      apply last_None in El as ->. rewrite !decide_False by congruence. done.
Qed.

(** Fields that linking does not change. *)
Lemma tree_slot_fields root cs i d :
  dev_next (tree_slot root cs i d) = dev_next d /\
  dev_depth (tree_slot root cs i d) = dev_depth d.
Proof. unfold tree_slot. repeat case_decide; done. Qed.

Lemma device_eta d : d = Device (dev_compatible d) (dev_name d) (reg_base d) (reg_size d)
  (vendor_id d) (device_id d) (dev_bus d) (device_num d) (dev_function d) (dev_driver d)
  (dev_state d) (mmio_virt d) (driver_data d) (dev_parent d) (first_child d) (next_sibling d)
  (dev_depth d) (dev_next d).
Proof. by destruct d. Qed.

Lemma tree_slot_nil root i d : fresh d -> tree_slot root [] i d = d.
Proof.
  intros (H1 & H2 & H3). unfold tree_slot. rewrite (decide_False (P := i ∈ [])) by apply not_elem_of_nil.
  case_decide; [|done]. unfold set_first_child. cbn [head]. rewrite <- H2. by destruct d.
Qed.

(** The storage with the children [cs] linked. *)
Definition linked (root : nat) (cs : list nat) (s : list device) : list device :=
  imap (tree_slot root cs) s.

Lemma linked_lookup root cs s i d : s !! i = Some d ->
  linked root cs s !! i = Some (tree_slot root cs i d).
Proof. intros H. unfold linked. by rewrite list_lookup_imap, H. Qed.

Lemma linked_length root cs s : length (linked root cs s) = length s.
Proof. apply length_imap. Qed.

(** The three stores of one turn of the loop link one more child. *)
Lemma linked_first root j s dj dr :
  s !! j = Some dj -> s !! root = Some dr -> j <> root -> Forall fresh s ->
  <[root := set_first_child dr (Some j)]> (<[j := set_parent dj (Some root)]> s)
  = linked root [j] s.
Proof.
  intros Hj Hr Hne Hf. apply list_eq. intros i. rewrite Forall_lookup in Hf.
  destruct (s !! i) as [d|] eqn:Ei.
  2:{ rewrite (lookup_ge_None_2 (linked _ _ _)), lookup_ge_None_2; [done|..];
        rewrite ?length_insert, ?linked_length; by apply lookup_ge_None. }
  rewrite (linked_lookup _ _ _ _ d Ei). unfold tree_slot.
  assert (Hs : i ∈ [j] <-> i = j) by apply list_elem_of_singleton.
  assert (Hi : (i < length s)%nat) by (by apply lookup_lt_Some in Ei).
  destruct (Hf i d Ei) as (F1 & F2 & F3).
  destruct (decide (i = root)) as [->|Hir].
  - rewrite list_lookup_insert_eq by (rewrite length_insert; lia).
    destruct (decide (root ∈ [j])); [tauto || (destruct Hne; symmetry; tauto)|].
    simplify_eq. done.
  - rewrite list_lookup_insert_ne by done. destruct (decide (i = j)) as [->|Hij].
    + rewrite list_lookup_insert_eq by lia. simplify_eq.
      destruct (decide (j ∈ [j])); [|tauto]. cbn [next_after head].
      rewrite decide_True by done. f_equal. unfold set_next_sibling, set_parent. cbn.
      by rewrite F3.
    + rewrite list_lookup_insert_ne by done. destruct (decide (i ∈ [j])); [tauto|done].
Qed.

Lemma linked_snoc root cs l j s dj dl :
  s !! j = Some dj -> s !! l = Some dl -> j <> root -> j ∉ cs -> NoDup cs ->
  last cs = Some l -> Forall fresh s ->
  <[l := set_next_sibling (tree_slot root cs l dl) (Some j)]>
    (<[j := set_parent (tree_slot root cs j dj) (Some root)]> (linked root cs s))
  = linked root (cs ++ [j]) s.
Proof.
  intros Hj Hl Hne Hjc Hnd Hlast Hf. apply list_eq. intros i. rewrite Forall_lookup in Hf.
  assert (Hlc : l ∈ cs) by (by apply last_Some_elem_of).
  assert (Hlj : l <> j) by congruence.
  assert (Hh : head (cs ++ [j]) = head cs) by (by destruct cs).
  destruct (s !! i) as [d|] eqn:Ei.
  2:{ rewrite (lookup_ge_None_2 (linked _ (_ ++ _) _)), lookup_ge_None_2; [done|..];
        rewrite ?length_insert, ?linked_length; by apply lookup_ge_None. }
  assert (Hi : (i < length (linked root cs s))%nat)
    by (rewrite linked_length; by apply lookup_lt_Some in Ei).
  rewrite (linked_lookup _ (cs ++ [j]) _ _ d Ei).
  destruct (Hf i d Ei) as (F1 & F2 & F3).
  destruct (decide (i = l)) as [->|Hil].
  - rewrite list_lookup_insert_eq by (rewrite length_insert; lia). simplify_eq.
    f_equal. unfold tree_slot. rewrite Hh, next_after_snoc by done.
    destruct (decide (last cs = Some l)); [|done].
    destruct (decide (l ∈ cs)); [|done].
    destruct (decide (l ∈ cs ++ [j])) as [|Hn]; [|destruct Hn; apply elem_of_app; by left].
    by case_decide.
  - rewrite list_lookup_insert_ne by done. destruct (decide (i = j)) as [->|Hij].
    + rewrite list_lookup_insert_eq by lia. simplify_eq. f_equal. unfold tree_slot.
      rewrite Hh, next_after_snoc, next_after_notin by done.
      destruct (decide (j = root)); [done|]. destruct (decide (j ∈ cs)); [done|].
      destruct (decide (j ∈ cs ++ [j])) as [|Hn];
        [|destruct Hn; apply elem_of_app; right; by apply list_elem_of_singleton].
      destruct (decide (last cs = Some j)); [congruence|].
      unfold set_next_sibling, set_parent. cbn. by rewrite F3.
    + rewrite list_lookup_insert_ne, (linked_lookup _ _ _ _ d) by done. f_equal.
      unfold tree_slot. rewrite Hh, next_after_snoc by done.
      destruct (decide (last cs = Some i)); [congruence|].
      assert (i ∈ cs ++ [j] <-> i ∈ cs) as Hiff.
      { rewrite elem_of_app, list_elem_of_singleton. intuition. }
      destruct (decide (i ∈ cs)), (decide (i ∈ cs ++ [j])); done || tauto.
Qed.

Definition with_storage (s : list device) (h t : option nat) (f : Z) : registry := Registry s h t f.

Lemma linked_nil root s : Forall fresh s -> linked root [] s = s.
Proof.
  intros Hf. apply list_eq. intros i. rewrite Forall_lookup in Hf. unfold linked.
  rewrite list_lookup_imap. destruct (s !! i) as [d|] eqn:Ei; [|done]. cbn. f_equal.
  apply tree_slot_nil. eauto.
Qed.

Lemma children_nodup s n : NoDup (children s n).
Proof. apply NoDup_filter, NoDup_seq. Qed.

(** The loop links exactly the devices of depth 1. *)
Lemma link_children_spec root s h t f n dr :
  threaded s n -> n = length s -> Forall fresh s -> s !! root = Some dr -> dev_depth dr = 0 ->
  forall fuel j, (j <= n)%nat -> (n - j < fuel)%nat ->
  link_children fuel (Registry (linked root (children s j) s) h t f) root
    (if (j <? n)%nat then Some j else None) (last (children s j)) =
  Ok (Registry (linked root (children s n) s) h t f).
Proof.
  intros Ht Hn Hf Hr Hd0. induction fuel as [|fuel IH]; intros j Hj Hfu; [lia|].
  cbn [link_children]. destruct (Nat.ltb_spec j n) as [Hlt|Hge].
  2:{ assert (j = n) as -> by lia. done. }
  destruct (Ht j Hlt) as (dj & Hdj & Enext). set (cs := children s j).
  assert (Hjc : j ∉ cs) by (intros [? _]%children_lt; lia).
  destruct (tree_slot_fields root cs j dj) as [Fn Fd].
  rewrite (slot_lookup _ j (tree_slot root cs j dj)) by (by apply linked_lookup).
  cbn [mbind res_bind]. rewrite Fd, Fn, Enext. specialize (IH (S j) ltac:(lia) ltac:(lia)).
  rewrite children_S in IH. fold cs in IH.
  assert (Hdep : depth_is s 1 j <-> dev_depth dj = 1).
  { unfold depth_is. rewrite Hdj. cbn. split; [by intros [=]|by intros ->]. }
  destruct (Z.eqb_spec (dev_depth dj) 1) as [E1|E1]; cbn [andb].
  2:{ destruct (decide (depth_is s 1 j)); [tauto|]. by rewrite app_nil_r in IH. }
  destruct (decide (depth_is s 1 j)) as [_|]; [|tauto].
  assert (Hjr : j <> root) by (intros ->; rewrite Hr in Hdj; simplify_eq; lia).
  destruct (Nat.eqb_spec j root); [done|]. cbn [negb].
  rewrite (update_lookup _ j (tree_slot root cs j dj)) by (by apply linked_lookup).
  cbn [mbind res_bind set_storage device_storage device_list_head device_tree_root fdt_address].
  assert (Hrc : root ∉ cs).
  { intros [_ H]%children_lt. unfold depth_is in H. rewrite Hr in H. injection H. lia. }
  assert (Hrs : tree_slot root cs root dr = set_first_child dr (head cs)).
  { unfold tree_slot. rewrite (decide_True (P := root = root)) by done.
    by destruct (decide (root ∈ cs)). }
  rewrite (slot_lookup _ root (set_first_child dr (head cs))).
  2:{ cbn [set_storage device_storage]. rewrite list_lookup_insert_ne by done.
      rewrite <- Hrs. by apply linked_lookup. }
  cbn [mbind res_bind set_first_child first_child].
  assert (Hcur : forall r, device_storage r = linked root (cs ++ [j]) s ->
    (cur ← slot r j; link_children fuel r root (dev_next cur) (Some j)) =
    link_children fuel r root (if (S j <? n)%nat then Some (S j) else None) (Some j)).
  { intros r Hs. rewrite (slot_lookup r j (tree_slot root (cs ++ [j]) j dj))
      by (rewrite Hs; by apply linked_lookup). cbn [mbind res_bind].
    destruct (tree_slot_fields root (cs ++ [j]) j dj) as [-> _]. by rewrite Enext. }
  rewrite last_snoc in IH. destruct (head cs) as [c0|] eqn:Eh.
  - destruct (last cs) as [l|] eqn:El; [|apply last_None in El; by rewrite El in Eh].
    assert (Hlc : l ∈ cs) by (by apply last_Some_elem_of).
    destruct (proj1 (children_lt s j l) Hlc) as [Hlj _].
    destruct (Ht l ltac:(lia)) as (dl & Hdl & _).
    rewrite (update_lookup _ l (tree_slot root cs l dl)).
    2:{ cbn [set_storage device_storage]. rewrite list_lookup_insert_ne by lia. by apply linked_lookup. }
    cbn [mbind res_bind set_storage device_storage device_list_head device_tree_root fdt_address].
    rewrite (linked_snoc root cs l j s dj dl) by (done || apply children_nodup).
    rewrite Hcur by done. apply IH.
  - assert (Ec : cs = []) by (by destruct cs). rewrite Ec in *. rewrite linked_nil by done.
    assert (Et : tree_slot root [] j dj = dj).
    { apply tree_slot_nil. rewrite Forall_lookup in Hf. eauto. }
    rewrite Et. rewrite (update_lookup _ root dr).
    2:{ cbn [set_storage device_storage]. by rewrite list_lookup_insert_ne. }
    cbn [mbind res_bind set_storage device_storage device_list_head device_tree_root fdt_address].
    rewrite (linked_first root j s dj dr) by done.
    cbn [app] in *. rewrite Hcur by done. apply IH.
Qed.

Lemma find_root_spec r n : threaded (device_storage r) n ->
  forall fuel i, (i <= n)%nat -> (n - i < fuel)%nat ->
  find_root fuel r (if (i <? n)%nat then Some i else None) =
  Ok (head (filter (depth_is (device_storage r) 0) (seq i (n - i)))).
Proof.
  intros Ht. induction fuel as [|fuel IH]; intros i Hi Hf; [lia|]. cbn [find_root].
  destruct (Nat.ltb_spec i n) as [Hlt|Hge].
  2:{ by replace (n - i)%nat with O by lia. }
  destruct (Ht i Hlt) as (d & Hd & En). rewrite (slot_lookup r i d Hd). cbn [mbind res_bind].
  replace (n - i)%nat with (S (n - S i)) by lia. cbn [seq]. rewrite filter_cons.
  assert (Hdep : depth_is (device_storage r) 0 i <-> dev_depth d = 0).
  { unfold depth_is. rewrite Hd. cbn. split; [by intros [=]|by intros ->]. }
  destruct (Z.eqb_spec (dev_depth d) 0).
  - rewrite decide_True by tauto. done.
  - rewrite decide_False by tauto. rewrite En. apply IH; lia.
Qed.

(** build_tree_hierarchy on a registry whose slots are fresh. *)
Lemma build_tree_spec r : registry_wf r -> Forall fresh (device_storage r) ->
  let s := device_storage r in
  let n := length s in
  build_tree_hierarchy r =
  Ok match head (filter (depth_is s 0) (seq 0 n)) with
     | None => r
     | Some root =>
         Registry (linked root (children s n) s) (device_list_head r) (Some root)
           (fdt_address r)
     end.
Proof.
  intros [Hc Hh Ht] Hf s n. unfold build_tree_hierarchy.
  assert (Ehead : device_list_head r = if (0 <? n)%nat then Some O else None).
  { rewrite Hh. unfold n, s. by destruct (device_storage r). }
  rewrite Ehead, (find_root_spec r n Ht) by (fold s n in Hc; lia). cbn [mbind res_bind].
  rewrite Nat.sub_0_r. fold s.
  destruct (head (filter (depth_is s 0) (seq 0 n))) as [root|] eqn:Er; [|done].
  assert (Hin : root ∈ filter (depth_is s 0) (seq 0 n))
    by (destruct (filter _ _); [done|injection Er as ->; by left]).
  apply list_elem_of_filter in Hin as [Hdep _]. unfold depth_is in Hdep.
  destruct (s !! root) as [dr|] eqn:Hr; [|done]. injection Hdep as Hdep.
  pose proof (link_children_spec root s (if (0 <? n)%nat then Some O else None) (Some root)
    (fdt_address r) n dr Ht eq_refl Hf Hr Hdep (S (S MAX_DEVICES)) O) as HL.
  change (children s 0) with (@nil nat) in HL. rewrite linked_nil in HL by done.
  cbn [last] in HL. apply HL; fold s n in Hc; lia.
Qed.

(** The children met through devices' sibling pointers. *)
Fixpoint iterate_children (fuel : nat) (r : registry) (child : option nat) : res (list nat) :=
  match fuel with
  | O => NoFuel
  | S fuel =>
      match child with
      | None => Ok []
      | Some c =>
          next ← device_get_next_sibling r (Some c);
          rest ← iterate_children fuel r next; Ok (c :: rest)
      end
  end.

Lemma iterate_children_spec root all s h t f : Forall fresh s -> NoDup all ->
  (forall i, i ∈ all -> (i < length s)%nat) ->
  forall cs pre fuel, all = pre ++ cs -> (length cs < fuel)%nat ->
  iterate_children fuel (Registry (linked root all s) h t f) (head cs) = Ok cs.
Proof.
  intros Hf Hnd Hlt. induction cs as [|c cs IH]; intros pre [|fuel] E Hfu;
    cbn [length] in Hfu; try lia; cbn [iterate_children head]; [done|].
  assert (Hc : c ∈ all) by (rewrite E; apply elem_of_app; right; by left).
  destruct (lookup_lt_is_Some_2 s c (Hlt c Hc)) as [d Hd].
  cbn [device_get_next_sibling].
  rewrite (slot_lookup _ c (tree_slot root all c d)) by (by apply linked_lookup).
  cbn [mbind res_bind].
  assert (Hn : next_sibling (tree_slot root all c d) = head cs).
  { unfold tree_slot. destruct (decide (c ∈ all)); [|done]. cbn.
    rewrite E in Hnd |- *. clear -Hnd. induction pre as [|p pre IHp]; cbn [app next_after].
    - by rewrite decide_True.
    - inversion_clear Hnd as [|? ? Hp Hnd']. rewrite decide_False; [auto|].
      intros ->. apply Hp, elem_of_app. right. by left. }
  rewrite Hn, (IH (pre ++ [c])) by (rewrite <- ?app_assoc; done || lia). done.
Qed.

Lemma registered_fresh r l : registered r = new_slot <$> l -> Forall fresh (device_storage r).
Proof.
  intros H. apply Forall_lookup. intros i d Hi.
  assert (E : registered r !! i = Some (set_dev_next d None))
    by (unfold registered; by rewrite list_lookup_fmap, Hi).
  rewrite H, list_lookup_fmap in E. destruct (l !! i) as [x|]; [|done].
  assert (E' : set_dev_next d None = new_slot x) by (cbn [fmap option_fmap option_map] in E; congruence).
  split_and!; [apply (f_equal dev_parent) in E'|apply (f_equal first_child) in E'
    |apply (f_equal next_sibling) in E']; exact E'.
Qed.

(* ------------------------------------------------------------------ *)
(** ** Properties *)

(** Registering the devices of an enumeration keeps the first 128 of them in
    order of discovery, and devices_get_first/devices_get_next visit exactly those,
    in that order. *)
Theorem devices_registry_correct ds :
  exists r, add_all ds registry_empty = Ok r /\
    registered r = new_slot <$> take MAX_DEVICES ds /\
    iterate (S (S MAX_DEVICES)) r (devices_get_first r)
      = Ok (seq 0 (length ds `min` MAX_DEVICES)).
Proof.
  destruct (add_all_spec ds registry_empty) as (r & E & Hwf & Hr).
  { split; cbn; [lia|done|]. intros i Hi. lia. }
  exists r. split; [done|]. change (registered registry_empty) with (@nil device) in Hr. cbn [app] in Hr.
  rewrite <- fmap_take in Hr. split; [done|].
  assert (Hn : length (device_storage r) = (length ds `min` MAX_DEVICES)%nat).
  { apply (f_equal length) in Hr. unfold registered in Hr.
    rewrite !length_fmap, length_take in Hr. lia. }
  unfold devices_get_first. rewrite (wf_head r Hwf).
  destruct (device_storage r) as [|d s] eqn:Es.
  - cbn in Hn. rewrite <- Hn. done.
  - rewrite <- Es in *. assert ((0 < length (device_storage r))%nat) by (rewrite Es; cbn; lia).
    rewrite (iterate_spec r (length (device_storage r))); [|apply Hwf|done|].
    + by rewrite Nat.sub_0_r, Hn.
    + pose proof (wf_count r Hwf). lia.
Qed.

(** C8: After the devices of an enumeration are registered, build_tree_hierarchy
    makes the first device of depth 0 the root, and its children, met through
    device_get_first_child and device_get_next_sibling, are exactly the devices of
    depth 1, in order of discovery, each with the root as its parent. *)
Theorem device_tree_correct ds r :
  add_all ds registry_empty = Ok r ->
  exists r', build_tree_hierarchy r = Ok r' /\
  match head (filter (depth_is (device_storage r) 0) (seq 0 (length (device_storage r)))) with
  | None => r' = r
  | Some root =>
      let cs := children (device_storage r) (length (device_storage r)) in
      device_tree_get_root r' = Some root /\
      (exists c, device_get_first_child r' (Some root) = Ok c /\
         iterate_children (S MAX_DEVICES) r' c = Ok cs) /\
      (forall i, i ∈ cs -> device_get_parent r' (Some i) = Ok (Some root))
  end.
Proof.
  intros E. destruct (add_all_spec ds registry_empty) as (r1 & E1 & Hwf & Hr).
  { split; cbn; [lia|done|]. intros i Hi. lia. }
  rewrite E in E1. injection E1 as <-.
  change (registered registry_empty) with (@nil device) in Hr. cbn [app] in Hr. rewrite <- fmap_take in Hr.
  pose proof (registered_fresh r _ Hr) as Hf.
  pose proof (build_tree_spec r Hwf Hf) as Hb. cbv zeta in Hb.
  eexists. split; [exact Hb|]. set (s := device_storage r) in *.
  destruct (head (filter (depth_is s 0) (seq 0 (length s)))) as [root|] eqn:Er; [|done].
  assert (Hin : root ∈ filter (depth_is s 0) (seq 0 (length s)))
    by (destruct (filter _ _); [done|injection Er as ->; by left]).
  apply list_elem_of_filter in Hin as [Hdep _]. unfold depth_is in Hdep.
  destruct (s !! root) as [dr|] eqn:Hdr; [|done]. injection Hdep as Hdep.
  set (cs := children s (length s)). cbv zeta. split; [done|].
  assert (Hlt : forall i, i ∈ cs -> (i < length s)%nat) by (intros i [? _]%children_lt; done).
  split.
  - cbn [device_get_first_child].
    rewrite (slot_lookup _ root (tree_slot root cs root dr)) by (by apply linked_lookup).
    cbn [mbind res_bind]. eexists. split; [reflexivity|].
    replace (first_child (tree_slot root cs root dr)) with (head cs).
    + apply (iterate_children_spec root cs s _ _ _ Hf (children_nodup _ _) Hlt cs []); [done|].
      assert (length cs <= length s)%nat.
      { pose proof (length_filter (depth_is s 1) (seq 0 (length s))) as Hl.
        rewrite length_seq in Hl. exact Hl. }
      pose proof (wf_count r Hwf) as Hw. fold s in Hw. lia.
    + unfold tree_slot. rewrite (decide_True (P := root = root)) by done.
      by destruct (decide (root ∈ cs)).
  - intros i Hi. destruct (lookup_lt_is_Some_2 s i (Hlt i Hi)) as [d Hd].
    cbn [device_get_parent].
    rewrite (slot_lookup _ i (tree_slot root cs i d)) by (by apply linked_lookup).
    cbn [mbind res_bind]. unfold tree_slot. by destruct (decide (i ∈ cs)).
Qed.

(** Three discovered devices: a root and two children. *)
Definition sample_device (depth base : Z) : device :=
  Device None None base 0 0 0 0 0 0 None DEVICE_STATE_DISCOVERED 0 0 None None None depth None.
Definition sample_registry : registry :=
  match add_all [sample_device 0 1; sample_device 1 2; sample_device 2 3; sample_device 1 4]
          registry_empty with Ok r => r | _ => registry_empty end.

Lemma device_tree_correct_witness :
  exists r', build_tree_hierarchy sample_registry = Ok r' /\
  let cs := children (device_storage sample_registry) (length (device_storage sample_registry)) in
      device_tree_get_root r' = Some O /\
      (exists c, device_get_first_child r' (Some O) = Ok c /\
         iterate_children (S MAX_DEVICES) r' c = Ok cs) /\
      (forall i, i ∈ cs -> device_get_parent r' (Some i) = Ok (Some O)).
Proof.
  apply (device_tree_correct
    [sample_device 0 1; sample_device 1 2; sample_device 2 3; sample_device 1 4] sample_registry).
  vm_compute. reflexivity.
Defined.
