(* ===== verification/Resources.v ===== *)
(** The resource manager (kernel/resources/resources.c): exclusive allocation of
    registered devices to drivers from a pool of 16 handles.

    The rest of the kernel's state, including the registry and what the driver
    callbacks change, is [W]; a driver context ([void *context]) is a value of
    [C], [None] being NULL.  A [resource_t *] is the index of a pool slot. *)

From S2P Require Export Devices.

Open Scope Z_scope.

Definition MAX_RESOURCE_ALLOCATIONS : nat := 16.

(** [driver_type_t] (common/drivers.h). *)
Inductive driver_type :=
  | DRIVER_TYPE_NETWORK | DRIVER_TYPE_STORAGE | DRIVER_TYPE_DISPLAY
  | DRIVER_TYPE_INPUT | DRIVER_TYPE_RANDOM | DRIVER_TYPE_UNKNOWN.

(** An entry of a driver's ID table. *)
Record device_id_entry := DeviceId {
  id_compatible : option cstr; id_vendor : Z; id_device : Z; id_name : option cstr }.

Section resources.
  Context {W C : Type} (mem : memory) (reg : W -> registry).

(** [driver_t]; a table runs up to and including its all-zero entry. *)
Record driver := Driver {
  drv_name : cstr;
  drv_version : cstr;
  drv_type : driver_type;
  id_table : option (list device_id_entry);
  init_context : option (C -> nat -> W -> res (Z * W));
  deinit_context : option (C -> W -> res W)
}.

(** [struct resource]. *)
Record resource := Resource {
  res_device : option nat;
  res_driver : option driver;
  res_context : option C;
  res_next : option nat;
  in_use : bool
}.
Definition resource_zero : resource := Resource None None None None false.

(** The static variable [resources]. *)
Record manager := Manager {
  mgr_devices : option nat;
  allocations : option nat;
  pool : list resource
}.
Definition manager_empty : manager :=
  Manager None None (replicate MAX_RESOURCE_ALLOCATIONS resource_zero).

Definition handle (m : manager) (i : nat) : res resource :=
  match pool m !! i with Some r => Ok r | None => UB end.
Definition set_handle (m : manager) (i : nat) (r : resource) : manager :=
  Manager (mgr_devices m) (allocations m) (<[i := r]> (pool m)).
Definition set_next (r : resource) (n : option nat) : resource :=
  Resource (res_device r) (res_driver r) (res_context r) n (in_use r).

(** The loop over the ID table: an entry matches by compatible string or by
    vendor and device ID. *)
Fixpoint match_table (table : list device_id_entry) (d : device) : res bool :=
  match table with
  | [] => UB
  | e :: table =>
      if negb (bool_decide (id_compatible e <> None) || negb (id_vendor e =? 0)
               || negb (id_device e =? 0))
      then Ok false else
      by_name ← match id_compatible e, dev_compatible d with
                | Some c, Some a => x ← strcmp_mem mem a c; Ok (x =? 0)
                | _, _ => Ok false
                end;
      if (by_name : bool) then Ok true
      else if negb (id_vendor e =? 0) && negb (id_device e =? 0)
              && (vendor_id d =? id_vendor e) && (device_id d =? id_device e)
      then Ok true
      else match_table table d
  end.

Definition device_matches_driver (d : device) (drv : driver) : res bool :=
  match id_table drv with None => Ok false | Some t => match_table t d end.

(** The loop over the allocations list. *)
Fixpoint allocated_loop (fuel : nat) (m : manager) (r : option nat) (device : nat) : res bool :=
  match r with
  | None => Ok false
  | Some i =>
      match fuel with
      | O => NoFuel
      | S fuel =>
          h ← handle m i;
          if bool_decide (res_device h = Some device) then Ok true
          else allocated_loop fuel m (res_next h) device
      end
  end.
Definition device_is_allocated (m : manager) (device : nat) : res bool :=
  allocated_loop MAX_RESOURCE_ALLOCATIONS m (allocations m) device.

(** The first free slot from [i] on; [n] slots are left. *)
Fixpoint alloc_loop (n : nat) (i : nat) (m : manager) : res (option nat * manager) :=
  match n with
  | O => Ok (None, m)
  | S n =>
      h ← handle m i;
      if in_use h then alloc_loop n (S i) m
      else Ok (Some i, set_handle m i (Resource (res_device h) (res_driver h) (res_context h)
                                         (res_next h) true))
  end.
Definition resource_alloc (m : manager) : res (option nat * manager) :=
  alloc_loop MAX_RESOURCE_ALLOCATIONS 0 m.

Definition resource_free (m : manager) (i : nat) : res manager :=
  h ← handle m i; Ok (set_handle m i resource_zero).

Definition resource_add_allocation (m : manager) (i : nat) : res manager :=
  h ← handle m i;
  let m := set_handle m i (set_next h (allocations m)) in
  Ok (Manager (mgr_devices m) (Some i) (pool m)).

(** The loop that unlinks [i] from behind its predecessor. *)
Fixpoint unlink_loop (fuel : nat) (m : manager) (r : option nat) (i : nat) : res (bool * manager) :=
  match r with
  | None => Ok (false, m)
  | Some k =>
      match fuel with
      | O => NoFuel
      | S fuel =>
          h ← handle m k;
          if bool_decide (res_next h = Some i) then
            x ← handle m i; Ok (true, set_handle m k (set_next h (res_next x)))
          else unlink_loop fuel m (res_next h) i
      end
  end.
Definition resource_remove_allocation (m : manager) (i : nat) : res (bool * manager) :=
  if bool_decide (allocations m = Some i) then
    h ← handle m i; Ok (true, Manager (mgr_devices m) (res_next h) (pool m))
  else unlink_loop MAX_RESOURCE_ALLOCATIONS m (allocations m) i.

Definition resources_set_devices (m : manager) (devices : option nat) : manager :=
  Manager devices (allocations m) (pool m).

(** The loop over the device list. *)
Fixpoint acquire_loop (fuel : nat) (drv : driver) (ctx : C) (device : option nat)
    (m : manager) (w : W) : res (option nat * manager * W) :=
  match fuel with
  | O => NoFuel
  | S fuel =>
      match device with
      | None => Ok (None, m, w)
      | Some i =>
          d ← slot (reg w) i;
          matches ← device_matches_driver d drv;
          if negb matches then acquire_loop fuel drv ctx (dev_next d) m w else
          allocated ← device_is_allocated m i;
          if (allocated : bool) then acquire_loop fuel drv ctx (dev_next d) m w else
          '(k, m) ← resource_alloc m;
          match k with
          | None => Ok (None, m, w)
          | Some k =>
              h ← handle m k;
              let m := set_handle m k (Resource (Some i) (Some drv) (Some ctx) (res_next h)
                                         (in_use h)) in
              '(result, w) ← match init_context drv with
                             | None => Ok (0, w)
                             | Some init => init ctx i w
                             end;
              if negb (result =? 0) then
                m ← resource_free m k;
                d ← slot (reg w) i;
                acquire_loop fuel drv ctx (dev_next d) m w
              else
                m ← resource_add_allocation m k;
                Ok (Some k, m, w)
          end
      end
  end.

Definition resource_acquire_available (drv : option driver) (ctx : option C)
    (m : manager) (w : W) : res (option nat * manager * W) :=
  match drv, ctx with
  | Some drv, Some ctx => acquire_loop (S (S MAX_DEVICES)) drv ctx (mgr_devices m) m w
  | _, _ => Ok (None, m, w)
  end.

Definition resource_release (resource : option nat) (m : manager) (w : W)
    : res (Z * manager * W) :=
  match resource with
  | None => Ok (-1, m, w)
  | Some i =>
      '(removed, m) ← resource_remove_allocation m i;
      if negb removed then Ok (-1, m, w) else
      h ← handle m i;
      w ← match res_driver h, res_context h with
          | Some drv, Some ctx =>
              match deinit_context drv with Some deinit => deinit ctx w | None => Ok w end
          | _, _ => Ok w
          end;
      m ← resource_free m i;
      Ok (0, m, w)
  end.

Definition resource_get_device (m : manager) (resource : option nat) : res (option nat) :=
  match resource with None => Ok None | Some i => h ← handle m i; Ok (res_device h) end.

Definition resource_print_tag (m : manager) (w : W) (resource : option nat) : out :=
  match resource with
  | None => Ok []
  | Some i =>
      h ← handle m i;
      match res_driver h, res_device h with
      | Some drv, Some dev =>
          d ← slot (reg w) dev;
          puts (str "[" ++ put_hex8 (dev_bus d) ++ str ":" ++ put_hex8 (device_num d)
                ++ str "|" ++ drv_name drv ++ str "@" ++ drv_version drv ++ str "]")
      | _, _ => Ok []
      end
  end.

(* ------------------------------------------------------------------ *)
(** ** Specification *)

(** The allocated handles, most recent first, as linked from [h]. *)
Fixpoint chain (p : list resource) (h : option nat) (l : list nat) : Prop :=
  match l with
  | [] => h = None
  | i :: l => h = Some i /\ exists r, p !! i = Some r /\ chain p (res_next r) l
  end.

Definition device_of (m : manager) (i : nat) : option nat := pool m !! i ≫= res_device.

(** Between calls: the list links distinct slots, each in use and holding a
    device, no two the same device; the other slots are zero. *)
Record manager_wf (m : manager) (l : list nat) : Prop := ManagerWf {
  mw_pool : length (pool m) = MAX_RESOURCE_ALLOCATIONS;
  mw_chain : chain (pool m) (allocations m) l;
  mw_nodup : NoDup l;
  mw_used : forall i, i ∈ l -> exists r, pool m !! i = Some r /\ in_use r = true
              /\ is_Some (res_device r);
  mw_free : forall i r, pool m !! i = Some r -> i ∉ l -> r = resource_zero;
  mw_exclusive : NoDup (device_of m <$> l)
}.

(** What acquiring means: the first device of [devs] that matches the driver, is
    not among the [taken] ones, and whose initialisation returns zero. *)
Fixpoint acquire_ref (drv : driver) (ctx : C) (taken : list (option nat)) (devs : list nat)
    (w : W) : res (option nat * W) :=
  match devs with
  | [] => Ok (None, w)
  | i :: devs =>
      d ← slot (reg w) i;
      matches ← device_matches_driver d drv;
      if (matches : bool) && bool_decide (Some i ∉ taken) then
        '(result, w) ← match init_context drv with
                       | None => Ok (0, w)
                       | Some init => init ctx i w
                       end;
        if result =? 0 then Ok (Some i, w) else acquire_ref drv ctx taken devs w
      else acquire_ref drv ctx taken devs w
  end.

(* ------------------------------------------------------------------ *)
(** ** Lemmas *)

Lemma handle_lookup m i r : pool m !! i = Some r -> handle m i = Ok r.
Proof using. unfold handle. by intros ->. Qed.

(** A device without compatible string matches no table of other vendors' devices. *)
Definition null_entry (e : device_id_entry) : Prop :=
  id_compatible e = None /\ id_vendor e = 0 /\ id_device e = 0.
Lemma match_table_other table d : dev_compatible d = None ->
  Forall (fun e => id_vendor e <> 0 -> vendor_id d <> id_vendor e) table ->
  Exists null_entry table -> match_table table d = Ok false.
Proof using.
  intros Hc. induction 1 as [|e table He _ IH]; intros Hn; [by apply Exists_nil in Hn|].
  cbn [match_table]. destruct (negb _) eqn:E; [done|]. rewrite Hc.
  assert (match id_compatible e, (None : option Z) with
          | Some c, Some a => x ← strcmp_mem mem a c; Ok (x =? 0) | _, _ => Ok false end
          = Ok false) as -> by by destruct (id_compatible e).
  cbn [mbind res_bind].
  assert (negb (id_vendor e =? 0) && negb (id_device e =? 0)
    && (vendor_id d =? id_vendor e) && (device_id d =? id_device e) = false) as ->.
  { destruct (Z.eqb_spec (id_vendor e) 0); [done|].
    by rewrite (proj2 (Z.eqb_neq _ _) (He ltac:(done))), !andb_false_r. }
  apply IH. apply Exists_cons in Hn as [(Hi & Hv & Hd)|Hn]; [|done].
  by rewrite Hi, Hv, Hd in E.
Qed.

Lemma chain_lt p h l i : chain p h l -> i ∈ l -> (i < length p)%nat.
Proof using.
  revert h. induction l as [|j l IH]; intros h Hc Hi; [by apply not_elem_of_nil in Hi|].
  destruct Hc as (_ & r & Hr & Hc). apply elem_of_cons in Hi as [->|Hi]; [|eauto].
  by apply lookup_lt_Some in Hr.
Qed.

(** Writes to slots outside the list, or that keep the link, keep the chain. *)
Lemma chain_insert_notin p i r l : forall h, i ∉ l -> chain p h l -> chain (<[i:=r]> p) h l.
Proof using.
  induction l as [|j l IH]; intros h Hi Hc; [done|].
  apply not_elem_of_cons in Hi as [Hne Hi]. destruct Hc as (-> & x & Hx & Hc).
  split; [done|]. exists x. rewrite list_lookup_insert_ne by done. auto.
Qed.

Lemma allocated_loop_spec m device : forall l fuel h,
  chain (pool m) h l -> (length l <= fuel)%nat ->
  allocated_loop fuel m h device = Ok (bool_decide (Some device ∈ (device_of m <$> l))).
Proof using.
  induction l as [|i l IH]; intros fuel h Hc Hf; cbn [chain] in Hc.
  - subst h. by destruct fuel.
  - destruct Hc as (-> & r & Hr & Hc). destruct fuel as [|fuel]; cbn [length] in Hf; [lia|].
    cbn [allocated_loop]. rewrite (handle_lookup m i r Hr). cbn [mbind res_bind].
    assert (Ed : device_of m i = res_device r) by (unfold device_of; by rewrite Hr).
    destruct (decide (res_device r = Some device)) as [E|E].
    + rewrite bool_decide_eq_true_2 by done. rewrite bool_decide_eq_true_2; [done|].
      rewrite fmap_cons, Ed, E. by left.
    + rewrite bool_decide_eq_false_2 by done. rewrite IH by (done || lia). f_equal.
      apply bool_decide_ext. rewrite fmap_cons, Ed, elem_of_cons. intuition congruence.
Qed.

(** Slot allocation finds a free slot exactly when one exists. *)
Lemma alloc_loop_spec m n : forall i, (i + n = length (pool m))%nat ->
  (forall j, (j < i)%nat -> exists r, pool m !! j = Some r /\ in_use r = true) ->
  (alloc_loop n i m = Ok (None, m) /\
   forall j, (j < length (pool m))%nat -> exists r, pool m !! j = Some r /\ in_use r = true) \/
  (exists k r, pool m !! k = Some r /\ in_use r = false /\
   alloc_loop n i m = Ok (Some k, set_handle m k (Resource (res_device r) (res_driver r)
                            (res_context r) (res_next r) true))).
Proof using.
  induction n as [|n IH]; intros i Hi Hu; cbn [alloc_loop].
  - left. split; [done|]. intros j Hj. apply Hu. lia.
  - destruct (lookup_lt_is_Some_2 (pool m) i) as [r Hr]; [lia|].
    rewrite (handle_lookup m i r Hr). cbn [mbind res_bind].
    destruct (in_use r) eqn:Er.
    + apply IH; [lia|]. intros j Hj. destruct (decide (j = i)) as [->|]; [eauto|].
      apply Hu. lia.
    + right. eauto.
Qed.

Lemma device_of_insert_ne m k x i a d : i <> k ->
  device_of (Manager a d (<[k:=x]> (pool m))) i = device_of m i.
Proof using. intros. unfold device_of. cbn. by rewrite list_lookup_insert_ne. Qed.

(** A free slot of a well-formed manager. *)
Lemma alloc_spec m l : manager_wf m l -> (length l < MAX_RESOURCE_ALLOCATIONS)%nat ->
  exists k, k ∉ l /\ (k < length (pool m))%nat /\ pool m !! k = Some resource_zero /\
    resource_alloc m = Ok (Some k, set_handle m k (Resource None None None None true)).
Proof using.
  intros [Hp Hc Hnd Hu Hf He] Hl. unfold resource_alloc.
  destruct (alloc_loop_spec m MAX_RESOURCE_ALLOCATIONS 0) as [[_ Hall]|(k & r & Hk & Hr & E)].
  - rewrite Hp. done.
  - intros j Hj. lia.
  - exfalso. (* all sixteen slots would be in the list *)
    assert (Hsub : seq 0 MAX_RESOURCE_ALLOCATIONS ⊆ l).
    { intros j Hj%elem_of_seq. destruct (Hall j) as (r & Hr & Er); [lia|].
      destruct (decide (j ∈ l)); [done|]. rewrite (Hf j r Hr) in Er by done. done. }
    pose proof (NoDup_submseteq _ _ (NoDup_seq 0 MAX_RESOURCE_ALLOCATIONS)
      ltac:(intros x Hx; by apply Hsub)) as Hs.
    apply submseteq_length in Hs. rewrite length_seq in Hs. lia.
  - assert (Hkl : k ∉ l).
    { intros Hin. destruct (Hu k Hin) as (x & Hx & Hxu & _). congruence. }
    pose proof (Hf k r Hk Hkl) as Er. subst r. exists k. split_and!; try done.
    by apply lookup_lt_Some in Hk.
Qed.

Lemma wf_length m l : manager_wf m l -> (length l <= MAX_RESOURCE_ALLOCATIONS)%nat.
Proof using.
  intros [Hp Hc Hnd _ _ _].
  assert (Hs : l ⊆+ seq 0 MAX_RESOURCE_ALLOCATIONS).
  { apply NoDup_submseteq; [done|]. intros j Hj. apply elem_of_seq.
    pose proof (chain_lt _ _ _ j Hc Hj). lia. }
  apply submseteq_length in Hs. by rewrite length_seq in Hs.
Qed.

(** A full pool allocates nothing. *)
Lemma alloc_full m l : manager_wf m l -> length l = MAX_RESOURCE_ALLOCATIONS ->
  resource_alloc m = Ok (None, m).
Proof using.
  intros [Hp Hc Hnd Hu Hf He] Hl. unfold resource_alloc.
  destruct (alloc_loop_spec m MAX_RESOURCE_ALLOCATIONS 0) as [[E _]|(k & r & Hk & Hr & _)];
    [by rewrite Hp|intros; lia|done|].
  exfalso. assert (Hin : k ∉ l).
  { intros Hin. destruct (Hu k Hin) as (x & Hx & Hxu & _). congruence. }
  assert (Hs : k :: l ⊆+ seq 0 MAX_RESOURCE_ALLOCATIONS).
  { apply NoDup_submseteq; [by constructor|]. intros j Hj. apply elem_of_seq. split; [lia|].
    apply elem_of_cons in Hj as [->|Hj].
    - apply lookup_lt_Some in Hk. lia.
    - pose proof (chain_lt _ _ _ j Hc Hj). lia. }
  apply submseteq_length in Hs. rewrite length_seq in Hs. cbn in Hs. lia.
Qed.

(** The manager after slot [k] is given to [device] and put on the list. *)
Definition granted (m : manager) (k device : nat) (drv : driver) (ctx : C) : manager :=
  Manager (mgr_devices m) (Some k)
    (<[k := Resource (Some device) (Some drv) (Some ctx) (allocations m) true]> (pool m)).

Lemma granted_wf m l k device drv ctx :
  manager_wf m l -> k ∉ l -> (k < length (pool m))%nat ->
  Some device ∉ (device_of m <$> l) ->
  manager_wf (granted m k device drv ctx) (k :: l).
Proof using.
  intros [Hp Hc Hnd Hu Hf He] Hk Hlt Hd.
  assert (Hkk : pool (granted m k device drv ctx) !! k =
    Some (Resource (Some device) (Some drv) (Some ctx) (allocations m) true))
    by (cbn; by rewrite list_lookup_insert_eq).
  assert (Hne : forall i, i <> k -> pool (granted m k device drv ctx) !! i = pool m !! i)
    by (intros; cbn; by rewrite list_lookup_insert_ne).
  split.
  - cbn. by rewrite length_insert.
  - split; [done|]. eexists. split; [exact Hkk|]. cbn. by apply chain_insert_notin.
  - by constructor.
  - intros i [->|Hi]%elem_of_cons; [eauto|]. rewrite Hne by congruence. eauto.
  - intros i r Hi [Hik Hil]%not_elem_of_cons. rewrite Hne in Hi by done. eauto.
  - rewrite fmap_cons. replace (device_of (granted m k device drv ctx) <$> l)
      with (device_of m <$> l).
    + constructor; [|done]. unfold device_of at 1. by rewrite Hkk.
    + apply list_fmap_ext. intros j i Hi. unfold device_of. rewrite Hne; [done|].
      intros ->. apply Hk. by apply list_elem_of_lookup_2 in Hi.
Qed.

Lemma list_insert_back {A} (p : list A) k x y z : p !! k = Some x ->
  <[k:=x]> (<[k:=y]> (<[k:=z]> p)) = p.
Proof using. intros. by rewrite !list_insert_insert_eq, list_insert_id. Qed.

(** What acquiring relies on: an invariant of the rest of the kernel under which the
    [n] devices are threaded in order, the match is defined, and which the driver's
    initialisation of a matching device, given [ctx], returns and keeps. *)
Record well_behaved (drv : driver) (ctx : C) (n : nat) (I : W -> Prop) : Prop := WellBehaved {
  wb_threaded : forall w, I w -> threaded (device_storage (reg w)) n;
  wb_match : forall w i d, I w -> (i < n)%nat -> slot (reg w) i = Ok d ->
    exists b, device_matches_driver d drv = Ok b;
  wb_init : forall init i d w, init_context drv = Some init -> I w -> (i < n)%nat ->
    slot (reg w) i = Ok d -> device_matches_driver d drv = Ok true ->
    exists z w1, init ctx i w = Ok (z, w1) /\ I w1
}.

(** The outcome of the driver's initialisation; without one it succeeds. *)
Definition run_init (drv : driver) (ctx : C) (i : nat) (w : W) : res (Z * W) :=
  match init_context drv with None => Ok (0, w) | Some init => init ctx i w end.

Lemma wb_run_init drv ctx n I i d w : well_behaved drv ctx n I -> I w -> (i < n)%nat ->
  slot (reg w) i = Ok d -> device_matches_driver d drv = Ok true ->
  exists z w1, run_init drv ctx i w = Ok (z, w1) /\ I w1.
Proof using.
  intros Hwb Hw Hi Hd Hm. unfold run_init. destruct (init_context drv) eqn:E; [|by eauto].
  by eapply (wb_init drv ctx n I Hwb).
Qed.

(** The device the specification picks is one the driver matched and initialised, in a
    state the earlier attempts led to. *)
Lemma acquire_ref_picks drv ctx n I taken : well_behaved drv ctx n I -> forall devs w o w',
  I w -> Forall (fun i => i < n)%nat devs -> acquire_ref drv ctx taken devs w = Ok (o, w') ->
  I w' /\ match o with
  | None => True
  | Some i => i ∈ devs /\ exists w0 d, I w0 /\ slot (reg w0) i = Ok d /\
      device_matches_driver d drv = Ok true /\ run_init drv ctx i w0 = Ok (0, w')
  end.
Proof using.
  intros Hwb. induction devs as [|i devs IH]; intros w o w' Hw Hf; cbn [acquire_ref].
  { by intros [= <- <-]. }
  apply Forall_cons in Hf as [Hi Hf].
  assert (Hrec : forall w1, I w1 -> acquire_ref drv ctx taken devs w1 = Ok (o, w') ->
    I w' /\ match o with
    | None => True
    | Some j => j ∈ i :: devs /\ exists w0 d, I w0 /\ slot (reg w0) j = Ok d /\
        device_matches_driver d drv = Ok true /\ run_init drv ctx j w0 = Ok (0, w')
    end).
  { intros w1 H1 E. destruct (IH w1 o w' H1 Hf E) as [H' Ho]. split; [done|].
    destruct o; [|done]. split; [right|]; apply Ho. }
  destruct (wb_threaded _ _ _ _ Hwb w Hw i Hi) as (d & Hd & _).
  apply slot_lookup in Hd. rewrite Hd. cbn [mbind res_bind].
  destruct (wb_match _ _ _ _ Hwb w i d Hw Hi Hd) as [b Hb]. rewrite Hb. cbn [mbind res_bind].
  destruct (b && bool_decide (Some i ∉ taken)) eqn:Eb; [|by apply Hrec].
  apply andb_prop in Eb as [-> _].
  destruct (wb_run_init drv ctx n I i d w Hwb Hw Hi Hd Hb) as (z & w1 & E1 & Hw1).
  fold (run_init drv ctx i w). rewrite E1. cbn [mbind res_bind].
  destruct (Z.eqb_spec z 0) as [->|]; [|by apply Hrec].
  intros [= <- <-]. split; [done|]. split; [left|]. by exists w, d.
Qed.

(** When some device matches, is free, and initialisation always succeeds, one is
    picked; when none matches, nothing happens. *)
Lemma acquire_ref_succeeds drv ctx n I taken i : well_behaved drv ctx n I ->
  (forall j d w z w1, I w -> slot (reg w) j = Ok d -> device_matches_driver d drv = Ok true ->
     run_init drv ctx j w = Ok (z, w1) -> z = 0) ->
  (forall w d, I w -> slot (reg w) i = Ok d -> device_matches_driver d drv = Ok true) ->
  Some i ∉ taken -> forall devs w, I w -> Forall (fun j => j < n)%nat devs -> i ∈ devs ->
  exists j w', acquire_ref drv ctx taken devs w = Ok (Some j, w').
Proof using.
  intros Hwb Hz Hm Hi. induction devs as [|j devs IH]; intros w Hw Hf Hin;
    [by apply not_elem_of_nil in Hin|]. cbn [acquire_ref].
  apply Forall_cons in Hf as [Hj Hf].
  destruct (wb_threaded _ _ _ _ Hwb w Hw j Hj) as (d & Hd & _). apply slot_lookup in Hd.
  destruct (wb_match _ _ _ _ Hwb w j d Hw Hj Hd) as [b Hb]. rewrite Hd. cbn [mbind res_bind].
  rewrite Hb. cbn [mbind res_bind].
  destruct (b && bool_decide (Some j ∉ taken)) eqn:E.
  - apply andb_prop in E as [-> _].
    destruct (wb_run_init drv ctx n I j d w Hwb Hw Hj Hd Hb) as (z & w1 & Ez & _).
    fold (run_init drv ctx j w). rewrite Ez, (Hz j d w z w1 Hw Hd Hb Ez). by eexists _, _.
  - apply IH; [done|done|]. apply elem_of_cons in Hin as [->|]; [|done].
    rewrite (Hm w d Hw Hd) in Hb. injection Hb as <-. by rewrite bool_decide_eq_true_2 in E.
Qed.

(** One device that matches and is free: the slot taken for it is given back when its
    initialisation fails. *)
Lemma acquire_step drv ctx m l k j fuel w w1 z d : manager_wf m l ->
  slot (reg w) j = Ok d -> device_matches_driver d drv = Ok true ->
  Some j ∉ (device_of m <$> l) -> (length l < MAX_RESOURCE_ALLOCATIONS)%nat ->
  (k < length (pool m))%nat -> pool m !! k = Some resource_zero ->
  resource_alloc m = Ok (Some k, set_handle m k (Resource None None None None true)) ->
  run_init drv ctx j w = Ok (z, w1) ->
  acquire_loop (S fuel) drv ctx (Some j) m w
  = if z =? 0 then Ok (Some k, granted m k j drv ctx, w1)
    else d ← slot (reg w1) j; acquire_loop fuel drv ctx (dev_next d) m w1.
Proof using.
  intros [_ Hc _ _ _ _] Hd Hb Hnin Hl Hkp Hk0 Hal Hz. cbn [acquire_loop].
  rewrite Hd. cbn [mbind res_bind]. rewrite Hb. cbn [mbind res_bind negb].
  unfold device_is_allocated. rewrite (allocated_loop_spec m j l) by (done || lia).
  cbn [mbind res_bind].
  rewrite (bool_decide_eq_false_2 (Some j ∈ (device_of m <$> l))) by done.
  rewrite Hal. cbn [mbind res_bind].
  assert (Hk1 : pool (set_handle m k (Resource None None None None true)) !! k
    = Some (Resource None None None None true)) by (cbn; by rewrite list_lookup_insert_eq).
  rewrite (handle_lookup _ k _ Hk1). cbn [mbind res_bind res_next in_use].
  fold (run_init drv ctx j w). rewrite Hz. cbn [mbind res_bind].
  set (m1 := set_handle (set_handle m k _) k _).
  assert (Hk2 : pool m1 !! k = Some (Resource (Some j) (Some drv) (Some ctx) None true))
    by (unfold m1; cbn; rewrite list_lookup_insert_eq; [done|by rewrite length_insert]).
  destruct (Z.eqb_spec z 0) as [->|Hne]; cbn [negb].
  - unfold resource_add_allocation. rewrite (handle_lookup _ k _ Hk2). cbn [mbind res_bind].
    unfold granted, m1, set_handle, set_next. cbn. by rewrite !list_insert_insert_eq.
  - unfold resource_free. rewrite (handle_lookup _ k _ Hk2). cbn [mbind res_bind].
    replace (set_handle m1 k resource_zero) with m; [done|].
    unfold m1, set_handle. cbn. rewrite list_insert_back by done. by destruct m.
Qed.

Lemma acquire_loop_spec drv ctx m l n I : manager_wf m l ->
  (length l < MAX_RESOURCE_ALLOCATIONS)%nat -> well_behaved drv ctx n I ->
  forall fuel w j, I w -> (j <= n)%nat -> (n - j < fuel)%nat ->
  exists o w', acquire_ref drv ctx (device_of m <$> l) (seq j (n - j)) w = Ok (o, w') /\
  match o with
  | None => acquire_loop fuel drv ctx (if (j <? n)%nat then Some j else None) m w
            = Ok (None, m, w')
  | Some device =>
      Some device ∉ (device_of m <$> l) /\
      exists k, k ∉ l /\ (k < length (pool m))%nat /\
        acquire_loop fuel drv ctx (if (j <? n)%nat then Some j else None) m w
        = Ok (Some k, granted m k device drv ctx, w')
  end.
Proof using.
  intros Hwf Hl Hwb. destruct (alloc_spec m l Hwf Hl) as (k & Hkl & Hkp & Hk0 & Hal).
  induction fuel as [|fuel IH]; intros w j Hw Hj Hfu; [lia|].
  destruct (Nat.ltb_spec j n) as [Hlt|Hge].
  2:{ replace (n - j)%nat with O by lia. exists None, w. by split. }
  destruct (wb_threaded _ _ _ _ Hwb w Hw j Hlt) as (d & Hd & En). apply slot_lookup in Hd.
  replace (n - j)%nat with (S (n - S j)) by lia. cbn [seq acquire_ref].
  rewrite Hd. cbn [mbind res_bind].
  destruct (wb_match _ _ _ _ Hwb w j d Hw Hlt Hd) as [b Hb]. rewrite Hb. cbn [mbind res_bind].
  destruct (b && bool_decide (Some j ∉ (device_of m <$> l))) eqn:Ebj.
  - apply andb_prop in Ebj as [-> Hnin%bool_decide_eq_true_1].
    destruct (wb_run_init drv ctx n I j d w Hwb Hw Hlt Hd Hb) as (z & w1 & Ez & Hw1).
    rewrite (acquire_step drv ctx m l k j fuel w w1 z d) by done.
    fold (run_init drv ctx j w). rewrite Ez. cbn [mbind res_bind].
    destruct (z =? 0).
    { eexists _, _. split; [reflexivity|]. cbn beta iota. split; [done|]. by exists k. }
    destruct (wb_threaded _ _ _ _ Hwb w1 Hw1 j Hlt) as (d1 & Hd1 & En1).
    rewrite (slot_lookup _ j d1 Hd1). cbn [mbind res_bind]. rewrite En1.
    apply IH; [done|lia|lia].
  - assert (acquire_loop (S fuel) drv ctx (Some j) m w
      = acquire_loop fuel drv ctx (dev_next d) m w) as ->.
    { cbn [acquire_loop]. rewrite Hd. cbn [mbind res_bind]. rewrite Hb. cbn [mbind res_bind].
      destruct b; [|done]. cbn [negb]. unfold device_is_allocated.
      rewrite (allocated_loop_spec m j l) by (exact (mw_chain m l Hwf) || lia). cbn [mbind res_bind].
      apply bool_decide_eq_false_1, dec_stable in Ebj.
      by rewrite (bool_decide_eq_true_2 (Some j ∈ (device_of m <$> l))). }
    rewrite En. apply IH; [done|lia|lia].
Qed.

(** With every handle in use nothing is acquired, whatever the devices. *)
Lemma acquire_full drv ctx m l n I : manager_wf m l -> length l = MAX_RESOURCE_ALLOCATIONS ->
  well_behaved drv ctx n I -> forall fuel w j, I w -> (j <= n)%nat -> (n - j < fuel)%nat ->
  acquire_loop fuel drv ctx (if (j <? n)%nat then Some j else None) m w = Ok (None, m, w).
Proof using.
  intros Hwf Hl Hwb. induction fuel as [|fuel IH]; intros w j Hw Hj Hfu; [lia|].
  destruct (Nat.ltb_spec j n) as [Hlt|Hge]; [|done]. cbn [acquire_loop].
  destruct (wb_threaded _ _ _ _ Hwb w Hw j Hlt) as (d & Hd & En). apply slot_lookup in Hd.
  rewrite Hd. cbn [mbind res_bind].
  destruct (wb_match _ _ _ _ Hwb w j d Hw Hlt Hd) as [b Hb]. rewrite Hb, En. cbn [mbind res_bind].
  destruct b; cbn [negb]; [|apply IH; [done|lia|lia]].
  unfold device_is_allocated.
  rewrite (allocated_loop_spec m j l) by (exact (mw_chain m l Hwf) || lia). cbn [mbind res_bind].
  case_bool_decide; [apply IH; [done|lia|lia]|].
  by rewrite (alloc_full m l Hwf Hl).
Qed.

(** The two cases for the whole operation, on the manager's device list. *)
Lemma acquire_available_full drv ctx m w l n I :
  manager_wf m l -> length l = MAX_RESOURCE_ALLOCATIONS -> well_behaved drv ctx n I -> I w ->
  (n <= MAX_DEVICES)%nat -> mgr_devices m = (if (0 <? n)%nat then Some O else None) ->
  resource_acquire_available (Some drv) (Some ctx) m w = Ok (None, m, w).
Proof using.
  intros Hwf Hl Hwb Hw Hn Hd. unfold resource_acquire_available. rewrite Hd.
  apply (acquire_full drv ctx m l n I Hwf Hl Hwb (S (S MAX_DEVICES)) w 0 Hw); lia.
Qed.

Lemma acquire_available_spec drv ctx m w l n I :
  manager_wf m l -> (length l < MAX_RESOURCE_ALLOCATIONS)%nat -> well_behaved drv ctx n I -> I w ->
  (n <= MAX_DEVICES)%nat -> mgr_devices m = (if (0 <? n)%nat then Some O else None) ->
  exists o w', acquire_ref drv ctx (device_of m <$> l) (seq 0 n) w = Ok (o, w') /\
  match o with
  | None => resource_acquire_available (Some drv) (Some ctx) m w = Ok (None, m, w')
  | Some device =>
      Some device ∉ (device_of m <$> l) /\
      exists k, k ∉ l /\ (k < length (pool m))%nat /\
        resource_acquire_available (Some drv) (Some ctx) m w
        = Ok (Some k, granted m k device drv ctx, w')
  end.
Proof using.
  intros Hwf Hl Hwb Hw Hn Hd. unfold resource_acquire_available. rewrite Hd.
  destruct (acquire_loop_spec drv ctx m l n I Hwf Hl Hwb (S (S MAX_DEVICES)) w 0 Hw)
    as (o & w' & E & Ho); [lia|lia|]. rewrite Nat.sub_0_r in E. eauto.
Qed.

(** When every matching device is allocated nothing is acquired, and no initialisation
    is run. *)
Lemma acquire_taken drv ctx m l n w : manager_wf m l -> (n <= MAX_DEVICES)%nat ->
  mgr_devices m = (if (0 <? n)%nat then Some O else None) ->
  threaded (device_storage (reg w)) n ->
  (forall i d, (i < n)%nat -> slot (reg w) i = Ok d -> exists b,
     device_matches_driver d drv = Ok b /\ (b = true -> Some i ∈ (device_of m <$> l))) ->
  resource_acquire_available (Some drv) (Some ctx) m w = Ok (None, m, w).
Proof using.
  intros Hwf Hn Hd Ht Hm. unfold resource_acquire_available. rewrite Hd.
  assert (forall fuel j, (j <= n)%nat -> (n - j < fuel)%nat ->
    acquire_loop fuel drv ctx (if (j <? n)%nat then Some j else None) m w = Ok (None, m, w)) as Hloop;
    [|apply Hloop; lia].
  induction fuel as [|fuel IH]; intros j Hj Hfu; [lia|].
  destruct (Nat.ltb_spec j n) as [Hlt|Hge]; [|done]. cbn [acquire_loop].
  destruct (Ht j Hlt) as (d & Hs & En). apply slot_lookup in Hs.
  rewrite Hs. cbn [mbind res_bind]. destruct (Hm j d Hlt Hs) as (b & Hb & Htaken).
  rewrite Hb. cbn [mbind res_bind]. destruct b; cbn [negb].
  - unfold device_is_allocated. pose proof (wf_length m l Hwf).
    rewrite (allocated_loop_spec m j l) by (exact (mw_chain m l Hwf) || lia). cbn [mbind res_bind].
    rewrite bool_decide_eq_true_2 by auto. rewrite En. apply IH; lia.
  - rewrite En. apply IH; lia.
Qed.

Lemma acquire_nothing drv ctx m w l n : manager_wf m l -> (n <= MAX_DEVICES)%nat ->
  mgr_devices m = (if (0 <? n)%nat then Some O else None) ->
  threaded (device_storage (reg w)) n ->
  (forall i d, (i < n)%nat -> slot (reg w) i = Ok d -> device_matches_driver d drv = Ok false) ->
  resource_acquire_available (Some drv) (Some ctx) m w = Ok (None, m, w).
Proof using.
  intros Hwf Hn Hd Ht Hm. apply (acquire_taken drv ctx m l n); [done..|].
  intros i d Hi Hs. exists false. by rewrite (Hm i d).
Qed.

(** A list without [i]. *)
Definition without (i : nat) (l : list nat) : list nat := filter (fun j => j <> i) l.

Lemma without_notin i l : i ∉ l -> without i l = l.
Proof using.
  unfold without. induction l as [|j l IH]; intros Hi; [done|].
  apply not_elem_of_cons in Hi as [Hne Hi]. rewrite filter_cons_True by done. by rewrite IH.
Qed.

Lemma chain_nil_none p l : chain p None l -> l = [].
Proof using. destruct l; [done|]. by intros [? _]. Qed.

(** The search for the predecessor of [i]. *)
Lemma unlink_loop_spec m i : forall l fuel h,
  chain (pool m) h l -> NoDup l -> (length l <= fuel)%nat ->
  (i ∉ tail l -> unlink_loop fuel m h i = Ok (false, m)) /\
  (i ∈ tail l -> exists k r x, unlink_loop fuel m h i = Ok (true, set_handle m k (set_next r x))
     /\ k ∈ l /\ k <> i /\ pool m !! k = Some r /\
     chain (<[k := set_next r x]> (pool m)) h (without i l)).
Proof using.
  induction l as [|a l IH]; intros fuel h Hc Hnd Hf; cbn [chain tail length] in *.
  { subst h. split; [by destruct fuel|]. intros Hi. by apply not_elem_of_nil in Hi. }
  destruct Hc as (-> & r & Hr & Hc). inversion_clear Hnd as [|? ? Ha Hnd'].
  destruct fuel as [|fuel]; [lia|]. cbn [unlink_loop]. rewrite (handle_lookup m a r Hr).
  cbn [mbind res_bind]. destruct l as [|b l]; cbn [chain] in Hc.
  { rewrite Hc. split; [by destruct fuel|]. intros Hi. by apply not_elem_of_nil in Hi. }
  pose proof Hc as (En & rb & Hrb & Hc'). rewrite En.
  destruct (IH fuel (Some b)) as [IH1 IH2]; [by rewrite <- En|done|cbn in *; lia|].
  destruct (decide (b = i)) as [->|Hbi].
  - rewrite (bool_decide_eq_true_2 (Some i = Some i)) by done.
    rewrite (handle_lookup m i rb Hrb). cbn [mbind res_bind]. split.
    + intros Hi. destruct Hi. by left.
    + intros _. exists a, r, (res_next rb). inversion_clear Hnd' as [|? ? Hb Hnd''].
      assert (a <> i) by (intros ->; apply Ha; by left).
      assert (Hal : a ∉ l) by (intros Hin; apply Ha; by right).
      split_and!; [done|by left|done|done|]. unfold without.
      rewrite filter_cons_True by done. rewrite filter_cons_False by (intros Hn; by apply Hn).
      change (filter (fun j => j <> i) l) with (without i l). rewrite without_notin by done.
      split; [done|]. eexists. split; [apply list_lookup_insert_eq; by apply lookup_lt_Some in Hr|].
      cbn [set_next res_next]. by apply chain_insert_notin.
  - rewrite (bool_decide_eq_false_2 (Some b = Some i)) by congruence. cbn [tail] in *. split.
    + intros Hi. apply IH1. intros Hin. apply Hi. by right.
    + intros [Hib|Hin]%elem_of_cons; [congruence|].
      destruct (IH2 Hin) as (k & rk & x & E & Hk & Hki & Hrk & Hck).
      exists k, rk, x. split_and!; [done|by right|done|done|]. unfold without in *.
      assert (k <> a) by (intros ->; by apply Ha).
      assert (Hai : a <> i) by (intros ->; apply Ha; by right).
      rewrite filter_cons_True by done. split; [done|]. exists r.
      rewrite list_lookup_insert_ne by done. split; [done|]. by rewrite En.
Qed.

(** Removing an allocated handle, whichever its place in the list. *)
Lemma remove_spec m l i : manager_wf m l -> i ∈ l ->
  exists m1, resource_remove_allocation m i = Ok (true, m1) /\
    mgr_devices m1 = mgr_devices m /\ length (pool m1) = length (pool m) /\
    pool m1 !! i = pool m !! i /\ chain (pool m1) (allocations m1) (without i l) /\
    (forall j, j ∉ l -> pool m1 !! j = pool m !! j) /\
    (forall j r, pool m !! j = Some r -> exists x, pool m1 !! j = Some (set_next r x)).
Proof using.
  intros Hwf Hi. pose proof (wf_length m l Hwf) as Hlen.
  destruct Hwf as [Hp Hc Hnd Hu Hf He]. unfold resource_remove_allocation.
  destruct l as [|a l]; [by apply not_elem_of_nil in Hi|].
  pose proof Hc as (Ea & ra & Hra & Hca). inversion_clear Hnd as [|? ? Hal Hnd'].
  destruct (decide (a = i)) as [->|Hai].
  - rewrite bool_decide_eq_true_2 by done. rewrite (handle_lookup m i ra Hra).
    cbn [mbind res_bind]. eexists. split; [reflexivity|].
    cbn [mgr_devices pool allocations]. unfold without.
    rewrite filter_cons_False by (intros Hn; by apply Hn).
    change (filter (fun j => j <> i) l) with (without i l). rewrite without_notin by done.
    split_and!; try done. intros j r Hj. exists (res_next r). rewrite Hj. by destruct r.
  - rewrite bool_decide_eq_false_2 by (rewrite Ea; congruence).
    apply elem_of_cons in Hi as [Hi|Hi]; [congruence|].
    destruct (unlink_loop_spec m i (a :: l) MAX_RESOURCE_ALLOCATIONS (allocations m)) as [_ H2].
    + done.
    + by constructor.
    + exact Hlen.
    + destruct (H2 Hi) as (k & r & x & E & Hk & Hki & Hr & Hch). eexists. split; [exact E|].
      cbn. rewrite length_insert, list_lookup_insert_ne by done. split_and!; try done.
      * intros j Hj. rewrite list_lookup_insert_ne; [done|]. by intros ->.
      * intros j r' Hj. destruct (decide (j = k)) as [->|Hjk].
        -- exists x. rewrite list_lookup_insert_eq by (by apply lookup_lt_Some in Hr).
           by rewrite Hr in Hj; injection Hj as ->.
        -- exists (res_next r'). rewrite list_lookup_insert_ne by done. rewrite Hj. by destruct r'.
Qed.

Lemma remove_absent m l i : manager_wf m l -> i ∉ l ->
  resource_remove_allocation m i = Ok (false, m).
Proof using.
  intros Hwf Hi. pose proof (wf_length m l Hwf). destruct Hwf as [Hp Hc Hnd Hu Hf He]. unfold resource_remove_allocation.
  rewrite bool_decide_eq_false_2.
  2:{ intros E. rewrite E in Hc. destruct l as [|a l]; [done|]. destruct Hc as (Ea & _).
      apply Hi. injection Ea as ->. by left. }
  destruct (unlink_loop_spec m i l MAX_RESOURCE_ALLOCATIONS (allocations m)) as [H1 _]; try done.
  apply H1. destruct l; [done|]. intros Hin. apply Hi. by right.
Qed.

(** What release runs of the driver, for the handle's driver and context. *)
Definition run_deinit (r : resource) (w : W) : res W :=
  match res_driver r, res_context r with
  | Some drv, Some ctx =>
      match deinit_context drv with Some deinit => deinit ctx w | None => Ok w end
  | _, _ => Ok w
  end.

Lemma without_in i j l : j ∈ without i l <-> j ∈ l /\ j <> i.
Proof using. unfold without. rewrite list_elem_of_filter. tauto. Qed.

Lemma released_wf m m1 l i : manager_wf m l -> i ∈ l ->
  length (pool m1) = length (pool m) -> chain (pool m1) (allocations m1) (without i l) ->
  (forall j, j ∉ l -> pool m1 !! j = pool m !! j) ->
  (forall j r, pool m !! j = Some r -> exists x, pool m1 !! j = Some (set_next r x)) ->
  manager_wf (set_handle m1 i resource_zero) (without i l) /\
  (forall j, j ∈ without i l -> device_of (set_handle m1 i resource_zero) j = device_of m j).
Proof using.
  intros [Hp Hc Hnd Hu Hf He] Hi El Hch Hout Hin.
  assert (Hdev : forall j, j ∈ without i l ->
    device_of (set_handle m1 i resource_zero) j = device_of m j).
  { intros j [Hjl Hji]%without_in. destruct (Hu j Hjl) as (r & Hr & _ & _).
    destruct (Hin j r Hr) as [x Hx]. unfold device_of, set_handle. cbn.
    rewrite list_lookup_insert_ne by done. by rewrite Hx, Hr. }
  split; [|done]. split.
  - cbn. rewrite length_insert. congruence.
  - cbn. apply chain_insert_notin; [|done]. intros Hx%without_in. tauto.
  - by apply NoDup_filter.
  - intros j [Hjl Hji]%without_in. destruct (Hu j Hjl) as (r & Hr & Hru & Hrd).
    destruct (Hin j r Hr) as [x Hx]. exists (set_next r x). cbn.
    by rewrite list_lookup_insert_ne.
  - intros j r Hj Hjn. cbn in Hj. destruct (decide (j = i)) as [->|Hji].
    + destruct (Hu i Hi) as (ri & Hri & _). rewrite list_lookup_insert_eq in Hj
        by (rewrite El; by apply lookup_lt_Some in Hri). congruence.
    + rewrite list_lookup_insert_ne in Hj by done.
      assert (Hjl : j ∉ l) by (intros Hx; apply Hjn, without_in; done).
      rewrite (Hout j Hjl) in Hj. eauto.
  - rewrite (list_fmap_ext (device_of (set_handle m1 i resource_zero)) (device_of m)
      (without i l)) by (intros k j Hk; apply Hdev; by apply list_elem_of_lookup_2 in Hk).
    eapply sublist_NoDup; [exact He|]. apply fmap_sublist. apply sublist_filter.
Qed.

(** The manager before anything was acquired. *)
Lemma fresh_wf devices : manager_wf (resources_set_devices manager_empty devices) [].
Proof using.
  split; try done.
  - constructor.
  - intros i Hi. by apply not_elem_of_nil in Hi.
  - intros i r Hr _. cbn [pool resources_set_devices manager_empty] in Hr.
    by apply lookup_replicate in Hr as [-> _].
  - constructor.
Qed.

(* ------------------------------------------------------------------ *)
(** ** Properties *)

(** C6: resource_acquire_available refines "the first device in list order that
    matches the driver, is not allocated, and initialises": with a free handle it
    returns a new handle for exactly that device, recorded with the driver and the
    context, on top of the allocated ones, and NULL with nothing allocated when
    there is no such device.  It never gives out a device twice.  With all 16 handles
    in use it returns NULL and changes nothing. *)
Theorem resource_acquire_correct drv ctx m w l n I :
  manager_wf m l -> well_behaved drv ctx n I -> I w -> (n <= MAX_DEVICES)%nat ->
  mgr_devices m = (if (0 <? n)%nat then Some O else None) ->
  if decide (length l = MAX_RESOURCE_ALLOCATIONS)
  then resource_acquire_available (Some drv) (Some ctx) m w = Ok (None, m, w)
  else exists o w', acquire_ref drv ctx (device_of m <$> l) (seq 0 n) w = Ok (o, w') /\
  match o with
  | None => resource_acquire_available (Some drv) (Some ctx) m w = Ok (None, m, w')
  | Some device =>
      Some device ∉ (device_of m <$> l) /\
      exists k m', k ∉ l /\
        resource_acquire_available (Some drv) (Some ctx) m w = Ok (Some k, m', w') /\
        manager_wf m' (k :: l) /\
        pool m' !! k = Some (Resource (Some device) (Some drv) (Some ctx) (allocations m) true)
  end.
Proof using.
  intros Hwf Hwb Hw Hn Hd. pose proof (wf_length m l Hwf).
  destruct (decide _) as [Hl|Hl]; [by eapply acquire_available_full|].
  destruct (acquire_available_spec drv ctx m w l n I) as (o & w' & E & Ho); [done|lia|done..|].
  exists o, w'. split; [done|]. destruct o as [device|]; [|done].
  destruct Ho as (Hnt & k & Hk & Hkp & Ea). split; [done|].
  exists k, (granted m k device drv ctx). split; [done|]. split; [done|].
  split; [by apply granted_wf|]. cbn. by rewrite list_lookup_insert_eq.
Qed.

(** C12: resource_release of an allocated handle takes exactly it off the list,
    wherever it stands there, runs the driver's deinit_context on its context, frees
    the slot and keeps the other handles' devices; a NULL or unallocated handle is
    refused with -1 and nothing changes. *)
Theorem resource_release_correct m w l i :
  manager_wf m l ->
  (i ∈ l -> exists r m', pool m !! i = Some r /\
     resource_release (Some i) m w = (w' ← run_deinit r w; Ok (0, m', w')) /\
     manager_wf m' (without i l) /\
     (forall j, j ∈ without i l -> device_of m' j = device_of m j)) /\
  (i ∉ l -> resource_release (Some i) m w = Ok (-1, m, w)) /\
  resource_release None m w = Ok (-1, m, w).
Proof using.
  intros Hwf. split_and!; [|intros Hi|done].
  2:{ unfold resource_release. by rewrite (remove_absent m l i Hwf Hi). }
  intros Hi. destruct (mw_used m l Hwf i Hi) as (r & Hr & _).
  destruct (remove_spec m l i Hwf Hi) as (m1 & E & Ed & El & Ei & Hch & Hout & Hin).
  exists r, (set_handle m1 i resource_zero). split; [done|]. rewrite Hr in Ei. split.
  - unfold resource_release. rewrite E. cbn [mbind res_bind negb].
    rewrite (handle_lookup m1 i r Ei). cbn [mbind res_bind]. unfold run_deinit, resource_free.
    rewrite (handle_lookup m1 i r Ei). cbn [mbind res_bind].
    destruct (res_driver r), (res_context r); done.
  - by apply (released_wf m m1 l i).
Qed.

(** Releasing the handle just acquired restores the manager exactly, so that
    the device can be acquired again. *)
Theorem acquire_release_roundtrip drv ctx m w l n I k m' w' :
  manager_wf m l -> (length l < MAX_RESOURCE_ALLOCATIONS)%nat ->
  well_behaved drv ctx n I -> I w -> (n <= MAX_DEVICES)%nat ->
  mgr_devices m = (if (0 <? n)%nat then Some O else None) ->
  resource_acquire_available (Some drv) (Some ctx) m w = Ok (Some k, m', w') ->
  resource_release (Some k) m' w' =
  (w'' ← match deinit_context drv with Some deinit => deinit ctx w' | None => Ok w' end;
   Ok (0, m, w'')).
Proof using.
  intros Hwf Hl Hwb Hw Hn Hd E.
  destruct (acquire_available_spec drv ctx m w l n I) as (o & w1 & _ & Ho); [done..|].
  destruct o as [device|]; [|congruence].
  destruct Ho as (_ & k1 & Hk & Hkp & Ea). rewrite Ea in E. injection E as -> <- <-.
  assert (Hkk : pool (granted m k device drv ctx) !! k =
    Some (Resource (Some device) (Some drv) (Some ctx) (allocations m) true))
    by (cbn; by rewrite list_lookup_insert_eq).
  unfold resource_release, resource_remove_allocation.
  rewrite bool_decide_eq_true_2 by done.
  rewrite (handle_lookup _ k _ Hkk). cbn [mbind res_bind negb res_next].
  set (m2 := Manager _ (allocations m) _).
  assert (Hk2 : handle m2 k = Ok (Resource (Some device) (Some drv) (Some ctx)
    (allocations m) true)) by (by apply handle_lookup).
  rewrite Hk2. cbn [mbind res_bind res_driver res_context].
  destruct (match deinit_context drv with Some deinit => deinit ctx w1 | None => Ok w1 end);
    [|done..]. cbn [mbind res_bind]. unfold resource_free.
  rewrite Hk2. cbn [mbind res_bind]. unfold m2, set_handle, granted. cbn.
  rewrite list_insert_insert_eq.
  destruct (lookup_lt_is_Some_2 _ _ Hkp) as [x Hx].
  rewrite list_insert_id; [by destruct m|]. rewrite Hx. f_equal.
  by apply (mw_free m l Hwf k).
Qed.
End resources.

(* ------------------------------------------------------------------ *)
(** ** A sample driver and device list *)

Module sample.
  (** Two matching PCI devices behind one that does not match. *)
Definition device_at (id : Z) : device := set_ids (sample_device 0 (id * 4096)) 0x1AF4 id.
Definition devices : registry :=
    match add_all [device_at 0x1001; device_at 0x1000; device_at 0x1000] registry_empty with
    | Ok r => r | _ => registry_empty end.
  (** The context is a number; initialisation always succeeds. *)
Definition drv : @driver registry Z :=
    Driver (str "virtio-net") (str "0.1.0") DRIVER_TYPE_NETWORK
      (Some [DeviceId None 0x1AF4 0x1000 (Some (str "VirtIO Net")); DeviceId None 0 0 None])
      (Some (fun _ _ w => Ok (0, w))) (Some (fun _ w => Ok w)).
Definition mem : memory := fun _ => None.
Definition start : @manager registry Z := resources_set_devices manager_empty (Some O).

Lemma drv_ok : well_behaved mem (fun w => w) drv 7 3 (fun w => w = devices).
  Proof.
    split.
    - intros w -> i Hi. do 3 (destruct i as [|i]; [eexists; split; [reflexivity|reflexivity]|]). lia.
    - intros w i d _ _ _. unfold device_matches_driver, drv. cbn [id_table match_table].
      cbn. repeat case_match; eauto.
    - intros init i d w [= <-] -> _ _ _. by exists 0, devices.
  Qed.
End sample.

Lemma resource_acquire_correct_witness :
  exists o w', acquire_ref sample.mem (fun w => w) sample.drv 7 [] (seq 0 3) sample.devices
    = Ok (o, w') /\
  match o with
  | None => resource_acquire_available sample.mem (fun w => w) (Some sample.drv) (Some 7)
              sample.start sample.devices = Ok (None, sample.start, w')
  | Some device =>
      Some device ∉ (device_of sample.start <$> []) /\
      exists k m', k ∉ [] /\
        resource_acquire_available sample.mem (fun w => w) (Some sample.drv) (Some 7)
          sample.start sample.devices = Ok (Some k, m', w') /\
        manager_wf m' [k] /\
        pool m' !! k = Some (Resource (Some device) (Some sample.drv) (Some 7) None true)
  end.
Proof.
  exact (resource_acquire_correct sample.mem (fun w => w) sample.drv 7 sample.start
    sample.devices [] 3 (fun w => w = sample.devices)
    (fresh_wf (Some O)) sample.drv_ok eq_refl ltac:(unfold MAX_DEVICES; lia) eq_refl).
Defined.

Lemma acquire_release_roundtrip_witness :
  let m' := granted sample.start 0 1 sample.drv 7 in
  resource_release (Some O) m' sample.devices = Ok (0, sample.start, sample.devices).
Proof.
  apply (acquire_release_roundtrip sample.mem (fun w => w) sample.drv 7 sample.start
    sample.devices [] 3 (fun w => w = sample.devices) O (granted sample.start 0 1 sample.drv 7) sample.devices).
  - exact (fresh_wf (Some O)).
  - cbn. unfold MAX_RESOURCE_ALLOCATIONS. lia.
  - exact sample.drv_ok.
  - reflexivity.
  - unfold MAX_DEVICES. lia.
  - reflexivity.
  - vm_compute. reflexivity.
Defined.

Lemma resource_release_correct_witness :
  let m := granted sample.start 0 1 sample.drv 7 in
  (O ∈ [O] -> exists r m', pool m !! O = Some r /\
     resource_release (Some O) m sample.devices
       = (w' ← run_deinit r sample.devices; Ok (0, m', w')) /\
     manager_wf m' (without 0 [O]) /\
     (forall j, j ∈ without 0 [O] -> device_of m' j = device_of m j)) /\
  (O ∉ [O] -> resource_release (Some O) m sample.devices = Ok (-1, m, sample.devices)) /\
  resource_release None m sample.devices = Ok (-1, m, sample.devices).
Proof.
  apply (resource_release_correct (granted sample.start 0 1 sample.drv 7) sample.devices [O] O).
  apply granted_wf.
  - exact (fresh_wf (Some O)).
  - apply not_elem_of_nil.
  - cbn. lia.
  - apply not_elem_of_nil.
Defined.
