(* ===== verification/Console.v ===== *)
(** The console and the logger's static state as part of a program's world:
    the interface against which the handlers that print and log are written
    (putchar of kernel/platform, common/log.c). *)

From S2P Require Export Log.

Open Scope Z_scope.

(** What the world of a handler offers: characters can be written to the
    console, and it holds the static variables of common/log.c. *)
Class Console (W : Type) := {
  con_write : bytes -> W -> W;
  con_log : W -> log_state;
  con_set_log : log_state -> W -> W
}.

(** The laws the handlers' theorems use: output leaves the logger alone. *)
Class ConsoleLaws (W : Type) `{Console W} := {
  con_log_write : forall s w, con_log (con_write s w) = con_log w;
  con_write_nil : forall w, con_write [] w = w;
  con_write_app : forall s t w, con_write t (con_write s w) = con_write (s ++ t) w
}.

Section console.
  Context {W : Type} `{Console W}.

(** A printing function run on the world. *)
Definition kput (o : out) : St W unit := s ← lift o; modify (con_write s).
Definition kputs (s : string) : St W unit := kput (puts (str s)).

(** The functions of log.c on the world's logger. *)
Definition klog_tag (p : tag_ptr) (w : W) : option log_tag := get_tag (con_log w) p.
Definition klog_msg (p : tag_ptr) (level : Z) (msg : string) : St W unit := fun w =>
  kput (log_msg (klog_tag p w) level (str msg)) w.
Definition klog_error (p : tag_ptr) (msg : string) : St W unit := fun w =>
  kput (log_error (klog_tag p w) (str msg)) w.
Definition klog_warn (p : tag_ptr) (msg : string) : St W unit := fun w =>
  kput (log_warn (klog_tag p w) (str msg)) w.
Definition klog_info (p : tag_ptr) (msg : string) : St W unit := fun w =>
  kput (log_info (klog_tag p w) (str msg)) w.
Definition klog_debug (p : tag_ptr) (msg : string) : St W unit := fun w =>
  kput (log_debug (klog_tag p w) (str msg)) w.
Definition klog_enabled (p : tag_ptr) (level : Z) : St W bool :=
  gets (fun w => log_enabled (klog_tag p w) level).
Definition klog_prefix (p : tag_ptr) (level : Z) : St W unit := fun w =>
  kput (log_prefix (klog_tag p w) level) w.
Definition klog_register (name : string) (default_level : Z) : St W tag_ptr := fun w =>
  let '(p, st) := log_register (con_log w) (str name) default_level in
  Ok (p, con_set_log st w).

(** Only characters were written between two worlds. *)
Definition prints : relation W := rtc (fun w w' => exists s, w' = con_write s w).

(** A tag whose level silences DEBUG. *)
Definition quiet (p : tag_ptr) (w : W) : Prop := log_enabled (klog_tag p w) LOG_DEBUG = false.

Lemma kput_ok o s w : o = Ok s -> kput o w = Ok (tt, con_write s w).
Proof. by intros ->. Qed.

(** Prefixes and messages of a valid level are written, whatever the tag. *)
Lemma log_prefix_ok tag level : 0 <= level -> exists s, log_prefix tag level = Ok s.
Proof.
  intros Hl. unfold log_prefix. destruct tag as [t|]; [|by eexists]. unfold LOG_DEBUG.
  destruct (Z.ltb_spec 3 level); [by eexists|].
  destruct (rd_in_range level_names level) as (n & -> & _); [|by eexists].
  change (len level_names) with 4. lia.
Qed.

Lemma klog_prefix_ok p level w : 0 <= level ->
  exists s, klog_prefix p level w = Ok (tt, con_write s w).
Proof.
  intros Hl. destruct (log_prefix_ok (klog_tag p w) level Hl) as [s E]. exists s. by apply kput_ok.
Qed.

Lemma log_msg_ok tag level msg : 0 <= level -> exists s, log_msg tag level msg = Ok s.
Proof.
  intros Hl. unfold log_msg. destruct (negb _); [by eexists|].
  destruct (log_prefix_ok tag level Hl) as [s ->]. by eexists.
Qed.

Lemma klog_msg_ok p level msg w : 0 <= level ->
  exists s, klog_msg p level msg w = Ok (tt, con_write s w).
Proof.
  intros Hl. destruct (log_msg_ok (klog_tag p w) level (str msg) Hl) as [s E].
  exists s. by apply kput_ok.
Qed.

Lemma prints_kput w0 w o s : prints w0 w -> o = Ok s ->
  exists w', kput o w = Ok (tt, w') /\ prints w0 w'.
Proof. intros Hp ->. eexists. split; [done|]. eapply rtc_r; [done|by exists s]. Qed.
Lemma prints_msg w0 w p level msg : prints w0 w -> 0 <= level ->
  exists w', klog_msg p level msg w = Ok (tt, w') /\ prints w0 w'.
Proof.
  intros Hp Hl. destruct (klog_msg_ok p level msg w Hl) as [s ->]. eexists. split; [done|].
  eapply rtc_r; [done|by exists s].
Qed.
Lemma prints_prefix w0 w p level : prints w0 w -> 0 <= level ->
  exists w', klog_prefix p level w = Ok (tt, w') /\ prints w0 w'.
Proof.
  intros Hp Hl. destruct (klog_prefix_ok p level w Hl) as [s ->]. eexists. split; [done|].
  eapply rtc_r; [done|by exists s].
Qed.
Lemma prints_log `{!ConsoleLaws W} w w' : prints w w' -> con_log w' = con_log w.
Proof. induction 1 as [|w w1 w' [s ->] _ IH]; [done|]. by rewrite IH, con_log_write. Qed.

Lemma klog_debug_quiet `{!ConsoleLaws W} p msg w : quiet p w -> klog_debug p msg w = Ok (tt, w).
Proof.
  intros Hq. unfold klog_debug, log_debug, log_msg. unfold quiet in Hq. rewrite Hq.
  erewrite kput_ok by done. by rewrite con_write_nil.
Qed.
End console.

(** ** A console world: the output so far and the logger *)

Record console := ConsoleState { console_out : bytes; console_log : log_state }.

#[export] Instance console_console : Console console := {
  con_write s c := ConsoleState (console_out c ++ s) (console_log c);
  con_log := console_log;
  con_set_log st c := ConsoleState (console_out c) st
}.

#[export] Instance console_laws : ConsoleLaws console.
Proof.
  split; [done|..].
  - intros [o l]. unfold con_write, console_console. cbn. by rewrite app_nil_r.
  - intros s t [o l]. unfold con_write, console_console. cbn. by rewrite app_assoc.
Qed.
