(* ===== verification/Stubs.v ===== *)
(** What the program leaves unimplemented: the virtio-blk driver
    (drivers/virtio_blk/virtio_blk.c) and resources_update_devices
    (kernel/resources/resources.c). *)

From S2P Require Export Console Resources.

Open Scope Z_scope.

Definition VIRTIO_VENDOR_ID : Z := 0x1AF4.
Definition VIRTIO_BLK_DEVICE_ID : Z := 0x1001.

Definition virtio_blk_id_table : list device_id_entry :=
  [DeviceId (Some (str "virtio,block")) VIRTIO_VENDOR_ID VIRTIO_BLK_DEVICE_ID
     (Some (str "VirtIO-Blk (Legacy)"));
   DeviceId None 0 0 None].

Section blk.
  Context {W C : Type}.

Definition virtio_blk_init_context (ctx : C) (device : nat) (w : W) : res (Z * W) := Ok (0, w).
Definition virtio_blk_deinit_context (ctx : C) (w : W) : res W := Ok w.

Definition virtio_blk_driver : @driver W C := {|
  drv_name := str "virtio-blk"; drv_version := str "0.1.0"; drv_type := DRIVER_TYPE_STORAGE;
  id_table := Some virtio_blk_id_table;
  init_context := Some virtio_blk_init_context;
  deinit_context := Some virtio_blk_deinit_context |}.
Definition virtio_blk_get_driver : option (@driver W C) := Some virtio_blk_driver.
End blk.

(** [res_log]: the static tag; the result has its new value. *)
Definition resources_update_devices {W} `{Console W} (res_log : tag_ptr) : St W tag_ptr :=
  res_log ← match res_log with
            | Some _ => mret res_log | None => klog_register "resources" LOG_INFO
            end;
  _ ← klog_warn res_log "resources_update_devices: unimplemented
";
  mret res_log.

(** The driver's hooks never fail and change nothing: once a device matches, it is
    granted in the state it is in. *)
Lemma virtio_blk_hooks {W C} (ctx : C) i (w : W) :
  virtio_blk_init_context ctx i w = Ok (0, w) /\ virtio_blk_deinit_context ctx w = Ok w.
Proof. done. Qed.

(** The driver matches a device by its compatible string or by its identifiers. *)
Lemma virtio_blk_matches {W C} mem d :
  dev_compatible d = None ->
  @device_matches_driver W C mem d virtio_blk_driver
  = Ok ((vendor_id d =? 0x1AF4) && (device_id d =? 0x1001)).
Proof.
  intros Hc. unfold device_matches_driver. cbn [id_table virtio_blk_driver].
  unfold virtio_blk_id_table. cbn. rewrite ?Hc. cbn.
  unfold VIRTIO_VENDOR_ID, VIRTIO_BLK_DEVICE_ID. by destruct (_ && _).
Qed.
