(* ===== verification/DeviceScan.v ===== *)
(** Scanning for devices and printing their tree (devices_scan and device_tree_print of
    kernel/devices/devices.c).  The architecture's devices_enumerate is a parameter. *)

From S2P Require Export Console Devices.

Open Scope Z_scope.

(** The static variables of devices.c as a part of the world. *)
Class DeviceStore (W : Type) := {
  ds_registry : W -> registry;
  ds_set_registry : registry -> W -> W
}.

Section scan.
  Context {W : Type} `{Console W} `{DeviceStore W}.
  Context (mem : memory) (strmax : nat) (driver_name : Z -> cstr).
  Context (devices_enumerate : Z -> option (device -> St W unit) -> St W Z).

(** The callback on the world's registry. *)
Definition register_device (d : device) : St W unit := fun w =>
  match add_device_to_registry d (ds_registry w) with
  | Ok r => Ok (tt, ds_set_registry r w)
  | UB => UB
  | NoFuel => NoFuel
  end.

(** [devices_log]: the static tag; the result has its new value. *)
Definition devices_tag (devices_log : tag_ptr) : St W tag_ptr :=
  match devices_log with
  | Some _ => mret devices_log
  | None => klog_register "devices" LOG_INFO
  end.

(** The line with the number of devices. *)
Definition report_count (devices_log : tag_ptr) (device_count : Z) : St W unit :=
  info ← klog_enabled devices_log LOG_INFO;
  when info
    (_ ← klog_prefix devices_log LOG_INFO;
     kput (puts (str "Found " ++ put_hex16 device_count ++ str " device(s)" ++ nl))).

Definition devices_scan (devices_log : tag_ptr) : St W (Z * tag_ptr) :=
  devices_log ← devices_tag devices_log;
  _ ← klog_msg devices_log LOG_INFO "Scanning device tree...
";
  fdt ← gets (fun w => device_get_fdt (ds_registry w));
  device_count ← devices_enumerate fdt (Some register_device);
  _ ← report_count devices_log device_count;
  r ← gets ds_registry;
  r ← lift (build_tree_hierarchy r);
  _ ← modify (ds_set_registry r);
  mret (device_count, devices_log).

Definition device_tree_print (devices_log : tag_ptr) : St W tag_ptr :=
  devices_log ← devices_tag devices_log;
  info ← klog_enabled devices_log LOG_INFO;
  if negb info then mret devices_log else
  _ ← klog_msg devices_log LOG_INFO "Device tree:
";
  r ← gets ds_registry;
  _ ← kput (device_tree_lines mem strmax driver_name r);
  mret devices_log.
End scan.

(* ------------------------------------------------------------------ *)
(** ** What is printed *)

(** The text of a tree: each device that is no child of the root, in order, the root
    followed by its children. *)
Definition tree_text (line : device -> Z -> bytes) (s : list device) : bytes :=
  let cs := children s (length s) in
  match head (filter (depth_is s 0) (seq 0 (length s))) with
  | None => concat ((fun d => line d 0) <$> s)
  | Some root =>
      concat (imap (fun i d =>
        if decide (i ∈ cs) then []
        else line d 0 ++ if decide (i = root)
                         then concat (omap (fun c => (fun d => line d 1) <$> s !! c) cs) else []) s)
  end.

Section printing.
  Context (mem : memory) (strmax : nat) (driver_name : Z -> cstr).
  Context (line : device -> Z -> bytes).

(** The strings of a device can be read. *)
Definition printable_device (d : device) : Prop := forall k,
  print_device_line mem strmax driver_name d k = Ok (line d k).

Lemma print_line_slot root cs i d k :
  print_device_line mem strmax driver_name (tree_slot root cs i d) k
  = print_device_line mem strmax driver_name d k.
Proof using. unfold tree_slot. by repeat case_decide. Qed.

Lemma print_device_S fuel r i k : print_device mem strmax driver_name (S fuel) r i k =
  (d ← slot r i; (print_device_line mem strmax driver_name d k +++
                  print_children mem strmax driver_name fuel r (first_child d) (k + 1))%out).
Proof using. reflexivity. Qed.
Lemma print_children_S fuel r c k : print_children mem strmax driver_name (S fuel) r (Some c) k =
  (print_device mem strmax driver_name fuel r c k +++
   (d ← slot r c; print_children mem strmax driver_name fuel r (next_sibling d) k))%out.
Proof using. reflexivity. Qed.
Lemma print_children_nil fuel r k : print_children mem strmax driver_name fuel r None k = Ok [].
Proof using. by destruct fuel. Qed.

(** A device without children prints its line. *)
Lemma print_leaf fuel r i d k t : (0 < fuel)%nat ->
  device_storage r !! i = Some d -> first_child d = None ->
  print_device_line mem strmax driver_name d k = Ok t ->
  print_device mem strmax driver_name fuel r i k = Ok t.
Proof using.
  intros Hf Hd Hc Hp. destruct fuel as [|fuel]; [lia|]. rewrite print_device_S.
  rewrite (slot_lookup r i d Hd). cbn [mbind res_bind]. rewrite Hp, Hc, print_children_nil.
  unfold seq_out. cbn. by rewrite app_nil_r.
Qed.

Section tree.
  Context (s : list device) (root : nat) (h : option nat) (f : Z).
  Notation all := (children s (length s)).
  Notation r := (Registry (linked root all s) h (Some root) f).
  Hypothesis Hfresh : Forall fresh s.
  Hypothesis Hroot : depth_is s 0 root.
  Hypothesis Hlines : Forall printable_device s.

Lemma child_not_root c : c ∈ all -> c <> root.
Proof using Hroot.
  intros [_ Hc]%children_lt ->. unfold depth_is in *. rewrite Hroot in Hc. discriminate.
Qed.

Lemma slot_of c d : s !! c = Some d -> c <> root ->
  device_storage r !! c = Some (tree_slot root all c d) /\
  first_child (tree_slot root all c d) = None.
Proof using Hfresh.
  intros Hd Hne. split; [by apply linked_lookup|]. rewrite Forall_lookup in Hfresh.
  destruct (Hfresh _ _ Hd) as (_ & Hc & _). unfold tree_slot.
  rewrite (decide_False (P := c = root)) by done. by case_decide.
Qed.

Lemma sibling_of pre c cs d : all = pre ++ c :: cs -> s !! c = Some d ->
  next_sibling (tree_slot root all c d) = head cs.
Proof using.
  intros E Hd. pose proof (children_nodup s (length s)) as Hnd. unfold tree_slot.
  assert (c ∈ all) as Hc by (rewrite E; apply elem_of_app; right; by left).
  rewrite (decide_True (P := c ∈ all)) by done. cbn [next_sibling set_next_sibling].
  rewrite E in Hnd |- *. clear -Hnd. induction pre as [|p pre IH]; cbn [app next_after].
  - by rewrite decide_True.
  - apply NoDup_cons in Hnd as [Hp Hnd]. rewrite decide_False; [by apply IH|].
    intros ->. apply Hp, elem_of_app. right. by left.
Qed.

Lemma slot_line c d k : s !! c = Some d ->
  print_device_line mem strmax driver_name (tree_slot root all c d) k = Ok (line d k).
Proof using Hlines.
  intros Hd. rewrite print_line_slot. rewrite Forall_lookup in Hlines. by apply (Hlines c).
Qed.

Lemma print_children_spec cs : forall pre fuel, all = pre ++ cs -> (length cs < fuel)%nat ->
  print_children mem strmax driver_name fuel r (head cs) 1
  = Ok (concat (omap (fun c => (fun d => line d 1) <$> s !! c) cs)).
Proof using Hfresh Hroot Hlines.
  induction cs as [|c cs IH]; intros pre fuel E Hf; [apply print_children_nil|].
  cbn [length] in Hf.
  assert (c ∈ all) as Hc by (rewrite E; apply elem_of_app; right; by left).
  destruct (proj1 (children_lt _ _ _) Hc) as [Hlt _]. apply lookup_lt_is_Some in Hlt as [d Hd].
  destruct (slot_of c d Hd (child_not_root c Hc)) as [Hs Hn].
  destruct fuel as [|fuel]; [lia|]. cbn [head]. rewrite print_children_S.
  rewrite (print_leaf fuel r c _ 1 (line d 1) ltac:(lia) Hs Hn) by by apply slot_line.
  rewrite (slot_lookup r c _ Hs). unfold seq_out. cbn [mbind res_bind].
  rewrite (sibling_of pre c cs d E Hd), (IH (pre ++ [c]))
    by (rewrite <- ?app_assoc; done || lia).
  cbn [omap list_omap]. rewrite Hd. done.
Qed.

(** One device of the list. *)
Definition block (i : nat) (d : device) : bytes :=
  line d 0 ++ if decide (i = root)
              then concat (omap (fun c => (fun d => line d 1) <$> s !! c) all) else [].

Lemma print_block fuel i d : s !! i = Some d -> i ∉ all -> (length s + 2 <= fuel)%nat ->
  print_device mem strmax driver_name fuel r i 0 = Ok (block i d).
Proof using Hfresh Hroot Hlines.
  intros Hd Hi Hf. unfold block. destruct (decide (i = root)) as [->|Hne].
  - destruct fuel as [|fuel]; [lia|]. rewrite print_device_S.
    rewrite (slot_lookup r root (tree_slot root all root d)) by by apply linked_lookup.
    cbn [mbind res_bind]. rewrite slot_line by done.
    replace (first_child (tree_slot root all root d)) with (head all).
    + rewrite (print_children_spec all []); [done..|].
      pose proof (length_filter (depth_is s 1) (seq 0 (length s))) as Hl.
      rewrite length_seq in Hl. unfold children. lia.
    + unfold tree_slot. rewrite (decide_True (P := root = root)) by done. by case_decide.
  - destruct (slot_of i d Hd Hne) as [Hs Hn]. rewrite app_nil_r.
    by rewrite (print_leaf fuel r i _ 0 (line d 0) ltac:(lia) Hs Hn) by by apply slot_line.
Qed.

Lemma parent_of i d : s !! i = Some d ->
  bool_decide (dev_parent (tree_slot root all i d) <> None) = bool_decide (i ∈ all).
Proof using Hfresh.
  intros Hd. apply bool_decide_ext. rewrite Forall_lookup in Hfresh.
  destruct (Hfresh _ _ Hd) as (Hp & _ & _). unfold tree_slot.
  destruct (decide (i ∈ all)); [split; [done|intros _; done]|].
  destruct (decide (i = root)); cbn [dev_parent set_first_child]; rewrite Hp; tauto.
Qed.

Lemma print_list_spec : threaded s (length s) -> (length s <= MAX_DEVICES)%nat ->
  forall fuel i, (i <= length s)%nat -> (length s - i < fuel)%nat ->
  print_list mem strmax driver_name fuel r true (if (i <? length s)%nat then Some i else None)
  = Ok (concat (imap (fun j d => if decide ((i + j)%nat ∈ all) then [] else block (i + j)%nat d)
                  (drop i s))).
Proof using Hfresh Hroot Hlines.
  intros Ht Hmax. induction fuel as [|fuel IH]; intros i Hi Hf; [lia|].
  destruct (Nat.ltb_spec i (length s)) as [Hlt|Hge]; [|by rewrite drop_ge].
  destruct (Ht i Hlt) as (d & Hd & En). cbn [print_list].
  rewrite (slot_lookup r i (tree_slot root all i d)) by by apply linked_lookup.
  cbn [mbind res_bind]. rewrite (proj1 (tree_slot_fields root all i d)), En.
  rewrite (drop_S s d i Hd), imap_cons, Nat.add_0_r. cbn [concat].
  rewrite (IH (S i)) by lia. unfold seq_out. cbn [andb]. rewrite parent_of by done.
  rewrite (imap_ext _ (fun j d => if decide ((i + S j)%nat ∈ all) then [] else block (i + S j)%nat d))
    by (intros; by replace (i + S i0)%nat with (S i + i0)%nat by lia).
  destruct (decide (i ∈ all)) as [Hin|Hin].
  - by rewrite bool_decide_true.
  - rewrite bool_decide_false by done. rewrite (print_block _ i d Hd Hin) by lia. done.
Qed.
End tree.

(** Without a root the list is printed flat. *)
Lemma print_flat r s n : device_storage r = s -> Forall fresh s -> Forall printable_device s ->
  threaded s n -> n = length s -> forall fuel i, (i <= n)%nat -> (n - i < fuel)%nat ->
  print_list mem strmax driver_name fuel r false (if (i <? n)%nat then Some i else None)
  = Ok (concat ((fun d => line d 0) <$> drop i s)).
Proof using.
  intros Hs Hfr Hp Ht ->. induction fuel as [|fuel IH]; intros i Hi Hf; [lia|].
  destruct (Nat.ltb_spec i (length s)) as [Hlt|Hge]; [|by rewrite drop_ge].
  destruct (Ht i Hlt) as (d & Hd & En). cbn [print_list].
  rewrite (slot_lookup r i d) by (by rewrite Hs). cbn [mbind res_bind andb].
  rewrite Forall_lookup in Hfr, Hp. destruct (Hfr _ _ Hd) as (_ & Hc & _).
  rewrite (print_leaf _ r i d 0 (line d 0)); [|lia|by rewrite Hs|done|by apply (Hp i)].
  rewrite En, (IH (S i)), (drop_S s d i Hd) by lia. done.
Qed.

(** The text that device_tree_print writes for a registry as build_tree_hierarchy
    leaves it. *)
Lemma device_tree_lines_ok r : registry_wf r -> Forall fresh (device_storage r) ->
  Forall printable_device (device_storage r) -> device_tree_root r = None ->
  exists r', build_tree_hierarchy r = Ok r' /\ device_tree_lines mem strmax driver_name r' = Ok (tree_text line (device_storage r)).
Proof using.
  intros Hwf Hf Hp Hn. rewrite build_tree_spec by done. eexists. split; [reflexivity|].
  destruct Hwf as [Hc Hh Ht].
  assert (Hd : device_list_head r = if (0 <? length (device_storage r))%nat then Some O else None).
  { rewrite Hh. by destruct (device_storage r). }
  unfold device_tree_lines, tree_text.
  destruct (head (filter (depth_is (device_storage r) 0) (seq 0 (length (device_storage r)))))
    as [root|] eqn:Er; cbn [device_tree_root device_list_head].
  - rewrite bool_decide_true by done. rewrite Hd.
    assert (root ∈ filter (depth_is (device_storage r) 0) (seq 0 (length (device_storage r)))) as Hin
      by (destruct (filter _ _); [done|injection Er as ->; by left]).
    apply list_elem_of_filter in Hin as [Hroot _].
    apply (print_list_spec (device_storage r) root _ _ Hf Hroot Hp Ht Hc); lia.
  - rewrite bool_decide_false by (rewrite Hn; tauto). rewrite Hd.
    apply (print_flat r (device_storage r) (length (device_storage r))); (done || lia).
Qed.
End printing.

(** The strings of a device can be read, and the line that is then printed. *)
Definition readable (mem : memory) (strmax : nat) (driver_name : Z -> cstr) (d : device) : Prop :=
  forall k, exists t, print_device_line mem strmax driver_name d k = Ok t.
Definition device_line (mem : memory) (strmax : nat) (driver_name : Z -> cstr) (d : device) (k : Z)
    : bytes :=
  match print_device_line mem strmax driver_name d k with Ok t => t | _ => [] end.

Lemma readable_printable mem strmax driver_name d : readable mem strmax driver_name d ->
  printable_device mem strmax driver_name (device_line mem strmax driver_name) d.
Proof. intros Hr k. unfold device_line. by destruct (Hr k) as [t ->]. Qed.

(** A device without strings is printed by its addresses alone. *)
Lemma readable_unnamed mem strmax driver_name d : dev_name d = None -> dev_compatible d = None ->
  readable mem strmax driver_name d.
Proof. intros Hn Hc k. unfold print_device_line. rewrite Hn, Hc. by eexists. Qed.

(** Registering devices copies what is printed of them. *)
Lemma registered_readable mem strmax driver_name r l : registered r = new_slot <$> l ->
  Forall (readable mem strmax driver_name) (new_slot <$> l) ->
  Forall (printable_device mem strmax driver_name (device_line mem strmax driver_name))
    (device_storage r).
Proof.
  intros Hr Hl. rewrite <- Hr in Hl. unfold registered in Hl. rewrite Forall_fmap in Hl.
  eapply Forall_impl; [exact Hl|]. intros d Hd. apply readable_printable. exact Hd.
Qed.

(* ------------------------------------------------------------------ *)
(** ** The enumeration's contract *)

(** The registry at boot. *)
Lemma boot_registry_wf fdt : registry_wf (device_set_fdt registry_empty fdt).
Proof. split; [cbn; lia|done|]. intros i Hi. cbn in Hi. lia. Qed.

(** The registry after the devices [ds] were registered at boot. *)
Record scanned (ds : list device) (r0 r : registry) : Prop := Scanned {
  scanned_wf : registry_wf r;
  scanned_list : registered r = new_slot <$> take MAX_DEVICES ds;
  scanned_fresh : Forall fresh (device_storage r);
  scanned_root : device_tree_root r = device_tree_root r0;
  scanned_fdt : fdt_address r = fdt_address r0
}.

Lemma add_all_keeps ds : forall r r', registry_wf r -> add_all ds r = Ok r' ->
  device_tree_root r' = device_tree_root r /\ fdt_address r' = fdt_address r.
Proof.
  induction ds as [|d ds IH]; intros r r' Hr; cbn [add_all]; [by intros [= <-]|].
  destruct (add_device_spec r d Hr) as (r1 & -> & H1 & _ & Ht & Hf). cbn [mbind res_bind].
  intros E. destruct (IH r1 r' H1 E). split; congruence.
Qed.

Lemma add_all_boot ds r : registry_wf r -> registered r = [] ->
  exists r', add_all ds r = Ok r' /\ scanned ds r r'.
Proof.
  intros Hr He. destruct (add_all_spec ds r Hr) as (r' & E & Hw & Hl). exists r'. split; [done|].
  rewrite He in Hl. cbn [app] in Hl. rewrite <- fmap_take in Hl.
  destruct (add_all_keeps ds r r' Hr E).
  split; [done|done| |done|done]. by eapply registered_fresh.
Qed.

Class DeviceStoreLaws (W : Type) `{Console W} `{DeviceStore W} := {
  ds_get_set : forall r w, ds_registry (ds_set_registry r w) = r;
  ds_registry_write : forall s w, ds_registry (con_write s w) = ds_registry w;
  ds_registry_log : forall l w, ds_registry (con_set_log l w) = ds_registry w;
  ds_log_set : forall r w, con_log (ds_set_registry r w) = con_log w;
  con_log_set_log : forall l w, con_log (con_set_log l w) = l
}.

(** What an architecture's devices_enumerate promises devices_scan: on ready hardware it
    returns, having registered the devices it found, in order, and left the logger's
    configuration alone; the number it returns is [hw_count].  Output, the logger and the registry are no part of the hardware. *)
Class Enumerator (W : Type) `{Console W} `{DeviceStore W} := {
  devices_enumerate : Z -> option (device -> St W unit) -> St W Z;
  hw_ready : Z -> W -> Prop;
  hw_found : Z -> W -> list device;
  hw_count : Z -> W -> Z;
  hw_write : forall fdt s w, hw_ready fdt w ->
    hw_ready fdt (con_write s w) /\ hw_found fdt (con_write s w) = hw_found fdt w /\
    hw_count fdt (con_write s w) = hw_count fdt w;
  hw_set_log : forall fdt l w, hw_ready fdt w ->
    hw_ready fdt (con_set_log l w) /\ hw_found fdt (con_set_log l w) = hw_found fdt w /\
    hw_count fdt (con_set_log l w) = hw_count fdt w;
  hw_set_registry : forall fdt r w, hw_ready fdt w ->
    hw_ready fdt (ds_set_registry r w) /\ hw_found fdt (ds_set_registry r w) = hw_found fdt w /\
    hw_count fdt (ds_set_registry r w) = hw_count fdt w;
  enumerate_ok : forall fdt ds w, hw_ready fdt w -> registry_wf (ds_registry w) ->
    log_follows ds (con_log w) ->
    exists w' r, devices_enumerate fdt (Some register_device) w
        = Ok (hw_count fdt w, w') /\
      add_all (hw_found fdt w) (ds_registry w) = Ok r /\ ds_registry w' = r /\
      log_follows ds (con_log w') /\ hw_ready fdt w'
}.

Lemma add_all_snoc l d : forall r, add_all (l ++ [d]) r = (r' ← add_all l r; add_device_to_registry d r').
Proof.
  induction l as [|x l IH]; intros r; cbn [app add_all].
  - cbn [mbind res_bind]. by destruct (add_device_to_registry d r).
  - destruct (add_device_to_registry x r); [apply IH|done..].
Qed.

(** The callback adds one more device to the registry. *)
Lemma register_device_adds `{DeviceStore W} r0 l d w : registry_wf r0 ->
  add_all l r0 = Ok (ds_registry w) ->
  exists r', register_device d w = Ok (tt, ds_set_registry r' w) /\ add_all (l ++ [d]) r0 = Ok r'.
Proof.
  intros Hr0 Ha. destruct (add_all_spec l r0 Hr0) as (r & E & Hr & _).
  assert (r = ds_registry w) as -> by congruence.
  destruct (add_device_spec (ds_registry w) d Hr) as (r' & E' & _).
  exists r'. unfold register_device. rewrite E'. split; [done|]. by rewrite add_all_snoc, Ha.
Qed.

Section contract.
  Context {W : Type} `{Console W} `{!ConsoleLaws W} `{DeviceStore W} `{!DeviceStoreLaws W} `{!Enumerator W}.

(** What logging a message or a tag leaves alone. *)
Definition logs_only (fdt : Z) (ds : list directive) (w w' : W) : Prop :=
  (log_follows ds (con_log w) -> log_follows ds (con_log w')) /\
  ds_registry w' = ds_registry w /\
  (hw_ready fdt w ->
     hw_ready fdt w' /\ hw_found fdt w' = hw_found fdt w /\ hw_count fdt w' = hw_count fdt w).

#[export] Instance logs_only_preorder fdt ds : PreOrder (logs_only fdt ds).
Proof using.
  split; [by intros w; split|]. intros w1 w2 w3 (A1 & B1 & C1) (A2 & B2 & C2).
  split; [auto|]. split; [congruence|]. intros Hr. destruct (C1 Hr) as (Hr2 & E1 & N1).
  destruct (C2 Hr2) as (Hr3 & E2 & N2). split; [done|split; congruence].
Qed.

Lemma logs_only_write fdt ds s w : logs_only fdt ds w (con_write s w).
Proof using ConsoleLaws0 DeviceStoreLaws0.
  split; [by rewrite con_log_write|]. split; [apply ds_registry_write|apply hw_write].
Qed.

Lemma logs_only_prints fdt ds w w' : prints w w' -> logs_only fdt ds w w'.
Proof using ConsoleLaws0 DeviceStoreLaws0.
  induction 1 as [w|w w1 w2 [s ->] _ IH]; [done|]. etransitivity; [apply logs_only_write|done].
Qed.

Lemma klog_register_ok fdt ds name level w :
  exists p w', klog_register name level w = Ok (p, w') /\ logs_only fdt ds w w'.
Proof using DeviceStoreLaws0.
  unfold klog_register. destruct (log_register (con_log w) (str name) level) as [p st] eqn:E.
  exists p, (con_set_log st w). split; [done|]. split.
  - intros Hf. rewrite con_log_set_log. pose proof (log_register_follows ds _ (str name) level Hf).
    by rewrite E in *.
  - split; [apply ds_registry_log|apply hw_set_log].
Qed.

Lemma devices_tag_ok fdt ds p w :
  exists p' w', devices_tag p w = Ok (p', w') /\ logs_only fdt ds w w'.
Proof using DeviceStoreLaws0.
  unfold devices_tag. destruct p as [t|]; [by exists (Some t), w|]. apply klog_register_ok.
Qed.

Lemma klog_msg_only fdt ds p level msg w : 0 <= level ->
  exists w', klog_msg p level msg w = Ok (tt, w') /\ logs_only fdt ds w w'.
Proof using ConsoleLaws0 DeviceStoreLaws0.
  intros Hl. destruct (prints_msg w w p level msg) as (w' & E & Hp); [done..|].
  exists w'. split; [done|by apply logs_only_prints].
Qed.

Lemma report_count_only fdt ds p n w :
  exists w', report_count p n w = Ok (tt, w') /\ logs_only fdt ds w w'.
Proof using ConsoleLaws0 DeviceStoreLaws0.
  unfold report_count. erewrite St_bind_ok by reflexivity.
  destruct (log_enabled _ _); [|by exists w]. unfold when.
  destruct (prints_prefix w w p LOG_INFO) as (w1 & E1 & Hp1); [done..|].
  rewrite (St_bind_ok _ _ _ _ _ E1). eexists. split; [reflexivity|].
  etransitivity; [by apply logs_only_prints|apply logs_only_write].
Qed.

(** devices_scan registers what the hardware reports and builds the tree. *)
Lemma devices_scan_ok fdt ds p w : hw_ready fdt w -> log_follows ds (con_log w) ->
  device_get_fdt (ds_registry w) = fdt -> registry_wf (ds_registry w) ->
  registered (ds_registry w) = [] ->
  exists p' w' r, devices_scan devices_enumerate p w = Ok (hw_count fdt w, p', w') /\
    scanned (hw_found fdt w) (ds_registry w) r /\
    build_tree_hierarchy r = Ok (ds_registry w') /\
    log_follows ds (con_log w') /\ hw_ready fdt w'.
Proof using ConsoleLaws0 DeviceStoreLaws0.
  intros Hr Hl Hfdt Hwf Hempty. unfold devices_scan.
  destruct (devices_tag_ok fdt ds p w) as (p' & w1 & E1 & L1). rewrite (St_bind_ok _ _ _ _ _ E1).
  destruct (klog_msg_only fdt ds p' LOG_INFO "Scanning device tree...
" w1) as (w2 & E2 & L2); [done|]. rewrite (St_bind_ok _ _ _ _ _ E2).
  destruct (transitivity L1 L2) as (Lf & Lr & Lh). destruct (Lh Hr) as (Hr2 & Hf2 & Hn2).
  erewrite St_bind_ok by reflexivity. rewrite Lr, Hfdt.
  destruct (enumerate_ok fdt ds w2 Hr2) as (w3 & r & E3 & Ha & Hs & Hl3 & Hr3); [by rewrite Lr|auto|].
  rewrite (St_bind_ok _ _ _ _ _ E3). rewrite Hf2, Hn2, Lr in *.
  destruct (report_count_only fdt ds p' (hw_count fdt w) w3) as (w4 & E4 & Lf4 & Lr4 & Lh4).
  rewrite (St_bind_ok _ _ _ _ _ E4). erewrite St_bind_ok by reflexivity. rewrite Lr4, Hs.
  destruct (add_all_boot (hw_found fdt w) (ds_registry w) Hwf Hempty) as (r1 & Ha' & Hsc).
  assert (r1 = r) as -> by congruence.
  pose proof (build_tree_spec r (scanned_wf _ _ _ Hsc) (scanned_fresh _ _ _ Hsc)) as Er.
  cbv zeta in Er. erewrite St_bind_ok by (apply lift_ok; exact Er).
  erewrite St_bind_ok by reflexivity. eexists p', _, r. split; [reflexivity|].
  rewrite ds_get_set, ds_log_set. split; [done|]. split; [exact Er|].
  split; [auto|]. by apply hw_set_registry, Lh4.
Qed.

(** Printing the tree touches nothing but the output. *)
Lemma device_tree_print_ok mem strmax driver_name line found r0 r fdt ds p w :
  scanned found r0 r -> device_tree_root r0 = None -> build_tree_hierarchy r = Ok (ds_registry w) ->
  Forall (printable_device mem strmax driver_name line) (device_storage r) ->
  exists p' w', device_tree_print mem strmax driver_name p w = Ok (p', w') /\
    logs_only fdt ds w w'.
Proof using ConsoleLaws0 DeviceStoreLaws0.
  intros Hsc Hroot Hb Hp. unfold device_tree_print.
  destruct (devices_tag_ok fdt ds p w) as (p' & w1 & E1 & L1). rewrite (St_bind_ok _ _ _ _ _ E1).
  erewrite St_bind_ok by reflexivity. destruct (negb _); [by exists p', w1|].
  destruct (klog_msg_only fdt ds p' LOG_INFO "Device tree:
" w1) as (w2 & E2 & L2); [done|]. rewrite (St_bind_ok _ _ _ _ _ E2).
  pose proof (transitivity L1 L2) as L. erewrite St_bind_ok by reflexivity.
  destruct L as (Lf & Lr & Lh). rewrite Lr.
  destruct (device_tree_lines_ok mem strmax driver_name line r) as (r' & Er & Et);
    [apply Hsc..|done|by rewrite (scanned_root _ _ _ Hsc)|].
  assert (r' = ds_registry w) as -> by congruence.
  erewrite St_bind_ok by (apply kput_ok; exact Et). eexists p', _. split; [reflexivity|].
  transitivity w2; [|apply logs_only_write]. by split.
Qed.
End contract.

(* ------------------------------------------------------------------ *)
(** ** Properties *)

(** After a scan device_tree_print writes, when the tag's level admits it, a heading and
    the whole tree once: every device that is no child of the root on a line of its own,
    in order of discovery, the root's followed by those of its children, indented;
    otherwise nothing. *)
Theorem device_tree_print_correct {W} `{Console W} `{!ConsoleLaws W} `{DeviceStore W}
    mem strmax driver_name line found r0 r t tag w :
  scanned found r0 r -> device_tree_root r0 = None -> build_tree_hierarchy r = Ok (ds_registry w) ->
  (forall s, ds_registry (con_write s w) = ds_registry w) ->
  Forall (printable_device mem strmax driver_name line) (device_storage r) ->
  klog_tag (Some t) w = Some tag ->
  device_tree_print mem strmax driver_name (Some t) w =
  Ok (Some t, if LOG_INFO <=? tag_level tag
              then con_write (str "[INFO][" ++ tag_name tag ++ str "] Device tree:" ++ nl
                              ++ tree_text line (device_storage r)) w
              else w).
Proof.
  intros Hsc Hroot Hb Hstore Hp Ht. unfold device_tree_print. erewrite St_bind_ok by reflexivity.
  erewrite St_bind_ok by reflexivity. rewrite Ht. unfold log_enabled.
  destruct (LOG_INFO <=? tag_level tag) eqn:El; [|done]. cbn [negb].
  rewrite (St_bind_ok _ _ w tt (con_write (str "[INFO][" ++ tag_name tag ++ str "] Device tree:" ++ nl) w)).
  2:{ unfold klog_msg. rewrite Ht. apply kput_ok. unfold log_msg, log_enabled. rewrite El.
      unfold log_prefix, seq_out. change (LOG_DEBUG <? LOG_INFO) with false.
      change (rd level_names LOG_INFO) with (Ok (str "INFO")). cbn [mbind res_bind puts negb mret res_ret].
      f_equal. rewrite <- !app_assoc. reflexivity. }
  erewrite St_bind_ok by reflexivity. rewrite Hstore.
  destruct (device_tree_lines_ok mem strmax driver_name line r) as (r' & Er & Et);
    [apply Hsc..|done|by rewrite (scanned_root _ _ _ Hsc)|].
  assert (r' = ds_registry w) as -> by congruence.
  erewrite St_bind_ok by (apply kput_ok; exact Et). rewrite con_write_app. by rewrite <- !app_assoc.
Qed.
