(* ===== verification/Netdev.v ===== *)
(** The network device layer (apps/netdev-mac/netdev.c): one interface over the
    three drivers, the static pools of driver contexts, and the acquisition of
    every available device. *)

From S2P Require Export Console Resources.

Open Scope Z_scope.

Definition MAX_NETDEV_CONTEXTS_PER_DRIVER : nat := 4.

(** The drivers, standing for the pointers their get_driver functions return,
    which are never NULL and pairwise different. *)
Inductive net_driver := RTL8139 | VIRTIO_NET | E1000.

#[export] Instance net_driver_eq_dec : EqDecision net_driver.
Proof. solve_decision. Defined.

(** The static context arrays: those of netdev_acquire_all and those of the
    mac applications. *)
Inductive ctx_owner := NETDEV_POOL | MAC_APP.

#[export] Instance ctx_owner_eq_dec : EqDecision ctx_owner.
Proof. solve_decision. Defined.

(** A pointer to a driver context: its array and its index there. *)
Record net_ctx := NetCtx { ctx_driver : net_driver; ctx_array : ctx_owner; ctx_index : nat }.

#[export] Instance net_ctx_eq_dec : EqDecision net_ctx.
Proof. solve_decision. Defined.

(** [device_entry_t]; [None] is NULL. *)
Record device_entry := DeviceEntry {
  entry_resource : option nat;
  entry_driver : option net_driver;
  entry_context : option net_ctx
}.
Definition device_entry_zero : device_entry := DeviceEntry None None None.

#[export] Instance device_entry_eq_dec : EqDecision device_entry.
Proof. solve_decision. Defined.

(** What the drivers and the resource manager offer the layer.  A packet or
    buffer is an object and an offset into it; receive returns the buffer and
    the received length, which it leaves alone on the paths that do not set it. *)
Class NetDriver (W : Type) := {
  drv_get_mac : net_driver -> option net_ctx -> bytes -> St W (Z * bytes);
  drv_transmit : net_driver -> option net_ctx -> bytes -> Z -> Z -> St W Z;
  drv_receive : net_driver -> option net_ctx -> bytes -> Z -> Z -> Z -> St W (Z * bytes * Z);
  net_acquire : net_driver -> net_ctx -> St W (option nat);
  net_print_tag : W -> option nat -> out
}.

(** The longest Ethernet frame: header and 1500 bytes. *)
Definition ETH_FRAME_MAX : Z := 1514.

(** What a driver promises of a context that is ready: transmit, of a frame, and
    receive return, keep the context ready, and leave the logger's tags alone; receive
    stays inside the object it is given. *)
Class NetDriverLaws (W : Type) `{Console W} `{NetDriver W} := {
  net_ready : net_driver -> option net_ctx -> W -> Prop;
  net_ready_write : forall k c s w, net_ready k c w -> net_ready k c (con_write s w);
  transmit_log : forall k c b o n w r w',
    drv_transmit k c b o n w = Ok (r, w') -> con_log w' = con_log w;
  transmit_ok : forall k c b o n w,
    net_ready k c w -> 0 <= o -> 0 < n <= ETH_FRAME_MAX -> o + n <= len b -> is_bytes b ->
    exists r w', drv_transmit k c b o n w = Ok (r, w') /\ net_ready k c w';
  receive_ok : forall k c b o n l w,
    net_ready k c w -> 0 <= o -> 0 <= n -> o + n <= len b -> is_bytes b ->
    exists r b' l' w', drv_receive k c b o n l w = Ok (r, b', l', w') /\
      net_ready k c w' /\ con_log w' = con_log w /\ len b' = len b /\ is_bytes b'
}.

(** The static index variables of netdev_acquire_all. *)
Record net_statics := NetStatics {
  rtl8139_index : nat; virtio_net_index : nat; e1000_index : nat }.
Definition net_statics_zero : net_statics := NetStatics 0 0 0.

Definition index_of (s : net_statics) (k : net_driver) : nat :=
  match k with
  | RTL8139 => rtl8139_index s | VIRTIO_NET => virtio_net_index s | E1000 => e1000_index s
  end.
Definition bump (s : net_statics) (k : net_driver) : net_statics :=
  match k with
  | RTL8139 => NetStatics (S (rtl8139_index s)) (virtio_net_index s) (e1000_index s)
  | VIRTIO_NET => NetStatics (rtl8139_index s) (S (virtio_net_index s)) (e1000_index s)
  | E1000 => NetStatics (rtl8139_index s) (virtio_net_index s) (S (e1000_index s))
  end.

Section netdev.
  Context {W : Type} `{NetDriver W}.

(** One [if (driver != NULL) { ... }] block; [true] is the [continue]. *)
Definition try_driver (k : net_driver) (devices : list device_entry) (device_count : nat)
    (s : net_statics) : St W (bool * list device_entry * net_statics) :=
  if (index_of s k <? MAX_NETDEV_CONTEXTS_PER_DRIVER)%nat then
    let ctx := NetCtx k NETDEV_POOL (index_of s k) in
    resource ← net_acquire k ctx;
    match resource with
    | None => mret (false, devices, s)
    | Some r =>
        if (device_count <? length devices)%nat
        then mret (true, <[device_count := DeviceEntry (Some r) (Some k) (Some ctx)]> devices,
                   bump s k)
        else lift UB
    end
  else mret (false, devices, s).

(** The loop of netdev_acquire_all; every [continue] has counted a device. *)
Fixpoint acquire_all_loop (fuel : nat) (devices : list device_entry) (device_count : nat)
    (max_devices : Z) (s : net_statics)
    : St W (Z * list device_entry * net_statics) :=
  match fuel with
  | O => lift NoFuel
  | S fuel =>
      if Z.of_nat device_count <? max_devices then
        '(done, devices, s) ← try_driver RTL8139 devices device_count s;
        if (done : bool) then acquire_all_loop fuel devices (S device_count) max_devices s else
        '(done, devices, s) ← try_driver VIRTIO_NET devices device_count s;
        if (done : bool) then acquire_all_loop fuel devices (S device_count) max_devices s else
        '(done, devices, s) ← try_driver E1000 devices device_count s;
        if (done : bool) then acquire_all_loop fuel devices (S device_count) max_devices s else
        mret (Z.of_nat device_count, devices, s)
      else mret (Z.of_nat device_count, devices, s)
  end.

Definition netdev_acquire_all (devices : list device_entry) (max_devices : Z) (s : net_statics)
    : St W (Z * list device_entry * net_statics) :=
  acquire_all_loop (S (Z.to_nat max_devices)) devices 0 max_devices s.

Definition netdev_get_mac (device : option device_entry) (mac : option bytes)
    : St W (Z * option bytes) :=
  match device, mac with
  | Some d, Some m =>
      match entry_driver d with
      | Some k => '(r, m) ← drv_get_mac k (entry_context d) m; mret (r, Some m)
      | None => mret (-1, mac)
      end
  | _, _ => mret (-1, mac)
  end.

(** [packet]: an object and an offset, or NULL. *)
Definition netdev_transmit (device : option device_entry) (packet : option (bytes * Z))
    (length : Z) : St W Z :=
  match device, packet with
  | Some d, Some (b, o) =>
      if length =? 0 then mret (-1) else
      match entry_driver d with
      | Some k => drv_transmit k (entry_context d) b o length
      | None => mret (-1)
      end
  | _, _ => mret (-1)
  end.

(** [received_length]: the value the pointed-to variable holds, or NULL. *)
Definition netdev_receive (device : option device_entry) (buffer : option (bytes * Z))
    (buffer_size : Z) (received_length : option Z)
    : St W (Z * option (bytes * Z) * option Z) :=
  match device, buffer, received_length with
  | Some d, Some (b, o), Some l =>
      match entry_driver d with
      | Some k =>
          '(r, b, l) ← drv_receive k (entry_context d) b o buffer_size l;
          mret (r, Some (b, o), Some l)
      | None => mret (-1, buffer, received_length)
      end
  | _, _, _ => mret (-1, buffer, received_length)
  end.
End netdev.

(* ------------------------------------------------------------------ *)
(** ** Acquisition *)

Section acquisition.
  Context {W : Type} `{NetDriver W}.
  Implicit Types (s : net_statics) (ds : list device_entry) (k : net_driver).

(** Entry [i] was granted from the pool of its driver, beyond where [s0] stood. *)
Definition granted_entry (s0 s : net_statics) (e : device_entry) : Prop :=
  exists r k j, e = DeviceEntry (Some r) (Some k) (Some (NetCtx k NETDEV_POOL j)) /\
    (index_of s0 k <= j < index_of s k)%nat.

(** The first [n] entries are grants, no two of them with the same context. *)
Record grants (s0 s : net_statics) (ds : list device_entry) (n : nat) : Prop := Grants {
  gr_entry : forall i, (i < n)%nat -> exists e, ds !! i = Some e /\ granted_entry s0 s e;
  gr_context : forall i j e e', (i < n)%nat -> (j < n)%nat ->
    ds !! i = Some e -> ds !! j = Some e' -> entry_context e = entry_context e' -> i = j;
  gr_pools : forall k, (index_of s0 k <= index_of s k <= MAX_NETDEV_CONTEXTS_PER_DRIVER)%nat
}.

Lemma index_bump s k k' :
  index_of (bump s k) k' = if decide (k' = k) then S (index_of s k') else index_of s k'.
Proof. by destruct k, k'. Qed.

Lemma granted_entry_bump s0 s k e : granted_entry s0 s e -> granted_entry s0 (bump s k) e.
Proof.
  intros (r & k' & j & -> & Hj). exists r, k', j. split; [done|].
  rewrite index_bump. case_decide; lia.
Qed.

(** A granted device extends the grants. *)
Lemma grants_step s0 s ds n k r :
  grants s0 s ds n -> (n < length ds)%nat ->
  (index_of s k < MAX_NETDEV_CONTEXTS_PER_DRIVER)%nat ->
  grants s0 (bump s k)
    (<[n := DeviceEntry (Some r) (Some k) (Some (NetCtx k NETDEV_POOL (index_of s k)))]> ds)
    (S n).
Proof.
  intros [He Hc Hp] Hn Hk.
  set (new := DeviceEntry (Some r) (Some k) (Some (NetCtx k NETDEV_POOL (index_of s k)))).
  assert (Hfresh : forall i e, (i < n)%nat -> ds !! i = Some e ->
                     entry_context e <> entry_context new).
  { intros i e Hi Hl. destruct (He i Hi) as (e' & Hl' & r' & k' & j & -> & Hj).
    rewrite Hl in Hl'. injection Hl' as ->. intros [= -> ->]. lia. }
  assert (Hctx : forall i j e e', (i < S n)%nat -> (j < S n)%nat ->
    <[n:=new]> ds !! i = Some e -> <[n:=new]> ds !! j = Some e' ->
    entry_context e = entry_context e' -> i = j).
  { intros i j e e' Hi Hj Hli Hlj Heq.
    destruct (decide (i = n)) as [->|], (decide (j = n)) as [->|]; [done| | |].
    - rewrite list_lookup_insert_eq in Hli by done. injection Hli as <-.
      rewrite list_lookup_insert_ne in Hlj by done.
      destruct (Hfresh j e'); [lia|done|done].
    - rewrite list_lookup_insert_eq in Hlj by done. injection Hlj as <-.
      rewrite list_lookup_insert_ne in Hli by done.
      destruct (Hfresh i e); [lia|done|done].
    - rewrite list_lookup_insert_ne in Hli, Hlj by done.
      apply (Hc i j e e'); (done || lia). }
  split.
  - intros i Hi. destruct (decide (i = n)) as [->|].
    + rewrite list_lookup_insert_eq by done. eexists. split; [done|].
      exists r, k, (index_of s k). split; [done|]. rewrite index_bump, decide_True by done.
      specialize (Hp k). lia.
    + rewrite list_lookup_insert_ne by done. destruct (He i) as (e & Hl & Hg); [lia|].
      exists e. split; [done|]. by apply granted_entry_bump.
  - done.
  - intros k'. rewrite index_bump. specialize (Hp k'). case_decide; subst; lia.
Qed.

(** What acquiring relies on: an invariant of the entries granted so far, the last one
    first, and of the world, which every acquisition with a context of the driver's
    pool keeps. *)
Record acquires (I : list device_entry -> W -> Prop) : Prop := Acquires {
  acq_ok : forall k j l w, I l w -> (j < MAX_NETDEV_CONTEXTS_PER_DRIVER)%nat ->
    exists o w', net_acquire k (NetCtx k NETDEV_POOL j) w = Ok (o, w') /\
      I (match o with
         | Some r => DeviceEntry (Some r) (Some k) (Some (NetCtx k NETDEV_POOL j)) :: l
         | None => l
         end) w'
}.

(** No further device: every pool is exhausted or its driver refused. *)
Definition refused (I : list device_entry -> W -> Prop) (s : net_statics) : Prop :=
  forall k, index_of s k = MAX_NETDEV_CONTEXTS_PER_DRIVER \/
    exists l w w', I l w /\ net_acquire k (NetCtx k NETDEV_POOL (index_of s k)) w = Ok (None, w').

Lemma take_insert_next {A} (l : list A) n x : (n < length l)%nat ->
  reverse (take (S n) (<[n := x]> l)) = x :: reverse (take n l).
Proof using.
  intros Hn. rewrite (take_S_r _ n x) by by apply list_lookup_insert_eq.
  by rewrite take_insert_ge, reverse_snoc by lia.
Qed.

(** What holds after [n] grants, on top of the entries [l0] of earlier calls. *)
Record acquiring I s0 l0 s ds n (w : W) : Prop := Acquiring {
  aq_inv : I (reverse (take n ds) ++ l0) w;
  aq_grants : grants s0 s ds n
}.

Lemma try_driver_spec I k ds n s s0 l0 (w : W) :
  acquires I -> acquiring I s0 l0 s ds n w -> (n < length ds)%nat ->
  exists done ds' s' w', try_driver k ds n s w = Ok (done, ds', s', w') /\
    length ds' = length ds /\ (forall i, (n < i)%nat -> ds' !! i = ds !! i) /\
    if (done : bool) then acquiring I s0 l0 s' ds' (S n) w'
    else ds' = ds /\ s' = s /\ acquiring I s0 l0 s ds n w' /\
      (index_of s k = MAX_NETDEV_CONTEXTS_PER_DRIVER \/
       exists l w1 w2, I l w1 /\ net_acquire k (NetCtx k NETDEV_POOL (index_of s k)) w1 = Ok (None, w2)).
Proof using.
  intros Hacq [Hw Hg] Hn. unfold try_driver.
  destruct (Nat.ltb_spec (index_of s k) MAX_NETDEV_CONTEXTS_PER_DRIVER) as [Hi|Hi].
  - destruct (acq_ok I Hacq k (index_of s k) _ w Hw Hi) as (o & w' & E & Hw').
    unfold mbind at 1, St_bind. rewrite E. destruct o as [r|].
    + destruct (Nat.ltb_spec n (length ds)); [|lia]. do 4 eexists. split; [done|].
      split; [by rewrite length_insert|].
      split; [intros i Hi'; rewrite list_lookup_insert_ne by lia; done|].
      split; [by rewrite take_insert_next|by apply grants_step].
    + do 4 eexists. split; [done|]. do 2 (split; [done|]). do 2 (split; [done|]).
      split; [by split|]. by eauto 7.
  - do 4 eexists. split; [done|]. do 4 (split; [done|]). split; [done|].
    left. pose proof (gr_pools _ _ _ _ Hg k). lia.
Qed.

Lemma acquire_all_loop_spec I fuel : acquires I -> forall n ds s s0 l0 max (w : W),
  acquiring I s0 l0 s ds n w -> (n <= max)%nat -> (max <= length ds)%nat ->
  (max < n + fuel)%nat ->
  exists m ds' s' w',
    acquire_all_loop fuel ds n (Z.of_nat max) s w = Ok (Z.of_nat m, ds', s', w') /\
    (n <= m <= max)%nat /\ length ds' = length ds /\
    (forall i, (m <= i)%nat -> ds' !! i = ds !! i) /\
    acquiring I s0 l0 s' ds' m w' /\ (m < max -> refused I s')%nat.
Proof using.
  intros Hacq. induction fuel as [|fuel IH]; intros n ds s s0 l0 max w Hg Hnm Hl Hf; [lia|].
  cbn [acquire_all_loop]. destruct (Z.ltb_spec (Z.of_nat n) (Z.of_nat max)).
  2:{ exists n, ds, s, w. split; [done|]. split_and!; [lia..|done|done|done|lia]. }
  assert (Hrec : forall ds' s' (w' : W), length ds' = length ds ->
    (forall i, (n < i)%nat -> ds' !! i = ds !! i) -> acquiring I s0 l0 s' ds' (S n) w' ->
    exists m ds'' s'' w'', acquire_all_loop fuel ds' (S n) (Z.of_nat max) s' w'
      = Ok (Z.of_nat m, ds'', s'', w'') /\ (n <= m <= max)%nat /\ length ds'' = length ds /\
      (forall i, (m <= i)%nat -> ds'' !! i = ds !! i) /\
      acquiring I s0 l0 s'' ds'' m w'' /\ (m < max -> refused I s'')%nat).
  { intros ds' s' w' Hl' Hsame Hg'.
    destruct (IH (S n) ds' s' s0 l0 max w' Hg') as (m & ds'' & s'' & w'' & -> & ? & Hl'' & Hs & ?);
      [lia|lia|lia|].
    exists m, ds'', s'', w''. split; [done|]. split; [lia|]. split; [lia|]. split; [|done].
    intros i Hi. rewrite Hs by lia. apply Hsame. lia. }
  destruct (try_driver_spec I RTL8139 ds n s s0 l0 w Hacq Hg)
    as (d1 & ds1 & s1 & w1 & E1 & Hl1 & Hs1 & H1); [lia|].
  unfold mbind at 1, St_bind at 1. rewrite E1. destruct d1; [by apply Hrec|].
  destruct H1 as (-> & -> & Hg1 & Hr1).
  destruct (try_driver_spec I VIRTIO_NET ds n s s0 l0 w1 Hacq Hg1)
    as (d2 & ds2 & s2 & w2 & E2 & Hl2 & Hs2 & H2); [lia|].
  unfold mbind at 1, St_bind at 1. rewrite E2. destruct d2; [by apply Hrec|].
  destruct H2 as (-> & -> & Hg2 & Hr2).
  destruct (try_driver_spec I E1000 ds n s s0 l0 w2 Hacq Hg2)
    as (d3 & ds3 & s3 & w3 & E3 & Hl3 & Hs3 & H3); [lia|].
  unfold mbind at 1, St_bind at 1. rewrite E3. destruct d3; [by apply Hrec|].
  destruct H3 as (-> & -> & Hg3 & Hr3).
  exists n, ds, s, w3. split; [done|]. split_and!; [lia..|done|done|done|].
  intros _ []; [exact Hr1|exact Hr2|exact Hr3].
Qed.

(** The whole operation. *)
Lemma acquire_all_spec I l0 ds max s (w : W) :
  acquires I -> I l0 w -> (max <= length ds)%nat ->
  (forall k, index_of s k <= MAX_NETDEV_CONTEXTS_PER_DRIVER)%nat ->
  exists n ds' s' w',
    netdev_acquire_all ds (Z.of_nat max) s w = Ok (Z.of_nat n, ds', s', w') /\
    (n <= max)%nat /\ length ds' = length ds /\
    (forall i, (n <= i)%nat -> ds' !! i = ds !! i) /\
    acquiring I s l0 s' ds' n w' /\ (n < max -> refused I s')%nat.
Proof using.
  intros Hacq Hw Hl Hp. unfold netdev_acquire_all.
  destruct (acquire_all_loop_spec I (S (Z.to_nat (Z.of_nat max))) Hacq 0 ds s s l0 max w)
    as (n & ds' & s' & w' & E & ? & ?); [|lia|lia|lia|].
  - split; [done|]. split; [intros; lia..|]. intros k. specialize (Hp k). lia.
  - exists n, ds', s', w'. split; [done|]. split; [lia|done].
Qed.

(* ------------------------------------------------------------------ *)
(** ** Properties *)

(** C21: netdev_acquire_all terminates and fills the first entries of the array,
    as many as it returns, with devices of the three drivers, each with a context of
    its own driver's pool that no other entry has and that was never handed out
    before; they are exactly the acquired devices, in order.  It stays inside the
    pools of four contexts and inside the array, leaves the other entries alone, and
    returns fewer than asked for only when every driver has an exhausted pool or
    refused. *)
Theorem netdev_acquire_all_correct I l0 ds max s (w : W) :
  acquires I -> I l0 w -> (max <= length ds)%nat ->
  (forall k, index_of s k <= MAX_NETDEV_CONTEXTS_PER_DRIVER)%nat ->
  exists n ds' s' w',
    netdev_acquire_all ds (Z.of_nat max) s w = Ok (Z.of_nat n, ds', s', w') /\
    (n <= max)%nat /\ length ds' = length ds /\
    (forall i, (n <= i)%nat -> ds' !! i = ds !! i) /\
    grants s s' ds' n /\ I (reverse (take n ds') ++ l0) w' /\
    (n < max -> refused I s')%nat.
Proof using.
  intros Hacq Hw Hl Hp.
  destruct (acquire_all_spec I l0 ds max s w Hacq Hw Hl Hp)
    as (n & ds' & s' & w' & E & ? & ? & ? & [] & ?).
  exists n, ds', s', w'. by split_and!.
Qed.
End acquisition.

(** A world of three e1000 devices and one RTL8139: the counters of devices left. *)
Module sample_net.
Definition world : Type := nat * nat.
Definition driver_ops : NetDriver world := {|
  drv_get_mac _ _ m := mret (0, m);
  drv_transmit _ _ _ _ _ := mret 0;
  drv_receive _ _ b _ _ l := mret (-1, b, l);
  net_acquire k _ w :=
    match k, w with
    | RTL8139, (S r, e) => Ok (Some (r + e)%nat, (r, e))
    | E1000, (r, S e) => Ok (Some (r + e)%nat, (r, e))
    | _, _ => Ok (None, w)
    end;
  net_print_tag _ _ := Ok [] |}.
(** Of four handles the upper ones are in use. *)
Definition granted (l : list device_entry) (w : world) : Prop :=
    (w.1 + w.2 <= 4)%nat /\ omap entry_resource l = seq (w.1 + w.2) (4 - (w.1 + w.2)).
Lemma sample_acquires : acquires (H := driver_ops) granted.
Proof.
  split. intros k j l [r e] [Hw Hl] _. unfold granted in *. cbn [fst snd] in *.
  destruct k, r as [|r], e as [|e]; cbn [net_acquire driver_ops]; eexists _, _;
    (split; [reflexivity|]); cbn [fst snd omap list_omap entry_resource] in *;
    (split; [lia|]); try exact Hl;
    rewrite Hl; match goal with |- _ = seq ?n _ => replace (4 - n)%nat with (S (4 - S n)) by lia end;
    cbn [seq]; do 2 f_equal; lia.
Qed.
End sample_net.
#[local] Existing Instance sample_net.driver_ops.

Theorem netdev_acquire_all_correct_witness :
  exists n ds' s' w',
    netdev_acquire_all (replicate 12 device_entry_zero) (Z.of_nat 12) net_statics_zero
      ((1, 3)%nat : sample_net.world) = Ok (Z.of_nat n, ds', s', w') /\
    (n <= 12)%nat /\ length ds' = 12%nat /\
    (forall i, (n <= i)%nat -> ds' !! i = replicate 12 device_entry_zero !! i) /\
    grants net_statics_zero s' ds' n /\ sample_net.granted (reverse (take n ds') ++ []) w' /\
    (n < 12 -> refused sample_net.granted s')%nat.
Proof.
  apply (netdev_acquire_all_correct sample_net.granted [] (replicate 12 device_entry_zero) 12
    net_statics_zero ((1, 3)%nat : sample_net.world) sample_net.sample_acquires).
  - split; [cbn; lia|reflexivity].
  - cbn. lia.
  - intros []; cbn; unfold MAX_NETDEV_CONTEXTS_PER_DRIVER; lia.
Defined.
