(* ===== verification/NetStack.v ===== *)
(** The network device layer over the resource manager: the instance of the layer's
    interface in which acquiring a device is resource_acquire_available on the driver's
    record, as the net acquisition of apps/netdev-mac/netdev.c calls it. *)

From S2P Require Export Netdev.

Open Scope Z_scope.

Section stack.
  Context {V : Type} (mem : memory) (reg : V -> registry).
  (** The records the drivers' get_driver functions return, and what the layer calls
      of the drivers themselves. *)
  Context (net_drv : net_driver -> driver (W := V) (C := net_ctx)) `{NetDriver V}.

(** The rest of the kernel and the static variable of the resource manager. *)
Record stack := Stack { st_world : V; st_manager : manager (W := V) (C := net_ctx) }.

(** A computation of the rest of the kernel. *)
Definition below {A} (f : St V A) : St stack A := fun s =>
  '(a, v) ← f (st_world s); Ok (a, Stack v (st_manager s)).

#[export] Instance stack_net : NetDriver stack := {
  drv_get_mac k c mac := below (drv_get_mac k c mac);
  drv_transmit k c b o n := below (drv_transmit k c b o n);
  drv_receive k c b o n l := below (drv_receive k c b o n l);
  net_acquire k ctx s :=
    '(h, m, v) ← resource_acquire_available mem reg (Some (net_drv k)) (Some ctx)
                   (st_manager s) (st_world s);
    Ok (h, Stack v m);
  net_print_tag s h := resource_print_tag reg (st_manager s) (st_world s) h
}.

#[export] Instance stack_console `{Console V} : Console stack := {
  con_write t s := Stack (con_write t (st_world s)) (st_manager s);
  con_log s := con_log (st_world s);
  con_set_log l s := Stack (con_set_log l (st_world s)) (st_manager s)
}.

#[export] Instance stack_console_laws `{ConsoleLaws V} : ConsoleLaws stack.
Proof.
  split; unfold con_write, con_log; cbn.
  - intros s w. apply con_log_write.
  - intros [v m]. cbn. by rewrite con_write_nil.
  - intros s t [v m]. cbn. by rewrite con_write_app.
Qed.

Lemma below_ok {A} (f : St V A) a v m w :
  f v = Ok (a, w) -> below f (Stack v m) = Ok (a, Stack w m).
Proof using. intros E. unfold below. cbn [st_world]. by rewrite E. Qed.

Lemma below_inv {A} (f : St V A) s a s' : below f s = Ok (a, s') ->
  f (st_world s) = Ok (a, st_world s') /\ st_manager s' = st_manager s.
Proof using.
  unfold below. destruct (f (st_world s)) as [[x v]| |]; [|done..]. by intros [= -> <-].
Qed.

(** What the drivers promise they promise on the stack. *)
Definition stack_laws `{!Console V} `{!NetDriverLaws V} : NetDriverLaws stack.
Proof.
  refine {| net_ready k c s := net_ready k c (st_world s) |}.
  - intros k c s w. apply net_ready_write.
  - intros k c b o n w r w' [E _]%below_inv. exact (transmit_log _ _ _ _ _ _ _ _ E).
  - intros k c b o n [v m] Hr Ho Hn Hl Hb.
    destruct (transmit_ok k c b o n v Hr Ho Hn Hl Hb) as (r & v' & E & Hr').
    exists r, (Stack v' m). split; [by apply below_ok|done].
  - intros k c b o n l [v m] Hr Ho Hn Hl Hb.
    destruct (receive_ok k c b o n l v Hr Ho Hn Hl Hb) as (r & b' & l' & v' & E & Hr').
    exists r, b', l', (Stack v' m). split; [by apply below_ok|done].
Defined.

(* ------------------------------------------------------------------ *)
(** ** Acquisition *)

(** An entry's handle records its driver, its context and a device. *)
Definition recorded (m : manager) (e : device_entry) : Prop :=
  exists r k ctx device next, e = DeviceEntry (Some r) (Some k) (Some ctx) /\
    pool m !! r = Some (Resource (Some device) (Some (net_drv k)) (Some ctx) next true).

(** The handles of the entries [l] are allocated on top of those, [l0], of other
    drivers, among the [n] devices of the list. *)
Record stacked (J : V -> Prop) (n : nat) (l0 : list nat) (l : list device_entry) (s : stack)
    : Prop := Stacked {
  sk_world : J (st_world s);
  sk_devices : mgr_devices (st_manager s) = (if (0 <? n)%nat then Some O else None);
  sk_manager : manager_wf (st_manager s) (omap entry_resource l ++ l0);
  sk_recorded : Forall (recorded (st_manager s)) l
}.

(** A grant leaves the records of the handles already allocated. *)
Lemma recorded_granted m k dev drv ctx e (l : list device_entry) : recorded m e -> k ∉ omap entry_resource l -> e ∈ l ->
  recorded (granted m k dev drv ctx) e.
Proof using.
  intros (r & k' & c & device & next & -> & Hr) Hk He.
  exists r, k', c, device, next. split; [done|]. cbn.
  rewrite list_lookup_insert_ne; [done|]. intros ->. apply Hk, list_elem_of_omap. by eexists.
Qed.

Lemma stack_acquires J n l0 : (n <= Devices.MAX_DEVICES)%nat ->
  (forall k j, (j < MAX_NETDEV_CONTEXTS_PER_DRIVER)%nat ->
     well_behaved mem reg (net_drv k) (NetCtx k NETDEV_POOL j) n J) ->
  acquires (stacked J n l0).
Proof using.
  intros Hn Hwb. split. intros k j l [v m] [Hv Hd Hm Hrec] Hj. cbn [st_world st_manager] in *.
  specialize (Hwb k j Hj). set (ctx := NetCtx k NETDEV_POOL j) in *.
  cbn [net_acquire stack_net st_manager st_world]. fold ctx.
  pose proof (wf_length _ _ Hm).
  destruct (decide (length (omap entry_resource l ++ l0) = MAX_RESOURCE_ALLOCATIONS)) as [Hf|Hf].
  { rewrite (acquire_available_full mem reg (net_drv k) ctx m v _ n J) by done.
    exists None, (Stack v m). by split. }
  destruct (acquire_available_spec mem reg (net_drv k) ctx m v _ n J Hm) as (o & v' & E & Ho);
    [lia|done..|].
  assert (Forall (fun i => i < n)%nat (seq 0 n)) as Hseq by (apply Forall_seq; lia).
  destruct (acquire_ref_picks _ _ _ _ _ _ _ Hwb _ v o v' Hv Hseq E) as [Hv' _].
  destruct o as [device|]; [|rewrite Ho; exists None, (Stack v' m); by split].
  destruct Ho as (Hnt & h & Hh & Hhp & ->). eexists (Some h), (Stack v' _). split; [done|].
  split; cbn [st_world st_manager omap list_omap entry_resource app]; [done|done|by apply granted_wf|].
  apply Forall_cons. split.
  - exists h, k, ctx, device, (allocations m). split; [done|]. cbn. by rewrite list_lookup_insert_eq.
  - rewrite Forall_forall in Hrec |- *. intros e He. apply (recorded_granted m h _ _ _ _ l); [auto| |done].
    intros Hin. apply Hh, elem_of_app. by left.
Qed.

(** The entries' devices, in order. *)
Definition holds (m : manager (W := V) (C := net_ctx)) (e : device_entry) (d : nat) : Prop :=
  exists r, entry_resource e = Some r /\ resource_get_device m (Some r) = Ok (Some d).

Lemma recorded_devices (m : manager (W := V) (C := net_ctx)) (l : list device_entry) : Forall (recorded m) l ->
  exists devices, Forall2 (holds m) l devices /\
    device_of m <$> omap entry_resource l = Some <$> devices.
Proof using.
  induction 1 as [|e l (r & k & ctx & d & next & -> & Hr) _ (devices & H2 & E)]; [by exists []|].
  exists (d :: devices). split.
  - constructor; [|done]. exists r. split; [done|]. cbn [resource_get_device].
    by rewrite (handle_lookup m r _ Hr).
  - cbn [omap list_omap entry_resource fmap list_fmap]. f_equal; [|exact E].
    unfold device_of. by rewrite Hr.
Qed.

(** C40: What netdev_acquire_all hands out over the resource manager is hardware of its
    own: it terminates; every entry's handle is allocated and records the entry's driver
    and context and a device; no two entries have the same device, none has one that was
    allocated before, and the manager stays well-formed. *)
Theorem netdev_owns_hardware J n l0 ds max s w :
  (n <= Devices.MAX_DEVICES)%nat ->
  (forall k j, (j < MAX_NETDEV_CONTEXTS_PER_DRIVER)%nat ->
     well_behaved mem reg (net_drv k) (NetCtx k NETDEV_POOL j) n J) ->
  stacked J n l0 [] w -> (max <= length ds)%nat ->
  (forall k, index_of s k <= MAX_NETDEV_CONTEXTS_PER_DRIVER)%nat ->
  exists c ds' s' w' devices,
    netdev_acquire_all ds (Z.of_nat max) s w = Ok (Z.of_nat c, ds', s', w') /\
    (c <= max)%nat /\ J (st_world w') /\
    Forall (recorded (st_manager w')) (take c ds') /\
    Forall2 (holds (st_manager w')) (take c ds') devices /\
    NoDup devices /\ (forall d, d ∈ devices -> Some d ∉ (device_of (st_manager w') <$> l0)) /\
    manager_wf (st_manager w') (omap entry_resource (reverse (take c ds')) ++ l0).
Proof using.
  intros Hn Hwb Hw Hl Hp.
  destruct (acquire_all_spec (stacked J n l0) [] ds max s w (stack_acquires J n l0 Hn Hwb) Hw Hl Hp)
    as (c & ds' & s' & w' & E & Hc & _ & _ & [[Hv _ Hm Hr] _] & _).
  rewrite app_nil_r in Hm, Hr. destruct (recorded_devices _ _ Hr) as (devices & H2 & Ed).
  exists c, ds', s', w', (reverse devices).
  pose proof (mw_exclusive _ _ Hm) as Hx. rewrite fmap_app, Ed in Hx.
  apply NoDup_app in Hx as (Hnd & Hdis & _). split_and!; try done.
  - rewrite Forall_forall in Hr |- *. intros e He. apply Hr. by apply elem_of_reverse.
  - apply Forall2_reverse in H2. by rewrite reverse_involutive in H2.
  - rewrite reverse_Permutation. by apply NoDup_fmap_1 in Hnd.
  - intros d Hd. rewrite elem_of_reverse in Hd. apply Hdis, list_elem_of_fmap. by exists d.
Qed.
End stack.

(* ------------------------------------------------------------------ *)
(** ** A sample: two virtio network devices behind another device *)

Module sample_stack.
Definition net_drv (k : net_driver) : @driver registry net_ctx :=
  let id := match k with RTL8139 => 0x8139 | VIRTIO_NET => 0x1000 | E1000 => 0x100E end in
  Driver (str "net") (str "0.1.0") DRIVER_TYPE_NETWORK
    (Some [DeviceId None 0x1AF4 id None; DeviceId None 0 0 None])
    (Some (fun _ _ w => Ok (0, w))) (Some (fun _ w => Ok w)).
Definition start : @stack registry :=
  Stack sample.devices (resources_set_devices manager_empty (Some O)).

Lemma drivers_ok k j : (j < MAX_NETDEV_CONTEXTS_PER_DRIVER)%nat ->
  well_behaved sample.mem (fun w => w) (net_drv k) (NetCtx k NETDEV_POOL j) 3
    (fun w => w = sample.devices).
Proof.
  intros _. split.
  - intros w -> i Hi. do 3 (destruct i as [|i]; [eexists; split; [reflexivity|reflexivity]|]). lia.
  - intros w i d _ _ _. unfold device_matches_driver, net_drv. cbn [id_table match_table].
    destruct k; cbn; repeat case_match; eauto.
  - intros init i d w [= <-] -> _ _ _. by exists 0, sample.devices.
Qed.

Lemma start_stacked : stacked net_drv (fun w => w = sample.devices) 3 [] [] start.
Proof.
  split; [done..|exact (fresh_wf (Some O))|constructor].
Qed.
End sample_stack.

Lemma netdev_owns_hardware_witness :
  let _ : NetDriver registry := Build_NetDriver registry (fun _ _ m => mret (0, m))
    (fun _ _ _ _ _ => mret 0) (fun _ _ b _ _ l => mret (-1, b, l)) (fun _ _ => mret None)
    (fun _ _ => Ok []) in
  exists c ds' s' w' devices,
    netdev_acquire_all (H := stack_net sample.mem (fun w => w) sample_stack.net_drv)
      (replicate 12 device_entry_zero) (Z.of_nat 12) net_statics_zero sample_stack.start
      = Ok (Z.of_nat c, ds', s', w') /\
    (c <= 12)%nat /\ st_world w' = sample.devices /\
    Forall (recorded sample_stack.net_drv (st_manager w')) (take c ds') /\
    Forall2 (holds (st_manager w')) (take c ds') devices /\
    NoDup devices /\ (forall d, d ∈ devices -> Some d ∉ (device_of (st_manager w') <$> [])) /\
    manager_wf (st_manager w') (omap entry_resource (reverse (take c ds')) ++ []).
Proof.
  intros ops.
  apply (netdev_owns_hardware sample.mem (fun w => w) sample_stack.net_drv
    (fun w => w = sample.devices) 3 [] (replicate 12 device_entry_zero) 12 net_statics_zero
    sample_stack.start).
  - unfold Devices.MAX_DEVICES. lia.
  - exact sample_stack.drivers_ok.
  - exact sample_stack.start_stacked.
  - cbn. lia.
  - intros []; cbn; unfold MAX_NETDEV_CONTEXTS_PER_DRIVER; lia.
Defined.
