(* ===== verification/HttpHello.v ===== *)
(** The HTTP server (apps/http-hello/http_hello.c): the response it builds, the
    TCP packets it sends, and the handler of one received frame. *)

From S2P Require Export Ethernet Netdev.

Open Scope Z_scope.

Definition HTTP_HELLO_BUFFER_SIZE : Z := 2048.
Definition HTTP_HELLO_PORT : Z := 80.
Definition ETH_ALIGNMENT_OFFSET : Z := 2.

(* ------------------------------------------------------------------ *)
(** ** Building the response *)

(** [buf] is an object and an offset; the second result is the length written. *)
Definition write_decimal_u8 (buf : bytes) (o value : Z) : res (bytes * Z) :=
  if 100 <=? value then
    buf ← st8 buf (o + 0) (48 + value / 100);
    let value := value mod 100 in
    buf ← st8 buf (o + 1) (48 + value / 10);
    buf ← st8 buf (o + 2) (48 + value mod 10);
    Ok (buf, 3)
  else if 10 <=? value then
    buf ← st8 buf (o + 0) (48 + value / 10);
    buf ← st8 buf (o + 1) (48 + value mod 10);
    Ok (buf, 2)
  else
    buf ← st8 buf (o + 0) (48 + value);
    Ok (buf, 1).

(** Consecutive [buf[len++] = c] of the characters of [s]. *)
Fixpoint append (buf : bytes) (o len : Z) (s : cstr) : res (bytes * Z) :=
  match s with
  | [] => Ok (buf, len)
  | c :: s => buf ← st8 buf (o + len) c; append buf o (len + 1) s
  end.

Definition write_hello_ip (buf : bytes) (o ip_host : Z) : res (bytes * Z) :=
  '(buf, len) ← append buf o 0 (str "Hello, ");
  '(buf, n) ← write_decimal_u8 buf (o + len) (Z.land (Z.shiftr ip_host 24) 0xFF);
  '(buf, len) ← append buf o (len + n) (str ".");
  '(buf, n) ← write_decimal_u8 buf (o + len) (Z.land (Z.shiftr ip_host 16) 0xFF);
  '(buf, len) ← append buf o (len + n) (str ".");
  '(buf, n) ← write_decimal_u8 buf (o + len) (Z.land (Z.shiftr ip_host 8) 0xFF);
  '(buf, len) ← append buf o (len + n) (str ".");
  '(buf, n) ← write_decimal_u8 buf (o + len) (Z.land ip_host 0xFF);
  append buf o (len + n) nl.

(** [while (value > 0) { digits[n++] = '0' + (value % 10); value /= 10; }] *)
Fixpoint size_digits (fuel : nat) (digits : bytes) (n value : Z) : res (bytes * Z) :=
  match fuel with
  | O => NoFuel
  | S fuel =>
      if 0 <? value then
        digits ← st8 digits n (48 + value mod 10);
        size_digits fuel digits (n + 1) (value / 10)
      else Ok (digits, n)
  end.

(** [while (n > 0) { buf[len++] = digits[--n]; }] *)
Fixpoint emit_digits (buf : bytes) (o len : Z) (digits : bytes) (n : nat) : res (bytes * Z) :=
  match n with
  | O => Ok (buf, len)
  | S n =>
      d ← rd digits (Z.of_nat n);
      buf ← st8 buf (o + len) d;
      emit_digits buf o (len + 1) digits n
  end.

(** Writing beyond digits[4] is undefined, so 5 iterations suffice. *)
Definition write_decimal_size (buf : bytes) (o value : Z) : res (bytes * Z) :=
  if value =? 0 then buf ← st8 buf (o + 0) 48; Ok (buf, 1) else
  '(digits, n) ← size_digits 6 (replicate 4 0) 0 value;
  emit_digits buf o 0 digits (Z.to_nat n).

Definition crlf : cstr := [13; 10].
Definition response_head : cstr :=
  str "HTTP/1.1 200 OK" ++ crlf ++ str "Connection: keep-alive" ++ crlf
  ++ str "Content-Type: text/plain" ++ crlf ++ str "Content-Length: ".

Definition build_http_response (buf : bytes) (client_ip_host : Z) : res (bytes * Z) :=
  '(body, body_len) ← write_hello_ip (replicate 32 0) 0 client_ip_host;
  '(buf, len) ← append buf 0 0 response_head;
  '(buf, n) ← write_decimal_size buf len body_len;
  '(buf, len) ← append buf 0 (len + n) (crlf ++ crlf);
  body ← load body 0 body_len;
  append buf 0 len body.

(* ------------------------------------------------------------------ *)
(** ** Sending *)

(** [tcp_payload[i] = payload[i]] for [i < payload_len]. *)
Definition copy_payload (b : bytes) (o : Z) (payload : bytes) (payload_len : Z) : res bytes :=
  for_n (Z.to_nat payload_len) (fun i b =>
    x ← rd payload (Z.of_nat i); wr b (o + Z.of_nat i) x) b.

Section http.
  Context {W : Type} `{Arch} `{Console W} `{NetDriver W}.

(** [b], [o]: the reply buffer; a NULL payload is the empty list. *)
Definition send_tcp_packet (dev : device_entry) (b : bytes) (o : Z)
    (our_mac their_mac : bytes) (src_ip_net dst_ip_net src_port dst_port seq ack flags window : Z)
    (payload : bytes) (payload_len : Z) : St W bytes :=
  b ← lift (
    b ← copy_macs b o their_mac (o + 6) our_mac;
    b ← write_htons_unaligned b (o + eth.type) ETH_P_IP;
    let ip := o + sizeof_eth_hdr in
    b ← ipv4_build_header b ip src_ip_net dst_ip_net IPPROTO_TCP
          (u16 (sizeof_tcp_hdr + payload_len)) 64;
    let tcp := o + sizeof_eth_hdr + sizeof_ipv4_hdr in
    b ← copy_payload b (tcp + sizeof_tcp_hdr) payload payload_len;
    tcp_build_header b tcp src_port dst_port seq ack flags window src_ip_net dst_ip_net
      payload_len);
  let total_len := sizeof_eth_hdr + sizeof_ipv4_hdr + sizeof_tcp_hdr + payload_len in
  _ ← netdev_transmit (Some dev) (Some (b, o)) total_len;
  mret b.

(** The buffer and reply_buffer: offset 2 of their 4-byte aligned storage. *)
Definition buffer : Z := ETH_ALIGNMENT_OFFSET.

(** The part of the loop body that answers a TCP segment for the port. *)
Definition handle_tcp (dev : device_entry) (mac : bytes) (http_log : tag_ptr)
    (b : bytes) (received_length : Z) (reply : bytes) (isn_counter : Z) : St W (bytes * Z) :=
  let ip := buffer + sizeof_eth_hdr in
  let tcp := buffer + sizeof_eth_hdr + sizeof_ipv4_hdr in
  '(src_port, their_seq, their_ack) ← lift (
    src_port ← ntohs_unaligned b (tcp + tcp.src_port);
    their_seq ← ntohl_unaligned b (tcp + tcp.seq_num);
    their_ack ← ntohl_unaligned b (tcp + tcp.ack_num);
    mret (src_port, their_seq, their_ack));
  '(flags, data_offset, ip_total_len) ← lift (
    flags ← rd b (tcp + tcp.flags);
    d ← rd b (tcp + tcp.data_offset);
    ip_total_len ← ntohs_unaligned b (ip + ip.total_length);
    mret (flags, u8 (Z.shiftr d 4 * 4), ip_total_len));
  let tcp_payload_len := u16 (ip_total_len - sizeof_ipv4_hdr - data_offset) in
  '(eth_src, src_ip, dst_ip) ← lift (
    eth_src ← load b (buffer + eth.src) 6;
    src_ip ← ld32 b (ip + ip.src_ip);
    dst_ip ← ld32 b (ip + ip.dst_ip);
    mret (eth_src, src_ip, dst_ip));
  debug ← klog_enabled http_log LOG_DEBUG;
  w ← gets id;
  _ ← when debug (kput (ethernet_print (fun r => net_print_tag w (Some r)) b (Some buffer)
                          received_length (entry_resource dev) 0));
  let send := send_tcp_packet dev in
  '(reply, isn_counter) ←
    (if negb (Z.land flags TCP_FLAG_SYN =? 0) then
       _ ← klog_debug http_log "SYN received
";
       let our_isn := isn_counter in
       reply ← send reply buffer mac eth_src dst_ip src_ip HTTP_HELLO_PORT src_port
                 our_isn (u32 (their_seq + 1)) (Z.lor TCP_FLAG_SYN TCP_FLAG_ACK) 65535 [] 0;
       _ ← klog_debug http_log "Sent SYN+ACK
";
       mret (reply, u32 (isn_counter + 1))
     else mret (reply, isn_counter));
  reply ←
    (if 0 <? tcp_payload_len then
       _ ← klog_debug http_log "HTTP request received, sending response
";
       '(http_buf, http_len) ← lift (
         client_ip ← ntohl_unaligned b (ip + ip.src_ip);
         build_http_response (replicate 192 0) client_ip);
       reply ← send reply buffer mac eth_src dst_ip src_ip HTTP_HELLO_PORT src_port
                 their_ack (u32 (their_seq + tcp_payload_len))
                 (Z.lor TCP_FLAG_PSH TCP_FLAG_ACK) 65535 http_buf (u16 http_len);
       _ ← klog_debug http_log "HTTP response sent
";
       mret reply
     else mret reply);
  reply ←
    (if negb (Z.land flags TCP_FLAG_FIN =? 0) && (Z.land flags TCP_FLAG_SYN =? 0) then
       send reply buffer mac eth_src dst_ip src_ip HTTP_HELLO_PORT src_port
         their_ack (u32 (their_seq + 1)) TCP_FLAG_ACK 65535 [] 0
     else mret reply);
  mret (reply, isn_counter).

(** The loop body after a receive: [result] and [received_length] are what
    netdev_receive returned. *)
Definition handle_frame (dev : device_entry) (mac : bytes) (http_log : tag_ptr)
    (result : Z) (b : bytes) (received_length : Z) (reply : bytes) (isn_counter : Z)
    : St W (bytes * Z) :=
  let continue_ := mret (reply, isn_counter) in
  if negb (result =? 0) || (received_length =? 0) then continue_ else
  if received_length <? sizeof_eth_hdr then continue_ else
  eth_type ← lift (ntohs_unaligned b (buffer + eth.type));
  if eth_type =? ETH_P_ARP then
    let arp_req := buffer + sizeof_eth_hdr in
    opcode ← lift (ntohs_unaligned b (arp_req + arp.opcode));
    if opcode =? ARP_OP_REQUEST then
      reply ← lift (
        target_ip ← ntohl_unaligned b (arp_req + arp.target_ip);
        sender_ip ← ntohl_unaligned b (arp_req + arp.sender_ip);
        sender_mac ← load b (arp_req + arp.sender_mac) 6;
        arp_build_reply reply buffer mac target_ip sender_mac sender_ip);
      _ ← netdev_transmit (Some dev) (Some (reply, buffer)) ARP_PACKET_SIZE;
      _ ← klog_debug http_log "Sent ARP reply
";
      mret (reply, isn_counter)
    else continue_
  else if negb (eth_type =? ETH_P_IP) then continue_ else
  if received_length <? sizeof_eth_hdr + sizeof_ipv4_hdr + sizeof_tcp_hdr then continue_ else
  protocol ← lift (rd b (buffer + sizeof_eth_hdr + ip.protocol));
  if negb (protocol =? IPPROTO_TCP) then continue_ else
  dst_port ← lift (ntohs_unaligned b
                     (buffer + sizeof_eth_hdr + sizeof_ipv4_hdr + tcp.dst_port));
  if negb (dst_port =? HTTP_HELLO_PORT) then continue_ else
  handle_tcp dev mac http_log b received_length reply isn_counter.

(** The mutable variables of the loop. *)
Record http_state := HttpState { rx_storage : bytes; tx_storage : bytes; isn : Z }.

Definition http_iteration (dev : device_entry) (mac : bytes) (http_log : tag_ptr)
    (s : http_state) : St W http_state :=
  '(result, buf, received_length) ←
    netdev_receive (Some dev) (Some (rx_storage s, buffer)) HTTP_HELLO_BUFFER_SIZE (Some 0);
  let b := match buf with Some (b, _) => b | None => rx_storage s end in
  '(reply, isn_counter) ← handle_frame dev mac http_log result b
                            (default 0 received_length) (tx_storage s) (isn s);
  mret (HttpState b reply isn_counter).

(** The first [n] iterations of the loop, which never ends. *)
Fixpoint http_loop (n : nat) (dev : device_entry) (mac : bytes) (http_log : tag_ptr)
    (s : http_state) : St W http_state :=
  match n with
  | O => mret s
  | S n => s ← http_iteration dev mac http_log s; http_loop n dev mac http_log s
  end.

(** app_http_hello before its loop: the device, its MAC address and the log tag, or
    nothing when there is no device; the statics are those of netdev_acquire_all.
    [mac] is uninitialised in the source when netdev_get_mac fails; its bytes are 0
    here. *)
Definition http_setup (st : net_statics)
    : St W (option (device_entry * bytes * tag_ptr) * net_statics) :=
  http_log ← klog_register "http-hello" LOG_INFO;
  _ ← klog_info http_log "Starting HTTP Hello World application...
";
  '(device_count, devices, st) ← netdev_acquire_all [device_entry_zero] 1 st;
  if device_count <? 1 then
    _ ← klog_error http_log "No network devices found
";
    mret (None, st)
  else
  _ ← klog_debug http_log "Initializing network device...
";
  dev ← lift (rd devices 0);
  '(result, mac) ← netdev_get_mac (Some dev) (Some (replicate 6 0));
  let mac := default [] mac in
  info ← klog_enabled http_log LOG_INFO;
  _ ← when ((result =? 0) && info)
        (_ ← klog_prefix http_log LOG_INFO;
         kput (puts (str "MAC: ") +++ net_print_mac mac 0 +++ puts nl)%out);
  info ← klog_enabled http_log LOG_INFO;
  _ ← when info
        (_ ← klog_prefix http_log LOG_INFO;
         kput (puts (str "Listening on port ") +++ net_print_decimal_u16 HTTP_HELLO_PORT
               +++ puts (str "..." ++ nl))%out);
  mret (Some (dev, mac, http_log), st).

(** The loop's variables at its start. *)
Definition http_start (isn_counter : Z) : http_state :=
  let storage := replicate (Z.to_nat (HTTP_HELLO_BUFFER_SIZE + ETH_ALIGNMENT_OFFSET)) 0 in
  HttpState storage storage isn_counter.

(** app_http_hello up to [n] iterations of its loop; [isn_counter] is its static. *)
Definition app_http_hello (n : nat) (st : net_statics) (isn_counter : Z)
    : St W (option http_state * net_statics) :=
  '(ready, st) ← http_setup st;
  match ready with
  | None => mret (None, st)
  | Some (dev, mac, http_log) =>
      s ← http_loop n dev mac http_log (http_start isn_counter);
      mret (Some s, st)
  end.
End http.

(* ------------------------------------------------------------------ *)
(** ** Specification *)

(** The body and the response a client gets. *)
Definition hello_body (ip : Z) : bytes := str "Hello, " ++ net_print_ip ip ++ nl.
Definition http_response (ip : Z) : bytes :=
  response_head ++ net_print_decimal_u8 (len (hello_body ip)) ++ crlf ++ crlf
  ++ hello_body ip.

(** A TCP segment in its IPv4 packet in its Ethernet frame. *)
Definition tcp_frame (our_mac their_mac : bytes)
    (src_ip dst_ip src_port dst_port seq ack flags window : Z) (payload : bytes) : bytes :=
  let total := 40 + len payload in
  their_mac ++ our_mac ++ be16 ETH_P_IP
  ++ ipv4_header total (ipv4_sum total src_ip dst_ip IPPROTO_TCP 64) src_ip dst_ip IPPROTO_TCP 64
  ++ tcp_segment_bytes src_port dst_port seq ack flags window src_ip dst_ip payload.

(* ------------------------------------------------------------------ *)
(** ** Lemmas: the response *)

Lemma append_bind {B} s : forall (b : bytes) o l (f : bytes * Z -> res B),
  s <> [] -> is_bytes s ->
  (append b o l s ≫= f) = (b' ← store b (o + l) s; f (b', l + len s)).
Proof.
  induction s as [|c s IH]; [done|]. intros b o l f _ Hs.
  inversion_clear Hs as [|? ? Hc Hs']. cbn [append]. rewrite res_bind_assoc.
  unfold st8. rewrite (u8_id c) by done. destruct s as [|c' s].
  - cbn [append mbind res_bind]. done.
  - erewrite res_bind_proper; [|intros b'; apply (IH b' o (l + 1) f); done|done].
    rewrite store_seq_bind by solve_len. cbn [app].
    rewrite (len_cons c). by replace (l + 1 + len (c' :: s)) with (l + (1 + len (c' :: s))) by lia.
Qed.

Lemma decimal_bind {B} (b : bytes) o v (f : bytes * Z -> res B) : is_u8 v ->
  (write_decimal_u8 b o v ≫= f) =
  (b' ← store b o (net_print_decimal_u8 v); f (b', len (net_print_decimal_u8 v))).
Proof.
  intros Hv. unfold write_decimal_u8, net_print_decimal_u8, putchar. rewrite (u8_id v) by done.
  destruct (100 <=? v); [|destruct (10 <=? v)];
    rewrite ?Z.add_0_r; merge_stores; by rewrite res_bind_assoc.
Qed.

(** The same two steps after a store that ends where they begin. *)
Lemma store_append_bind {B} (b : bytes) p xs s o l (f : bytes * Z -> res B) :
  s <> [] -> is_bytes s -> o + l = p + len xs ->
  (b' ← store b p xs; append b' o l s ≫= f) = (b' ← store b p (xs ++ s); f (b', l + len s)).
Proof.
  intros Hs Hb Hp. rewrite <- (store_seq_bind b p xs s (o + l)) by done.
  apply res_bind_proper; [|done]. intros b'. by apply append_bind.
Qed.

Lemma store_decimal_bind {B} (b : bytes) p xs v o (f : bytes * Z -> res B) :
  is_u8 v -> o = p + len xs ->
  (b' ← store b p xs; write_decimal_u8 b' o v ≫= f) =
  (b' ← store b p (xs ++ net_print_decimal_u8 v); f (b', len (net_print_decimal_u8 v))).
Proof.
  intros Hv ->. rewrite <- (store_seq_bind b p xs _ (p + len xs)) by done.
  apply res_bind_proper; [|done]. intros b'. by apply decimal_bind.
Qed.

Lemma store_append (b : bytes) p xs s o l :
  s <> [] -> is_bytes s -> o + l = p + len xs ->
  (b' ← store b p xs; append b' o l s) = (b' ← store b p (xs ++ s); Ok (b', l + len s)).
Proof.
  intros. rewrite <- (store_append_bind b p xs s o l Ok) by done.
  apply res_bind_proper; [|done]. intros b'. by rewrite res_bind_ok.
Qed.

Lemma land_255_u8 x : is_u8 (Z.land x 255).
Proof. rewrite land_255. apply u8_range. Qed.

Lemma write_hello_ip_spec (b : bytes) o ip :
  write_hello_ip b o ip = (b' ← store b o (hello_body ip); Ok (b', len (hello_body ip))).
Proof.
  unfold write_hello_ip.
  rewrite append_bind by (done || by apply is_bytes_str_check).
  rewrite store_decimal_bind by (apply land_255_u8 || solve_len).
  repeat (rewrite store_append_bind by (done || (by apply is_bytes_str_check) || solve_len);
          rewrite store_decimal_bind by (apply land_255_u8 || solve_len)).
  rewrite store_append by (done || (by apply is_bytes_str_check) || solve_len).
  rewrite Z.add_0_r. unfold hello_body, net_print_ip. rewrite <- !app_assoc.
  apply res_bind_proper; [|done]. intros b'. do 2 f_equal. autorewrite with len. lia.
Qed.

Lemma net_print_decimal_len v :
  1 <= len (net_print_decimal_u8 v) <= 3 /\ is_bytes (net_print_decimal_u8 v).
Proof.
  unfold net_print_decimal_u8, putchar. cbv zeta.
  destruct (100 <=? u8 v); [|destruct (10 <=? u8 v)].
  all: split; [cbn [app]; autorewrite with len; lia|repeat constructor; apply u8_range].
Qed.

Lemma hello_body_len ip : 15 <= len (hello_body ip) <= 23 /\ is_bytes (hello_body ip).
Proof.
  unfold hello_body, net_print_ip.
  pose proof (net_print_decimal_len (Z.land (Z.shiftr ip 24) 255)) as [? ?].
  pose proof (net_print_decimal_len (Z.land (Z.shiftr ip 16) 255)) as [? ?].
  pose proof (net_print_decimal_len (Z.land (Z.shiftr ip 8) 255)) as [? ?].
  pose proof (net_print_decimal_len (Z.land ip 255)) as [? ?].
  split.
  - autorewrite with len. change (len (str "Hello, ")) with 7. change (len (str ".")) with 1.
    change (len nl) with 1. lia.
  - rewrite !is_bytes_app. split_and!; (done || by apply is_bytes_str_check).
Qed.

(** Two-digit lengths, which every body has. *)
Lemma write_decimal_size_2 (b : bytes) o v : 10 <= v < 100 ->
  write_decimal_size b o v =
  (b' ← store b o (net_print_decimal_u8 v); Ok (b', len (net_print_decimal_u8 v))).
Proof.
  intros Hv. unfold write_decimal_size.
  destruct (Z.eqb_spec v 0); [lia|]. cbn [size_digits].
  destruct (Z.ltb_spec 0 v); [|lia]. destruct (Z.ltb_spec 0 (v / 10)); [|zdm].
  destruct (Z.ltb_spec 0 (v / 10 / 10)); [zdm|].
  change (st8 (replicate 4 0) 0 (48 + v mod 10)) with (Ok [u8 (48 + v mod 10); 0; 0; 0]).
  cbn [mbind res_bind].
  change (st8 [u8 (48 + v mod 10); 0; 0; 0] (0 + 1) (48 + (v / 10) mod 10))
    with (Ok [u8 (48 + v mod 10); u8 (48 + (v / 10) mod 10); 0; 0]).
  cbn [mbind res_bind]. change (Z.to_nat (0 + 1 + 1)) with 2%nat. cbn [emit_digits].
  change (rd [u8 (48 + v mod 10); u8 (48 + (v / 10) mod 10); 0; 0] (Z.of_nat 1))
    with (Ok (u8 (48 + (v / 10) mod 10))).
  change (rd [u8 (48 + v mod 10); u8 (48 + (v / 10) mod 10); 0; 0] (Z.of_nat 0))
    with (Ok (u8 (48 + v mod 10))).
  cbn [mbind res_bind]. rewrite Z.add_0_r. merge_stores.
  rewrite !(u8_id (u8 _)) by apply u8_range.
  unfold net_print_decimal_u8, putchar. rewrite (u8_id v) by (unfold is_u8; lia).
  destruct (Z.leb_spec 100 v); [lia|]. destruct (Z.leb_spec 10 v); [|lia].
  cbn [app]. rewrite (Z.mod_small (v / 10) 10) by zdm. done.
Qed.

Lemma decimal_size_bind {B} (b : bytes) p xs v o (f : bytes * Z -> res B) :
  10 <= v < 100 -> o = p + len xs ->
  (b' ← store b p xs; write_decimal_size b' o v ≫= f) =
  (b' ← store b p (xs ++ net_print_decimal_u8 v); f (b', len (net_print_decimal_u8 v))).
Proof.
  intros Hv ->. rewrite <- (store_seq_bind b p xs _ (p + len xs)) by done.
  apply res_bind_proper; [|done]. intros b'.
  rewrite write_decimal_size_2 by done. by rewrite res_bind_assoc.
Qed.

Lemma build_http_response_spec (b : bytes) ip :
  build_http_response b ip =
  (b' ← store b 0 (http_response ip); Ok (b', len (http_response ip))).
Proof.
  destruct (hello_body_len ip) as [Hl Hb].
  unfold build_http_response. rewrite write_hello_ip_spec.
  destruct (store_in_range (replicate 32 0) 0 (hello_body ip)) as [b' Hs];
    [lia|change (len (replicate 32 0)) with 32; lia|].
  rewrite Hs. cbn [mbind res_bind].
  rewrite append_bind by (done || by apply is_bytes_str_check).
  rewrite decimal_size_bind by (lia || done).
  rewrite store_append_bind by (done || (by apply is_bytes_str_check) || solve_len).
  apply store_inv in Hs as (h & m & t & Hb' & Hh & Hm & ->).
  assert (h = []) as -> by (destruct h; [done|rewrite len_cons in Hh; pose proof (len_nonneg h); lia]).
  change 0 with (len (@nil Z)) at 3. rewrite load_ok. cbn [mbind res_bind].
  rewrite store_append by (done || solve_len || (intros ->; cbn in Hl; lia)).
  unfold http_response. rewrite <- !app_assoc.
  apply res_bind_proper; [|done]. intros b'. do 2 f_equal. autorewrite with len. lia.
Qed.

Lemma http_response_len ip :
  98 <= len (http_response ip) <= 112 /\ is_bytes (http_response ip).
Proof.
  destruct (hello_body_len ip) as [Hl Hb].
  destruct (net_print_decimal_len (len (hello_body ip))) as [_ Hd].
  unfold http_response. split.
  - autorewrite with len. change (len response_head) with 83. change (len crlf) with 2.
    unfold net_print_decimal_u8, putchar.
    rewrite (u8_id (len (hello_body ip))) by (unfold is_u8; lia).
    destruct (Z.leb_spec 100 (len (hello_body ip))); [lia|].
    destruct (Z.leb_spec 10 (len (hello_body ip))); [|lia].
    cbn [app]. autorewrite with len. lia.
  - rewrite !is_bytes_app. split_and!; (done || by apply is_bytes_str_check).
Qed.

(* ------------------------------------------------------------------ *)
(** ** Lemmas: sending *)

Lemma copy_payload_n n : forall (h p t m : bytes),
  length m = length p -> (n <= length p)%nat ->
  for_n n (fun i (b : bytes) => x ← rd p (Z.of_nat i); wr b (len h + Z.of_nat i) x) (h ++ m ++ t)
  = Ok (h ++ (take n p ++ drop n m) ++ t).
Proof.
  induction n as [|n IH]; intros h p t m Hm Hn; [done|].
  unfold for_n in *. rewrite seq_S, foldl_snoc, IH by lia. cbn [mbind res_bind Nat.add].
  destruct (lookup_lt_is_Some_2 p n) as [x Hx]; [lia|].
  destruct (lookup_lt_is_Some_2 m n) as [y Hy]; [lia|].
  assert (Hr : rd p (Z.of_nat n) = Ok x)
    by (apply rd_lookup; split; [lia|by rewrite Nat2Z.id]).
  rewrite Hr. cbn [mbind res_bind].
  rewrite (drop_S m y n Hy). unfold wr. rewrite <- !app_assoc. cbn [app].
  assert (Hl : len h + Z.of_nat n = len (h ++ take n p)).
  { rewrite len_app. unfold len. rewrite length_take. lia. }
  rewrite Hl. rewrite (app_assoc h). rewrite store_cons_at.
  rewrite (take_S_r p n x Hx), <- !app_assoc. done.
Qed.

Lemma copy_payload_spec h m t payload extra o :
  o = len h -> len m = len payload ->
  copy_payload (h ++ m ++ t) o (payload ++ extra) (len payload) = Ok (h ++ payload ++ t).
Proof.
  intros -> Hm. unfold copy_payload. rewrite len_to_nat. unfold len in Hm.
  transitivity (Ok (h ++ (take (length payload) payload ++ drop (length payload) m) ++ t)).
  - rewrite <- copy_payload_n by lia.
    apply for_n_ext. intros i b Hi. by rewrite rd_app_l by (unfold len; lia).
  - by rewrite firstn_all2, skipn_all2, app_nil_r by lia.
Qed.

Section sending.
  Context {W : Type} `{Arch} `{Console W} `{NetDriver W}.

Lemma split_frame {A} (m : list A) n :
  0 <= n -> len m = 54 + n ->
  exists m1 m2 e i c p, m = m1 ++ m2 ++ e ++ i ++ c ++ p /\
    len m1 = 6 /\ len m2 = 6 /\ len e = 2 /\ len i = 20 /\ len c = 20 /\ len p = n.
Proof.
  unfold len. intros Hn Hl.
  exists (take 6 m), (take 6 (drop 6 m)), (take 2 (drop 12 m)), (take 20 (drop 14 m)),
    (take 20 (drop 34 m)), (drop 54 m).
  split; [|rewrite !length_take, !length_drop; lia].
  rewrite <- (take_drop 6 m) at 1. f_equal.
  rewrite <- (take_drop 6 (drop 6 m)) at 1. f_equal. rewrite drop_drop.
  rewrite <- (take_drop 2 (drop _ m)) at 1. f_equal. rewrite drop_drop.
  rewrite <- (take_drop 20 (drop _ m)) at 1. f_equal. rewrite drop_drop.
  rewrite <- (take_drop 20 (drop _ m)) at 1. f_equal. by rewrite drop_drop.
Qed.

Lemma send_tcp_packet_spec dev h m t o our_mac their_mac src dst sp dp seq ack fl win
    payload extra w :
  o = len h -> len m = 54 + len payload -> len our_mac = 6 -> len their_mac = 6 ->
  is_u32 src -> is_u32 dst -> is_bytes payload -> 40 + len payload < 2 ^ 16 ->
  let reply := h ++ tcp_frame our_mac their_mac src dst sp dp seq ack fl win payload ++ t in
  send_tcp_packet dev (h ++ m ++ t) o our_mac their_mac src dst sp dp seq ack fl win
    (payload ++ extra) (len payload) w =
  (_ ← netdev_transmit (Some dev) (Some (reply, o)) (54 + len payload); mret reply) w.
Proof.
  intros -> Hm Hour Htheir Hsrc Hdst Hp Hl reply. pose proof (len_nonneg payload).
  destruct (split_frame m (len payload)) as
    (m1 & m2 & e & i & c & p & -> & Hm1 & Hm2 & He & Hi & Hc & Hpl); [lia|done|].
  unfold send_tcp_packet. unfold sizeof_eth_hdr, sizeof_ipv4_hdr, sizeof_tcp_hdr, eth.type.
  rewrite <- !app_assoc.
  rewrite (copy_macs_spec h [] (e ++ i ++ c ++ p ++ t) their_mac our_mac m1 m2)
    by (done || solve_len).
  rewrite app_nil_l. cbn [mbind res_bind]. rewrite write_htons_unaligned_be.
  set (h1 := h ++ their_mac ++ our_mac).
  replace (h ++ their_mac ++ our_mac ++ e ++ i ++ c ++ p ++ t)
    with (h1 ++ e ++ i ++ c ++ p ++ t) by (unfold h1; by rewrite <- !app_assoc).
  rewrite store_ok' by (rewrite ?be16_len; unfold h1; autorewrite with len; lia).
  cbn [mbind res_bind]. set (h2 := h1 ++ be16 ETH_P_IP).
  replace (h1 ++ be16 ETH_P_IP ++ i ++ c ++ p ++ t) with (h2 ++ i ++ c ++ p ++ t)
    by (unfold h2; by rewrite <- !app_assoc).
  assert (Hh2 : len h2 = len h + 14)
    by (unfold h2, h1; autorewrite with len; rewrite ?be16_len; lia).
  rewrite (u16_id (20 + len payload)) by (unfold is_u16; lia).
  rewrite <- Hh2. rewrite ipv4_build_spec by (done || (unfold is_u8, IPPROTO_TCP; lia)).
  rewrite (u16_id (20 + _)) by (unfold is_u16; lia). cbn [mbind res_bind].
  replace (20 + (20 + len payload)) with (40 + len payload) by lia.
  set (iph := ipv4_header _ _ _ _ _ _).
  assert (Hiph : len iph = 20) by apply ipv4_header_len.
  replace (h2 ++ iph ++ c ++ p ++ t) with ((h2 ++ iph ++ c) ++ p ++ t)
    by (by rewrite <- !app_assoc).
  rewrite copy_payload_spec by (done || (autorewrite with len; lia)). cbn [mbind res_bind].
  replace ((h2 ++ iph ++ c) ++ payload ++ t) with ((h2 ++ iph) ++ c ++ payload ++ t)
    by (by rewrite <- !app_assoc).
  replace (len h2 + 20) with (len (h2 ++ iph)) by (autorewrite with len; lia).
  rewrite tcp_build_header_spec by (done || lia).
  replace (14 + 20 + 20 + len payload) with (54 + len payload) by lia.
  replace ((h2 ++ iph) ++ _) with reply
    by (unfold reply, tcp_frame, h2, h1, iph; by rewrite <- !app_assoc).
  done.
Qed.
End sending.

(* ------------------------------------------------------------------ *)
(** ** The server's answers *)

(** What the server reads of a TCP segment for its port; addresses both as
    stored in memory and, for the client's, in host order. *)
Record segment := Segment {
  sg_mac : bytes; sg_src_ip : Z; sg_dst_ip : Z; sg_client : Z; sg_port : Z;
  sg_seq : Z; sg_ack : Z; sg_flags : Z; sg_payload_len : Z }.

(** The receive buffer holds an IPv4 packet with a TCP segment for port 80. *)
Record segment_at `{Arch} (b : bytes) (g : segment) : Prop := SegmentAt {
  at_type : ntohs_unaligned b 14 = Ok ETH_P_IP;
  at_protocol : rd b 25 = Ok IPPROTO_TCP;
  at_dst_port : ntohs_unaligned b 38 = Ok HTTP_HELLO_PORT;
  at_mac : load b 8 6 = Ok (sg_mac g);
  at_src_ip : ld32 b 28 = Ok (sg_src_ip g);
  at_client : ntohl_unaligned b 28 = Ok (sg_client g);
  at_dst_ip : ld32 b 32 = Ok (sg_dst_ip g);
  at_port : ntohs_unaligned b 36 = Ok (sg_port g);
  at_seq : ntohl_unaligned b 40 = Ok (sg_seq g);
  at_ack : ntohl_unaligned b 44 = Ok (sg_ack g);
  at_flags : rd b 49 = Ok (sg_flags g);
  at_length : exists total d, ntohs_unaligned b 18 = Ok total /\ rd b 48 = Ok d /\
    sg_payload_len g = u16 (total - 20 - u8 (Z.shiftr d 4 * 4))
}.

(** An answer: sequence and acknowledgement numbers, flags, payload. *)
Record answer := Answer { an_seq : Z; an_ack : Z; an_flags : Z; an_payload : bytes }.

Definition has_flag (g : segment) (f : Z) : bool := negb (Z.land (sg_flags g) f =? 0).

(** A SYN is answered by SYN+ACK with a fresh initial sequence number, data by
    the response, a FIN by an ACK. *)
Definition syn_answers (isn : Z) (g : segment) : list answer :=
  if has_flag g TCP_FLAG_SYN
  then [Answer isn (u32 (sg_seq g + 1)) (Z.lor TCP_FLAG_SYN TCP_FLAG_ACK) []] else [].
Definition data_answers (g : segment) : list answer :=
  if 0 <? sg_payload_len g
  then [Answer (sg_ack g) (u32 (sg_seq g + sg_payload_len g))
          (Z.lor TCP_FLAG_PSH TCP_FLAG_ACK) (http_response (sg_client g))] else [].
Definition fin_answers (g : segment) : list answer :=
  if has_flag g TCP_FLAG_FIN && negb (has_flag g TCP_FLAG_SYN)
  then [Answer (sg_ack g) (u32 (sg_seq g + 1)) TCP_FLAG_ACK []] else [].
Definition answers (isn : Z) (g : segment) : list answer :=
  syn_answers isn g ++ data_answers g ++ fin_answers g.

(** The frame of an answer goes back to the sender, from the address it used. *)
Definition answer_frame (mac : bytes) (g : segment) (a : answer) : bytes :=
  tcp_frame mac (sg_mac g) (sg_dst_ip g) (sg_src_ip g) HTTP_HELLO_PORT (sg_port g)
    (an_seq a) (an_ack a) (an_flags a) 65535 (an_payload a).

(** The reply buffer with a frame written at its start. *)
Definition put_frame (reply frame : bytes) : bytes :=
  take (Z.to_nat buffer) reply ++ frame ++ drop (Z.to_nat buffer + length frame) reply.

Section answers.
  Context {W : Type} `{Arch} `{Console W} `{!ConsoleLaws W} `{NetDriver W} `{!NetDriverLaws W}.

(** The answers transmitted one after the other. *)
Fixpoint transmit_answers (dev : device_entry) (mac : bytes) (g : segment) (reply : bytes)
    (l : list answer) : St W bytes :=
  match l with
  | [] => mret reply
  | a :: l =>
      let frame := answer_frame mac g a in
      let reply := put_frame reply frame in
      _ ← netdev_transmit (Some dev) (Some (reply, buffer)) (len frame);
      transmit_answers dev mac g reply l
  end.

Lemma transmit_answers_app dev mac g l1 : forall l2 reply w,
  transmit_answers dev mac g reply (l1 ++ l2) w =
  (r ← transmit_answers dev mac g reply l1; transmit_answers dev mac g r l2) w.
Proof.
  induction l1 as [|a l1 IH]; intros l2 reply w; [done|].
  cbn [app transmit_answers]. cbv zeta. rewrite St_bind_assoc.
  apply St_bind_ext. intros x w' _. apply IH.
Qed.

Lemma netdev_transmit_log dev p n w r w' :
  netdev_transmit dev p n w = Ok (r, w') -> con_log w' = con_log w.
Proof.
  unfold netdev_transmit. destruct dev as [[res [k|] ctx]|], p as [[b o]|];
    try destruct (n =? 0); cbn [entry_driver entry_context];
    try (intros [= _ <-]; done). apply transmit_log.
Qed.

Lemma tcp_frame_len our their src dst sp dp seq ack fl win payload :
  len our = 6 -> len their = 6 ->
  len (tcp_frame our their src dst sp dp seq ack fl win payload) = 54 + len payload.
Proof.
  intros. unfold tcp_frame, tcp_segment_bytes. cbv zeta. rewrite !len_app, ipv4_header_len.
  rewrite tcp_header_len, be16_len. lia.
Qed.

Lemma put_frame_len reply frame :
  2 + len frame <= len reply -> len (put_frame reply frame) = len reply.
Proof.
  intros Hl. unfold put_frame, buffer, ETH_ALIGNMENT_OFFSET, len in *.
  rewrite !length_app, length_take, length_drop. lia.
Qed.

Lemma put_frame_split (h m t frame : bytes) : len h = 2 -> len m = len frame ->
  put_frame (h ++ m ++ t) frame = h ++ frame ++ t.
Proof.
  intros Hh Hm. unfold put_frame, buffer, ETH_ALIGNMENT_OFFSET.
  replace (Z.to_nat 2) with (length h) by (unfold len in Hh; lia).
  rewrite take_app_length, drop_app_add.
  replace (length frame) with (length m) by (unfold len in *; lia).
  by rewrite drop_app_length.
Qed.

(** What holds of the loop's variables and of the world between two answers. *)
Definition idle (log : tag_ptr) (reply : bytes) (w : W) : Prop :=
  quiet log w /\ len reply = HTTP_HELLO_BUFFER_SIZE + ETH_ALIGNMENT_OFFSET.

Definition segment_ok (g : segment) : Prop :=
  len (sg_mac g) = 6 /\ is_u32 (sg_src_ip g) /\ is_u32 (sg_dst_ip g).

Definition answer_ok (a : answer) : Prop :=
  is_bytes (an_payload a) /\ len (an_payload a) <= 112.

Lemma answer_frame_len mac g a :
  len mac = 6 -> segment_ok g -> len (answer_frame mac g a) = 54 + len (an_payload a).
Proof. intros Hm [Hg _]. by apply tcp_frame_len. Qed.

Lemma transmit_answers_idle dev mac g log l : forall reply w r w',
  len mac = 6 -> segment_ok g -> Forall answer_ok l -> idle log reply w ->
  transmit_answers dev mac g reply l w = Ok (r, w') -> idle log r w'.
Proof.
  induction l as [|a l IH]; intros reply w r w' Hm Hg Hl [Hq Hr] E.
  - by injection E as <- <-.
  - cbn [transmit_answers] in E. inversion_clear Hl as [|? ? [_ Ha] Hl'].
    apply St_bind_inv in E as (x & w1 & E1 & E).
    apply (IH _ _ _ _ Hm Hg Hl') in E; [done|]. split.
    + apply netdev_transmit_log in E1. unfold quiet, klog_tag in *. by rewrite E1.
    + rewrite put_frame_len; [done|].
      rewrite answer_frame_len by done. rewrite Hr. unfold HTTP_HELLO_BUFFER_SIZE,
        ETH_ALIGNMENT_OFFSET. lia.
Qed.

(** One call of send_tcp_packet is one answer. *)
Lemma send_answer {B} dev mac g log reply w seq ack fl payload extra (f : bytes -> St W B) :
  len mac = 6 -> segment_ok g -> idle log reply w ->
  is_bytes payload -> len payload <= 112 ->
  (send_tcp_packet dev reply buffer mac (sg_mac g) (sg_dst_ip g) (sg_src_ip g)
     HTTP_HELLO_PORT (sg_port g) seq ack fl 65535 (payload ++ extra) (len payload) ≫= f) w =
  (transmit_answers dev mac g reply [Answer seq ack fl payload] ≫= f) w.
Proof.
  intros Hm (Hg & Hs & Hd) [_ Hr] Hp Hl. pose proof (len_nonneg payload).
  unfold HTTP_HELLO_BUFFER_SIZE, ETH_ALIGNMENT_OFFSET in Hr.
  set (a := Answer seq ack fl payload).
  assert (Hf : len (answer_frame mac g a) = 54 + len payload) by by apply answer_frame_len.
  destruct (split_at reply 2 (54 + len payload)) as (h & m & t & -> & Hh & Hml); [lia..|].
  pose proof (put_frame_split h m t (answer_frame mac g a) Hh ltac:(lia)) as Hput.
  transitivity ((_ ← netdev_transmit (Some dev)
                   (Some (h ++ answer_frame mac g a ++ t, buffer)) (54 + len payload);
                 f (h ++ answer_frame mac g a ++ t)) w).
  - unfold mbind at 1, St_bind at 1.
    rewrite send_tcp_packet_spec by (done || lia).
    change (match ((_ ← netdev_transmit (Some dev)
                     (Some (h ++ answer_frame mac g a ++ t, buffer)) (54 + len payload);
                   mret (h ++ answer_frame mac g a ++ t)) w) with
            | Ok (a, w') => f a w' | UB => UB | NoFuel => NoFuel end
            = (_ ← netdev_transmit (Some dev)
                   (Some (h ++ answer_frame mac g a ++ t, buffer)) (54 + len payload);
                 f (h ++ answer_frame mac g a ++ t)) w).
    unfold mbind, St_bind, mret, St_ret. by destruct (netdev_transmit _ _ _ w) as [[? ?]| |].
  - cbn [transmit_answers]. cbv zeta. rewrite Hput, Hf, St_bind_assoc. done.
Qed.

Lemma debug_bind {B} log msg (f : unit -> St W B) w :
  quiet log w -> (klog_debug log msg ≫= f) w = f tt w.
Proof. intros Hq. apply St_bind_ok. by apply klog_debug_quiet. Qed.

(** The three blocks of the loop body, each as its answers. *)
Lemma segment_reads b g : segment_at b g ->
  (src_port ← ntohs_unaligned b 36; their_seq ← ntohl_unaligned b 40;
   their_ack ← ntohl_unaligned b 44; mret (src_port, their_seq, their_ack))
    = Ok (sg_port g, sg_seq g, sg_ack g) /\
  (eth_src ← load b 8 6; src_ip ← ld32 b 28; dst_ip ← ld32 b 32; mret (eth_src, src_ip, dst_ip))
    = Ok (sg_mac g, sg_src_ip g, sg_dst_ip g) /\
  (exists off total,
   (flags ← rd b 49; d ← rd b 48; ip_total_len ← ntohs_unaligned b 18;
    mret (flags, u8 (Z.shiftr d 4 * 4), ip_total_len)) = Ok (sg_flags g, off, total) /\
   sg_payload_len g = u16 (total - 20 - off)) /\
  (client_ip ← ntohl_unaligned b 28; build_http_response (replicate 192 0) client_ip)
    = Ok (http_response (sg_client g) ++ replicate (192 - length (http_response (sg_client g))) 0,
          len (http_response (sg_client g))).
Proof.
  intros [_ _ _ H8 H28 H28' H32 H36 H40 H44 H49 (total & d & H18 & H48 & Hp)].
  split_and!.
  - by rewrite H36, H40, H44.
  - by rewrite H8, H28, H32.
  - exists (u8 (Z.shiftr d 4 * 4)), total. by rewrite H49, H48, H18.
  - rewrite H28'. cbn [mbind res_bind]. rewrite build_http_response_spec.
    destruct (http_response_len (sg_client g)) as [Hl _].
    set (r := http_response (sg_client g)) in *.
    assert (Hr : (length r <= 192)%nat) by (unfold len in Hl; lia).
    replace (replicate 192 0)
      with ([] ++ replicate (length r) 0 ++ replicate (192 - length r) 0)
      by (cbn [app]; rewrite <- replicate_add; f_equal; lia).
    rewrite store_ok' by (done || (unfold len; by rewrite length_replicate)).
    done.
Qed.

Lemma answer_ok_nil seq ack fl : answer_ok (Answer seq ack fl []).
Proof. split; [apply is_bytes_nil|]. done. Qed.

Lemma answer_ok_response seq ack fl ip : answer_ok (Answer seq ack fl (http_response ip)).
Proof. destruct (http_response_len ip) as [[_ Hl] Hb]. by split. Qed.

Lemma answers_ok isn g :
  Forall answer_ok (syn_answers isn g) /\ Forall answer_ok (data_answers g) /\
  Forall answer_ok (fin_answers g).
Proof.
  unfold syn_answers, data_answers, fin_answers.
  split_and!; case_match; auto using Forall_nil, Forall_cons, answer_ok_nil, answer_ok_response.
Qed.

Lemma syn_block {B} dev mac g log reply isn w (f : bytes * Z -> St W B) :
  len mac = 6 -> segment_ok g -> idle log reply w ->
  ((if has_flag g TCP_FLAG_SYN then
      _ ← klog_debug log "SYN received
";
      r ← send_tcp_packet dev reply buffer mac (sg_mac g) (sg_dst_ip g) (sg_src_ip g)
            HTTP_HELLO_PORT (sg_port g) isn (u32 (sg_seq g + 1))
            (Z.lor TCP_FLAG_SYN TCP_FLAG_ACK) 65535 [] 0;
      _ ← klog_debug log "Sent SYN+ACK
";
      mret (r, u32 (isn + 1))
    else mret (reply, isn)) ≫= f) w =
  (r ← transmit_answers dev mac g reply (syn_answers isn g);
   f (r, if has_flag g TCP_FLAG_SYN then u32 (isn + 1) else isn)) w.
Proof.
  intros Hm Hg Hi. unfold syn_answers. destruct (has_flag g TCP_FLAG_SYN); [|done].
  rewrite St_bind_assoc, debug_bind by apply Hi. rewrite St_bind_assoc.
  etransitivity.
  { apply (send_answer dev mac g log reply w isn (u32 (sg_seq g + 1))
      (Z.lor TCP_FLAG_SYN TCP_FLAG_ACK) [] []); try done. apply is_bytes_nil. }
  apply St_bind_ext. intros r w' E. rewrite St_bind_assoc, debug_bind; [done|].
  eapply transmit_answers_idle in E; [apply E|done..| |done].
  apply Forall_singleton, answer_ok_nil.
Qed.

Lemma data_block {B} dev mac g log reply w (f : bytes -> St W B) response extra :
  len mac = 6 -> segment_ok g -> idle log reply w ->
  response = http_response (sg_client g) ->
  ((if 0 <? sg_payload_len g then
      _ ← klog_debug log "HTTP request received, sending response
";
      '(http_buf, http_len) ← lift (Ok (response ++ extra, len response));
      r ← send_tcp_packet dev reply buffer mac (sg_mac g) (sg_dst_ip g) (sg_src_ip g)
            HTTP_HELLO_PORT (sg_port g) (sg_ack g) (u32 (sg_seq g + sg_payload_len g))
            (Z.lor TCP_FLAG_PSH TCP_FLAG_ACK) 65535 http_buf (u16 http_len);
      _ ← klog_debug log "HTTP response sent
";
      mret r
    else mret reply) ≫= f) w =
  (transmit_answers dev mac g reply (data_answers g) ≫= f) w.
Proof.
  intros Hm Hg Hi ->. unfold data_answers. destruct (0 <? sg_payload_len g); [|done].
  destruct (http_response_len (sg_client g)) as [Hl Hb].
  rewrite St_bind_assoc, debug_bind by apply Hi. rewrite St_bind_assoc.
  etransitivity; [apply St_bind_ok; done|]. cbv beta iota. rewrite St_bind_assoc.
  rewrite u16_id by (unfold is_u16; lia).
  etransitivity.
  { apply (send_answer dev mac g log reply w (sg_ack g) (u32 (sg_seq g + sg_payload_len g))
      (Z.lor TCP_FLAG_PSH TCP_FLAG_ACK) (http_response (sg_client g)) extra);
      (done || apply Hl). }
  apply St_bind_ext. intros r w' E. rewrite St_bind_assoc, debug_bind; [done|].
  eapply transmit_answers_idle in E; [apply E|done..| |done].
  apply Forall_singleton, answer_ok_response.
Qed.

Lemma fin_block {B} dev mac g log reply w (f : bytes -> St W B) :
  len mac = 6 -> segment_ok g -> idle log reply w ->
  ((if has_flag g TCP_FLAG_FIN && negb (has_flag g TCP_FLAG_SYN) then
      send_tcp_packet dev reply buffer mac (sg_mac g) (sg_dst_ip g) (sg_src_ip g)
        HTTP_HELLO_PORT (sg_port g) (sg_ack g) (u32 (sg_seq g + 1)) TCP_FLAG_ACK 65535 [] 0
    else mret reply) ≫= f) w =
  (transmit_answers dev mac g reply (fin_answers g) ≫= f) w.
Proof.
  intros Hm Hg Hi. unfold fin_answers.
  destruct (has_flag g TCP_FLAG_FIN && negb (has_flag g TCP_FLAG_SYN)); [|done].
  apply (send_answer dev mac g log reply w (sg_ack g) (u32 (sg_seq g + 1)) TCP_FLAG_ACK [] []);
    try done. apply is_bytes_nil.
Qed.

Lemma handle_tcp_spec dev mac log b n reply isn g w :
  len mac = 6 -> segment_ok g -> segment_at b g -> idle log reply w ->
  handle_tcp dev mac log b n reply isn w =
  (r ← transmit_answers dev mac g reply (answers isn g);
   mret (r, if has_flag g TCP_FLAG_SYN then u32 (isn + 1) else isn)) w.
Proof.
  intros Hm Hg Hat Hi.
  destruct (segment_reads b g Hat) as (Hr1 & Hr2 & (off & total & Hr3 & Hpl) & Hr4).
  destruct (http_response_len (sg_client g)) as [Hrl Hrb].
  unfold handle_tcp. cbv zeta.
  rewrite (St_bind_ok _ _ w _ w (lift_ok _ _ w Hr1)). cbv beta iota.
  rewrite (St_bind_ok _ _ w _ w (lift_ok _ _ w Hr3)). cbv beta iota.
  rewrite (St_bind_ok _ _ w _ w (lift_ok _ _ w Hr2)). cbv beta iota.
  unfold sizeof_ipv4_hdr. rewrite <- !Hpl.
  change (buffer + sizeof_eth_hdr + ip.src_ip) with 28. rewrite Hr4.
  rewrite (St_bind_ok _ _ w false w) by (unfold klog_enabled, gets; by rewrite (proj1 Hi)).
  cbn [when]. unfold gets at 1. rewrite (St_bind_ok _ _ w w w) by done.
  rewrite (St_bind_ok _ _ w tt w) by done.
  fold (has_flag g TCP_FLAG_SYN). fold (has_flag g TCP_FLAG_FIN).
  rewrite <- (negb_involutive (Z.land (sg_flags g) TCP_FLAG_SYN =? 0)).
  fold (has_flag g TCP_FLAG_SYN).
  etransitivity; [by apply (syn_block dev mac g log reply isn w)|].
  destruct (answers_ok isn g) as (Hs & Hd & Hf).
  unfold answers. rewrite St_bind_eq_l with (1 := transmit_answers_app dev mac g _ _ reply w).
  rewrite St_bind_assoc. apply St_bind_ext. intros r w' E.
  eapply transmit_answers_idle in E; [|done..]. clear w Hi. cbv beta iota.
  etransitivity.
  { by apply (data_block dev mac g log r w'). }
  rewrite St_bind_eq_l with (1 := transmit_answers_app dev mac g _ _ r w').
  rewrite St_bind_assoc. apply St_bind_ext. intros r2 w2 E2.
  eapply transmit_answers_idle in E2; [|done..].
  etransitivity; [by apply (fin_block dev mac g log r2 w2)|done].
Qed.

(** The guards of the loop body let a segment through. *)
Lemma handle_frame_segment dev mac log b n reply isn g w :
  segment_at b g -> sizeof_eth_hdr + sizeof_ipv4_hdr + sizeof_tcp_hdr <= n ->
  handle_frame dev mac log 0 b n reply isn w = handle_tcp dev mac log b n reply isn w.
Proof.
  unfold sizeof_eth_hdr, sizeof_ipv4_hdr, sizeof_tcp_hdr.
  intros Hat Hn. unfold handle_frame. cbv zeta.
  destruct (Z.eqb_spec n 0); [lia|]. cbn [Z.eqb negb orb].
  destruct (Z.ltb_spec n sizeof_eth_hdr); [unfold sizeof_eth_hdr in *; lia|].
  rewrite (St_bind_ok _ _ w _ w (lift_ok _ _ w (at_type b g Hat))).
  change (ETH_P_IP =? ETH_P_ARP) with false. change (ETH_P_IP =? ETH_P_IP) with true.
  cbn [negb]. unfold sizeof_eth_hdr, sizeof_ipv4_hdr, sizeof_tcp_hdr.
  destruct (Z.ltb_spec n (14 + 20 + 20)); [lia|].
  rewrite (St_bind_ok _ _ w _ w (lift_ok _ _ w (at_protocol b g Hat))).
  change (IPPROTO_TCP =? IPPROTO_TCP) with true. cbn [negb].
  rewrite (St_bind_ok _ _ w _ w (lift_ok _ _ w (at_dst_port b g Hat))).
  by change (HTTP_HELLO_PORT =? HTTP_HELLO_PORT) with true.
Qed.

Lemma segment_at_ok b g : is_bytes b -> segment_at b g -> segment_ok g.
Proof.
  intros Hb Hat. split.
  - by destruct (load_inv _ _ _ _ (at_mac b g Hat)).
  - split; eapply ld32_range; [done|apply Hat|done|apply Hat].
Qed.

(** Any buffer of the right size whose headers pass the guards holds a segment. *)
Lemma segment_exists b : len b = 2050 ->
  ntohs_unaligned b 14 = Ok ETH_P_IP -> rd b 25 = Ok IPPROTO_TCP ->
  ntohs_unaligned b 38 = Ok HTTP_HELLO_PORT -> exists g, segment_at b g.
Proof.
  intros Hl Ht Hp Hd.
  destruct (ld32_ok b 28) as [sip ?]; [lia..|]. destruct (ld32_ok b 32) as [dip ?]; [lia..|].
  destruct (ntohl_ok b 28) as [client ?]; [lia..|].
  destruct (ntohs_ok b 36) as [port ?]; [lia..|].
  destruct (ntohl_ok b 40) as [seq ?]; [lia..|]. destruct (ntohl_ok b 44) as [ack ?]; [lia..|].
  destruct (rd_in_range b 49) as (flags & ? & _); [lia|].
  destruct (rd_in_range b 48) as (d & ? & _); [lia|].
  destruct (ntohs_ok b 18) as [total ?]; [lia..|].
  destruct (split_at b 8 6) as (h & m & t & -> & Hh & Hm); [lia..|].
  assert (load (h ++ m ++ t) 8 6 = Ok m) by (rewrite <- Hh, <- Hm at 1; apply load_ok).
  exists (Segment m sip dip client port seq ack flags (u16 (total - 20 - u8 (Z.shiftr d 4 * 4)))).
  split; cbn; try done. by exists total, d.
Qed.

(* ------------------------------------------------------------------ *)
(** ** The server never faults *)

(** What the loop keeps: the logger is quiet, the buffers have their sizes and
    the driver's context is ready. *)
Record serving (dev : device_entry) (log : tag_ptr) (reply : bytes) (w : W) : Prop := Serving {
  sv_idle : idle log reply w;
  sv_bytes : is_bytes reply;
  sv_ready : exists k, entry_driver dev = Some k /\ net_ready k (entry_context dev) w
}.

Lemma serving_transmit dev log reply reply' n w :
  serving dev log reply w -> len reply' = len reply -> is_bytes reply' ->
  0 < n <= ETH_FRAME_MAX -> buffer + n <= len reply ->
  exists r w', netdev_transmit (Some dev) (Some (reply', buffer)) n w = Ok (r, w') /\
    serving dev log reply' w'.
Proof.
  intros [[Hq Hl] _ (k & Hk & Hready)] Hl' Hb Hn Hn'.
  unfold buffer, ETH_ALIGNMENT_OFFSET in *.
  destruct (transmit_ok k (entry_context dev) reply' 2 n w) as (r & w' & E & Hready');
    [done|lia|done|lia|done|].
  exists r, w'. split.
  - cbn [netdev_transmit]. destruct (Z.eqb_spec n 0); [lia|]. by rewrite Hk.
  - split; [|done|by exists k]. split; [|by rewrite Hl'].
    unfold quiet, klog_tag in *. by rewrite (transmit_log _ _ _ _ _ _ _ _ E).
Qed.

Lemma is_bytes_put_frame reply frame :
  is_bytes reply -> is_bytes frame -> is_bytes (put_frame reply frame).
Proof.
  intros Hr Hf. unfold put_frame. rewrite !is_bytes_app. split_and!; [|done|].
  - by apply Forall_take.
  - by apply Forall_drop.
Qed.

Lemma is_bytes_answer_frame mac g a :
  is_bytes mac -> is_bytes (sg_mac g) -> is_bytes (an_payload a) ->
  is_bytes (answer_frame mac g a).
Proof.
  intros. unfold answer_frame, tcp_frame. rewrite !is_bytes_app. split_and!; try done.
  - apply is_bytes_be16.
  - apply is_bytes_ipv4_header; unfold is_u8, IPPROTO_TCP; lia.
  - by apply tcp_segment_bytes_is_bytes.
Qed.

Lemma transmit_answers_serving dev mac g log l : forall reply w,
  len mac = 6 -> is_bytes mac -> segment_ok g -> is_bytes (sg_mac g) ->
  Forall answer_ok l -> serving dev log reply w ->
  exists r w', transmit_answers dev mac g reply l w = Ok (r, w') /\ serving dev log r w'.
Proof.
  induction l as [|a l IH]; intros reply w Hm Hmb Hg Hgb Hl Hs; [by exists reply, w|].
  apply Forall_cons in Hl as [[Hab Ha] Hl']. cbn [transmit_answers]. cbv zeta.
  assert (Hf : len (answer_frame mac g a) = 54 + len (an_payload a))
    by by apply answer_frame_len.
  pose proof (len_nonneg (an_payload a)). pose proof (proj2 (sv_idle _ _ _ _ Hs)) as Hr.
  unfold HTTP_HELLO_BUFFER_SIZE, ETH_ALIGNMENT_OFFSET in Hr.
  destruct (serving_transmit dev log reply (put_frame reply (answer_frame mac g a))
              (len (answer_frame mac g a)) w Hs) as (res & w1 & E & Hs1).
  - rewrite put_frame_len; [done|lia].
  - apply is_bytes_put_frame; [apply Hs|by apply is_bytes_answer_frame].
  - unfold ETH_FRAME_MAX. lia.
  - unfold buffer, ETH_ALIGNMENT_OFFSET. lia.
  - rewrite (St_bind_ok _ _ _ _ _ E). by apply IH.
Qed.

Lemma arp_reply_serving dev mac log b reply w :
  len b = 2050 -> is_bytes b -> len mac = 6 -> is_bytes mac -> serving dev log reply w ->
  exists r, (target_ip ← ntohl_unaligned b 40; sender_ip ← ntohl_unaligned b 30;
             sender_mac ← load b 24 6;
             arp_build_reply reply buffer mac target_ip sender_mac sender_ip) = Ok r /\
    is_bytes r /\ len r = len reply.
Proof.
  intros Hl Hb Hm Hmb [[_ Hr] Hrb _]. unfold HTTP_HELLO_BUFFER_SIZE, ETH_ALIGNMENT_OFFSET in Hr.
  destruct (ntohl_ok b 40) as [tip ->]; [lia..|]. destruct (ntohl_ok b 30) as [sip ->]; [lia..|].
  destruct (split_at b 24 6) as (h & tm & t & -> & Hh & Htm); [lia..|].
  assert (E : load (h ++ tm ++ t) 24 6 = Ok tm) by (rewrite <- Hh, <- Htm at 1; apply load_ok).
  cbn [mbind res_bind]. rewrite E. cbn [mbind res_bind].
  destruct (split_at reply 2 42) as (h' & m & t' & -> & Hh' & Hml); [lia..|].
  unfold buffer, ETH_ALIGNMENT_OFFSET. rewrite <- Hh'.
  rewrite arp_build_reply_spec by done. eexists. split; [done|].
  rewrite !is_bytes_app in *. destruct Hrb as (? & ? & ?), Hb as (? & ? & ?). split.
  - split_and!; [done| |done]. unfold arp_packet, arp_body, ETH_P_ARP, ARP_HW_ETHER, ETH_P_IP,
      ARP_OP_REPLY. solve_bytes.
  - rewrite !len_app, arp_packet_len by done. lia.
Qed.

Lemma handle_frame_serving dev mac log result b n reply isn w :
  len b = 2050 -> is_bytes b -> len mac = 6 -> is_bytes mac -> serving dev log reply w ->
  exists r i w', handle_frame dev mac log result b n reply isn w = Ok (r, i, w') /\
    serving dev log r w'.
Proof.
  intros Hl Hb Hm Hmb Hs. unfold handle_frame. cbv zeta.
  assert (Hskip : exists r i w', mret (M := St W) (reply, isn) w = Ok (r, i, w') /\
                    serving dev log r w') by (by exists reply, isn, w).
  destruct (negb (result =? 0) || (n =? 0)) eqn:Er; [done|].
  destruct (Z.ltb_spec n sizeof_eth_hdr); [done|].
  destruct (ntohs_ok b 14) as [ty Hty]; [lia..|].
  rewrite (St_bind_ok _ _ w _ w (lift_ok _ _ w Hty)).
  destruct (Z.eqb_spec ty ETH_P_ARP) as [->|_].
  { destruct (ntohs_ok b 22) as [op Hop]; [lia..|].
    rewrite (St_bind_ok _ _ w _ w (lift_ok _ _ w Hop)).
    destruct (op =? ARP_OP_REQUEST); [|done].
    destruct (arp_reply_serving dev mac log b reply w Hl Hb Hm Hmb Hs) as (r & E & Hrb & Hrl).
    rewrite (St_bind_ok _ _ w _ w (lift_ok _ _ w E)).
    pose proof (proj2 (sv_idle _ _ _ _ Hs)) as Hr.
    unfold HTTP_HELLO_BUFFER_SIZE, ETH_ALIGNMENT_OFFSET in Hr.
    destruct (serving_transmit dev log reply r ARP_PACKET_SIZE w Hs) as (x & w1 & E1 & Hs1);
      [done|done|done|rewrite Hr; unfold buffer, ETH_ALIGNMENT_OFFSET, ARP_PACKET_SIZE; lia|].
    rewrite (St_bind_ok _ _ _ _ _ E1), debug_bind by apply Hs1. by exists r, isn, w1. }
  destruct (Z.eqb_spec ty ETH_P_IP) as [->|_]; [|done]. cbn [negb].
  destruct (Z.ltb_spec n (sizeof_eth_hdr + sizeof_ipv4_hdr + sizeof_tcp_hdr)); [done|].
  destruct (rd_in_range b 25) as (pr & Hpr & _); [lia|].
  rewrite (St_bind_ok _ _ w _ w (lift_ok _ _ w Hpr)).
  destruct (Z.eqb_spec pr IPPROTO_TCP) as [->|_]; [|done]. cbn [negb].
  destruct (ntohs_ok b 38) as [port Hport]; [lia..|].
  rewrite (St_bind_ok _ _ w _ w (lift_ok _ _ w Hport)).
  destruct (Z.eqb_spec port HTTP_HELLO_PORT) as [->|_]; [|done]. cbn [negb].
  destruct (segment_exists b Hl Hty Hpr Hport) as [g Hat].
  pose proof (segment_at_ok b g Hb Hat) as Hg.
  assert (Hgb : is_bytes (sg_mac g)).
  { destruct (load_inv _ _ _ _ (at_mac b g Hat)) as (_ & h & t & -> & _).
    rewrite !is_bytes_app in Hb. tauto. }
  rewrite (handle_tcp_spec dev mac log b n reply isn g w Hm Hg Hat (sv_idle _ _ _ _ Hs)).
  destruct (answers_ok isn g) as (Ha1 & Ha2 & Ha3).
  destruct (transmit_answers_serving dev mac g log (answers isn g) reply w) as (r & w' & E & Hs');
    [done..|by repeat apply Forall_app_2|done|].
  rewrite (St_bind_ok _ _ _ _ _ E). by eexists _, _, w'.
Qed.

Definition http_inv (dev : device_entry) (log : tag_ptr) (s : http_state) (w : W) : Prop :=
  serving dev log (tx_storage s) w /\ len (rx_storage s) = 2050 /\ is_bytes (rx_storage s).

Lemma http_iteration_inv dev mac log s w :
  len mac = 6 -> is_bytes mac -> http_inv dev log s w ->
  exists s' w', http_iteration dev mac log s w = Ok (s', w') /\ http_inv dev log s' w'.
Proof.
  intros Hm Hmb ([[Hq Hl] Hrb (k & Hk & Hready)] & Hlb & Hb). unfold http_iteration.
  destruct (receive_ok k (entry_context dev) (rx_storage s) buffer HTTP_HELLO_BUFFER_SIZE 0 w)
    as (r & b' & l' & w1 & E & Hready' & Hlog & Hlb' & Hb');
    [done|unfold buffer, ETH_ALIGNMENT_OFFSET; lia|unfold HTTP_HELLO_BUFFER_SIZE; lia
    |unfold buffer, ETH_ALIGNMENT_OFFSET, HTTP_HELLO_BUFFER_SIZE; lia|done|].
  rewrite (St_bind_ok _ _ w (r, Some (b', buffer), Some l') w1).
  2:{ cbn [netdev_receive]. rewrite Hk. by rewrite (St_bind_ok _ _ _ _ _ E). }
  destruct (handle_frame_serving dev mac log r b' (default 0 (Some l')) (tx_storage s) (isn s) w1)
    as (reply & i & w2 & E2 & Hs2); [lia|done|done|done| |].
  { split; [|done|by exists k]. split; [|done]. unfold quiet, klog_tag in *. by rewrite Hlog. }
  rewrite (St_bind_ok _ _ w1 _ w2 E2). eexists _, w2. split; [done|].
  split; [done|]. split; [cbn; lia|done].
Qed.

(* ------------------------------------------------------------------ *)
(** ** Properties *)

(** The HTTP response fits its 192-byte buffer for every client address, says
    200 OK with the greeting of that address, and its Content-Length is the decimal
    length of the body. *)
Theorem http_response_correct ip :
  exists buf,
    build_http_response (replicate 192 0) ip = Ok (buf, len (http_response ip)) /\
    load buf 0 (len (http_response ip)) = Ok (http_response ip) /\
    len buf = 192 /\ len (http_response ip) <= 112 /\
    parse_dec (net_print_decimal_u8 (len (hello_body ip))) = len (hello_body ip).
Proof using.
  destruct (http_response_len ip) as [Hl _]. destruct (hello_body_len ip) as [Hb _].
  rewrite build_http_response_spec.
  destruct (store_in_range (replicate 192 0) 0 (http_response ip)) as [buf E];
    [lia|change (len (replicate 192 0)) with 192; lia|].
  exists buf. rewrite E. split; [done|]. pose proof (store_len _ _ _ _ E) as Hlen.
  apply store_inv in E as (h & m & t & _ & Hh & _ & ->). split.
  - assert (h = []) as -> by (destruct h; [done|rewrite len_cons in Hh; pose proof (len_nonneg h); lia]).
    exact (load_ok [] (http_response ip) t).
  - rewrite Hlen. split; [done|]. split; [lia|]. apply decimal_u8. unfold is_u8. lia.
Qed.

(** C19: On a TCP segment for port 80 with consistent lengths, the log level of the tag
    below DEBUG, the loop body transmits exactly the answers of the specification, in
    order (SYN+ACK with a fresh sequence number, the HTTP response, pushed but without a
    FIN, the ACK of a FIN), each in a frame back to the sender with valid IPv4 and TCP
    checksums, and advances the sequence counter exactly for a SYN. *)
Theorem http_answers_segment dev mac log b n reply isn g w :
  len mac = 6 -> is_bytes b -> segment_at b g -> idle log reply w ->
  sizeof_eth_hdr + sizeof_ipv4_hdr + sizeof_tcp_hdr <= n ->
  handle_frame dev mac log 0 b n reply isn w =
    (r ← transmit_answers dev mac g reply (answers isn g);
     mret (r, if has_flag g TCP_FLAG_SYN then u32 (isn + 1) else isn)) w /\
  forall a, a ∈ answers isn g -> exists iph seg,
    answer_frame mac g a = sg_mac g ++ mac ++ be16 ETH_P_IP ++ iph ++ seg /\
    sum_valid (be_sum iph) /\
    sum_valid (pseudo_sum (sg_dst_ip g) (sg_src_ip g) (20 + len (an_payload a)) + be_sum seg) /\
    exists hdr, seg = hdr ++ an_payload a /\ len hdr = 20.
Proof.
  intros Hm Hb Hat Hi Hn. pose proof (segment_at_ok b g Hb Hat) as Hg. split.
  - rewrite handle_frame_segment with (g := g) by done. by apply handle_tcp_spec.
  - intros a Ha. assert (answer_ok a) as [Hab Hal].
    { destruct (answers_ok isn g) as (H1' & H2' & H3').
      assert (Forall answer_ok (answers isn g)) as Hall by (by repeat apply Forall_app_2).
      rewrite Forall_forall in Hall. by apply Hall. }
    eexists _, _. split; [reflexivity|]. split.
    + apply ipv4_header_sum_valid; unfold is_u8, IPPROTO_TCP; lia.
    + split; [apply tcp_segment_sum_valid; [done|lia]|].
      eexists. split; [reflexivity|]. apply tcp_header_len.
Qed.

(** C20: With the log level of its tag below DEBUG, whatever frames arrive, the server
    never reads or writes outside its buffers and never stops: any number of iterations
    completes, given drivers that keep their contract.  (At DEBUG the frames are printed,
    and ethernet_print reads outside a malformed one.) *)
Theorem http_server_safe n dev mac log s w :
  len mac = 6 -> is_bytes mac -> http_inv dev log s w ->
  exists s' w', http_loop n dev mac log s w = Ok (s', w') /\ http_inv dev log s' w'.
Proof.
  intros Hm Hmb. revert s w. induction n as [|n IH]; intros s w Hs; [by exists s, w|].
  cbn [http_loop]. destruct (http_iteration_inv dev mac log s w Hm Hmb Hs) as (s1 & w1 & E & Hs1).
  rewrite (St_bind_ok _ _ _ _ _ E). by apply IH.
Qed.
End answers.

(* ------------------------------------------------------------------ *)
(** ** A sample world: frames queued to arrive and frames sent *)

Module http_sample.
Record world := World { io : console; arriving : list bytes; sent : list bytes }.

Definition world_console : Console world := {|
  con_write s w := World (con_write s (io w)) (arriving w) (sent w);
  con_log w := con_log (io w);
  con_set_log st w := World (con_set_log st (io w)) (arriving w) (sent w) |}.
#[local] Existing Instance world_console.

Definition world_net : NetDriver world := {|
  drv_get_mac _ _ m := mret (0, m);
  drv_transmit _ _ b o n w :=
    match load b o n with
    | Ok f => Ok (0, World (io w) (arriving w) (sent w ++ [f]))
    | _ => UB
    end;
  drv_receive _ _ b o n l w :=
    match arriving w with
    | f :: q =>
        match (if len f <=? n then store b o f else UB) with
        | Ok b' => Ok (0, b', len f, World (io w) q (sent w))
        | _ => Ok (-1, b, l, w)
        end
    | [] => Ok (-1, b, l, w)
    end;
  net_acquire _ _ w := Ok (Some O, w);
  net_print_tag _ _ := Ok [] |}.
#[local] Existing Instance world_net.

Definition world_console_laws : ConsoleLaws world.
Proof.
  split; [done|..].
  - intros [[o l] q s]. unfold con_write at 1. cbn. by rewrite app_nil_r.
  - intros s t [[o l] q x]. unfold con_write. cbn. by rewrite app_assoc.
Defined.

Definition world_net_laws : NetDriverLaws world.
Proof.
  refine {| net_ready _ _ w := Forall is_bytes (arriving w) |}; [done| | |].
  - intros k c b o n w r w'. cbn [drv_transmit world_net].
    destruct (load b o n); [|done..]. by intros [= _ <-].
  - intros k c b o n w Hw Ho Hn Hl _. cbn [drv_transmit world_net].
    destruct (split_at b o n) as (h & m & t & -> & <- & <-); [lia..|].
    rewrite load_ok. by eexists _, _.
  - intros k c b o n l w Hw Ho Hn Hl Hb. cbn [drv_receive world_net].
    destruct (arriving w) as [|f q] eqn:Eq.
    { eexists _, _, _, _. split; [done|]. by rewrite Eq. }
    apply Forall_cons in Hw as [Hf Hq].
    destruct (len f <=? n); [|eexists _, _, _, _; split; [done|]; rewrite Eq; by repeat constructor].
    destruct (store b o f) as [b'| |] eqn:Es;
      [|eexists _, _, _, _; split; [done|]; rewrite Eq; by repeat constructor..].
    eexists _, _, _, _. split; [done|]. split; [done|]. split; [done|].
    split; [by apply (store_len _ _ _ _ Es)|].
    apply store_inv in Es as (h & m & t & -> & _ & _ & ->).
    rewrite !is_bytes_app in *. tauto.
Defined.

Definition client_mac : bytes := [2; 0; 0; 0; 0; 1].
Definition server_mac : bytes := [2; 0; 0; 0; 0; 2].
(** 10.0.2.2 and 10.0.2.15 as stored in memory. *)
Definition client_ip : Z := 0x0202000A.
Definition server_ip : Z := 0x0F02000A.
Definition segment_of (flags : Z) (payload : bytes) : bytes :=
  tcp_frame client_mac server_mac client_ip server_ip 49152 80 99 500 flags 65535 payload.

(** A frame as it lies in the receive buffer. *)
Definition received (frame : bytes) : bytes :=
  [0; 0] ++ frame ++ replicate (2048 - length frame) 0.
Definition dev : device_entry :=
  DeviceEntry (Some O) (Some E1000) (Some (NetCtx E1000 NETDEV_POOL 0)).
Definition storage : bytes := replicate 2050 0.
Definition start (frames : list bytes) : world :=
  World (ConsoleState [] (LogState [LogTag (str "http-hello") LOG_INFO] LOG_INFO false []))
    frames [].
Definition log : tag_ptr := Some O.

(** A SYN that carries data. *)
Definition request : bytes := segment_of (Z.lor TCP_FLAG_SYN TCP_FLAG_ACK) (str "GET /").
Definition request_segment : segment :=
  Segment client_mac client_ip server_ip 0x0A000202 49152 99 500
    (Z.lor TCP_FLAG_SYN TCP_FLAG_ACK) 5.

(** An ACK without data whose data offset field says 60 bytes. *)
Definition short_segment : bytes :=
  let f := segment_of TCP_FLAG_ACK [] in take 46 f ++ [0xF0] ++ drop 47 f.
(** A FIN with five bytes of data. *)
Definition fin_segment : bytes := segment_of (Z.lor TCP_FLAG_FIN TCP_FLAG_ACK) (str "GET /").

(** What the server sends for one frame. *)
Definition sent_for (frame : bytes) : res (list bytes) :=
  let _ : Arch := RISCV in
  match http_iteration dev server_mac log (HttpState storage storage 1000) (start [frame]) with
  | Ok (_, w) => Ok (sent w) | UB => UB | NoFuel => NoFuel
  end.
End http_sample.

Lemma http_answers_segment_witness :
  let _ : Arch := RISCV in
  let b := http_sample.received http_sample.request in
  let g := http_sample.request_segment in
  segment_at b g /\
  exists r w, @handle_frame _ RISCV http_sample.world_console http_sample.world_net
    http_sample.dev http_sample.server_mac http_sample.log 0 b 59 http_sample.storage 1000
    (http_sample.start []) = Ok (r, w) /\ snd r = 1001 /\
    http_sample.sent w = answer_frame http_sample.server_mac g <$> answers 1000 g /\
    an_flags <$> answers 1000 g
    = [Z.lor TCP_FLAG_SYN TCP_FLAG_ACK; Z.lor TCP_FLAG_PSH TCP_FLAG_ACK].
Proof.
  intros a b g.
  assert (Hat : segment_at b g).
  { split; try (vm_compute; reflexivity).
    exists 45, 80. split_and!; vm_compute; reflexivity. }
  split; [exact Hat|].
  pose proof (@http_answers_segment _ RISCV http_sample.world_console
    http_sample.world_console_laws http_sample.world_net http_sample.world_net_laws
    http_sample.dev http_sample.server_mac http_sample.log b 59
    http_sample.storage 1000 g (http_sample.start [])) as Hw.
  destruct Hw as [Hw _].
  - reflexivity.
  - apply is_bytes_str_check. vm_compute. reflexivity.
  - exact Hat.
  - split; vm_compute; reflexivity.
  - unfold sizeof_eth_hdr, sizeof_ipv4_hdr, sizeof_tcp_hdr. lia.
  - eexists _, _. split; [rewrite Hw; vm_compute; reflexivity|].
    repeat split; vm_compute; reflexivity.
Defined.

Lemma http_server_safe_witness :
  exists s' w',
    @http_loop _ RISCV http_sample.world_console http_sample.world_net 3 http_sample.dev
      http_sample.server_mac http_sample.log
      (HttpState http_sample.storage http_sample.storage 1000)
      (http_sample.start [http_sample.request; http_sample.short_segment]) = Ok (s', w') /\
    @http_inv _ _ _ http_sample.world_net_laws http_sample.dev http_sample.log s' w'.
Proof.
  apply (@http_server_safe _ RISCV http_sample.world_console http_sample.world_console_laws
    http_sample.world_net http_sample.world_net_laws).
  - reflexivity.
  - apply is_bytes_str_check. vm_compute. reflexivity.
  - split; [|split; [reflexivity|apply is_bytes_str_check; vm_compute; reflexivity]].
    split.
    + split; vm_compute; reflexivity.
    + apply is_bytes_str_check. vm_compute. reflexivity.
    + exists E1000. split; [reflexivity|]. cbn.
      apply Forall_cons_2; [apply is_bytes_str_check; vm_compute; reflexivity|].
      apply Forall_cons_2; [apply is_bytes_str_check; vm_compute; reflexivity|].
      apply Forall_nil_2.
Defined.

(** Two answers the server should not give: a segment without data whose data
    offset exceeds the packet is answered with the HTTP response, its payload
    length having wrapped around 16 bits; and a FIN that carries data is
    acknowledged one past its sequence number, below the data already
    acknowledged. *)
Theorem http_wrong_answers :
  (exists f, http_sample.sent_for http_sample.short_segment = Ok [f] /\ 54 < len f) /\
  (exists f1 f2, http_sample.sent_for http_sample.fin_segment = Ok [f1; f2] /\
     ntohl_unaligned f1 42 = Ok (99 + 5) /\ ntohl_unaligned f2 42 = Ok (99 + 1)).
Proof.
  split.
  - eexists. split; [vm_compute; reflexivity|vm_compute; reflexivity].
  - eexists _, _. split; [vm_compute; reflexivity|split; vm_compute; reflexivity].
Qed.
