(* ===== verification/PacketPrint.v ===== *)
(** The packet printer (apps/packet-print/packet_print.c): it prints every frame,
    answers ARP, ICMP echo and "ping-<n>" datagrams for its address, and stops
    after the first request.  Loops with the shape of ones in http_hello.c and
    net_utils.h share their definitions. *)

From S2P Require Export HttpHello.

Open Scope Z_scope.

Definition PACKET_PRINT_BUFFER_SIZE : Z := 2048.
Definition PACKET_PRINT_IP_ADDR : Z := IPV4 10 0 2 15.
Definition PACKET_PRINT_UDP_PORT : Z := 5000.
Definition PACKET_PRINT_IPV4_PORT : Z := 8080.
Definition PACKET_PRINT_MAX_PAYLOAD_DISPLAY : Z := 64.

(** Arithmetic of [int]: a result out of range is undefined. *)
Definition int_result (x : Z) : res Z := if (- 2 ^ 31 <=? x) && (x <? 2 ^ 31) then Ok x else UB.

(* ------------------------------------------------------------------ *)
(** ** The payload of a datagram and of its answer *)

(** The characters shown of a payload at [o]; [char] is signed or not, a byte above
    126 is a dot either way. *)
Definition display_payload (b : bytes) (o payload_len : Z) : out :=
  for_n (Z.to_nat (Z.min payload_len PACKET_PRINT_MAX_PAYLOAD_DISPLAY)) (fun i acc =>
    c ← rd b (o + Z.of_nat i);
    mret (acc ++ if (32 <=? c) && (c <=? 126) then putchar c else putchar 46)) [].

(** [payload[0] == 'p' && payload[1] == 'i' && ...]. *)
Fixpoint starts_with (b : bytes) (o : Z) (lit : cstr) : res bool :=
  match lit with
  | [] => Ok true
  | c :: lit => x ← rd b o; if x =? c then starts_with b (o + 1) lit else Ok false
  end.

(** The loop that reads the number after "ping-"; it stays inside the object or is
    undefined, so its size is enough fuel. *)
Fixpoint parse_number (fuel : nat) (b : bytes) (o i payload_len num : Z) : res Z :=
  match fuel with
  | O => NoFuel
  | S fuel =>
      if i <? payload_len then
        c ← rd b (o + i);
        if (48 <=? c) && (c <=? 57) then
          ten ← int_result (num * 10);
          num ← int_result (ten + (c - 48));
          parse_number fuel b o (i + 1) payload_len num
        else Ok num
      else Ok num
  end.

(** [num_str] reversed in place. *)
Definition reverse_digits (num_str : bytes) (num_len : Z) : res bytes :=
  for_n (Z.to_nat (num_len / 2)) (fun i s =>
    let i := Z.of_nat i in
    tmp ← rd s i;
    other ← rd s (num_len - 1 - i);
    s ← wr s i other;
    wr s (num_len - 1 - i) tmp) num_str.

(** "pong-" and the successor: the buffer and the length used. *)
Definition pong_payload (num : Z) : res (bytes * Z) :=
  '(buf, response_len) ← append (replicate 64 0) 0 0 (str "pong-");
  response_num ← int_result (num + 1);
  '(num_str, num_len) ←
    (if response_num =? 0 then s ← wr (replicate 16 0) 0 48; mret (s, 1)
     else
       '(s, n) ← dec_loop 17 (replicate 16 0) 0 response_num;
       s ← reverse_digits s n;
       mret (s, n));
  buf ← copy_payload buf response_len num_str num_len;
  mret (buf, response_len + num_len).

Section packet_print.
  Context {W : Type} `{Arch} `{Console W} `{NetDriver W}.

(** Offsets in the receive and reply buffers, which have the same alignment offset. *)
Definition packet_ip : Z := buffer + sizeof_eth_hdr.
Definition packet_payload : Z := buffer + sizeof_eth_hdr + sizeof_ipv4_hdr.

(** The Ethernet and IPv4 headers of a reply to the frame in [b]. *)
Definition reply_headers (b : bytes) (mac reply : bytes) (protocol n : Z) : res bytes :=
  eth_src ← load b (buffer + eth.src) 6;
  reply ← copy_macs reply (buffer + eth.dst) eth_src (buffer + eth.src) mac;
  reply ← st16 reply (buffer + eth.type) (htons ETH_P_IP);
  dst_ip ← ld32 b (packet_ip + ip.dst_ip);
  src_ip ← ld32 b (packet_ip + ip.src_ip);
  ipv4_build_header reply packet_ip dst_ip src_ip protocol n 64.

(** netdev_transmit of the reply; [true] when it was sent. *)
Definition send_reply (dev : device_entry) (log : tag_ptr) (reply : bytes) (n : Z)
    (msg : string) : St W bool :=
  result ← netdev_transmit (Some dev) (Some (reply, buffer)) n;
  if result =? 0 then _ ← klog_info log msg; mret true else mret false.

(** The answer to "ping-<n>": its bytes and its length. *)
Definition build_pong (b : bytes) (mac reply : bytes) (payload_len : Z) : res (bytes * Z) :=
  let udp := packet_payload in
  num ← parse_number (S (length b)) b (udp + sizeof_udp_hdr) 5 payload_len 0;
  '(buf, response_len) ← pong_payload num;
  reply ← reply_headers b mac reply IPPROTO_UDP (sizeof_udp_hdr + response_len);
  src_port ← ntohs_unaligned b (udp + udp.dst_port);
  dst_port ← ntohs_unaligned b (udp + udp.src_port);
  reply ← udp_build_header reply udp src_port dst_port response_len;
  reply ← copy_payload reply (udp + sizeof_udp_hdr) buf response_len;
  mret (reply, sizeof_eth_hdr + sizeof_ipv4_hdr + sizeof_udp_hdr + response_len).

(** A datagram for the address and the port. *)
Definition handle_udp (dev : device_entry) (mac : bytes) (log : tag_ptr) (b reply : bytes)
    : St W (bytes * bool) :=
  let payload := packet_payload + sizeof_udp_hdr in
  l ← lift (ntohs_unaligned b (packet_payload + udp.length));
  let payload_len := u64 (l - sizeof_udp_hdr) in
  info ← klog_enabled log LOG_INFO;
  _ ← when info
        (_ ← klog_prefix log LOG_INFO;
         kput (puts (str "Received UDP payload: ") +++ display_payload b payload payload_len
               +++ puts nl)%out);
  if payload_len <? 6 then mret (reply, false) else
  ping ← lift (starts_with b payload (str "ping-"));
  if negb ping then mret (reply, false) else
  '(reply, total_len) ← lift (build_pong b mac reply payload_len);
  sent ← send_reply dev log reply total_len "Sent UDP echo reply
";
  mret (reply, sent).

(** An ICMP packet for the address. *)
Definition handle_icmp (dev : device_entry) (mac : bytes) (log : tag_ptr) (b reply : bytes)
    : St W (bytes * bool) :=
  '(ok, outs) ← lift (icmp_parse b (Some packet_payload) sizeof_icmp_hdr
                        (IcmpOut (Some 0) None (Some 0) (Some 0)));
  if negb ok then mret (reply, false) else
  if negb (default 0 (out_type outs) =? ICMP_ECHO_REQUEST) then mret (reply, false) else
  reply ← lift (
    reply ← reply_headers b mac reply IPPROTO_ICMP sizeof_icmp_hdr;
    icmp_build_response reply packet_payload (default 0 (out_id outs))
      (default 0 (out_sequence outs)));
  sent ← send_reply dev log reply (sizeof_eth_hdr + sizeof_ipv4_hdr + sizeof_icmp_hdr)
           "Sent ICMP echo reply
";
  mret (reply, sent).

(** An IPv4 packet. *)
Definition handle_ip (dev : device_entry) (mac : bytes) (log : tag_ptr) (b : bytes)
    (received_length : Z) (reply : bytes) : St W (bytes * bool) :=
  protocol ← lift (rd b (packet_ip + ip.protocol));
  let dst_ip := lift (ntohl_unaligned b (packet_ip + ip.dst_ip)) in
  if protocol =? IPPROTO_UDP then
    dst_ip ← dst_ip;
    if negb (dst_ip =? PACKET_PRINT_IP_ADDR) then mret (reply, false) else
    dst_port ← lift (ntohs_unaligned b (packet_payload + udp.dst_port));
    if negb (dst_port =? PACKET_PRINT_UDP_PORT) then mret (reply, false) else
    handle_udp dev mac log b reply
  else if protocol =? IPPROTO_TCP then
    if received_length <? sizeof_eth_hdr + sizeof_ipv4_hdr + sizeof_tcp_hdr
    then mret (reply, false) else
    dst_ip ← dst_ip;
    if negb (dst_ip =? PACKET_PRINT_IP_ADDR) then mret (reply, false) else
    dst_port ← lift (ntohs_unaligned b (packet_payload + tcp.dst_port));
    if negb (dst_port =? PACKET_PRINT_IPV4_PORT) then mret (reply, false) else
    _ ← klog_info log "TCP packet received
";
    mret (reply, true)
  else if protocol =? IPPROTO_ICMP then
    if received_length <? sizeof_eth_hdr + sizeof_ipv4_hdr + sizeof_icmp_hdr
    then mret (reply, false) else
    dst_ip ← dst_ip;
    if negb (dst_ip =? PACKET_PRINT_IP_ADDR) then mret (reply, false) else
    handle_icmp dev mac log b reply
  else mret (reply, false).

(** An ARP packet. *)
Definition handle_arp (dev : device_entry) (mac : bytes) (log : tag_ptr) (b reply : bytes)
    : St W bytes :=
  let arp_req := buffer + sizeof_eth_hdr in
  '(opcode, target_ip) ← lift (
    opcode ← ntohs_unaligned b (arp_req + arp.opcode);
    target_ip ← ntohl_unaligned b (arp_req + arp.target_ip);
    mret (opcode, target_ip));
  if (opcode =? ARP_OP_REQUEST) && (target_ip =? PACKET_PRINT_IP_ADDR) then
    reply ← lift (
      sender_ip ← ntohl_unaligned b (arp_req + arp.sender_ip);
      sender_mac ← load b (arp_req + arp.sender_mac) 6;
      arp_build_reply reply buffer mac PACKET_PRINT_IP_ADDR sender_mac sender_ip);
    result ← netdev_transmit (Some dev) (Some (reply, buffer)) ARP_PACKET_SIZE;
    _ ← when (result =? 0) (klog_debug log "Sent ARP reply
");
    mret reply
  else mret reply.

(** The loop body after a receive; the flag is handled_request. *)
Definition handle_packet (dev : device_entry) (mac : bytes) (log : tag_ptr) (result : Z)
    (b : bytes) (received_length : Z) (reply : bytes) : St W (bytes * bool) :=
  if negb ((result =? 0) && (0 <? received_length)) then mret (reply, false) else
  info ← klog_enabled log LOG_INFO;
  w ← gets id;
  _ ← when info (kput (ethernet_print (fun r => net_print_tag w (Some r)) b (Some buffer)
                         received_length (entry_resource dev) 0));
  if received_length <? sizeof_eth_hdr + sizeof_ipv4_hdr + sizeof_udp_hdr
  then mret (reply, false) else
  eth_type ← lift (ntohs_unaligned b (buffer + eth.type));
  if eth_type =? ETH_P_IP then handle_ip dev mac log b received_length reply
  else if eth_type =? ETH_P_ARP then
    reply ← handle_arp dev mac log b reply; mret (reply, false)
  else mret (reply, false).

(** At most [n] iterations of the loop; the flag is handled_request after them. *)
Fixpoint packet_loop (n : nat) (dev : device_entry) (mac : bytes) (log : tag_ptr)
    (b reply : bytes) : St W (bytes * bytes * bool) :=
  match n with
  | O => mret (b, reply, false)
  | S n =>
      '(result, buf, received_length) ←
        netdev_receive (Some dev) (Some (b, buffer)) PACKET_PRINT_BUFFER_SIZE (Some 0);
      let b := match buf with Some (b, _) => b | None => b end in
      '(reply, handled_request) ← handle_packet dev mac log result b (default 0 received_length)
                                    reply;
      if (handled_request : bool) then mret (b, reply, true) else packet_loop n dev mac log b reply
  end.

(** app_packet_print up to [n] iterations of its loop; [true] when it returned.
    [mac] is uninitialised in the source when netdev_get_mac fails; its bytes are 0
    here. *)
Definition app_packet_print (n : nat) (st : net_statics) : St W (bool * net_statics) :=
  pktprint_log ← klog_register "packet-print" LOG_INFO;
  _ ← klog_info pktprint_log "Starting packet-print application...
";
  '(device_count, devices, st) ← netdev_acquire_all [device_entry_zero] 1 st;
  if device_count <? 1 then
    _ ← klog_error pktprint_log "No network devices found
";
    mret (true, st)
  else
  _ ← klog_debug pktprint_log "Initializing network device...
";
  dev ← lift (rd devices 0);
  '(result, mac) ← netdev_get_mac (Some dev) (Some (replicate 6 0));
  let mac := default [] mac in
  info ← klog_enabled pktprint_log LOG_INFO;
  _ ← when ((result =? 0) && info)
        (_ ← klog_prefix pktprint_log LOG_INFO;
         kput (puts (str "MAC: ") +++ net_print_mac mac 0 +++ puts nl)%out);
  info ← klog_enabled pktprint_log LOG_INFO;
  _ ← when info
        (_ ← klog_prefix pktprint_log LOG_INFO;
         kput (puts (str "Listening for UDP packets on port ")
               +++ net_print_decimal_u16 PACKET_PRINT_UDP_PORT +++ puts (str "..." ++ nl))%out);
  let storage := replicate (Z.to_nat (PACKET_PRINT_BUFFER_SIZE + ETH_ALIGNMENT_OFFSET)) 0 in
  '(_, _, handled) ← packet_loop n dev mac pktprint_log storage storage;
  mret (handled, st).
End packet_print.

(* ------------------------------------------------------------------ *)
(** ** Specification *)

Definition is_digit (c : Z) : Prop := 48 <= c <= 57.
(** The value of digits after a number already read. *)
Definition number_from (num : Z) (ds : bytes) : Z := foldl (fun acc c => acc * 10 + (c - 48)) num ds.
(** The decimal numeral of a positive number. *)
Definition decimal (v : Z) : bytes := rev (digits 17 v).
Definition pong (num : Z) : bytes := str "pong-" ++ decimal (num + 1).

(** The longest prefix of digits. *)
Fixpoint digit_prefix (s : bytes) : bytes :=
  match s with
  | [] => []
  | c :: s => if (48 <=? c) && (c <=? 57) then c :: digit_prefix s else []
  end.

(* ------------------------------------------------------------------ *)
(** ** Lemmas: numbers *)

Lemma digit_prefix_digits s : Forall is_digit (digit_prefix s).
Proof.
  induction s as [|c s IH]; cbn [digit_prefix]; [constructor|].
  destruct (Z.leb_spec 48 c), (Z.leb_spec c 57); cbn [andb]; try constructor; auto. by split.
Qed.

Lemma number_from_le ds : forall num, 0 <= num -> Forall is_digit ds -> num <= number_from num ds.
Proof.
  induction ds as [|c ds IH]; intros num Hn Hd; [reflexivity|].
  apply Forall_cons in Hd as [Hc Hd]. unfold is_digit in Hc.
  specialize (IH (num * 10 + (c - 48)) ltac:(lia) Hd). cbn [number_from foldl] in *.
  unfold number_from in IH. lia.
Qed.

(** The parser computes the value of the digits, when every prefix is an [int]. *)
Lemma parse_number_spec fuel : forall b o i num payload,
  load b (o + i) (len payload) = Ok payload -> 0 <= num < 2 ^ 31 -> (length payload < fuel)%nat ->
  parse_number fuel b o i (i + len payload) num =
  let v := number_from num (digit_prefix payload) in if v <? 2 ^ 31 then Ok v else UB.
Proof.
  induction fuel as [|fuel IH]; intros b o i num payload Hl Hn Hf; [lia|]. cbn [parse_number].
  assert (Hstop : number_from num [] <? 2 ^ 31 = true) by (cbn [number_from foldl]; lia).
  destruct payload as [|c s].
  { rewrite len_nil, Z.add_0_r, Z.ltb_irrefl. cbn [digit_prefix]. cbv zeta. by rewrite Hstop. }
  rewrite len_cons in *. pose proof (len_nonneg s). destruct (Z.ltb_spec i (i + (1 + len s))); [|lia].
  destruct (load_inv _ _ _ _ Hl) as (_ & h & t & -> & Hh). rewrite <- Hh.
  rewrite rd_app_r, Z.sub_diag by lia. cbn [app]. change (rd (c :: s ++ t) 0) with (Ok c).
  cbn [mbind res_bind digit_prefix].
  destruct ((48 <=? c) && (c <=? 57)) eqn:Ec; [|cbv zeta; by rewrite Hstop].
  apply andb_true_iff in Ec as [Hc1%Z.leb_le Hc2%Z.leb_le].
  cbn [number_from foldl]. fold (number_from (num * 10 + (c - 48)) (digit_prefix s)). cbv zeta.
  pose proof (number_from_le (digit_prefix s) (num * 10 + (c - 48)) ltac:(lia)
    (digit_prefix_digits s)) as Hle.
  unfold int_result. destruct (Z.leb_spec (- 2 ^ 31) (num * 10)); [|lia].
  destruct (Z.ltb_spec (num * 10) (2 ^ 31)); cbn [andb mbind res_bind];
    [|by rewrite (proj2 (Z.ltb_ge _ _)) by lia].
  destruct (Z.leb_spec (- 2 ^ 31) (num * 10 + (c - 48))); [|lia].
  destruct (Z.ltb_spec (num * 10 + (c - 48)) (2 ^ 31)); cbn [andb mbind res_bind];
    [|by rewrite (proj2 (Z.ltb_ge _ _)) by lia].
  replace (i + (1 + len s)) with (i + 1 + len s) by lia.
  apply IH; [|lia|cbn in Hf; lia].
  replace (o + (i + 1)) with (len (h ++ [c])) by (rewrite len_app, len_cons, len_nil; lia).
  replace (h ++ c :: s ++ t) with ((h ++ [c]) ++ s ++ t) by (by rewrite <- app_assoc).
  apply load_ok.
Qed.

(** After [k] swaps the outer [k] elements on both sides are in place. *)
Lemma reverse_swaps (l t : bytes) k : (k <= length l / 2)%nat -> exists s : bytes,
  for_n k (fun i (s : bytes) =>
    let i := Z.of_nat i in
    tmp ← rd s i; other ← rd s (len l - 1 - i);
    s ← wr s i other; wr s (len l - 1 - i) tmp) (l ++ t) = Ok (s ++ t) /\
  length s = length l /\
  forall j, (j < length l)%nat ->
    s !! j = if decide (j < k \/ length l - 1 - j < k)%nat then reverse l !! j else l !! j.
Proof.
  assert (Hdiv : (2 * (length l / 2) <= length l)%nat) by (apply Nat.Div0.mul_div_le).
  induction k as [|k IH]; intros Hk.
  - exists l. split; [done|]. split; [done|]. intros j Hj. by rewrite decide_False by lia.
  - destruct IH as (s & E & Hs & Hget); [lia|]. unfold for_n in *. rewrite seq_S, foldl_snoc, E.
    cbn [mbind res_bind Nat.add]. cbv zeta.
    destruct (lookup_lt_is_Some_2 l k) as [x Hx]; [lia|].
    destruct (lookup_lt_is_Some_2 l (length l - 1 - k)) as [y Hy]; [lia|].
    assert (s !! k = Some x) as Hsx by (rewrite Hget by lia; by rewrite decide_False by lia).
    assert (s !! (length l - 1 - k)%nat = Some y) as Hsy
      by (rewrite Hget by lia; by rewrite decide_False by lia).
    replace (len l - 1 - Z.of_nat k) with (Z.of_nat (length l - 1 - k)) by (unfold len; lia).
    assert (rd (s ++ t) (Z.of_nat k) = Ok x) as ->
      by (apply rd_ok; [lia|]; by rewrite Nat2Z.id, lookup_app_l by lia).
    cbn [mbind res_bind].
    rewrite (rd_ok _ _ y) by (lia || by rewrite Nat2Z.id, lookup_app_l by lia).
    cbn [mbind res_bind].
    rewrite wr_insert by (unfold len; rewrite length_app; lia). cbn [mbind res_bind].
    rewrite Nat2Z.id, insert_app_l by lia.
    rewrite wr_insert by (unfold len; rewrite length_app, length_insert; lia).
    rewrite Nat2Z.id, insert_app_l by (rewrite length_insert; lia).
    eexists. split; [reflexivity|]. rewrite !length_insert. split; [done|]. intros j Hj.
    destruct (decide (j = length l - 1 - k)%nat) as [->|Hj1].
    { rewrite list_lookup_insert_eq by (rewrite length_insert; lia).
      rewrite decide_True by lia. rewrite reverse_lookup by lia. rewrite <- Hx. f_equal. lia. }
    rewrite list_lookup_insert_ne by done. destruct (decide (j = k)) as [->|Hj2].
    { rewrite list_lookup_insert_eq by lia. rewrite decide_True by lia.
      rewrite reverse_lookup by lia. rewrite <- Hy. f_equal. lia. }
    rewrite list_lookup_insert_ne by done. rewrite Hget by done. repeat case_decide; (done || lia).
Qed.

Lemma reverse_digits_spec (l t : bytes) : reverse_digits (l ++ t) (len l) = Ok (rev l ++ t).
Proof.
  unfold reverse_digits.
  replace (Z.to_nat (len l / 2)) with (length l / 2)%nat
    by (unfold len; change 2 with (Z.of_nat 2); rewrite <- Nat2Z.inj_div; lia).
  destruct (reverse_swaps l t (length l / 2)) as (s & E & Hs & Hget); [lia|].
  etransitivity; [exact E|]. do 2 f_equal. rewrite rev_alt. change (rev_append l []) with (reverse l).
  apply list_eq. intros j. destruct (decide (j < length l)%nat) as [Hj|Hj].
  - rewrite Hget by done. case_decide as Hc; [done|]. rewrite reverse_lookup by done.
    pose proof (Nat.Div0.div_lt_upper_bound (length l) 2 (S (length l / 2))).
    pose proof (Nat.div_mod_eq (length l) 2). pose proof (Nat.mod_upper_bound (length l) 2).
    f_equal. lia.
  - rewrite !lookup_ge_None_2; [done|rewrite length_reverse; lia|lia].
Qed.

Lemma decimal_ok v : 0 < v < 2 ^ 31 ->
  parse_dec (decimal v) = v /\ is_decimal (decimal v) /\ 1 <= len (decimal v) <= 10 /\
  is_bytes (decimal v).
Proof.
  intros Hv. assert (0 < v < 10 ^ Z.of_nat 10) as Hv' by (split; [lia|]; change (10 ^ Z.of_nat 10) with 10000000000; lia).
  unfold decimal. split_and!.
  - apply (digits_value 10); [lia|lia].
  - by apply (is_decimal_digits 10); [|lia].
  - unfold len. rewrite length_rev. cbn [digits]. destruct (Z.ltb_spec 0 v); [|lia]. cbn [length]. lia.
  - unfold len. rewrite length_rev. pose proof (digits_bound 10 17 v). lia.
  - apply Forall_rev, is_bytes_digits.
Qed.

Lemma pong_len num : 0 <= num -> num + 1 < 2 ^ 31 -> 6 <= len (pong num) <= 15 /\ is_bytes (pong num).
Proof.
  intros H0 H1. destruct (decimal_ok (num + 1)) as (_ & _ & Hl & Hb); [lia|].
  unfold pong. rewrite len_app, is_bytes_app. change (len (str "pong-")) with 5.
  split; [lia|]. split; [by apply is_bytes_str_check|done].
Qed.

(** The payload of the answer, in a buffer that is large enough; the successor
    of the largest [int] is undefined. *)
Lemma pong_payload_spec num : 0 <= num < 2 ^ 31 ->
  pong_payload num =
  if num + 1 <? 2 ^ 31 then
    Ok (pong num ++ replicate (64 - length (pong num)) 0, len (pong num))
  else UB.
Proof.
  intros Hn. unfold pong_payload. change (append (replicate 64 0) 0 0 (str "pong-"))
    with (Ok (str "pong-" ++ replicate 59 0, 5)). cbn [mbind res_bind].
  unfold int_result. destruct (Z.leb_spec (- 2 ^ 31) (num + 1)); [|lia].
  destruct (Z.ltb_spec (num + 1) (2 ^ 31)) as [Hlt|]; [|done]. cbn [andb mbind res_bind].
  destruct (Z.eqb_spec (num + 1) 0); [lia|].
  assert (num + 1 < 10 ^ (Z.of_nat 17 - 1)) by (change (10 ^ (Z.of_nat 17 - 1)) with 10000000000000000; lia).
  destruct (decimal_ok (num + 1)) as (_ & _ & Hl & _); [lia|].
  assert (len (digits 17 (num + 1)) <= 10) as Hd
    by (unfold decimal in Hl; unfold len in *; rewrite length_rev in Hl; lia).
  pose proof (dec_loop_spec 17 [] (replicate 16 0) (num + 1)) as E. cbn [app] in E.
  change (len (@nil Z)) with 0 in E. rewrite E by (rewrite ?length_replicate; llia). clear E.
  cbn [mbind res_bind]. rewrite Z.add_0_l, reverse_digits_spec. cbn [mbind res_bind mret res_ret].
  fold (decimal (num + 1)).
  assert (len (digits 17 (num + 1)) = len (decimal (num + 1))) as ->
    by (unfold decimal, len; by rewrite length_rev).
  set (d := decimal (num + 1)) in *.
  assert (replicate 59 0 = replicate (length d) 0 ++ replicate (59 - length d) 0) as ->
    by (rewrite <- replicate_add; f_equal; llia).
  rewrite copy_payload_spec by (done || (unfold len; by rewrite length_replicate)).
  cbn [mbind res_bind mret res_ret]. unfold pong. fold d. rewrite <- app_assoc.
  change (length (str "pong-" ++ d)) with (5 + length d)%nat.
  replace (64 - (5 + length d))%nat with (59 - length d)%nat by lia.
  rewrite len_app. done.
Qed.

(* ------------------------------------------------------------------ *)
(** ** The requests, and the frames that answer them *)

Section requests.
  Context `{Arch}.

(** An IPv4 packet for the address: its protocol, the sender's MAC address, and the
    source and destination as stored in memory. *)
Record ip_at (b : bytes) (protocol : Z) (smac : bytes) (sip dip : Z) : Prop := IpAt {
  ia_type : ntohs_unaligned b 14 = Ok ETH_P_IP;
  ia_protocol : rd b 25 = Ok protocol;
  ia_addr : ntohl_unaligned b 32 = Ok PACKET_PRINT_IP_ADDR;
  ia_mac : load b 8 6 = Ok smac;
  ia_sip : ld32 b 28 = Ok sip;
  ia_dip : ld32 b 32 = Ok dip
}.

(** A datagram for the port, with its payload. *)
Record datagram_at (b smac : bytes) (sip dip sport : Z) (payload : bytes) : Prop := DatagramAt {
  da_ip : ip_at b IPPROTO_UDP smac sip dip;
  da_sport : ntohs_unaligned b 36 = Ok sport;
  da_port : ntohs_unaligned b 38 = Ok PACKET_PRINT_UDP_PORT;
  da_length : ntohs_unaligned b 40 = Ok (8 + len payload);
  da_payload : load b 44 (len payload) = Ok payload
}.

Record echo_at (b smac : bytes) (sip dip id seq : Z) : Prop := EchoAt {
  ea_ip : ip_at b IPPROTO_ICMP smac sip dip;
  ea_type : rd b 36 = Ok ICMP_ECHO_REQUEST;
  ea_id : ntohs_unaligned b 40 = Ok id;
  ea_seq : ntohs_unaligned b 42 = Ok seq
}.

Record who_has_at (b smac : bytes) (sip : Z) : Prop := WhoHasAt {
  wa_type : ntohs_unaligned b 14 = Ok ETH_P_ARP;
  wa_opcode : ntohs_unaligned b 22 = Ok ARP_OP_REQUEST;
  wa_target : ntohl_unaligned b 40 = Ok PACKET_PRINT_IP_ADDR;
  wa_sip : ntohl_unaligned b 30 = Ok sip;
  wa_mac : load b 24 6 = Ok smac
}.

(** A packet with [n] bytes behind its IPv4 header. *)
Definition reply_head (mac their_mac : bytes) (src dst protocol n : Z) : bytes :=
  their_mac ++ mac ++ be16 ETH_P_IP
  ++ ipv4_header (20 + n) (ipv4_sum (20 + n) src dst protocol 64) src dst protocol 64.
Definition udp_frame (mac their_mac : bytes) (src dst sport dport : Z) (payload : bytes) : bytes :=
  reply_head mac their_mac src dst IPPROTO_UDP (8 + len payload)
  ++ (be16 sport ++ be16 dport ++ be16 (8 + len payload) ++ [0; 0]) ++ payload.
Definition echo_frame (mac their_mac : bytes) (src dst id seq : Z) : bytes :=
  reply_head mac their_mac src dst IPPROTO_ICMP 8
  ++ icmp_header ICMP_ECHO_REPLY (icmp_echo_sum ICMP_ECHO_REPLY id seq) id seq.

(** The answer a frame calls for, and whether sending it ends the program. *)
Inductive reaction (mac b : bytes) : bytes -> bool -> Prop :=
  | re_ping smac sip dip sport rest :
      datagram_at b smac sip dip sport (str "ping-" ++ rest) -> rest <> [] ->
      number_from 0 (digit_prefix rest) + 1 < 2 ^ 31 ->
      reaction mac b (udp_frame mac smac dip sip PACKET_PRINT_UDP_PORT sport
                        (pong (number_from 0 (digit_prefix rest)))) true
  | re_echo smac sip dip id seq :
      echo_at b smac sip dip id seq -> reaction mac b (echo_frame mac smac dip sip id seq) true
  | re_who_has smac sip :
      who_has_at b smac sip ->
      reaction mac b (arp_packet smac mac ARP_OP_REPLY mac PACKET_PRINT_IP_ADDR smac sip) false.

(* ------------------------------------------------------------------ *)
(** ** Lemmas: building the answers *)

Lemma reply_head_len mac their src dst protocol n :
  len mac = 6 -> len their = 6 -> len (reply_head mac their src dst protocol n) = 34.
Proof. intros. unfold reply_head. rewrite !len_app, ipv4_header_len, be16_len. lia. Qed.

Lemma udp_frame_len mac their src dst sp dp payload :
  len mac = 6 -> len their = 6 ->
  len (udp_frame mac their src dst sp dp payload) = 42 + len payload.
Proof.
  intros. unfold udp_frame. rewrite !len_app, reply_head_len, !be16_len by done.
  change (len [0; 0]) with 2. lia.
Qed.

Lemma echo_frame_len mac their src dst id seq :
  len mac = 6 -> len their = 6 -> len (echo_frame mac their src dst id seq) = 42.
Proof. intros. unfold echo_frame. by rewrite len_app, reply_head_len. Qed.

Lemma reply_headers_spec b mac h m t protocol smac sip dip p n :
  ip_at b p smac sip dip -> len mac = 6 -> len h = 2 -> len m = 34 -> is_u8 protocol ->
  is_u16 (20 + n) ->
  reply_headers b mac (h ++ m ++ t) protocol n
  = Ok (h ++ reply_head mac smac dip sip protocol n ++ t).
Proof.
  intros [_ _ _ Hmac Hsip Hdip] Hm Hh Hml Hp Hn.
  destruct (load_inv _ _ _ _ Hmac) as [Hsm _].
  destruct (split_at m 6 6) as (m1 & m2 & r & -> & H1 & H2); [lia..|]. rewrite !len_app in Hml.
  destruct (split_at r 2 20) as (e & i & r' & -> & H3 & H4); [lia..|]. rewrite !len_app in Hml.
  destruct r' as [|x r']; [|rewrite len_cons in Hml; pose proof (len_nonneg r'); lia].
  unfold reply_headers, packet_ip. change (buffer + eth.src) with 8. rewrite Hmac. cbn [mbind res_bind].
  change (buffer + eth.dst) with 2. rewrite <- !app_assoc, app_nil_l.
  pose proof (copy_macs_spec h [] (e ++ i ++ t) smac mac m1 m2 2 8) as E. rewrite !app_nil_l in E.
  rewrite E by (done || (rewrite len_nil; lia)). cbn [mbind res_bind]. unfold st16.
  rewrite le16_htons by done. rewrite (app_assoc h), (app_assoc (h ++ smac)).
  rewrite store_ok' by (rewrite ?len_app, ?be16_len; unfold buffer, ETH_ALIGNMENT_OFFSET, eth.type; lia).
  cbn [mbind res_bind]. change (buffer + sizeof_eth_hdr + ip.dst_ip) with 32.
  change (buffer + sizeof_eth_hdr + ip.src_ip) with 28. rewrite Hdip, Hsip. cbn [mbind res_bind].
  rewrite (app_assoc _ (be16 ETH_P_IP)).
  replace (buffer + sizeof_eth_hdr) with (len (((h ++ smac) ++ mac) ++ be16 ETH_P_IP))
    by (rewrite !len_app, be16_len; unfold buffer, ETH_ALIGNMENT_OFFSET, sizeof_eth_hdr; lia).
  rewrite ipv4_build_spec by done. rewrite u16_id by done.
  unfold reply_head. by rewrite <- !app_assoc.
Qed.

(** Twenty bytes of IPv4 header and [n] more fit a reply buffer of 2050 bytes. *)
Lemma split_reply (reply : bytes) n : len reply = 2050 -> 0 <= n <= 2014 ->
  exists h m p t, reply = h ++ m ++ p ++ t /\ len h = 2 /\ len m = 34 /\ len p = n.
Proof.
  intros Hr Hn. destruct (split_at reply 2 34) as (h & m & r & -> & Hh & Hm); [lia..|].
  rewrite !len_app in Hr. destruct (split_at r 0 n) as (z & p & t & -> & Hz & Hp); [lia..|].
  destruct z; [|rewrite len_cons in Hz; pose proof (len_nonneg z0); lia].
  by exists h, m, p, t.
Qed.

Lemma build_pong_spec b mac reply smac sip dip sport rest :
  datagram_at b smac sip dip sport (str "ping-" ++ rest) -> is_u16 sport ->
  len mac = 6 -> len reply = 2050 ->
  let num := number_from 0 (digit_prefix rest) in
  let f := udp_frame mac smac dip sip PACKET_PRINT_UDP_PORT sport (pong num) in
  build_pong b mac reply (len (str "ping-" ++ rest)) =
  if num + 1 <? 2 ^ 31 then Ok (put_frame reply f, len f) else UB.
Proof.
  intros [Hip Hsp Hdp Hl Hpl] Hsport Hm Hr num f.
  assert (len smac = 6) as Hsm by by destruct (load_inv _ _ _ _ (ia_mac _ _ _ _ _ Hip)).
  assert (0 <= num) as Hnum by (apply number_from_le; [lia|apply digit_prefix_digits]).
  unfold build_pong. change (packet_payload + sizeof_udp_hdr) with 44.
  destruct (load_inv _ _ _ _ Hpl) as (_ & hb & tb & Hb & Hhb).
  rewrite len_app. change (len (str "ping-")) with 5. rewrite parse_number_spec; [|..|lia|].
  2:{ subst b. replace (44 + 5) with (len (hb ++ str "ping-"))
        by (rewrite len_app; change (len (str "ping-")) with 5; lia).
      rewrite (app_assoc hb), (app_assoc hb). rewrite <- (app_assoc _ rest). apply load_ok. }
  2:{ subst b. rewrite !length_app. lia. }
  cbv zeta. fold num. destruct (Z.ltb_spec num (2 ^ 31)); cbn [mbind res_bind];
    [|by rewrite (proj2 (Z.ltb_ge _ _)) by lia].
  rewrite pong_payload_spec by lia. destruct (Z.ltb_spec (num + 1) (2 ^ 31)) as [Hlt|]; [|done].
  cbn [mbind res_bind]. destruct (pong_len num Hnum Hlt) as [Hpg _].
  set (pg := pong num) in *. unfold sizeof_udp_hdr.
  destruct (split_reply reply (8 + len pg)) as (h & m & p & t & -> & Hh & Hml & Hp); [lia..|].
  destruct (split_at p 8 (len pg)) as (u & q & z & -> & Hu & Hq); [lia..|].
  rewrite !len_app in Hp. destruct z as [|z0 z]; [|rewrite len_cons in Hp; pose proof (len_nonneg z); lia].
  rewrite (reply_headers_spec b mac h m _ IPPROTO_UDP smac sip dip _ _ Hip)
    by (done || (unfold is_u16; lia) || (unfold is_u8, IPPROTO_UDP; lia)).
  cbn [mbind res_bind]. change (packet_payload + udp.dst_port) with 38.
  change (packet_payload + udp.src_port) with 36. rewrite Hdp, Hsp. cbn [mbind res_bind].
  set (hd := reply_head _ _ _ _ _ _).
  assert (len hd = 34) as Hhd by by apply reply_head_len.
  rewrite <- !app_assoc, app_nil_l, (app_assoc h).
  replace packet_payload with (len (h ++ hd)) by (rewrite len_app, Hh, Hhd; done).
  rewrite udp_build_header_spec by done. cbn [mbind res_bind].
  rewrite (u16_id (8 + len pg)) by (unfold is_u16; lia).
  set (uh := be16 PACKET_PRINT_UDP_PORT ++ be16 sport ++ be16 (8 + len pg) ++ [0; 0]).
  rewrite (app_assoc _ uh).
  assert (44 = len ((h ++ hd) ++ uh)) as Ho by (by rewrite !len_app, Hh, Hhd).
  rewrite (copy_payload_spec ((h ++ hd) ++ uh) q t pg _ _ Ho Hq).
  cbn [mbind res_bind mret res_ret].
  assert (len f = 42 + len pg) as Hf by by apply udp_frame_len.
  replace (h ++ m ++ u ++ q ++ t) with (h ++ (m ++ u ++ q) ++ t) by (by rewrite <- !app_assoc).
  rewrite put_frame_split by (done || (rewrite Hf, !len_app; lia)). rewrite Hf.
  unfold f, udp_frame. fold hd uh. rewrite <- !app_assoc. by do 2 f_equal.
Qed.

Lemma build_echo_spec b mac reply smac sip dip id seq :
  echo_at b smac sip dip id seq -> is_u16 id -> is_u16 seq -> len mac = 6 -> len reply = 2050 ->
  (reply ← reply_headers b mac reply IPPROTO_ICMP sizeof_icmp_hdr;
   icmp_build_response reply packet_payload id seq)
  = Ok (put_frame reply (echo_frame mac smac dip sip id seq)).
Proof.
  intros [Hip _ _ _] Hid Hseq Hm Hr.
  assert (len smac = 6) as Hsm by by destruct (load_inv _ _ _ _ (ia_mac _ _ _ _ _ Hip)).
  destruct (split_reply reply 8) as (h & m & p & t & -> & Hh & Hml & Hp); [lia..|].
  rewrite (reply_headers_spec b mac h m _ IPPROTO_ICMP smac sip dip _ _ Hip)
    by (done || (unfold is_u16, sizeof_icmp_hdr; lia) || (unfold is_u8, IPPROTO_ICMP; lia)).
  cbn [mbind res_bind]. unfold sizeof_icmp_hdr.
  replace (h ++ m ++ p ++ t) with (h ++ (m ++ p) ++ t) by (by rewrite <- !app_assoc).
  rewrite put_frame_split by (done || (rewrite echo_frame_len, len_app by done; lia)).
  unfold echo_frame. set (hd := reply_head _ _ _ _ _ _).
  assert (len hd = 34) as Hhd by by apply reply_head_len.
  rewrite (app_assoc h hd). replace packet_payload with (len (h ++ hd)) by (rewrite len_app, Hh, Hhd; done).
  assert (is_u8 ICMP_ECHO_REPLY) as Ht by (unfold is_u8, ICMP_ECHO_REPLY; lia).
  etransitivity; [exact (icmp_build_spec ICMP_ECHO_REPLY (h ++ hd) p t id seq Hp Ht Hid Hseq)|].
  by rewrite <- !app_assoc.
Qed.

Lemma build_arp_spec b mac reply smac sip :
  who_has_at b smac sip -> len mac = 6 -> len reply = 2050 ->
  (sender_ip ← ntohl_unaligned b 30; sender_mac ← load b 24 6;
   arp_build_reply reply buffer mac PACKET_PRINT_IP_ADDR sender_mac sender_ip)
  = Ok (put_frame reply (arp_packet smac mac ARP_OP_REPLY mac PACKET_PRINT_IP_ADDR smac sip)).
Proof.
  intros [_ _ _ Hsip Hmac] Hm Hr. destruct (load_inv _ _ _ _ Hmac) as [Hsm _].
  rewrite Hsip, Hmac. cbn [mbind res_bind].
  destruct (split_at reply 2 42) as (h & m & t & -> & Hh & Hml); [lia..|].
  rewrite put_frame_split by (done || by rewrite arp_packet_len).
  unfold buffer, ETH_ALIGNMENT_OFFSET. rewrite <- Hh. by apply arp_build_reply_spec.
Qed.

Lemma starts_with_spec lit : forall b o, 0 <= o -> o + len lit <= len b ->
  starts_with b o lit = Ok (bool_decide (take (length lit) (drop (Z.to_nat o) b) = lit)).
Proof.
  induction lit as [|c lit IH]; intros b o Ho Hl; cbn [starts_with].
  { by rewrite bool_decide_true by apply take_0. }
  rewrite len_cons in *. pose proof (len_nonneg lit).
  destruct (rd_in_range b o) as (x & -> & Hx); [lia|]. cbn [mbind res_bind].
  rewrite (drop_S _ _ _ Hx). cbn [length take].
  destruct (Z.eqb_spec x c) as [->|Hne]; [|by rewrite bool_decide_false by congruence].
  rewrite IH by lia. replace (Z.to_nat (o + 1)) with (S (Z.to_nat o)) by lia.
  f_equal. apply bool_decide_ext. split; [by intros ->|by intros [= ->]].
Qed.
End requests.

(* ------------------------------------------------------------------ *)
(** ** The loop body *)

Section handling.
  Context {W : Type} `{Arch} `{Console W} `{!ConsoleLaws W} `{NetDriver W} `{!NetDriverLaws W}.

(** When frames are printed, this one can be printed inside the buffer. *)
Definition displayable (log : tag_ptr) (b : bytes) (n : Z) (w : W) : Prop :=
  log_enabled (klog_tag log w) LOG_INFO = true ->
  printable b buffer n /\ forall r, exists s, net_print_tag w (Some r) = Ok s.

Lemma show_frame dev log b n w : is_bytes b -> len b = 2050 -> 0 <= n <= 2048 ->
  displayable log b n w ->
  exists w1, prints w w1 /\ forall B (k : St W B),
    (info ← klog_enabled log LOG_INFO; w0 ← gets id;
     _ ← when info (kput (ethernet_print (fun r => net_print_tag w0 (Some r)) b (Some buffer) n
                            (entry_resource dev) 0)); k) w = k w1.
Proof using.
  intros Hb Hl Hn Hd. unfold displayable in Hd. unfold klog_enabled.
  destruct (log_enabled (klog_tag log w) LOG_INFO) eqn:E.
  - destruct (Hd eq_refl) as [Hp Ht].
    destruct (ethernet_print_ok (fun r => net_print_tag w (Some r)) b buffer n (entry_resource dev) 0)
      as [s Es]; [done|by unfold buffer, ETH_ALIGNMENT_OFFSET|unfold buffer, ETH_ALIGNMENT_OFFSET; lia
      |lia|done|done|].
    destruct (prints_kput w w _ s (rtc_refl _ _) Es) as (w1 & E1 & Hp1). exists w1. split; [done|].
    intros B k. do 2 (erewrite St_bind_ok by reflexivity). rewrite E. cbn [when id].
    exact (St_bind_ok _ (fun _ => k) _ _ _ E1).
  - exists w. split; [apply rtc_refl|]. intros B k. do 2 (erewrite St_bind_ok by reflexivity).
    rewrite E. by erewrite St_bind_ok by reflexivity.
Qed.

Lemma display_payload_safe b o l : 0 <= o -> o + 64 <= len b -> exists s, display_payload b o l = Ok s.
Proof using.
  intros Ho Hl. apply for_n_ok. intros i a Hi. unfold PACKET_PRINT_MAX_PAYLOAD_DISPLAY in Hi.
  destruct (rd_in_range b (o + Z.of_nat i)) as (c & -> & _); [lia|]. by eexists.
Qed.

(** What handle_udp prints before it looks at the payload. *)
Lemma show_payload log b l w0 w : len b = 2050 -> prints w0 w ->
  exists w1, prints w0 w1 /\ forall B (k : St W B),
    (info ← klog_enabled log LOG_INFO;
     _ ← when info
           (_ ← klog_prefix log LOG_INFO;
            kput (puts (str "Received UDP payload: ") +++ display_payload b 44 l +++ puts nl)%out);
     k) w = k w1.
Proof using.
  intros Hl Hp. unfold klog_enabled. destruct (log_enabled (klog_tag log w) LOG_INFO) eqn:E.
  - destruct (prints_prefix w0 w log LOG_INFO Hp) as (w1 & E1 & Hp1); [done|].
    destruct (display_payload_safe b 44 l) as [s Es]; [lia..|].
    assert (exists x, (puts (str "Received UDP payload: ") +++ display_payload b 44 l +++ puts nl)%out
      = Ok x) as [x Ex] by (rewrite Es; by eexists).
    destruct (prints_kput w0 w1 _ x Hp1 Ex) as (w2 & E2 & Hp2). exists w2. split; [done|].
    intros B k. erewrite St_bind_ok by reflexivity. rewrite E. cbn [when].
    rewrite St_bind_assoc, (St_bind_ok _ _ _ _ _ E1). exact (St_bind_ok _ (fun _ => k) _ _ _ E2).
  - exists w. split; [done|]. intros B k. erewrite St_bind_ok by reflexivity. rewrite E.
    by erewrite St_bind_ok by reflexivity.
Qed.

Lemma send_reply_ok dev log reply n msg w r w2 :
  netdev_transmit (Some dev) (Some (reply, buffer)) n w = Ok (r, w2) ->
  exists w3, prints w2 w3 /\ send_reply dev log reply n msg w = Ok (r =? 0, w3).
Proof using.
  intros E. unfold send_reply. rewrite (St_bind_ok _ _ _ _ _ E).
  destruct (r =? 0); [|exists w2; split; [apply rtc_refl|done]].
  destruct (prints_msg w2 w2 log LOG_INFO msg (rtc_refl _ _)) as (w3 & E3 & Hp); [done|].
  exists w3. split; [done|]. by rewrite (St_bind_ok _ _ _ _ _ E3).
Qed.

(** The guards of the loop body for an IPv4 packet for the address. *)
Lemma handle_packet_ip dev mac log b n reply w p smac sip dip :
  ip_at b p smac sip dip -> is_bytes b -> len b = 2050 -> 42 <= n <= 2048 -> displayable log b n w ->
  exists w1, prints w w1 /\
    handle_packet dev mac log 0 b n reply w = handle_ip dev mac log b n reply w1.
Proof using.
  intros [Hty _ _ _ _ _] Hb Hl Hn Hd.
  destruct (show_frame dev log b n w) as (w1 & Hp & Hk); [done|done|lia|done|].
  exists w1. split; [done|]. unfold handle_packet. destruct (Z.ltb_spec 0 n); [|lia]. cbn [Z.eqb andb negb].
  etransitivity; [exact (Hk _ _)|].
  unfold sizeof_eth_hdr, sizeof_ipv4_hdr, sizeof_udp_hdr. destruct (Z.ltb_spec n (14 + 20 + 8)); [lia|].
  change (buffer + eth.type) with 14. erewrite St_bind_ok by (apply lift_ok; exact Hty). done.
Qed.

(** [act] prints, transmits [f] at the start of the reply buffer, and prints again
    when it was sent; it ends the program when it was sent and [ends] holds. *)
Definition replies (dev : device_entry) (reply f : bytes) (ends : bool)
    (act : St W (bytes * bool)) (w : W) : Prop := exists w1, prints w w1 /\
  forall r w2,
    netdev_transmit (Some dev) (Some (put_frame reply f, buffer)) (len f) w1 = Ok (r, w2) ->
    exists w3, prints w2 w3 /\ act w = Ok (put_frame reply f, ends && (r =? 0), w3).

Lemma sends_reply dev log reply f w0 w1 msg (act : St W (bytes * bool)) : prints w0 w1 ->
  act w0 = (sent ← send_reply dev log (put_frame reply f) (len f) msg;
            mret (put_frame reply f, sent)) w1 ->
  replies dev reply f true act w0.
Proof using.
  intros Hp Ha. exists w1. split; [done|]. intros r w2 E.
  destruct (send_reply_ok dev log _ _ msg _ _ _ E) as (w3 & Hp3 & E3). exists w3. split; [done|].
  by rewrite Ha, (St_bind_ok _ _ _ _ _ E3).
Qed.

Section body.
Context (dev : device_entry) (mac : bytes) (log : tag_ptr) (b : bytes) (n : Z) (reply : bytes).
Context (Hmac : len mac = 6) (Hb : is_bytes b) (Hlb : len b = 2050) (Hn : 42 <= n <= 2048).
Context (Hlr : len reply = 2050).

(** A datagram of at least six bytes that begins with "ping-". *)
Lemma handle_udp_ping w smac sip dip sport rest :
  datagram_at b smac sip dip sport (str "ping-" ++ rest) -> rest <> [] ->
  exists w1, prints w w1 /\
    handle_udp dev mac log b reply w =
    ('(reply, total_len) ← lift (build_pong b mac reply (len (str "ping-" ++ rest)));
     sent ← send_reply dev log reply total_len "Sent UDP echo reply
";
     mret (reply, sent)) w1.
Proof using Hb Hlb.
  intros [Hip Hsp Hdp Hl Hpl] Hrest. set (p := str "ping-" ++ rest) in *.
  assert (6 <= len p) as Hp6.
  { unfold p. rewrite len_app. change (len (str "ping-")) with 5.
    destruct rest as [|c s]; [done|]. rewrite len_cons. pose proof (len_nonneg s). lia. }
  assert (len p <= 2006) as Hp7
    by (destruct (load_inv _ _ _ _ Hpl) as (_ & h & t & -> & Hh); rewrite !len_app in Hlb;
        pose proof (len_nonneg t); lia).
  unfold handle_udp. change (packet_payload + udp.length) with 40.
  destruct (show_payload log b (len p) w w Hlb (rtc_refl _ _)) as (w1 & Hp1 & Hk).
  exists w1. split; [done|]. erewrite St_bind_ok by (apply lift_ok; exact Hl).
  cbv zeta. replace (8 + len p - sizeof_udp_hdr) with (len p) by (unfold sizeof_udp_hdr; lia).
  rewrite u64_id by (unfold is_u64; lia). change (packet_payload + sizeof_udp_hdr) with 44.
  etransitivity; [exact (Hk _ _)|]. destruct (Z.ltb_spec (len p) 6); [lia|].
  erewrite St_bind_ok.
  2:{ apply lift_ok. rewrite starts_with_spec by (change (len (str "ping-")) with 5; lia).
      rewrite bool_decide_true; [reflexivity|].
      destruct (load_inv _ _ _ _ Hpl) as (_ & h & t & -> & Hh).
      replace (Z.to_nat 44) with (length h) by (unfold len in Hh; lia).
      rewrite drop_app_length. unfold p. rewrite <- app_assoc. apply take_app_length. }
  done.
Qed.

Lemma handle_ip_udp w smac sip dip sport payload :
  datagram_at b smac sip dip sport payload ->
  handle_ip dev mac log b n reply w = handle_udp dev mac log b reply w.
Proof using.
  intros [[_ Hpr Ha _ _ _] _ Hport _ _]. unfold handle_ip, packet_ip.
  erewrite St_bind_ok by (apply lift_ok; exact Hpr). cbv zeta. change (IPPROTO_UDP =? IPPROTO_UDP) with true. cbv iota.
  erewrite St_bind_ok by (apply lift_ok; exact Ha). rewrite Z.eqb_refl. cbn [negb]. cbv iota.
  erewrite St_bind_ok by (apply lift_ok; exact Hport). by rewrite Z.eqb_refl.
Qed.

Lemma ping_replies w smac sip dip sport rest : displayable log b n w ->
  datagram_at b smac sip dip sport (str "ping-" ++ rest) -> rest <> [] ->
  let num := number_from 0 (digit_prefix rest) in
  if num + 1 <? 2 ^ 31
  then replies dev reply (udp_frame mac smac dip sip PACKET_PRINT_UDP_PORT sport (pong num)) true
         (handle_packet dev mac log 0 b n reply) w
  else handle_packet dev mac log 0 b n reply w = UB.
Proof using All.
  intros Hd Hda Hrest num.
  destruct (handle_packet_ip dev mac log b n reply w _ _ _ _ (da_ip _ _ _ _ _ _ Hda)) as (w1 & Hp1 & E1);
    [done..|].
  destruct (handle_udp_ping w1 _ _ _ _ _ Hda Hrest) as (w2 & Hp2 & E2).
  rewrite (handle_ip_udp _ _ _ _ _ _ Hda), E2 in E1.
  rewrite (build_pong_spec b mac reply _ _ _ sport rest Hda) in E1
    by (done || exact (ntohs_range _ _ _ Hb (da_sport _ _ _ _ _ _ Hda))). cbv zeta in E1. fold num in E1.
  destruct (num + 1 <? 2 ^ 31); [|by rewrite E1].
  apply (sends_reply dev log _ _ w w2 _ _ (transitivity (R := rtc _) Hp1 Hp2) E1).
Qed.

Lemma echo_replies w smac sip dip id seq : displayable log b n w ->
  echo_at b smac sip dip id seq ->
  replies dev reply (echo_frame mac smac dip sip id seq) true (handle_packet dev mac log 0 b n reply) w.
Proof using All.
  intros Hd He. pose proof He as [Hip Hty Hid Hseq].
  destruct (handle_packet_ip dev mac log b n reply w _ _ _ _ Hip) as (w1 & Hp1 & E1); [done..|].
  eapply (sends_reply dev log reply _ w w1); [exact Hp1|]. rewrite E1. pose proof Hip as [_ Hpr Ha Hsm _ _].
  unfold handle_ip, packet_ip. erewrite St_bind_ok by (apply lift_ok; exact Hpr). cbv zeta.
  change (IPPROTO_ICMP =? IPPROTO_UDP) with false. change (IPPROTO_ICMP =? IPPROTO_TCP) with false.
  change (IPPROTO_ICMP =? IPPROTO_ICMP) with true. cbv iota.
  unfold sizeof_eth_hdr, sizeof_ipv4_hdr, sizeof_icmp_hdr. destruct (Z.ltb_spec n (14 + 20 + 8)); [lia|].
  erewrite St_bind_ok by (apply lift_ok; exact Ha). rewrite Z.eqb_refl. cbn [negb]. cbv iota.
  unfold handle_icmp. erewrite St_bind_ok.
  2:{ apply lift_ok. unfold icmp_parse, packet_payload. cbn [out_type out_code out_id out_sequence write_out].
      change (buffer + sizeof_eth_hdr + sizeof_ipv4_hdr + icmp.type) with 36.
      change (buffer + sizeof_eth_hdr + sizeof_ipv4_hdr + icmp.id) with 40.
      change (buffer + sizeof_eth_hdr + sizeof_ipv4_hdr + icmp.sequence) with 42.
      rewrite Hty, Hid, Hseq. reflexivity. }
  cbn [negb default out_type out_id out_sequence]. change (ICMP_ECHO_REQUEST =? ICMP_ECHO_REQUEST) with true.
  cbn [negb]. cbv iota. rewrite (build_echo_spec b mac reply smac sip dip id seq He)
    by (done || by eapply ntohs_range).
  destruct (load_inv _ _ _ _ Hsm) as [Hsm6 _]. rewrite echo_frame_len by done. reflexivity.
Qed.

Lemma who_has_replies w smac sip : displayable log b n w -> who_has_at b smac sip ->
  replies dev reply (arp_packet smac mac ARP_OP_REPLY mac PACKET_PRINT_IP_ADDR smac sip) false
    (handle_packet dev mac log 0 b n reply) w.
Proof using All.
  intros Hd Hw. pose proof Hw as [Hty Hop Htg _ Hsm].
  destruct (show_frame dev log b n w) as (w1 & Hp & Hk); [done|done|lia|done|].
  exists w1. split; [done|]. intros r w2 E.
  assert (exists w3, prints w2 w3 /\
    when (W := W) (r =? 0) (klog_debug log "Sent ARP reply
") w2 = Ok (tt, w3)) as (w3 & Hp3 & E3).
  { destruct (r =? 0); [|exists w2; split; [apply rtc_refl|done]].
    destruct (prints_msg w2 w2 log LOG_DEBUG "Sent ARP reply
" (rtc_refl _ _)) as (w3 & E3 & Hp3); [done|]. by exists w3. }
  exists w3. split; [done|]. unfold handle_packet. destruct (Z.ltb_spec 0 n); [|lia]. cbn [Z.eqb andb negb].
  etransitivity; [exact (Hk _ _)|].
  unfold sizeof_eth_hdr, sizeof_ipv4_hdr, sizeof_udp_hdr. destruct (Z.ltb_spec n (14 + 20 + 8)); [lia|].
  change (buffer + eth.type) with 14. erewrite St_bind_ok by (apply lift_ok; exact Hty).
  change (ETH_P_ARP =? ETH_P_IP) with false. change (ETH_P_ARP =? ETH_P_ARP) with true. cbv iota.
  unfold handle_arp. rewrite St_bind_assoc.
  change (buffer + sizeof_eth_hdr + arp.opcode) with 22.
  change (buffer + sizeof_eth_hdr + arp.target_ip) with 40.
  change (buffer + sizeof_eth_hdr + arp.sender_ip) with 30.
  change (buffer + sizeof_eth_hdr + arp.sender_mac) with 24.
  erewrite St_bind_ok by (apply lift_ok; rewrite Hop, Htg; reflexivity). cbn beta iota.
  rewrite !Z.eqb_refl. cbn [andb]. rewrite (build_arp_spec b mac reply smac sip Hw Hmac Hlr).
  rewrite St_bind_assoc. erewrite St_bind_ok by reflexivity. rewrite St_bind_assoc.
  destruct (load_inv _ _ _ _ Hsm) as [Hsm6 _]. rewrite arp_packet_len in E by done.
  rewrite (St_bind_ok _ _ _ _ _ E), St_bind_assoc. by rewrite (St_bind_ok _ _ _ _ _ E3).
Qed.
End body.

(* ------------------------------------------------------------------ *)
(** ** The loop body never faults on tame frames *)

(** A datagram that begins with "ping-": its length field is at least the header's and
    stays inside the buffer, and the number and its successor are [int]s. *)
Definition tame (b : bytes) : Prop := forall l,
  rd b 25 = Ok IPPROTO_UDP -> ntohs_unaligned b 40 = Ok l ->
  take 5 (drop 44 b) = str "ping-" ->
  8 <= l /\ 36 + l <= 2050 /\
  number_from 0 (digit_prefix (take (Z.to_nat (l - 13)) (drop 49 b))) + 1 < 2 ^ 31.

(** What an iteration keeps. *)
Record working (dev : device_entry) (reply : bytes) (w : W) : Prop := Working {
  wk_len : len reply = 2050;
  wk_bytes : is_bytes reply;
  wk_ready : exists k, entry_driver dev = Some k /\ net_ready k (entry_context dev) w
}.

Lemma working_prints dev reply w w' : prints w w' -> working dev reply w -> working dev reply w'.
Proof using.
  intros Hp. induction Hp as [|w w1 w' [s ->] _ IH]; [done|]. intros [? ? (k & ? & ?)]. apply IH.
  split; [done..|]. exists k. split; [done|]. by apply net_ready_write.
Qed.

Lemma working_transmit dev reply f w : working dev reply w -> is_bytes f ->
  0 < len f <= ETH_FRAME_MAX -> exists r w2,
  netdev_transmit (Some dev) (Some (put_frame reply f, buffer)) (len f) w = Ok (r, w2) /\
  working dev (put_frame reply f) w2.
Proof using.
  intros [Hl Hb (k & Hk & Hr)] Hf Hn. unfold ETH_FRAME_MAX in Hn.
  assert (len (put_frame reply f) = 2050) as Hpl by (rewrite put_frame_len; lia).
  assert (is_bytes (put_frame reply f)) as Hpb by by apply is_bytes_put_frame.
  destruct (transmit_ok k (entry_context dev) (put_frame reply f) buffer (len f) w)
    as (r & w2 & E & Hr2);
    [done|by unfold buffer, ETH_ALIGNMENT_OFFSET|done|unfold buffer, ETH_ALIGNMENT_OFFSET; lia|done|].
  exists r, w2. split; [|split; [done..|by exists k]]. unfold netdev_transmit.
  destruct (Z.eqb_spec (len f) 0); [lia|]. by rewrite Hk.
Qed.

(** A reply is sent and the loop's state kept. *)
Lemma replies_working dev reply f ends act w : replies dev reply f ends act w ->
  working dev reply w -> is_bytes f -> 0 < len f <= ETH_FRAME_MAX ->
  exists reply' h w', act w = Ok (reply', h, w') /\ working dev reply' w'.
Proof using.
  intros (w1 & Hp1 & Hact) Hw Hf Hn.
  destruct (working_transmit dev reply f w1 (working_prints _ _ _ _ Hp1 Hw) Hf Hn) as (r & w2 & E & Hw2).
  destruct (Hact r w2 E) as (w3 & Hp3 & Ea). eexists _, _, w3. split; [exact Ea|].
  by apply (working_prints _ _ _ _ Hp3).
Qed.

Lemma is_bytes_reply_head mac their src dst protocol n :
  is_bytes mac -> is_bytes their -> is_u8 protocol -> is_bytes (reply_head mac their src dst protocol n).
Proof using.
  intros. unfold reply_head. rewrite !is_bytes_app. split_and!; try done; [apply is_bytes_be16|].
  apply is_bytes_ipv4_header; unfold is_u8 in *; lia.
Qed.

(** Every answer is a frame of bytes that fits. *)
Lemma reaction_frame mac b f ends : len mac = 6 -> is_bytes mac -> is_bytes b -> reaction mac b f ends ->
  is_bytes f /\ 0 < len f <= ETH_FRAME_MAX.
Proof using.
  intros Hm Hmb Hb Hr. unfold ETH_FRAME_MAX.
  assert (forall o smac, load b o 6 = Ok smac -> len smac = 6 /\ is_bytes smac) as Hload.
  { intros o smac Hl. destruct (load_inv _ _ _ _ Hl) as (? & h & t & -> & _).
    rewrite !is_bytes_app in Hb. tauto. }
  destruct Hr as [smac sip dip sport rest [[_ _ _ Hs _ _] _ _ _ _] _ Hnum
    |smac sip dip id seq [[_ _ _ Hs _ _] _ _ _]|smac sip [_ _ _ _ Hs]].
  all: destruct (Hload _ _ Hs) as [Hs6 Hsb].
  - destruct (pong_len (number_from 0 (digit_prefix rest))) as [Hl Hpb];
      [apply number_from_le; [lia|apply digit_prefix_digits]|done|].
    rewrite udp_frame_len by done. split; [|lia]. unfold udp_frame. rewrite !is_bytes_app.
    split_and!; try apply is_bytes_be16; try done; [|solve_bytes].
    by apply is_bytes_reply_head.
  - rewrite echo_frame_len by done. split; [|lia]. unfold echo_frame. rewrite is_bytes_app. split.
    + by apply is_bytes_reply_head.
    + unfold icmp_header. solve_bytes. by unfold is_u8, ICMP_ECHO_REPLY.
  - rewrite arp_packet_len by done. split; [|lia]. unfold arp_packet, arp_body, ETH_P_ARP, ARP_HW_ETHER,
      ETH_P_IP, ARP_OP_REPLY. solve_bytes.
Qed.

Section safe.
Context (dev : device_entry) (mac : bytes) (log : tag_ptr) (b : bytes) (n : Z) (reply : bytes).
Context (Hmac : len mac = 6) (Hmb : is_bytes mac) (Hb : is_bytes b) (Hlb : len b = 2050).
Context (Hn : 0 <= n <= 2048).

Definition completes (act : St W (bytes * bool)) (w : W) : Prop :=
  exists reply' h w', act w = Ok (reply', h, w') /\ working dev reply' w'.

Lemma ignores w : working dev reply w -> completes (mret (reply, false)) w.
Proof using. intros Hw. by exists reply, false, w. Qed.

(** Whatever calls for an answer completes. *)
Lemma answers_complete f ends w : 42 <= n -> displayable log b n w -> working dev reply w ->
  reaction mac b f ends -> completes (handle_packet dev mac log 0 b n reply) w.
Proof using All.
  intros Hn42 Hd Hw Hr. pose proof (wk_len _ _ _ Hw) as Hl.
  destruct (reaction_frame mac b f ends Hmac Hmb Hb Hr) as [Hfb Hfl].
  apply (replies_working dev reply f ends); [|done..].
  destruct Hr as [smac sip dip sport rest Hda Hne Hlt|smac sip dip id seq He|smac sip Hwa].
  - pose proof (ping_replies dev mac log b n reply Hmac Hb Hlb ltac:(lia) Hl w _ _ _ _ _ Hd Hda Hne) as H2.
    cbv zeta in H2. by rewrite (proj2 (Z.ltb_lt _ _) Hlt) in H2.
  - apply echo_replies; (done || lia).
  - apply who_has_replies; (done || lia).
Qed.

Lemma ip_exists p : ntohs_unaligned b 14 = Ok ETH_P_IP -> rd b 25 = Ok p ->
  ntohl_unaligned b 32 = Ok PACKET_PRINT_IP_ADDR -> exists smac sip dip, ip_at b p smac sip dip.
Proof using Hb Hlb Hn.
  intros. destruct (ld32_ok b 28) as [sip ?]; [lia..|]. destruct (ld32_ok b 32) as [dip ?]; [lia..|].
  destruct (split_at b 8 6) as (h & m & t & E & Hh & Hm); [lia..|].
  exists m, sip, dip. split; try done. rewrite E, <- Hh, <- Hm. apply load_ok.
Qed.

(** A tame datagram is ignored or calls for an answer. *)
Lemma datagram_cases l smac sip dip : tame b -> ip_at b IPPROTO_UDP smac sip dip ->
  ntohs_unaligned b 38 = Ok PACKET_PRINT_UDP_PORT -> ntohs_unaligned b 40 = Ok l ->
  6 <= u64 (l - 8) -> starts_with b 44 (str "ping-") = Ok true ->
  exists f, reaction mac b f true.
Proof using Hb Hlb Hn.
  intros Ht Hip Hp Hl H6 Hs. destruct (ntohs_ok b 36) as [sport Hsport]; [lia..|].
  rewrite starts_with_spec in Hs by (change (len (str "ping-")) with 5; lia).
  injection Hs as Hs%bool_decide_eq_true. change (length (str "ping-")) with 5%nat in Hs.
  change (Z.to_nat 44) with 44%nat in Hs.
  destruct (Ht l (ia_protocol _ _ _ _ _ Hip) Hl Hs) as (Hl1 & Hl2 & Hnum).
  rewrite u64_id in H6 by (unfold is_u64; lia).
  set (rest := take (Z.to_nat (l - 13)) (drop 49 b)) in *.
  assert (Hload : load b 44 (l - 8) = Ok (str "ping-" ++ rest)).
  { unfold load. destruct (Z.leb_spec 0 (l - 8)); [|lia].
    destruct (Z.leb_spec (44 + (l - 8)) (len b)); [|lia]. cbn [Z.leb andb]. f_equal.
    change (Z.to_nat 44) with 44%nat.
    replace (Z.to_nat (l - 8)) with (5 + Z.to_nat (l - 13))%nat by lia.
    rewrite <- Hs. unfold rest. change 49%nat with (44 + 5)%nat.
    rewrite <- drop_drop. symmetry. apply take_take_drop. }
  pose proof (load_len _ _ _ _ Hload) as Hpl.
  assert (rest <> []) as Hne.
  { intros E. rewrite E, app_nil_r in Hpl. change (len (str "ping-")) with 5 in Hpl. lia. }
  eexists. apply (re_ping mac b smac sip dip sport rest); [|done|done].
  split; [done|done|done| |by rewrite Hpl]. rewrite Hpl, Hl. f_equal. lia.
Qed.

(** Each handler finds a frame that calls for an answer, or completes without one. *)
Definition answers_or (act : St W (bytes * bool)) (w : W) : Prop :=
  (exists f ends, reaction mac b f ends) \/ completes act w.

Lemma udp_cases w smac sip dip : tame b -> working dev reply w ->
  ip_at b IPPROTO_UDP smac sip dip -> ntohs_unaligned b 38 = Ok PACKET_PRINT_UDP_PORT ->
  answers_or (handle_udp dev mac log b reply) w.
Proof using Hb Hlb Hn.
  intros Ht Hw Hip Hp. destruct (ntohs_ok b 40) as [l Hl]; [lia..|].
  assert (Hlit : starts_with b 44 (str "ping-")
      = Ok (bool_decide (take 5 (drop 44 b) = str "ping-")))
    by (apply (starts_with_spec (str "ping-")); change (len (str "ping-")) with 5; lia).
  destruct (decide (6 <= u64 (l - 8) /\ take 5 (drop 44 b) = str "ping-")) as [[H6 Hs]|Hno].
  - left. destruct (datagram_cases l smac sip dip Ht Hip Hp Hl H6) as [f Hf]; [|by exists f, true].
    by rewrite Hlit, bool_decide_true.
  - right. unfold completes, handle_udp. change (packet_payload + udp.length) with 40.
    destruct (show_payload log b (u64 (l - 8)) w w Hlb (rtc_refl _ _)) as (w1 & Hp1 & Hk).
    exists reply, false, w1. split; [|by apply (working_prints _ _ w)].
    erewrite St_bind_ok by (apply lift_ok; exact Hl). cbv zeta.
    change (packet_payload + sizeof_udp_hdr) with 44. etransitivity; [exact (Hk _ _)|].
    change (l - sizeof_udp_hdr) with (l - 8). rewrite Hlit.
    destruct (Z.ltb_spec (u64 (l - 8)) 6); [done|].
    rewrite bool_decide_false by (intros E; apply Hno; split; [lia|exact E]). done.
Qed.

Lemma icmp_cases w smac sip dip : working dev reply w -> ip_at b IPPROTO_ICMP smac sip dip ->
  answers_or (handle_icmp dev mac log b reply) w.
Proof using Hb Hlb Hn.
  intros Hw Hip. destruct (rd_in_range b 36) as (t & Ht & _); [lia|].
  destruct (ntohs_ok b 40) as [id Hid]; [lia..|]. destruct (ntohs_ok b 42) as [seq Hseq]; [lia..|].
  destruct (decide (t = ICMP_ECHO_REQUEST)) as [->|Hne]; [left; eexists _, _; by econstructor; split|].
  right. exists reply, false, w. split; [|done]. unfold handle_icmp.
  erewrite St_bind_ok.
  2:{ apply lift_ok. unfold icmp_parse, packet_payload. cbn [out_type out_code out_id out_sequence write_out].
      change (buffer + sizeof_eth_hdr + sizeof_ipv4_hdr + icmp.type) with 36.
      change (buffer + sizeof_eth_hdr + sizeof_ipv4_hdr + icmp.id) with 40.
      change (buffer + sizeof_eth_hdr + sizeof_ipv4_hdr + icmp.sequence) with 42.
      rewrite Ht, Hid, Hseq. reflexivity. }
  cbn [negb out_type]. change (default 0 (Some t)) with t.
  by destruct (Z.eqb_spec t ICMP_ECHO_REQUEST).
Qed.

Lemma arp_cases w : working dev reply w -> ntohs_unaligned b 14 = Ok ETH_P_ARP ->
  answers_or (reply ← handle_arp dev mac log b reply; mret (reply, false)) w.
Proof using Hb Hlb Hn.
  intros Hw Hty. destruct (ntohs_ok b 22) as [op Hop]; [lia..|].
  destruct (ntohl_ok b 40) as [tip Htip]; [lia..|]. destruct (ntohl_ok b 30) as [sip Hsip]; [lia..|].
  destruct (decide (op = ARP_OP_REQUEST /\ tip = PACKET_PRINT_IP_ADDR)) as [[-> ->]|Hne].
  - left. destruct (split_at b 24 6) as (h & m & t & E & Hh & Hm); [lia..|].
    eexists _, _. apply (re_who_has mac b m sip). split; try done.
    rewrite E, <- Hh, <- Hm. apply load_ok.
  - right. exists reply, false, w. split; [|done]. unfold handle_arp. rewrite St_bind_assoc.
    change (buffer + sizeof_eth_hdr + arp.opcode) with 22.
    change (buffer + sizeof_eth_hdr + arp.target_ip) with 40.
    erewrite St_bind_ok by (apply lift_ok; rewrite Hop, Htip; reflexivity). cbn beta iota.
    destruct (Z.eqb_spec op ARP_OP_REQUEST), (Z.eqb_spec tip PACKET_PRINT_IP_ADDR); try done. tauto.
Qed.

Lemma ip_cases w : tame b -> working dev reply w -> ntohs_unaligned b 14 = Ok ETH_P_IP ->
  answers_or (handle_ip dev mac log b n reply) w.
Proof using Hb Hlb Hn.
  intros Ht Hw Hty. destruct (rd_in_range b 25) as (p & Hp & _); [lia|].
  destruct (ntohl_ok b 32) as [dip Hdip]; [lia..|]. destruct (ntohs_ok b 38) as [port Hport]; [lia..|].
  unfold answers_or, completes, handle_ip, packet_ip.
  rewrite (St_bind_ok _ _ w p w) by (apply lift_ok; exact Hp). cbv zeta.
  assert (Hdst : forall k : Z -> St W (bytes * bool), (v ← lift (ntohl_unaligned b
      (buffer + sizeof_eth_hdr + ip.dst_ip)); k v) w = k dip w)
    by (intros k; apply St_bind_ok, lift_ok; exact Hdip).
  assert (Hprt : forall k : Z -> St W (bytes * bool), (v ← lift (ntohs_unaligned b
      (packet_payload + udp.dst_port)); k v) w = k port w)
    by (intros k; apply St_bind_ok, lift_ok; exact Hport).
  pose proof (ignores w Hw) as Hig.
  destruct (Z.eqb_spec p IPPROTO_UDP) as [->|_].
  { rewrite Hdst. destruct (Z.eqb_spec dip PACKET_PRINT_IP_ADDR) as [->|]; [|by right]. cbn [negb].
    rewrite Hprt. destruct (Z.eqb_spec port PACKET_PRINT_UDP_PORT) as [->|]; [|by right]. cbn [negb].
    destruct (ip_exists IPPROTO_UDP) as (smac & sip & dip & Hip); [done..|]. by eapply udp_cases. }
  destruct (Z.eqb_spec p IPPROTO_TCP) as [->|_].
  { right. case_match; [done|]. rewrite Hdst. case_match; [done|].
    change (packet_payload + tcp.dst_port) with (packet_payload + udp.dst_port). rewrite Hprt.
    case_match; [done|].
    destruct (prints_msg w w log LOG_INFO "TCP packet received
" (rtc_refl _ _)) as (w1 & E & Hp1); [done|]. exists reply, true, w1. rewrite (St_bind_ok _ _ _ _ _ E).
    split; [done|]. by apply (working_prints _ _ w). }
  destruct (Z.eqb_spec p IPPROTO_ICMP) as [->|_]; [|by right].
  case_match; [by right|]. rewrite Hdst.
  destruct (Z.eqb_spec dip PACKET_PRINT_IP_ADDR) as [->|]; [|by right]. cbn [negb].
  destruct (ip_exists IPPROTO_ICMP) as (smac & sip & dip & Hip); [done..|]. by eapply icmp_cases.
Qed.

Lemma packet_cases w : tame b -> displayable log b n w -> working dev reply w ->
  (42 <= n /\ exists f ends, reaction mac b f ends) \/
  completes (handle_packet dev mac log 0 b n reply) w.
Proof using Hb Hlb Hn.
  intros Ht Hd Hw. destruct (show_frame dev log b n w Hb Hlb Hn Hd) as (w1 & Hp1 & Hk).
  pose proof (working_prints _ _ _ _ Hp1 Hw) as Hw1.
  unfold completes, handle_packet. destruct (Z.ltb_spec 0 n); cbn [Z.eqb andb negb];
    [|right; by apply ignores].
  unfold sizeof_eth_hdr, sizeof_ipv4_hdr, sizeof_udp_hdr. destruct (Z.ltb_spec n (14 + 20 + 8)) as [Hlt|Hge].
  { right. exists reply, false, w1. split; [|done]. etransitivity; [exact (Hk _ _)|done]. }
  change (buffer + eth.type) with 14. destruct (ntohs_ok b 14) as [ty Hty]; [lia..|].
  set (k := _ ← lift (ntohs_unaligned b 14); _).
  assert (answers_or k w1) as [Ha|(r & h & w' & E & Hw')].
  { subst k. unfold answers_or, completes.
    rewrite (St_bind_ok _ _ w1 ty w1) by (apply lift_ok; exact Hty).
    destruct (Z.eqb_spec ty ETH_P_IP) as [->|]; [by apply ip_cases|].
    destruct (Z.eqb_spec ty ETH_P_ARP) as [->|]; [by apply arp_cases|]. right. by apply ignores. }
  - by left.
  - right. exists r, h, w'. split; [|done]. etransitivity; [exact (Hk _ _)|done].
Qed.
End safe.

(* ------------------------------------------------------------------ *)
(** ** Properties *)

(** C35: A frame of at least 42 bytes that calls for an answer and that can be printed (its
    nested lengths are consistent, or INFO messages are off) is answered by exactly one
    frame, and the program ends when it could be sent and is not an ARP reply: "ping-<n>" by a
    datagram "pong-<n+1>", with the canonical numeral of the successor, an echo request
    by the echo reply with its identifier and sequence number, an ARP request by the
    reply, each back to the sender.  A number whose successor is no [int] is undefined
    behaviour. *)
Theorem packet_print_answers dev mac log b n reply w :
  len mac = 6 -> is_bytes b -> len b = 2050 -> 42 <= n <= 2048 -> len reply = 2050 ->
  displayable log b n w ->
  (forall f ends, reaction mac b f ends ->
    replies dev reply f ends (handle_packet dev mac log 0 b n reply) w) /\
  (forall smac sip dip sport rest,
    datagram_at b smac sip dip sport (str "ping-" ++ rest) -> rest <> [] ->
    2 ^ 31 <= number_from 0 (digit_prefix rest) + 1 ->
    handle_packet dev mac log 0 b n reply w = UB) /\
  (forall num, 0 <= num -> num + 1 < 2 ^ 31 -> exists d,
    pong num = str "pong-" ++ d /\ parse_dec d = num + 1 /\ is_decimal d).
Proof using All.
  intros Hm Hb Hl Hn Hlr Hd. split_and!.
  - intros f ends [smac sip dip sport rest Hda Hne Hlt|smac sip dip id seq He|smac sip Hw].
    + pose proof (ping_replies dev mac log b n reply Hm Hb Hl Hn Hlr w _ _ _ _ _ Hd Hda Hne) as Hp.
      cbv zeta in Hp. by rewrite (proj2 (Z.ltb_lt _ _) Hlt) in Hp.
    + by apply echo_replies.
    + by apply who_has_replies.
  - intros smac sip dip sport rest Hda Hne Hge.
    pose proof (ping_replies dev mac log b n reply Hm Hb Hl Hn Hlr w _ _ _ _ _ Hd Hda Hne) as Hp.
    cbv zeta in Hp. by rewrite (proj2 (Z.ltb_ge _ _) Hge) in Hp.
  - intros num Hnum Hint. exists (decimal (num + 1)).
    destruct (decimal_ok (num + 1)) as (? & ? & _); [lia|done].
Qed.

(** C36: One iteration on any received bytes never reads or writes outside its objects and
    always completes, and keeps the buffer and the driver, provided the frame, when
    frames are printed, has consistent lengths, and a datagram that begins with
    "ping-" is tame. *)
Theorem packet_print_safe dev mac log result b n reply w :
  len mac = 6 -> is_bytes mac -> is_bytes b -> len b = 2050 -> 0 <= n <= 2048 ->
  tame b -> displayable log b n w -> working dev reply w ->
  exists reply' handled w',
    handle_packet dev mac log result b n reply w = Ok (reply', handled, w') /\
    working dev reply' w'.
Proof using All.
  intros Hm Hmb Hb Hl Hn Ht Hd Hw. destruct (Z.eq_dec result 0) as [->|Hne].
  - destruct (packet_cases dev mac log b n reply Hb Hl Hn w Ht Hd Hw) as [(Hn42 & f & ends & Hr)|Hc];
      [|exact Hc].
    by apply (answers_complete dev mac log b n reply Hm Hmb Hb Hl Hn f ends).
  - exists reply, false, w. split; [|done]. unfold handle_packet. by destruct (Z.eqb_spec result 0).
Qed.
End handling.

Module packet_sample.
Import http_sample.
Definition ping : bytes :=
  udp_frame client_mac server_mac client_ip server_ip 49152 5000 (str "ping-41").
Lemma ping_at : datagram_at (received ping) client_mac client_ip server_ip 49152
  (str "ping-" ++ str "41").
Proof. do 2 (split; try (vm_compute; reflexivity)). Qed.
Lemma ping_bytes : is_bytes (received ping).
Proof. apply is_bytes_str_check. vm_compute. reflexivity. Qed.
Lemma ping_displayable : displayable (H0 := world_console) (H1 := world_net)
  log (received ping) 49 (start []).
Proof.
  intros _. split; [|intros r; by eexists]. split; [intros E; by vm_compute in E|].
  intros _ _. exists 35, 69. split_and!; vm_compute; (reflexivity || congruence).
Qed.
End packet_sample.

Lemma packet_print_answers_witness :
  replies (H0 := http_sample.world_console) (H1 := http_sample.world_net) http_sample.dev
    http_sample.storage
    (udp_frame http_sample.server_mac http_sample.client_mac http_sample.server_ip
       http_sample.client_ip 5000 49152 (str "pong-42")) true
    (handle_packet (H := RISCV) (H0 := http_sample.world_console) (H1 := http_sample.world_net)
       http_sample.dev http_sample.server_mac http_sample.log 0
       (http_sample.received packet_sample.ping) 49 http_sample.storage)
    (http_sample.start []).
Proof.
  refine (proj1 (packet_print_answers (H := RISCV) (H0 := http_sample.world_console)
    (H1 := http_sample.world_net) (ConsoleLaws0 := http_sample.world_console_laws)
    (NetDriverLaws0 := http_sample.world_net_laws) http_sample.dev http_sample.server_mac http_sample.log
    (http_sample.received packet_sample.ping) 49 http_sample.storage (http_sample.start [])
    eq_refl packet_sample.ping_bytes eq_refl ltac:(lia) eq_refl packet_sample.ping_displayable) _ _ _).
  exact (re_ping http_sample.server_mac _ _ _ _ _ (str "41") packet_sample.ping_at
    ltac:(discriminate) eq_refl).
Defined.

Lemma packet_print_safe_witness :
  exists reply' handled w',
    handle_packet (H := RISCV) (H0 := http_sample.world_console) (H1 := http_sample.world_net)
      http_sample.dev http_sample.server_mac http_sample.log 0
      (http_sample.received packet_sample.ping) 49 http_sample.storage (http_sample.start [])
    = Ok (reply', handled, w') /\
    working (NetDriverLaws0 := http_sample.world_net_laws) http_sample.dev reply' w'.
Proof.
  apply (packet_print_safe (H := RISCV) (H0 := http_sample.world_console)
    (ConsoleLaws0 := http_sample.world_console_laws) (H1 := http_sample.world_net)
    (NetDriverLaws0 := http_sample.world_net_laws)).
  - reflexivity.
  - apply is_bytes_str_check. vm_compute. reflexivity.
  - exact packet_sample.ping_bytes.
  - reflexivity.
  - lia.
  - intros l _ Hl _. assert (l = 15) as -> by (vm_compute in Hl; congruence).
    split_and!; vm_compute; (reflexivity || discriminate).
  - exact packet_sample.ping_displayable.
  - split; [reflexivity|apply is_bytes_str_check; vm_compute; reflexivity|].
    exists E1000. split; [reflexivity|]. apply Forall_nil_2.
Defined.
