(* ===== verification/Mac.v ===== *)
(** The applications that print MAC addresses (apps/netdev-mac): one device of a
    given driver (mac_virtio_net.c, mac_e1000.c, mac_rtl8139.c) or every device
    (mac_all.c). *)

From S2P Require Export NetUtils Netdev.

Open Scope Z_scope.

Definition MAX_DEVICES : Z := 12.
Definition MAX_NET_DEVICES : nat := 4.

(** The static [device_count] of each of the three applications; a driver's
    contexts are the elements of its MAC_APP array. *)
Definition mac_statics : Type := net_driver -> nat.
Definition mac_statics_zero : mac_statics := fun _ => 0%nat.
Definition mac_count (s : mac_statics) (k : net_driver) : mac_statics :=
  fun k' => if decide (k' = k) then S (s k') else s k'.

Definition driver_name (k : net_driver) : cstr :=
  str match k with RTL8139 => "rtl8139" | VIRTIO_NET => "virtio-net" | E1000 => "e1000" end.

Section mac.
  Context {W : Type} `{Console W} `{NetDriver W}.

(** [resource_print_tag(resource); puts(msg);] *)
Definition tagged (resource : option nat) (msg : string) : St W unit := fun w =>
  kput (net_print_tag w resource +++ puts (str msg))%out w.

(** A device's two lines; [get_mac] is called on an uninitialised array, of which
    nothing is read when it fails.  The loop over its bytes is net_print_mac's. *)
Definition report_mac (resource : option nat) (get_mac : bytes -> St W (Z * bytes)) : St W unit :=
  _ ← tagged resource " Initializing...
";
  _ ← tagged resource " MAC: ";
  '(result, mac) ← get_mac (replicate 6 0);
  _ ← (if result =? 0 then kput (net_print_mac mac 0) else kputs "(unavailable)");
  kput (puts nl).

(** app_mac_virtio_net, app_mac_e1000 and app_mac_rtl8139: the same but for the
    driver, whose get_driver function never returns NULL. *)
Definition app_mac (k : net_driver) (s : mac_statics) : St W mac_statics :=
  if (MAX_NET_DEVICES <=? s k)%nat then
    _ ← kput (puts (driver_name k ++ str ": Maximum number of devices reached
"));
    mret s
  else
    let ctx := NetCtx k MAC_APP (s k) in
    resource ← net_acquire k ctx;
    match resource with
    | Some r =>
        _ ← report_mac (Some r) (drv_get_mac k (Some ctx));
        mret (mac_count s k)
    | None =>
        _ ← kput (puts (driver_name k ++ str ": No available device
"));
        mret s
    end.
Definition app_mac_virtio_net : mac_statics -> St W mac_statics := app_mac VIRTIO_NET.
Definition app_mac_e1000 : mac_statics -> St W mac_statics := app_mac E1000.
Definition app_mac_rtl8139 : mac_statics -> St W mac_statics := app_mac RTL8139.

(** [netdev_get_mac(&devices[i], mac)]. *)
Definition entry_get_mac (e : device_entry) (mac : bytes) : St W (Z * bytes) :=
  '(result, m) ← netdev_get_mac (Some e) (Some mac); mret (result, default mac m).

Definition app_mac_all (st : net_statics) : St W net_statics :=
  '(device_count, devices, st) ←
    netdev_acquire_all (replicate (Z.to_nat MAX_DEVICES) device_entry_zero) MAX_DEVICES st;
  _ ← for_n (Z.to_nat device_count) (fun i _ =>
    e ← lift (rd devices (Z.of_nat i)); report_mac (entry_resource e) (entry_get_mac e)) tt;
  mret st.
End mac.

(* ------------------------------------------------------------------ *)
(** ** Specification *)

(** The colon-separated hexadecimal form. *)
Definition mac_string (mac : bytes) : bytes :=
  match net_print_mac mac 0 with Ok s => s | _ => [] end.

(** What is printed of one device: its tag, and its address or that it has none. *)
Definition report_lines (tag : bytes) (mac : option bytes) : bytes :=
  tag ++ str " Initializing...
" ++ tag ++ str " MAC: "
  ++ match mac with Some m => mac_string m | None => str "(unavailable)" end ++ nl.

Section spec.
  Context {W : Type} `{Console W} `{!ConsoleLaws W} `{NetDriver W}.

(** Worlds in which the tags of resources are [tag] and the contexts' addresses are
    [mac_of] ([None] when get_mac fails), which output does not change. *)
Record reports (ok : W -> Prop) (tag : option nat -> bytes) (mac_of : net_ctx -> option bytes)
    : Prop := Reports {
  rp_write : forall s w, ok w -> ok (con_write s w);
  rp_tag : forall r w, ok w -> net_print_tag w r = Ok (tag r);
  rp_mac : forall k ctx m w, ok w -> exists r m', drv_get_mac k (Some ctx) m w = Ok (r, m', w) /\
    match mac_of ctx with Some mac => r = 0 /\ m' = mac /\ len mac = 6 | None => r <> 0 end
}.

Definition entry_lines (tag : option nat -> bytes) (mac_of : net_ctx -> option bytes)
    (e : device_entry) : bytes :=
  report_lines (tag (entry_resource e)) (entry_context e ≫= mac_of).

(** ** Lemmas *)

Lemma mac_string_ok mac : len mac = 6 -> net_print_mac mac 0 = Ok (mac_string mac).
Proof using.
  intros Hl. unfold mac_string. destruct (net_print_mac_safe mac 0) as [s ->]; [lia|lia|done].
Qed.

Lemma tagged_ok ok tag mac_of r msg w : reports ok tag mac_of -> ok w ->
  tagged r msg w = Ok (tt, con_write (tag r ++ str msg) w).
Proof using. intros Hr Hw. unfold tagged. by rewrite (rp_tag _ _ _ Hr _ _ Hw). Qed.

(** A device's lines, whatever function reads its address. *)
Lemma report_mac_ok ok tag mac_of r get o w : reports ok tag mac_of -> ok w ->
  (forall w, ok w -> exists x m', get (replicate 6 0) w = Ok (x, m', w) /\
     match o with Some mac => x = 0 /\ m' = mac /\ len mac = 6 | None => x <> 0 end) ->
  report_mac r get w = Ok (tt, con_write (report_lines (tag r) o) w).
Proof using ConsoleLaws0.
  intros Hr Hw Hget. unfold report_mac.
  rewrite (St_bind_ok _ _ _ _ _ (tagged_ok _ _ _ r " Initializing...
" w Hr Hw)).
  rewrite (St_bind_ok _ _ _ _ _ (tagged_ok _ _ _ r " MAC: " _ Hr (rp_write _ _ _ Hr _ _ Hw))).
  rewrite con_write_app.
  destruct (Hget _ (rp_write _ _ _ Hr ((tag r ++ str " Initializing...
") ++ tag r ++ str " MAC: ") _ Hw)) as (x & m' & E & Hx). rewrite (St_bind_ok _ _ _ _ _ E).
  set (a := match o with Some m => mac_string m | None => str "(unavailable)" end).
  assert (forall w, (if x =? 0 then kput (net_print_mac m' 0) else kputs "(unavailable)") w
    = Ok (tt, con_write a w)) as Ha.
  { intros w'. subst a. destruct o as [mac|].
    - destruct Hx as (-> & -> & Hl). cbn [Z.eqb]. apply kput_ok. by apply mac_string_ok.
    - by destruct (Z.eqb_spec x 0). }
  rewrite (St_bind_ok _ _ _ _ _ (Ha _)). rewrite (kput_ok _ nl) by done.
  rewrite !con_write_app. unfold report_lines. fold a. by rewrite <- !app_assoc.
Qed.

(** Granted entries report through their driver. *)
Lemma entry_get_mac_ok ok tag mac_of e w : reports ok tag mac_of -> ok w ->
  (exists k ctx, entry_driver e = Some k /\ entry_context e = Some ctx) ->
  exists x m', entry_get_mac e (replicate 6 0) w = Ok (x, m', w) /\
    match entry_context e ≫= mac_of with
    | Some mac => x = 0 /\ m' = mac /\ len mac = 6 | None => x <> 0 end.
Proof using.
  intros Hr Hw (k & ctx & Hk & Hc). destruct (rp_mac _ _ _ Hr k ctx (replicate 6 0) w Hw) as (x & m' & E & Hx).
  exists x, m'. rewrite Hc. split; [|done]. unfold entry_get_mac, netdev_get_mac. rewrite Hk, Hc.
  rewrite St_bind_assoc. by rewrite (St_bind_ok _ _ _ _ _ E).
Qed.

Lemma report_loop ok tag mac_of (ds : list device_entry) : forall l w,
  reports ok tag mac_of -> ok w ->
  Forall (fun i => exists e k ctx, ds !! i = Some e /\ entry_driver e = Some k /\
            entry_context e = Some ctx) l ->
  iter_list (fun i _ => e ← lift (rd ds (Z.of_nat i));
                        report_mac (entry_resource e) (entry_get_mac e)) l tt w
  = Ok (tt, con_write (concat ((fun i => from_option (entry_lines tag mac_of) [] (ds !! i)) <$> l)) w).
Proof using ConsoleLaws0.
  induction l as [|i l IH]; intros w Hr Hw Hl; cbn [iter_list fmap list_fmap concat].
  { by rewrite con_write_nil. }
  apply Forall_cons in Hl as [(e & k & ctx & He & Hk & Hc) Hl]. rewrite He. cbn [from_option].
  erewrite St_bind_ok.
  2:{ erewrite St_bind_ok by (apply lift_ok, rd_ok; [lia|by rewrite Nat2Z.id]).
      apply (report_mac_ok ok tag mac_of (entry_resource e) _ (entry_context e ≫= mac_of) w Hr Hw).
      intros w' Hw'. apply (entry_get_mac_ok ok tag); [done..|]. by exists k, ctx. }
  rewrite IH by (done || by apply (rp_write _ _ _ Hr)). by rewrite con_write_app.
Qed.

(** Reading the first [n] elements by index. *)
Lemma fmap_seq_take {A B} (f : A -> list B) (l : list A) n :
  (forall i, (i < n)%nat -> is_Some (l !! i)) ->
  (fun i => from_option f [] (l !! i)) <$> seq 0 n = f <$> take n l.
Proof using.
  clear. intros Hl. apply list_eq. intros i. rewrite !list_lookup_fmap.
  destruct (decide (i < n)%nat) as [Hi|Hi].
  - rewrite lookup_seq_lt, lookup_take_lt by done. destruct (Hl i Hi) as [e He]. cbn. by rewrite He.
  - rewrite lookup_seq_ge by lia. by rewrite lookup_take_ge by lia.
Qed.

(** ** Properties *)

(** app_mac_all prints, for every device netdev_acquire_all granted it and in that
    order, its tag and its MAC address in hexadecimal, or that it is unavailable, and
    nothing else. *)
Theorem mac_all_correct ok tag mac_of st w n ds st' w1 :
  reports ok tag mac_of ->
  netdev_acquire_all (replicate (Z.to_nat MAX_DEVICES) device_entry_zero) MAX_DEVICES st w
    = Ok (Z.of_nat n, ds, st', w1) -> grants st st' ds n -> ok w1 ->
  app_mac_all st w = Ok (st', con_write (concat (entry_lines tag mac_of <$> take n ds)) w1).
Proof using ConsoleLaws0.
  intros Hr E Hg Hw. unfold app_mac_all. rewrite (St_bind_ok _ _ _ _ _ E). cbn beta iota.
  rewrite Nat2Z.id. erewrite St_bind_ok; [|etransitivity; [apply for_n_iter|]].
  2:{ apply (report_loop ok tag mac_of ds); [done..|]. apply Forall_seq. intros i Hi.
      destruct (gr_entry _ _ _ _ Hg i) as (e & He & r & k & j & -> & _); [lia|]. eauto 10. }
  rewrite (fmap_seq_take (entry_lines tag mac_of) ds n); [done|].
  intros i Hi. destruct (gr_entry _ _ _ _ Hg i Hi) as (e & -> & _). by eexists.
Qed.

(** Each of the three single-device applications hands its driver the contexts of its
    own array one after the other, never one outside it and never one twice, prints the
    device's tag and address when the driver accepts one, and says so when no device is
    left or all four contexts are used. *)
Theorem mac_app_correct ok tag mac_of k s w :
  reports ok tag mac_of -> (forall k, s k <= MAX_NET_DEVICES)%nat -> ok w ->
  let ctx := NetCtx k MAC_APP (s k) in
  if decide (s k = MAX_NET_DEVICES)
  then app_mac k s w = Ok (s, con_write (driver_name k ++ str ": Maximum number of devices reached
") w)
  else (s k < MAX_NET_DEVICES)%nat /\ forall o w1, net_acquire k ctx w = Ok (o, w1) -> ok w1 ->
    exists s', (forall k, s k <= s' k <= MAX_NET_DEVICES)%nat /\
    match o with
    | Some r => (s k < s' k)%nat /\
        app_mac k s w = Ok (s', con_write (report_lines (tag (Some r)) (mac_of ctx)) w1)
    | None => s' = s /\
        app_mac k s w = Ok (s', con_write (driver_name k ++ str ": No available device
") w1)
    end.
Proof using ConsoleLaws0.
  intros Hr Hs Hw ctx. unfold app_mac. pose proof (Hs k) as Hk. case_decide as E.
  { destruct (Nat.leb_spec MAX_NET_DEVICES (s k)); [|lia]. done. }
  split; [lia|]. intros o w1 Ea Hw1. destruct (Nat.leb_spec MAX_NET_DEVICES (s k)); [lia|].
  cbv zeta. fold ctx. destruct o as [r|].
  - exists (mac_count s k). split; [|split].
    + intros k'. unfold mac_count. specialize (Hs k'). case_decide; subst; lia.
    + unfold mac_count. rewrite decide_True by done. lia.
    + rewrite (St_bind_ok _ _ _ _ _ Ea). cbn beta iota.
      rewrite (St_bind_ok _ _ _ _ _ (report_mac_ok ok tag mac_of (Some r) (drv_get_mac k (Some ctx))
        (mac_of ctx) w1 Hr Hw1 (fun w' Hw' => rp_mac _ _ _ Hr k ctx (replicate 6 0) w' Hw'))). done.
  - exists s. split; [intros k'; specialize (Hs k'); lia|]. split; [done|].
    rewrite (St_bind_ok _ _ _ _ _ Ea). done.
Qed.
End spec.

(** ** A sample world: two E1000 cards *)

Module sample_mac.
Record world := World { cards : nat; shown : bytes }.
Definition world_console : Console world := {|
  con_write s w := World (cards w) (shown w ++ s);
  con_log _ := log_empty;
  con_set_log _ w := w |}.
#[local] Existing Instance world_console.
Definition world_laws : ConsoleLaws world.
Proof.
  split; [done|..].
  - intros [c o]. unfold con_write, world_console. cbn. by rewrite app_nil_r.
  - intros s t [c o]. unfold con_write, world_console. cbn. by rewrite app_assoc.
Defined.
Definition address (ctx : net_ctx) : bytes := [0x52; 0x54; 0; 0; 0; Z.of_nat (ctx_index ctx)].
Definition world_net : NetDriver world := {|
  drv_get_mac _ c m :=
    match c with Some ctx => mret (0, address ctx) | None => mret (-1, m) end;
  drv_transmit _ _ _ _ _ := mret 0;
  drv_receive _ _ b _ _ l := mret (-1, b, l);
  net_acquire k _ w :=
    match k, cards w with
    | E1000, S n => Ok (Some n, World n (shown w))
    | _, _ => Ok (None, w)
    end;
  net_print_tag _ _ := Ok (str "[00:03|e1000@0.1.0]") |}.
Definition tag (r : option nat) : bytes := str "[00:03|e1000@0.1.0]".
Definition start : world := World 2 [].
Lemma sample_reports : reports (H := world_console) (H0 := world_net) (fun _ => True) tag
  (fun ctx => Some (address ctx)).
Proof. split; [done..|]. intros k ctx m w _. by exists 0, (address ctx). Qed.
Lemma mac_sample_acquires : acquires (H := world_net) (fun _ _ => True).
Proof.
  split. intros k j l [n o] _ _. destruct k, n; cbn; eexists _, _; (split; [reflexivity|done]).
Qed.
End sample_mac.

Lemma mac_all_correct_witness : exists ds st' w1,
  netdev_acquire_all (H := sample_mac.world_net) (replicate 12 device_entry_zero) 12
    net_statics_zero sample_mac.start = Ok (2, ds, st', w1) /\
  app_mac_all (H := sample_mac.world_console) (H0 := sample_mac.world_net) net_statics_zero
    sample_mac.start = Ok (st', con_write (Console := sample_mac.world_console)
      (concat (entry_lines sample_mac.tag (fun ctx => Some (sample_mac.address ctx)) <$> take 2 ds)) w1).
Proof.
  destruct (acquire_all_spec (H := sample_mac.world_net) _ [] (replicate 12 device_entry_zero) 12
    net_statics_zero sample_mac.start sample_mac.mac_sample_acquires I ltac:(reflexivity))
    as (n & ds & st' & w1 & E & _ & _ & _ & [_ Hg] & _).
  { intros []; cbn; unfold MAX_NETDEV_CONTEXTS_PER_DRIVER; lia. }
  assert (n = 2%nat) as ->.
  { assert (exists x y z, netdev_acquire_all (H := sample_mac.world_net) (replicate 12 device_entry_zero)
      (Z.of_nat 12) net_statics_zero sample_mac.start = Ok (2, x, y, z)) as (x & y & z & Ex)
      by (eexists _, _, _; vm_compute; reflexivity).
    rewrite E in Ex. injection Ex. lia. }
  exists ds, st', w1. split; [exact E|].
  exact (mac_all_correct (H := sample_mac.world_console) (ConsoleLaws0 := sample_mac.world_laws)
    (H0 := sample_mac.world_net) _ _ _ _ _ 2 ds st' w1 sample_mac.sample_reports E Hg I).
Defined.

Lemma mac_app_correct_witness : exists s' w',
  app_mac (H := sample_mac.world_console) (H0 := sample_mac.world_net) E1000 mac_statics_zero
    sample_mac.start = Ok (s', w') /\
  sample_mac.shown w' = str "[00:03|e1000@0.1.0] Initializing...
[00:03|e1000@0.1.0] MAC: 52:54:00:00:00:00
".
Proof.
  pose proof (mac_app_correct (H := sample_mac.world_console) (ConsoleLaws0 := sample_mac.world_laws)
    (H0 := sample_mac.world_net) _ _ _ E1000 mac_statics_zero sample_mac.start
    sample_mac.sample_reports (fun _ => Nat.le_0_l _) I) as Hm.
  cbv zeta in Hm. rewrite decide_False in Hm by done. destruct Hm as [_ Hm].
  destruct (Hm (Some 1%nat) (sample_mac.World 1 []) eq_refl I) as (s' & _ & _ & E).
  eexists s', _. split; [exact E|]. vm_compute. reflexivity.
Defined.
