(* ===== verification/ArpBroadcast.v ===== *)
(** The ARP broadcast test (apps/arp-broadcast/arp_broadcast.c): it sends an ARP
    request from the first of three devices and looks whether the others got it. *)

From S2P Require Export Arp Mac.

Open Scope Z_scope.

Definition MAX_DEVICES : Z := 3.
Definition sender_ip : Z := 0x0A000201.
Definition target_ip : Z := 0x0A00020F.

Section arp_broadcast.
  Context {W : Type} `{Arch} `{Console W} `{NetDriver W}.

(** The loop over the devices that reads their addresses; [None] is the return when
    one fails. *)
Fixpoint read_macs (devices : list device_entry) : St W (option (list bytes)) :=
  match devices with
  | [] => mret (Some [])
  | d :: devices =>
      _ ← tagged (entry_resource d) " Initializing...
";
      '(result, mac) ← entry_get_mac d (replicate 6 0);
      if negb (result =? 0) then
        _ ← tagged (entry_resource d) " Error: Failed to get MAC address
";
        mret None
      else
        _ ← tagged (entry_resource d) " MAC: ";
        _ ← kput (net_print_mac mac 0);
        _ ← kput (puts (nl ++ nl));
        macs ← read_macs devices;
        mret ((fun l => mac :: l) <$> macs)
  end.

(** [if (arp) arp_print(arp, 0);] of the packet parsed. *)
Definition print_parsed (b : bytes) (length : Z) : St W unit :=
  '(arp, _) ← lift (arp_parse b 0 length None);
  match arp with Some a => kput (arp_print b (Some a) 0) | None => skip end.

(** A receiver; its buffer is uninitialised before. *)
Definition listen (d : device_entry) : St W unit :=
  _ ← tagged (entry_resource d) " RX: Waiting for packet...
";
  '(rx_result, buf, rx_length) ← netdev_receive (Some d) (Some (replicate 64 0, 0)) 64 (Some 0);
  let rx_buffer := match buf with Some (b, _) => b | None => [] end in
  let rx_length := default 0 rx_length in
  _ ← (if rx_result =? 0 then
         _ ← tagged (entry_resource d) " RX: Packet received (";
         _ ← kput (puts (net_print_decimal_u8 rx_length ++ str " bytes)" ++ nl));
         print_parsed rx_buffer rx_length
       else tagged (entry_resource d) " RX: No packet received
");
  kput (puts nl).
Fixpoint listen_all (devices : list device_entry) : St W unit :=
  match devices with [] => skip | d :: devices => _ ← listen d; listen_all devices end.

Definition app_arp_broadcast (st : net_statics) : St W net_statics :=
  '(device_count, devices, st) ←
    netdev_acquire_all (replicate (Z.to_nat MAX_DEVICES) device_entry_zero) MAX_DEVICES st;
  if device_count <? 3 then
    _ ← kputs "Error: Need at least 3 network devices for ARP broadcast test
";
    mret st
  else
  let used := take (Z.to_nat device_count) devices in
  macs ← read_macs used;
  match macs with
  | None => mret st
  | Some mac_addresses =>
      mac0 ← lift (rd mac_addresses 0);
      arp_packet ← lift (arp_build_request (replicate 64 0) 0 mac0 sender_ip target_ip);
      d0 ← lift (rd devices 0);
      _ ← tagged (entry_resource d0) " TX: Building ARP broadcast
";
      _ ← print_parsed arp_packet ARP_PACKET_SIZE;
      _ ← tagged (entry_resource d0) " TX: Length=";
      _ ← kput (puts (net_print_decimal_u8 ARP_PACKET_SIZE));
      _ ← kputs " bytes
";
      tx_result ← netdev_transmit (Some d0) (Some (arp_packet, 0)) ARP_PACKET_SIZE;
      if tx_result =? 0 then
        _ ← tagged (entry_resource d0) " TX: Packet sent successfully

";
        _ ← listen_all (drop 1 used);
        mret st
      else
        _ ← tagged (entry_resource d0) " TX: Failed to send packet

";
        mret st
  end.
End arp_broadcast.

(* ------------------------------------------------------------------ *)
(** ** Lemmas *)

Section spec.
  Context {W : Type} `{Arch} `{Console W} `{!ConsoleLaws W} `{NetDriver W} `{!NetDriverLaws W}.

(** An invariant of the world under which the contexts in [cs] are ready and which
    their drivers keep. *)
Record network (ok : W -> Prop) (cs : list net_ctx) : Prop := Network {
  nw_ready : forall c w, c ∈ cs -> ok w -> net_ready (ctx_driver c) (Some c) w;
  nw_transmit : forall c b o n w r w', c ∈ cs -> ok w -> is_bytes b ->
    drv_transmit (ctx_driver c) (Some c) b o n w = Ok (r, w') -> ok w';
  nw_receive : forall c b o n l w x w', c ∈ cs -> ok w -> is_bytes b ->
    drv_receive (ctx_driver c) (Some c) b o n l w = Ok (x, w') -> ok w'
}.

(** An entry with a context in [cs], of its own driver. *)
Definition entry_in (cs : list net_ctx) (e : device_entry) : Prop :=
  exists c, c ∈ cs /\ entry_context e = Some c /\ entry_driver e = Some (ctx_driver c).

Context (ok : W -> Prop) (tag : option nat -> bytes) (mac_of : net_ctx -> option bytes).
Context (cs : list net_ctx) (Hrep : reports ok tag mac_of) (Hnet : network ok cs).

(** Steps that print and keep the invariant. *)
Definition shows {A} (m : St W A) (a : A) (w : W) : Prop :=
  exists w', m w = Ok (a, w') /\ prints w w' /\ ok w'.

Lemma shows_put o s w : ok w -> o = Ok s -> shows (kput o) tt w.
Proof using Hrep.
  intros Hw ->. eexists. split; [done|]. split; [by apply rtc_once; exists s|by apply (rp_write _ _ _ Hrep)].
Qed.
Lemma shows_tagged r msg w : ok w -> shows (tagged r msg) tt w.
Proof using Hrep.
  intros Hw. unfold shows. rewrite (tagged_ok _ _ _ _ _ _ Hrep Hw). eexists. split; [done|].
  split; [by apply rtc_once; eexists|by apply (rp_write _ _ _ Hrep)].
Qed.
Lemma shows_ret {A} (a : A) w : ok w -> shows (mret a) a w.
Proof using. intros Hw. exists w. split; [done|]. split; [apply rtc_refl|done]. Qed.
Lemma shows_bind {A B} (m : St W A) (f : A -> St W B) a b w :
  shows m a w -> (forall w', prints w w' -> ok w' -> shows (f a) b w') -> shows (m ≫= f) b w.
Proof using.
  intros (w1 & E & Hp & Hw1) Hf. destruct (Hf w1 Hp Hw1) as (w2 & E2 & Hp2 & Hw2).
  exists w2. split; [by rewrite (St_bind_ok _ _ _ _ _ E)|]. split; [|done].
  exact (transitivity (R := rtc _) Hp Hp2).
Qed.

Lemma shows_print_parsed b n w : ok w -> 42 <= len b -> shows (print_parsed b n) tt w.
Proof using Hrep.
  intros Hw Hl. unfold print_parsed, arp_parse, ARP_PACKET_SIZE. destruct (n <? 42).
  - by apply shows_ret.
  - change (0 + sizeof_eth_hdr) with 14. destruct (arp_print_safe b 14 0) as [s E]; [lia..|].
    by apply (shows_put _ s).
Qed.

(** The addresses of all devices, if all have one. *)
Definition macs_of (ds : list device_entry) : option (list bytes) :=
  mapM (fun e => entry_context e ≫= mac_of) ds.

Lemma shows_read_macs ds : forall w, ok w -> Forall (entry_in cs) ds ->
  shows (read_macs ds) (macs_of ds) w.
Proof using Hrep.
  induction ds as [|d ds IH]; intros w Hw Hds; [by apply shows_ret|].
  apply Forall_cons in Hds as [(c & Hc & Hctx & Hdrv) Hds]. cbn [read_macs].
  apply (shows_bind _ _ tt); [by apply shows_tagged|]. intros w1 _ Hw1.
  destruct (entry_get_mac_ok ok tag mac_of d w1 Hrep Hw1) as (x & m' & E2 & Hx); [by eauto|].
  unfold shows. setoid_rewrite (St_bind_ok _ _ _ _ _ E2). cbn beta iota.
  unfold macs_of. cbn [mapM]. change (mapM ?f ds) with (macs_of ds).
  destruct (entry_context d ≫= mac_of) as [mac|].
  - destruct Hx as (-> & -> & Hl). cbn [Z.eqb negb].
    apply (shows_bind _ _ tt); [by apply shows_tagged|]. intros w2 _ Hw2.
    apply (shows_bind _ _ tt); [by apply (shows_put _ (mac_string mac)), mac_string_ok|].
    intros w3 _ Hw3. apply (shows_bind _ _ tt); [by eapply shows_put|]. intros w4 _ Hw4.
    apply (shows_bind _ _ (macs_of ds)); [by apply IH|]. intros w5 _ Hw5.
    destruct (macs_of ds); by apply shows_ret.
  - destruct (Z.eqb_spec x 0); [done|]. cbn [negb].
    apply (shows_bind _ _ tt); [by apply shows_tagged|]. intros w2 _ Hw2. by apply shows_ret.
Qed.

(** A receiver completes whatever it receives. *)
Lemma listen_ok d w : ok w -> entry_in cs d -> exists w', listen d w = Ok (tt, w') /\ ok w'.
Proof using Hrep Hnet.
  intros Hw (c & Hc & Hctx & Hdrv).
  destruct (shows_tagged (entry_resource d) " RX: Waiting for packet...
" w Hw) as (w1 & E1 & _ & Hw1). unfold listen. rewrite (St_bind_ok _ _ _ _ _ E1).
  destruct (receive_ok (ctx_driver c) (Some c) (replicate 64 0) 0 64 0 w1)
    as (r & b & l & w2 & E2 & _ & _ & Hl & _);
    [by apply (nw_ready _ _ Hnet)|lia|lia|done|by apply Forall_replicate|].
  pose proof (nw_receive _ _ Hnet _ _ _ _ _ _ _ _ Hc Hw1 ltac:(by apply Forall_replicate) E2) as Hw2.
  change (len (replicate 64 0)) with 64 in Hl.
  rewrite (St_bind_ok _ _ w1 (r, Some (b, 0), Some l) w2)
    by (cbn [netdev_receive]; rewrite Hdrv, Hctx; by rewrite (St_bind_ok _ _ _ _ _ E2)).
  cbn beta iota. change (default 0 (Some l)) with l.
  match goal with |- exists w', (?m ≫= ?f) w2 = _ /\ _ => assert (shows (m ≫= f) tt w2) as (w' & E & _ & ?);
    [|by exists w'] end.
  apply (shows_bind _ _ tt).
  - destruct (r =? 0); [|by apply shows_tagged].
    apply (shows_bind _ _ tt); [by apply shows_tagged|]. intros w3 _ Hw3.
    apply (shows_bind _ _ tt); [by eapply shows_put|]. intros w4 _ Hw4.
    apply shows_print_parsed; [done|lia].
  - intros w3 _ Hw3. by eapply shows_put.
Qed.

Lemma listen_all_ok ds : forall w, ok w -> Forall (entry_in cs) ds ->
  exists w', listen_all ds w = Ok (tt, w') /\ ok w'.
Proof using Hrep Hnet.
  induction ds as [|d ds IH]; intros w Hw Hds; [by exists w|].
  apply Forall_cons in Hds as [Hd Hds]. cbn [listen_all].
  destruct (listen_ok d w Hw Hd) as (w1 & E & Hw1). rewrite (St_bind_ok _ _ _ _ _ E). by apply IH.
Qed.

(** What is printed before the request is sent. *)
Lemma announce_ok d (b : bytes) w : ok w -> 42 <= len b -> exists w1, prints w w1 /\ ok w1 /\
  forall B (k : St W B),
    (_ ← tagged (entry_resource d) " TX: Building ARP broadcast
";
     _ ← print_parsed b ARP_PACKET_SIZE;
     _ ← tagged (entry_resource d) " TX: Length=";
     _ ← kput (puts (net_print_decimal_u8 ARP_PACKET_SIZE));
     _ ← kputs " bytes
"; k) w = k w1.
Proof using Hrep.
  intros Hw Hl.
  destruct (shows_tagged (entry_resource d) " TX: Building ARP broadcast
" w Hw) as (w1 & E1 & Hp1 & Hw1).
  destruct (shows_print_parsed b ARP_PACKET_SIZE w1 Hw1 Hl) as (w2 & E2 & Hp2 & Hw2).
  destruct (shows_tagged (entry_resource d) " TX: Length=" w2 Hw2) as (w3 & E3 & Hp3 & Hw3).
  destruct (shows_put _ _ w3 Hw3 (eq_refl (puts (net_print_decimal_u8 ARP_PACKET_SIZE))))
    as (w4 & E4 & Hp4 & Hw4).
  destruct (shows_put _ _ w4 Hw4 (eq_refl (puts (str " bytes
")))) as (w5 & E5 & Hp5 & Hw5).
  exists w5. split; [by do 4 (etransitivity; [eassumption|])|]. split; [done|]. intros B k.
  rewrite (St_bind_ok _ _ _ _ _ E1), (St_bind_ok _ _ _ _ _ E2), (St_bind_ok _ _ _ _ _ E3),
    (St_bind_ok _ _ _ _ _ E4). exact (St_bind_ok _ (fun _ => k) _ _ _ E5).
Qed.

(** The request in its 64-byte buffer. *)
Definition request (mac : bytes) : bytes :=
  arp_packet broadcast mac ARP_OP_REQUEST mac sender_ip (replicate 6 0) target_ip ++ replicate 22 0.

Lemma request_ok mac : len mac = 6 -> is_bytes mac ->
  arp_build_request (replicate 64 0) 0 mac sender_ip target_ip = Ok (request mac) /\
  len (request mac) = 64 /\ is_bytes (request mac).
Proof using.
  intros Hm Hb. split_and!.
  - exact (arp_build_request_spec [] (replicate 42 0) (replicate 22 0) mac sender_ip target_ip eq_refl Hm).
  - unfold request. rewrite len_app, arp_packet_len by done. done.
  - unfold request, arp_packet, arp_body, ETH_P_ARP, ARP_HW_ETHER, ETH_P_IP, ARP_OP_REQUEST.
    apply is_bytes_app. split; [|by apply Forall_replicate]. solve_bytes;
      by apply is_bytes_str_check.
Qed.

Lemma transmit_request d b w : ok w -> entry_in cs d -> len b = 64 -> is_bytes b ->
  exists r w1, netdev_transmit (Some d) (Some (b, 0)) ARP_PACKET_SIZE w = Ok (r, w1) /\ ok w1.
Proof using Hnet.
  intros Hw (c & Hc & Hctx & Hdrv) Hl Hb. unfold ARP_PACKET_SIZE.
  destruct (transmit_ok (ctx_driver c) (Some c) b 0 42 w) as (r & w1 & E & _);
    [by apply (nw_ready _ _ Hnet)|lia|unfold ETH_FRAME_MAX; lia|lia|done|].
  exists r, w1. split; [unfold netdev_transmit; cbn [Z.eqb]; by rewrite Hdrv, Hctx|].
  by apply (nw_transmit _ _ Hnet _ _ _ _ _ _ _ Hc Hw Hb E).
Qed.

(** C37: With at least three devices that have addresses, the program sends exactly one
    frame, from the first of them: the ARP request for 10.0.2.15 with that device's
    address as the sender's, broadcast.  It then polls each other device once, only when
    the request was sent, and returns whatever they deliver; with fewer devices it
    prints an error and touches none. *)
Theorem arp_broadcast_correct st w n ds st' w1 :
  netdev_acquire_all (replicate (Z.to_nat MAX_DEVICES) device_entry_zero) MAX_DEVICES st w
    = Ok (n, ds, st', w1) -> ok w1 ->
  (n < 3 -> app_arp_broadcast st w = Ok (st', con_write (str "Error: Need at least 3 network devices for ARP broadcast test
") w1)) /\
  (n = 3 -> length ds = 3%nat -> Forall (entry_in cs) ds -> forall mac macs,
    macs_of ds = Some (mac :: macs) -> len mac = 6 -> is_bytes mac ->
    exists d0 w2 r w3 w4, ds !! 0%nat = Some d0 /\ prints w1 w2 /\
      netdev_transmit (Some d0) (Some (request mac, 0)) ARP_PACKET_SIZE w2 = Ok (r, w3) /\
      app_arp_broadcast st w = Ok (st', w4) /\ ok w4 /\
      (r = 0 -> exists w', prints w3 w' /\ listen_all (drop 1 ds) w' = Ok (tt, w4)) /\
      (r <> 0 -> prints w3 w4)).
Proof using Hrep Hnet.
  intros E Hw. unfold app_arp_broadcast. rewrite (St_bind_ok _ _ _ _ _ E). cbn beta iota.
  split; intros Hn.
  { destruct (Z.ltb_spec n 3); [done|lia]. }
  subst n. intros Hlen Hds mac macs Hm Hl Hb. cbn [Z.ltb Z.compare Pos.compare Pos.compare_cont].
  destruct ds as [|d0 ds]; [done|]. exists d0.
  change (Z.to_nat 3) with 3%nat. rewrite take_ge by lia.
  destruct (shows_read_macs (d0 :: ds) w1 Hw Hds) as (w2 & E2 & Hp2 & Hw2).
  destruct (request_ok mac Hl Hb) as (Hreq & Hrl & Hrb).
  destruct (announce_ok d0 (request mac) w2 Hw2) as (w3 & Hp3 & Hw3 & Hk); [lia|].
  pose proof (Forall_inv Hds) as Hd0.
  destruct (transmit_request d0 (request mac) w3 Hw3 Hd0 Hrl Hrb) as (r & w4 & E4 & Hw4).
  rewrite (St_bind_ok _ _ _ _ _ E2), Hm. cbn beta iota.
  erewrite St_bind_ok by reflexivity. rewrite Hreq. do 2 (erewrite St_bind_ok by reflexivity).
  assert (prints w1 w3) as Hp13 by exact (transitivity (R := rtc _) Hp2 Hp3).
  destruct (Z.eq_dec r 0) as [->|Hr].
  - destruct (shows_tagged (entry_resource d0) " TX: Packet sent successfully

" w4 Hw4) as (w5 & E5 & Hp5 & Hw5).
    destruct (listen_all_ok ds w5 Hw5 (Forall_inv_tail Hds)) as (w6 & E6 & Hw6).
    exists w3, 0, w4, w6. split; [done|]. split; [done|]. split; [done|]. split.
    + etransitivity; [exact (Hk _ _)|]. rewrite (St_bind_ok _ _ _ _ _ E4). cbn [Z.eqb].
      rewrite (St_bind_ok _ _ _ _ _ E5). cbn [drop]. by rewrite (St_bind_ok _ _ _ _ _ E6).
    + split; [done|]. split; [by exists w5|done].
  - destruct (shows_tagged (entry_resource d0) " TX: Failed to send packet

" w4 Hw4) as (w5 & E5 & Hp5 & Hw5).
    exists w3, r, w4, w5. split; [done|]. split; [done|]. split; [done|]. split; [|done].
    etransitivity; [exact (Hk _ _)|]. rewrite (St_bind_ok _ _ _ _ _ E4).
    destruct (Z.eqb_spec r 0); [done|]. by rewrite (St_bind_ok _ _ _ _ _ E5).
Qed.
End spec.

(** ** A sample world: three cards on one wire *)

Module sample_lan.
Record world := World { cards : nat; shown : bytes; wire : option bytes }.
Definition world_console : Console world := {|
  con_write s w := World (cards w) (shown w ++ s) (wire w);
  con_log _ := log_empty;
  con_set_log _ w := w |}.
#[local] Existing Instance world_console.
Definition world_laws : ConsoleLaws world.
Proof.
  split; [done|..].
  - intros [c o f]. unfold con_write, world_console. cbn. by rewrite app_nil_r.
  - intros s t [c o f]. unfold con_write, world_console. cbn. by rewrite app_assoc.
Defined.
Definition world_net : NetDriver world := {|
  drv_get_mac _ c m :=
    match c with Some ctx => mret (0, sample_mac.address ctx) | None => mret (-1, m) end;
  drv_transmit _ _ b o n w :=
    match load b o n with
    | Ok f => Ok (0, World (cards w) (shown w) (Some f)) | _ => UB end;
  drv_receive _ _ b o n l w :=
    match wire w with
    | Some f =>
        match (if len f <=? n then store b o f else UB) with
        | Ok b' => Ok (0, b', len f, w) | _ => Ok (-1, b, l, w) end
    | None => Ok (-1, b, l, w)
    end;
  net_acquire k _ w :=
    match k, cards w with
    | E1000, S n => Ok (Some n, World n (shown w) (wire w))
    | _, _ => Ok (None, w)
    end;
  net_print_tag _ _ := Ok [] |}.
#[local] Existing Instance world_net.
Definition ok (w : world) : Prop := match wire w with Some f => is_bytes f | None => True end.
Definition world_net_laws : NetDriverLaws world.
Proof.
  refine {| net_ready _ _ w := ok w |}; [done| | |].
  - intros k c b o n w r w'. cbn [drv_transmit world_net]. destruct (load b o n); [|done..]. by intros [= _ <-].
  - intros k c b o n w Hw Ho Hn Hl Hb. cbn [drv_transmit world_net].
    destruct (split_at b o n) as (h & m & t & -> & <- & <-); [lia..|]. rewrite load_ok.
    eexists _, _. split; [done|]. unfold ok. cbn. rewrite !is_bytes_app in Hb. tauto.
  - intros k c b o n l w Hw Ho Hn Hl Hb. cbn [drv_receive world_net]. unfold ok in Hw.
    destruct (wire w) as [f|] eqn:Ew; [|eexists _, _, _, _; split; [done|]; unfold ok; by rewrite Ew].
    destruct (if len f <=? n then store b o f else UB) as [b'| |] eqn:Es;
      [|eexists _, _, _, _; (split; [done|]); unfold ok; by rewrite Ew..].
    destruct (len f <=? n); [|done]. eexists _, _, _, _. split; [done|]. unfold ok. rewrite Ew.
    split; [done|]. split; [done|]. split; [by apply (store_len _ _ _ _ Es)|].
    apply store_inv in Es as (h & m & t & -> & _ & _ & ->). rewrite !is_bytes_app in *. tauto.
Defined.
Definition start : world := World 3 [] None.
Definition ctxs : list net_ctx := (fun i => NetCtx E1000 NETDEV_POOL i) <$> [0; 1; 2]%nat.
Lemma lan_reports : reports ok (fun _ => []) (fun ctx => Some (sample_mac.address ctx)).
Proof. split; [done..|]. intros k ctx m w _. by exists 0, (sample_mac.address ctx). Qed.
Lemma lan_network : network (NetDriverLaws0 := world_net_laws) ok ctxs.
Proof.
  split; [done|..].
  - intros c b o n w r w' _ Hw Hb E. cbn [drv_transmit world_net] in E.
    destruct (load b o n) as [f| |] eqn:El; [|done..]. injection E as _ <-. unfold ok. cbn.
    apply load_inv in El as (_ & h & t & -> & _). rewrite !is_bytes_app in Hb. tauto.
  - intros c b o n l w x w' _ Hw Hb E. cbn [drv_receive world_net] in E.
    destruct (wire w) as [f|]; [|by injection E as _ <-].
    by destruct (if len f <=? n then store b o f else UB); injection E as _ <-.
Qed.
End sample_lan.

Lemma arp_broadcast_correct_witness : exists ds st' w1 d0 w2 r w3 w4,
  netdev_acquire_all (H := sample_lan.world_net) (replicate 3 device_entry_zero) 3
    net_statics_zero sample_lan.start = Ok (3, ds, st', w1) /\
  ds !! 0%nat = Some d0 /\ prints (H := sample_lan.world_console) w1 w2 /\
  netdev_transmit (H := sample_lan.world_net) (Some d0)
    (Some (request [0x52; 0x54; 0; 0; 0; 0], 0)) 42 w2 = Ok (r, w3) /\
  app_arp_broadcast (H := ARM64) (H0 := sample_lan.world_console) (H1 := sample_lan.world_net)
    net_statics_zero sample_lan.start = Ok (st', w4).
Proof.
  assert (exists ds st' w1, netdev_acquire_all (H := sample_lan.world_net)
      (replicate (Z.to_nat MAX_DEVICES) device_entry_zero) MAX_DEVICES net_statics_zero sample_lan.start
      = Ok (3, ds, st', w1) /\ ds = (fun i => DeviceEntry (Some (2 - i)%nat) (Some E1000)
          (Some (NetCtx E1000 NETDEV_POOL i))) <$> [0; 1; 2]%nat /\ sample_lan.ok w1)
    as (ds & st' & w1 & E & Hds & Hw1).
  { eexists _, _, _. split; [vm_compute; reflexivity|]. split; [reflexivity|exact I]. }
  destruct (arp_broadcast_correct (H := ARM64) (H0 := sample_lan.world_console)
    (H1 := sample_lan.world_net) (NetDriverLaws0 := sample_lan.world_net_laws) _ _ _ _
    sample_lan.lan_reports sample_lan.lan_network _ _ _ _ _ _ E Hw1) as [_ Ha].
  destruct (Ha eq_refl ltac:(by rewrite Hds)) with (mac := [0x52; 0x54; 0; 0; 0; 0])
      (macs := [[0x52; 0x54; 0; 0; 0; 1]; [0x52; 0x54; 0; 0; 0; 2]])
    as (d0 & w2 & r & w3 & w4 & Hd0 & Hp & Ht & Er & _);
    [|by rewrite Hds|done|by apply is_bytes_str_check|].
  - rewrite Hds. repeat (apply Forall_cons_2; [eexists; split; [|split; reflexivity]|]);
      [| | |apply Forall_nil_2]; unfold sample_lan.ctxs; cbn; repeat constructor.
  - exists ds, st', w1, d0, w2, r, w3, w4. split; [exact E|]. split; [exact Hd0|].
    split; [exact Hp|]. split; [exact Ht|exact Er].
Defined.
