(* ===== verification/Io.v ===== *)
(** The hardware bus as an interface: device registers in memory and I/O ports
    (common/common.h, kernel/devices/virtio_mmio.h).  The devices behind it are a
    parameter of the model: a read can change their state. *)

From S2P Require Export Console Devices.

Open Scope Z_scope.

(** Volatile accesses to device registers, and port instructions, by width. *)
Inductive access := Mmio8 | Mmio16 | Mmio32 | Port8 | Port16 | Port32.

#[export] Instance access_eq_dec : EqDecision access.
Proof. solve_decision. Defined.

(** The largest value an access of a kind transfers. *)
Definition access_max (a : access) : Z :=
  match a with
  | Mmio8 | Port8 => 0xFF
  | Mmio16 | Port16 => 0xFFFF
  | Mmio32 | Port32 => 0xFFFFFFFF
  end.

Class Bus (W : Type) := {
  bus_read : access -> Z -> St W Z;
  bus_write : access -> Z -> Z -> St W unit
}.

(** What every bus promises: a value read has the width of the access. *)
Class BusLaws (W : Type) `{Bus W} := {
  bus_read_range : forall a addr w v w',
    bus_read a addr w = Ok (v, w') -> 0 <= v <= access_max a
}.

Section io.
  Context {W : Type} `{Bus W}.

(** The port instructions take a 16-bit port. *)
Definition io_inb (port : Z) : St W Z := bus_read Port8 (u16 port).
Definition io_outb (port value : Z) : St W unit := bus_write Port8 (u16 port) (u8 value).
Definition io_inw (port : Z) : St W Z := bus_read Port16 (u16 port).
Definition io_outw (port value : Z) : St W unit := bus_write Port16 (u16 port) (u16 value).
Definition io_inl (port : Z) : St W Z := bus_read Port32 (u16 port).
Definition io_outl (port value : Z) : St W unit := bus_write Port32 (u16 port) (u32 value).

Definition mmio_read32 (addr : Z) : St W Z := bus_read Mmio32 (u64 addr).
Definition mmio_write32 (addr value : Z) : St W unit := bus_write Mmio32 (u64 addr) (u32 value).

(** [value]: what the pointed-to variable holds, or NULL; the result code and
    the variable afterwards. *)
Definition mmio_read32_safe (addr : Z) (value : option Z) : St W (Z * option Z) :=
  match value with
  | None => mret (-1, None)
  | Some _ =>
      if negb (Z.land addr 3 =? 0) then mret (-1, value) else
      v ← bus_read Mmio32 addr; mret (0, Some v)
  end.
End io.

(** The loop of every platform_puts, over its putchar. *)
Fixpoint send_string {W} (putchar : Z -> St W unit) (s : cstr) : St W unit :=
  match s with
  | [] => skip
  | c :: s => if c =? 0 then skip else _ ← putchar c; send_string putchar s
  end.

(** A putchar that sends its character makes the loop send the string. *)
Lemma send_string_ok {W} (putchar : Z -> St W unit) (sent : W -> bytes) (ok : W -> Prop) s :
  (forall c w, is_u8 c -> ok w ->
     exists w', putchar c w = Ok (tt, w') /\ sent w' = sent w ++ [c] /\ ok w') ->
  is_bytes s -> no_nul s -> forall w, ok w ->
  exists w', send_string putchar s w = Ok (tt, w') /\ sent w' = sent w ++ s /\ ok w'.
Proof.
  intros Hp Hb Hs. induction s as [|c s IH]; intros w Hw.
  { exists w. by rewrite app_nil_r. }
  apply Forall_cons in Hb as [Hc Hb]. apply Forall_cons in Hs as [Hn Hs].
  cbn [send_string]. destruct (Z.eqb_spec c 0); [done|].
  destruct (Hp c w Hc Hw) as (w1 & E1 & H1 & Hw1). rewrite (St_bind_ok _ _ _ _ _ E1).
  destruct (IH Hb Hs w1 Hw1) as (w2 & E2 & H2 & Hw2). exists w2. split; [done|].
  split; [|done]. rewrite H2, H1. by rewrite <- app_assoc.
Qed.

(** [x << n] on int: shifting into the sign bit is undefined. *)
Definition shl_int (x n : Z) : res Z :=
  if Z.shiftl x n <? 2 ^ 31 then Ok (Z.shiftl x n) else UB.

(** A property of the world that a computation keeps: what a callback has been
    given, for instance, which no access to the hardware changes. *)
Definition keeps {W A} (P : W -> Prop) (m : St W A) : Prop :=
  forall w a w', P w -> m w = Ok (a, w') -> P w'.

Lemma keeps_bind {W A B} (P : W -> Prop) (m : St W A) (f : A -> St W B) :
  keeps P m -> (forall a, keeps P (f a)) -> keeps P (m ≫= f).
Proof. intros Hm Hf w b w2 Hw (a & w1 & E1 & E2)%St_bind_inv. by eapply Hf, E2; eapply Hm. Qed.

Lemma keeps_ret {W A} (P : W -> Prop) (a : A) : keeps P (mret (M := St W) a).
Proof. by intros w ? w' Hw [= <- <-]. Qed.

Lemma keeps_lift {W A} (P : W -> Prop) (r : res A) : keeps P (lift r).
Proof. intros w a w' Hw. unfold lift. destruct r; [|done..]. by intros [= <- <-]. Qed.

Lemma keeps_for_n {W A} (P : W -> Prop) n (f : nat -> A -> St W A) (a : A) :
  (forall i a, keeps P (f i a)) -> keeps P (for_n n f a).
Proof.
  intros Hf w x w' Hw. rewrite for_n_iter.
  enough (forall l a, keeps P (iter_list f l a)) as Hl by by apply Hl.
  induction l as [|i l IH]; intros b; cbn [iter_list]; [apply keeps_ret|by apply keeps_bind].
Qed.
Lemma keeps_if {W A} (P : W -> Prop) (b : bool) (m n : St W A) :
  keeps P m -> keeps P n -> keeps P (if b then m else n).
Proof. by destruct b. Qed.

(** The accesses to the hardware keep [P]. *)
Record bus_keeps {W} `{Bus W} (P : W -> Prop) : Prop := BusKeeps {
  read_keeps : forall a addr, keeps P (bus_read a addr);
  write_keeps : forall a addr v, keeps P (bus_write a addr v)
}.

Create HintDb keeps.
#[export] Hint Resolve keeps_bind keeps_ret keeps_lift keeps_if keeps_for_n : keeps.
Lemma io_keeps {W} `{Bus W} (P : W -> Prop) p v : bus_keeps P ->
  keeps P (io_inl p) /\ keeps P (io_outl p v) /\ keeps P (mmio_read32 p) /\
  keeps P (mmio_write32 p v).
Proof. intros [Hr Hw]. split_and!; [apply Hr|apply Hw|apply Hr|apply Hw]. Qed.
