(* ===== verification/VirtioMmio.v ===== *)
(** Discovery of virtio devices over MMIO (kernel/devices/virtio_mmio.c). *)

From S2P Require Export Io.

Open Scope Z_scope.

Definition VIRTIO_MMIO_MAGIC_VALUE : Z := 0x000.
Definition VIRTIO_MMIO_VERSION : Z := 0x004.
Definition VIRTIO_MMIO_DEVICE_ID : Z := 0x008.
Definition VIRTIO_MMIO_DEVICE_FEATURES : Z := 0x010.
Definition VIRTIO_MMIO_DRIVER_FEATURES : Z := 0x020.
Definition VIRTIO_MMIO_GUEST_PAGE_SIZE : Z := 0x028.
Definition VIRTIO_MMIO_QUEUE_SEL : Z := 0x030.
Definition VIRTIO_MMIO_QUEUE_NUM_MAX : Z := 0x034.
Definition VIRTIO_MMIO_QUEUE_NUM : Z := 0x038.
Definition VIRTIO_MMIO_QUEUE_ALIGN : Z := 0x03c.
Definition VIRTIO_MMIO_QUEUE_PFN : Z := 0x040.
Definition VIRTIO_MMIO_QUEUE_NOTIFY : Z := 0x050.
Definition VIRTIO_MMIO_STATUS : Z := 0x070.
Definition VIRTIO_PCI_DEVICE_FEATURES : Z := 0x00.
Definition VIRTIO_PCI_DRIVER_FEATURES : Z := 0x04.
Definition VIRTIO_PCI_QUEUE_PFN : Z := 0x08.
Definition VIRTIO_PCI_QUEUE_NUM : Z := 0x0C.
Definition VIRTIO_PCI_QUEUE_SEL : Z := 0x0E.
Definition VIRTIO_PCI_QUEUE_NOTIFY : Z := 0x10.
Definition VIRTIO_PCI_STATUS : Z := 0x12.
Definition VIRTIO_STATUS_ACKNOWLEDGE : Z := 1.
Definition VIRTIO_STATUS_DRIVER : Z := 2.
Definition VIRTIO_STATUS_DRIVER_OK : Z := 4.
Definition VIRTIO_STATUS_FEATURES_OK : Z := 8.
Definition VIRTIO_STATUS_FAILED : Z := 128.
Definition VIRTIO_TYPE_NET : Z := 1.
Definition VIRTIO_TYPE_BLOCK : Z := 2.
Definition VIRTIO_TYPE_RNG : Z := 4.

(** "virt", little endian. *)
Definition VIRTIO_MAGIC : Z := 0x74726976.

Definition virtio_type_to_device_id (device_type : Z) : Z :=
  if device_type =? VIRTIO_TYPE_NET then 0x1000
  else if device_type =? VIRTIO_TYPE_BLOCK then 0x1001
  else if device_type =? VIRTIO_TYPE_RNG then 0x1005
  else 0.

(** [virtio_mmio_config_t]. *)
Record virtio_mmio_config := VirtioMmioConfig {
  base_addr : Z; device_size : Z; config_device_count : Z }.

Section virtio_mmio.
  Context {W : Type} `{Bus W}.

(** [None] is a NULL device; the result code and the device afterwards. *)
Definition virtio_mmio_probe_device (device : option device) : St W (Z * option Device.device) :=
  let fail := mret (-1, device) in
  match device with
  | None => fail
  | Some d =>
      if reg_base d =? 0 then fail else
      '(r, magic) ← mmio_read32_safe (u64 (reg_base d + VIRTIO_MMIO_MAGIC_VALUE)) (Some 0);
      if negb (r =? 0) then fail else
      if negb (default 0 magic =? VIRTIO_MAGIC) then fail else
      '(r, version) ← mmio_read32_safe (u64 (reg_base d + VIRTIO_MMIO_VERSION)) (Some 0);
      if negb (r =? 0) then fail else
      let version := default 0 version in
      if (version =? 0) || (2 <? version) then fail else
      '(r, device_type) ← mmio_read32_safe (u64 (reg_base d + VIRTIO_MMIO_DEVICE_ID)) (Some 0);
      if negb (r =? 0) then fail else
      let device_type := default 0 device_type in
      if device_type =? 0 then fail else
      let device_id := virtio_type_to_device_id device_type in
      if device_id =? 0 then fail else
      mret (0, Some (set_ids d 0x1AF4 device_id))
  end.

(** The identification of one slot: the device ID, or [None] for [continue]. *)
Definition identify_slot (base : Z) : St W (option Z) :=
  '(r, magic) ← mmio_read32_safe (u64 (base + VIRTIO_MMIO_MAGIC_VALUE)) (Some 0);
  if negb (r =? 0) then mret None else
  if negb (default 0 magic =? VIRTIO_MAGIC) then mret None else
  '(r, version) ← mmio_read32_safe (u64 (base + VIRTIO_MMIO_VERSION)) (Some 0);
  if negb (r =? 0) then mret None else
  let version := default 0 version in
  if (version =? 0) || (2 <? version) then mret None else
  '(r, device_type) ← mmio_read32_safe (u64 (base + VIRTIO_MMIO_DEVICE_ID)) (Some 0);
  if negb (r =? 0) then mret None else
  let device_type := default 0 device_type in
  if device_type =? 0 then mret None else
  let device_id := virtio_type_to_device_id device_type in
  if device_id =? 0 then mret None else mret (Some device_id).

(** [compatible]: the address of the literal "virtio,mmio". *)
Definition mmio_device (compatible base size device_id i : Z) : device :=
  Device (Some compatible) None base size 0x1AF4 device_id 0 (u8 i) 0 None
    DEVICE_STATE_DISCOVERED 0 0 None None None 0 None.

(** The loop for [n] further slots from slot [i]. *)
Fixpoint mmio_loop (n : nat) (i : Z) (compatible : Z) (config : virtio_mmio_config)
    (callback : option (device -> St W unit)) (device_count : Z) : St W Z :=
  match n with
  | O => mret device_count
  | S n =>
      let base := u64 (base_addr config + u64 (i * device_size config)) in
      id ← identify_slot base;
      match id with
      | None => mmio_loop n (i + 1) compatible config callback device_count
      | Some device_id =>
          _ ← match callback with
              | Some call => call (mmio_device compatible base (device_size config) device_id i)
              | None => skip
              end;
          mmio_loop n (i + 1) compatible config callback (device_count + 1)
      end
  end.

Definition virtio_mmio_enumerate (compatible : Z) (config : option virtio_mmio_config)
    (callback : option (device -> St W unit)) : St W Z :=
  match config with
  | None => mret 0
  | Some c => mmio_loop (Z.to_nat (config_device_count c)) 0 compatible c callback 0
  end.
End virtio_mmio.

(* ------------------------------------------------------------------ *)
(** ** Specification *)

(** A device at [base], as its three identification registers tell: the
    PCI-style device ID of a network, block or entropy device of version 1 or 2. *)
Definition slot_id (regs : Z -> Z) (base : Z) : option Z :=
  if (Z.land base 3 =? 0) && (regs base =? VIRTIO_MAGIC)
     && ((regs (base + 4) =? 1) || (regs (base + 4) =? 2))
  then match regs (base + 8) with
       | 1 => Some 0x1000 | 2 => Some 0x1001 | 4 => Some 0x1005 | _ => None
       end
  else None.

(** The device of slot [k], and those of the slots [i], ..., [i] + [n] - 1. *)
Definition slot_device (regs : Z -> Z) (compatible : Z) (c : virtio_mmio_config) (k : Z)
    : option device :=
  (fun id => mmio_device compatible (base_addr c + k * device_size c) (device_size c) id k) <$>
  slot_id regs (base_addr c + k * device_size c).
Definition slot_devices (regs : Z -> Z) (compatible : Z) (c : virtio_mmio_config)
    (n : nat) (i : Z) : list device :=
  omap (fun k => slot_device regs compatible c (i + Z.of_nat k)) (seq 0 n).

Lemma slot_devices_S regs compatible c n i :
  slot_devices regs compatible c (S n) i =
  match slot_device regs compatible c i with Some d => [d] | None => [] end
  ++ slot_devices regs compatible c n (i + 1).
Proof.
  unfold slot_devices. cbn [seq omap list_omap]. rewrite Z.add_0_r.
  assert (Htail : omap (fun k => slot_device regs compatible c (i + Z.of_nat k)) (seq 1 n)
    = omap (fun k => slot_device regs compatible c (i + 1 + Z.of_nat k)) (seq 0 n)).
  { rewrite <- seq_shift. generalize (seq 0 n). intros l.
    induction l as [|k l IHl]; [done|]. cbn [List.map omap list_omap].
    replace (i + Z.of_nat (S k)) with (i + 1 + Z.of_nat k) by lia. by rewrite IHl. }
  rewrite Htail. by destruct (slot_device regs compatible c i).
Qed.

Section spec.
  Context {W : Type} `{Bus W}.

(** The registers read as [regs] says, and reading them changes nothing. *)
Definition stable (regs : Z -> Z) (w : W) : Prop :=
  forall a, bus_read Mmio32 a w = Ok (regs a, w) /\ is_u32 (regs a).

(** The identification registers of the slot at [base] read so. *)
Definition id_registers (regs : Z -> Z) (base : Z) (w : W) : Prop :=
  forall o, o ∈ [0; 4; 8] ->
    bus_read Mmio32 (base + o) w = Ok (regs (base + o), w) /\ is_u32 (regs (base + o)).

Lemma stable_id_registers regs base w : stable regs w -> id_registers regs base w.
Proof. intros Hs o _. apply Hs. Qed.

Fixpoint call_each (callback : option (device -> St W unit)) (ds : list device) : St W unit :=
  match ds with
  | [] => skip
  | d :: ds =>
      _ ← match callback with Some call => call d | None => skip end; call_each callback ds
  end.

Lemma mmio_read32_safe_id regs base o w :
  id_registers regs base w -> o ∈ [0; 4; 8] ->
  mmio_read32_safe (base + o) (Some 0) w =
  Ok (if Z.land (base + o) 3 =? 0 then (0, Some (regs (base + o))) else (-1, Some 0), w).
Proof.
  intros Hs Ho. unfold mmio_read32_safe. destruct (Z.land (base + o) 3 =? 0); [|done]. cbn [negb].
  by rewrite (St_bind_ok _ _ _ _ _ (proj1 (Hs o Ho))).
Qed.

Lemma land_3 a : Z.land a 3 = a mod 4.
Proof. exact (Z.land_ones a 2 ltac:(lia)). Qed.

(** The three reads and tests amount to [slot_id]. *)
Lemma identify_slot_spec regs base w :
  id_registers regs base w -> 0 <= base -> base + 8 < 2 ^ 64 ->
  identify_slot base w = Ok (slot_id regs base, w).
Proof.
  intros Hs H0 Hb. unfold identify_slot, slot_id, VIRTIO_MMIO_MAGIC_VALUE, VIRTIO_MMIO_VERSION,
    VIRTIO_MMIO_DEVICE_ID.
  pose proof (mmio_read32_safe_id regs base 0 w Hs ltac:(set_solver)) as R0.
  pose proof (mmio_read32_safe_id regs base 4 w Hs ltac:(set_solver)) as R4.
  pose proof (mmio_read32_safe_id regs base 8 w Hs ltac:(set_solver)) as R8.
  rewrite !Z.add_0_r in *. rewrite !u64_id by (unfold is_u64; lia).
  rewrite (St_bind_ok _ _ _ _ _ R0).
  destruct (Z.eqb_spec (Z.land base 3) 0) as [Ha|Ha]; [|done].
  assert (Ha4 : Z.land (base + 4) 3 = 0) by (rewrite land_3 in *; zdm).
  assert (Ha8 : Z.land (base + 8) 3 = 0) by (rewrite land_3 in *; zdm).
  cbn [Z.eqb negb default]. unfold default, id. destruct (regs base =? VIRTIO_MAGIC); [|done].
  cbn [negb andb]. rewrite (St_bind_ok _ _ _ _ _ R4), Ha4.
  cbn [Z.eqb negb]. destruct (Hs 4 ltac:(set_solver)) as [_ Hv]. unfold is_u32 in Hv.
  replace ((regs (base + 4) =? 0) || (2 <? regs (base + 4)))
    with (negb ((regs (base + 4) =? 1) || (regs (base + 4) =? 2))) by lia.
  destruct ((regs (base + 4) =? 1) || (regs (base + 4) =? 2)); [|done]. cbn [negb].
  rewrite (St_bind_ok _ _ _ _ _ R8), Ha8.
  cbn [Z.eqb negb]. unfold virtio_type_to_device_id, VIRTIO_TYPE_NET, VIRTIO_TYPE_BLOCK,
    VIRTIO_TYPE_RNG.
  destruct (Z.eqb_spec (regs (base + 8)) 0) as [->|]; [done|].
  destruct (Z.eqb_spec (regs (base + 8)) 1) as [->|]; [done|].
  destruct (Z.eqb_spec (regs (base + 8)) 2) as [->|]; [done|].
  destruct (Z.eqb_spec (regs (base + 8)) 4) as [->|]; [done|]. cbn [Z.eqb].
  destruct (regs (base + 8)) as [|[[p|p|]|[[p|p|]|[p|p|]|]|]|p]; done.
Qed.

(** Probing a device is identifying the slot at its base. *)
Lemma probe_identify d w :
  reg_base d <> 0 ->
  virtio_mmio_probe_device (Some d) w =
  (id ← identify_slot (reg_base d);
   mret match id with
        | Some i => (0, Some (set_ids d 0x1AF4 i)) | None => (-1, Some d)
        end) w.
Proof.
  intros Hd. unfold virtio_mmio_probe_device, identify_slot.
  destruct (Z.eqb_spec (reg_base d) 0); [done|]. cbv zeta.
  repeat first
    [ rewrite St_bind_assoc; apply St_bind_ext; intros [? ?] ? _; cbv beta iota
    | case_match; [|] | done ].
Qed.

Lemma mmio_loop_spec regs (Inv : W -> Prop) compatible c callback n : forall i count w,
  (forall w, Inv w -> stable regs w) ->
  (forall call d w, callback = Some call -> Inv w -> exists w', call d w = Ok (tt, w') /\ Inv w') ->
  Inv w -> 0 <= i -> 0 <= base_addr c -> 0 <= device_size c ->
  base_addr c + (i + Z.of_nat n) * device_size c + 8 < 2 ^ 64 ->
  mmio_loop n i compatible c callback count w =
  (_ ← call_each callback (slot_devices regs compatible c n i);
   mret (count + len (slot_devices regs compatible c n i))) w.
Proof.
  induction n as [|n IH]; intros i count w Hst Hcb Hw Hi Hb Hsz Hr.
  { cbn. unfold len. cbn. by rewrite Z.add_0_r. }
  assert (0 <= i * device_size c) by nia.
  assert (0 <= Z.of_nat n * device_size c) by (apply Z.mul_nonneg_nonneg; lia).
  assert (base_addr c + i * device_size c + 8 < 2 ^ 64) by lia.
  assert (Hcur : u64 (base_addr c + u64 (i * device_size c)) = base_addr c + i * device_size c).
  { rewrite (u64_id (i * _)), u64_id; unfold is_u64; nia. }
  rewrite slot_devices_S. unfold slot_device.
  cbn [mmio_loop]. cbv zeta. rewrite Hcur.
  rewrite (St_bind_ok _ _ _ _ _ (identify_slot_spec regs (base_addr c + i * device_size c) w
    (stable_id_registers _ _ _ (Hst w Hw)) ltac:(lia) ltac:(lia))).
  destruct (slot_id regs _) as [id|]; cbn [app call_each fmap option_fmap option_map].
  - rewrite !St_bind_assoc. apply St_bind_ext. intros [] w1 E.
    assert (Inv w1) as Hw1.
    { destruct callback as [call|]; [|by injection E as <-].
      destruct (Hcb call (mmio_device compatible (base_addr c + i * device_size c)
                            (device_size c) id i) w eq_refl Hw) as (w1' & E' & ?).
      rewrite E in E'. by injection E' as <-. }
    rewrite IH by (done || lia || nia). rewrite len_cons. apply St_bind_ext. intros [] w2 _.
    unfold mret, St_ret. do 2 f_equal. lia.
  - by rewrite IH by (done || lia || nia).
Qed.

(* ------------------------------------------------------------------ *)
(** ** Properties *)

(** virtio_mmio_probe_device accepts exactly the devices with the magic value,
    version 1 or 2 and a known device type at an aligned non-NULL base, and gives
    them the virtio vendor and the matching device ID; any other device is refused
    with -1 and left as it was. *)
Theorem virtio_probe_correct regs d w :
  id_registers regs (reg_base d) w -> 0 <= reg_base d -> reg_base d + 8 < 2 ^ 64 ->
  virtio_mmio_probe_device (Some d) w =
  Ok (match (if reg_base d =? 0 then None else slot_id regs (reg_base d)) with
      | Some id => (0, Some (set_ids d 0x1AF4 id))
      | None => (-1, Some d)
      end, w).
Proof.
  intros Hs H0 Hb. destruct (Z.eqb_spec (reg_base d) 0) as [E|E].
  - unfold virtio_mmio_probe_device. by rewrite E.
  - rewrite probe_identify by done.
    by rewrite (St_bind_ok _ _ _ _ _ (identify_slot_spec regs _ w Hs H0 Hb)).
Qed.

(** C26: virtio_mmio_enumerate calls the callback on exactly the devices identified
    in its slots, in order, and returns their number, given registers that neither
    reading them nor the callback changes. *)
Theorem virtio_enumerate_correct regs (Inv : W -> Prop) compatible c callback w :
  (forall w, Inv w -> stable regs w) ->
  (forall call d w, callback = Some call -> Inv w -> exists w', call d w = Ok (tt, w') /\ Inv w') ->
  Inv w -> 0 <= base_addr c -> 0 <= device_size c -> 0 <= config_device_count c ->
  base_addr c + config_device_count c * device_size c + 8 < 2 ^ 64 ->
  let ds := slot_devices regs compatible c (Z.to_nat (config_device_count c)) 0 in
  virtio_mmio_enumerate compatible (Some c) callback w =
  (_ ← call_each callback ds; mret (len ds)) w.
Proof.
  intros. unfold virtio_mmio_enumerate.
  by rewrite mmio_loop_spec with (regs := regs) (Inv := Inv) by (done || lia || nia).
Qed.
End spec.

(** Two slots of 512 bytes from 0x10001000: an entropy device and an empty one. *)
Module mmio_sample.
Definition regs (a : Z) : Z :=
  if a =? 0x10001000 then VIRTIO_MAGIC else if a =? 0x10001004 then 1
  else if a =? 0x10001008 then 4 else 0.
Definition config : virtio_mmio_config := VirtioMmioConfig 0x10001000 0x200 2.
(** The world: the devices reported so far. *)
Definition bus : Bus (list device) := {|
  bus_read _ a w := Ok (regs a, w); bus_write _ _ _ w := Ok (tt, w) |}.
Definition report (d : device) : St (list device) unit := fun w => Ok (tt, w ++ [d]).

Lemma regs_stable w : @stable _ bus regs w.
Proof.
  intros a. split; [reflexivity|]. unfold regs, VIRTIO_MAGIC, is_u32. repeat case_match; lia.
Qed.
End mmio_sample.

Lemma virtio_probe_correct_witness :
  @virtio_mmio_probe_device _ mmio_sample.bus (Some (sample_device 1 0x10001000)) [] =
    Ok ((0, Some (set_ids (sample_device 1 0x10001000) 0x1AF4 0x1005)), []).
Proof.
  apply (@virtio_probe_correct _ mmio_sample.bus mmio_sample.regs
    (sample_device 1 0x10001000) []).
  - apply stable_id_registers, mmio_sample.regs_stable.
  - cbn. lia.
  - cbn. lia.
Defined.

Lemma virtio_enumerate_correct_witness :
  let ds := slot_devices mmio_sample.regs 0 mmio_sample.config 2 0 in
  @virtio_mmio_enumerate _ mmio_sample.bus 0 (Some mmio_sample.config)
    (Some mmio_sample.report) [] =
  (_ ← call_each (Some mmio_sample.report) ds; mret (len ds)) [].
Proof.
  apply (@virtio_enumerate_correct _ mmio_sample.bus mmio_sample.regs (fun _ => True)).
  - intros w _. apply mmio_sample.regs_stable.
  - intros call d w [= <-] _. eexists. split; [reflexivity|exact I].
  - exact I.
  - cbn. lia.
  - cbn. lia.
  - cbn. lia.
  - cbn. lia.
Defined.
