(* ===== verification/Pci.v ===== *)
(** PCI configuration space as the three enumerators access it
    (kernel/devices/devices_amd64.c, devices_arm64.c, devices_riscv.c): what they
    share, and the contract of the hardware behind it. *)

From S2P Require Export Io.

Open Scope Z_scope.

Definition PCI_VENDOR_ID_OFFSET : Z := 0x00.
Definition PCI_DEVICE_ID_OFFSET : Z := 0x02.
Definition PCI_COMMAND_OFFSET : Z := 0x04.
Definition PCI_BAR0_OFFSET : Z := 0x10.
Definition PCI_BAR1_OFFSET : Z := 0x14.
Definition PCI_COMMAND_MEMORY : Z := 0x0002.
Definition PCI_COMMAND_MASTER : Z := 0x0004.

(** Base | bus << 20 | device << 15 | function << 12 | dword offset. *)
Definition ecam_address (base bus device function offset : Z) : Z :=
  Z.lor (Z.lor (Z.lor (Z.lor base (Z.shiftl bus 20)) (Z.shiftl device 15))
           (Z.shiftl function 12))
    (Z.land offset 0xFFC).

(** The 16-bit half of a dword that an offset selects. *)
Definition half_shift (offset : Z) : Z := u8 (Z.land offset 2 * 8).
Definition half_of (data offset : Z) : Z := Z.land (Z.shiftr data (half_shift offset)) 0xFFFF.
(** [(current & ~mask) | ((uint32_t)value << shift)] with [mask = 0xFFFF << shift]. *)
Definition put_half (current offset value : Z) : res Z :=
  mask ← shl_int 0xFFFF (half_shift offset);
  mret (Z.lor (Z.land current (u32 (Z.lnot mask))) (u32 (Z.shiftl value (half_shift offset)))).

(** The size a BAR reports after all ones were written to it. *)
Definition size_of_mask (original_bar size_mask : Z) : Z :=
  if (size_mask =? 0) || (size_mask =? 0xFFFFFFFF) then 0 else
  let size_mask := if Z.land original_bar 1 =? 0 then Z.land size_mask 0xFFFFFFF0
                   else Z.land size_mask 0xFFFFFFFC in
  u32 (u32 (Z.lnot size_mask) + 1).

(** The 32-bit configuration accesses of an architecture. *)
Record config_ops (W : Type) := ConfigOps {
  read32 : Z -> Z -> Z -> Z -> St W Z;
  write32 : Z -> Z -> Z -> Z -> Z -> St W unit
}.
Arguments ConfigOps {W}.
Arguments read32 {W}.
Arguments write32 {W}.

Section config.
  Context {W : Type} (ops : config_ops W).

(** Writes all ones, reads the mask back and restores the BAR. *)
Definition probe_bar_size (bus device function bar_offset : Z) : St W Z :=
  original_bar ← read32 ops bus device function bar_offset;
  _ ← write32 ops bus device function bar_offset 0xFFFFFFFF;
  size_mask ← read32 ops bus device function bar_offset;
  _ ← write32 ops bus device function bar_offset original_bar;
  mret (size_of_mask original_bar size_mask).
End config.

Section ecam.
  Context {W : Type} `{Bus W} (base : Z).

Definition ecam_read16 (bus device function offset : Z) : St W Z :=
  value ← mmio_read32 (ecam_address base bus device function offset);
  mret (half_of value offset).
Definition ecam_read32 (bus device function offset : Z) : St W Z :=
  mmio_read32 (ecam_address base bus device function offset).
Definition ecam_write16 (bus device function offset value : Z) : St W unit :=
  let addr := ecam_address base bus device function offset in
  current ← mmio_read32 addr;
  new_value ← lift (put_half current offset value);
  mmio_write32 addr new_value.
Definition ecam_write32 (bus device function offset value : Z) : St W unit :=
  mmio_write32 (ecam_address base bus device function offset) value.
Definition ecam_ops : config_ops W := ConfigOps ecam_read32 ecam_write32.
End ecam.

(* ------------------------------------------------------------------ *)
(** ** The contract of a configuration space *)

(** A configuration dword: bus, device, function and dword offset. *)
Record cfg_addr := CfgAddr { c_bus : Z; c_dev : Z; c_fun : Z; c_off : Z }.

#[export] Instance cfg_addr_eq_dec : EqDecision cfg_addr.
Proof. solve_decision. Defined.

Definition cfg_ok (a : cfg_addr) : Prop :=
  0 <= c_bus a < 256 /\ 0 <= c_dev a < 32 /\ 0 <= c_fun a < 8 /\
  0 <= c_off a < 256 /\ c_off a mod 4 = 0.

(** What a write leaves in a dword of which only the bits of [mask] change. *)
Definition cfg_written (mask old v : Z) : Z :=
  Z.lor (Z.land v mask) (Z.land old (u32 (Z.lnot mask))).

(** A configuration space behind the accesses [ops]: every dword holds a value,
    a read returns it and changes no dword, a write changes the writable bits of
    its dword and nothing else. *)
Class ConfigSpace {W : Type} (ops : config_ops W) := {
  cfg : W -> cfg_addr -> Z;
  cfg_mask : cfg_addr -> Z;
  cfg_live : W -> Prop;
  cfg_u32 : forall w a, cfg_live w -> is_u32 (cfg w a);
  cfg_mask_u32 : forall a, is_u32 (cfg_mask a);
  cfg_read : forall w b d f o, cfg_live w -> cfg_ok (CfgAddr b d f o) ->
    exists w', read32 ops b d f o w = Ok (cfg w (CfgAddr b d f o), w') /\
      cfg_live w' /\ forall a, cfg_ok a -> cfg w' a = cfg w a;
  cfg_write : forall w b d f o v, cfg_live w -> cfg_ok (CfgAddr b d f o) -> is_u32 v ->
    exists w', write32 ops b d f o v w = Ok (tt, w') /\ cfg_live w' /\
      forall a, cfg_ok a ->
        cfg w' a = if decide (a = CfgAddr b d f o)
                   then cfg_written (cfg_mask a) (cfg w a) v else cfg w a
}.

(* ------------------------------------------------------------------ *)
(** ** Lemmas *)

(** A sum of fields that do not overlap. *)
Lemma lor_mul_add x a b k : 0 <= k -> x = a * 2 ^ k -> 0 <= b < 2 ^ k -> Z.lor x b = x + b.
Proof. intros Hk -> Hb. rewrite <- Z.shiftl_mul_pow2 at 1 by done. by apply lor_shiftl_add. Qed.

Lemma land_fc o : 0 <= o < 256 -> o mod 4 = 0 -> Z.land o 0xFC = o.
Proof.
  intros Ho Hm. assert (Hq : o = Z.shiftl (o / 4) 2) by (rewrite Z.shiftl_mul_pow2 by lia; zdm).
  rewrite Hq at 1. change 0xFC with (Z.shiftl (Z.ones 6) 2). rewrite <- Z.shiftl_land, Z.land_ones by lia.
  rewrite Z.mod_small by zdm. by rewrite <- Hq.
Qed.

Lemma lor_u16 a b : is_u16 a -> is_u16 b -> is_u16 (Z.lor a b).
Proof.
  intros Ha Hb. assert (Z.lor a b = u16 (Z.lor a b)) as ->; [|apply u16_range].
  rewrite <- land_ffff, Z.land_lor_distr_l, !land_ffff, !u16_id by done. done.
Qed.

Lemma u32_bits x i : 0 <= i -> Z.testbit (u32 x) i = (i <? 32) && Z.testbit x i.
Proof.
  intros Hi. unfold u32. destruct (Z.ltb_spec i 32).
  - by rewrite Z.mod_pow2_bits_low.
  - by rewrite Z.mod_pow2_bits_high by lia.
Qed.

Lemma u32_bits_high x i : is_u32 x -> 32 <= i -> Z.testbit x i = false.
Proof.
  intros Hx Hi. rewrite <- (u32_id x Hx), u32_bits by lia.
  destruct (Z.ltb_spec i 32); [lia|done].
Qed.

(** Writing back what a dword held restores it, whatever was written between. *)
Lemma cfg_written_restore m old v :
  is_u32 m -> is_u32 old -> cfg_written m (cfg_written m old v) old = old.
Proof.
  intros Hm Hold. apply Z.bits_inj'. intros i Hi. unfold cfg_written.
  rewrite !Z.lor_spec, !Z.land_spec, !Z.lor_spec, !Z.land_spec, !u32_bits, !Z.lnot_spec by lia.
  destruct (Z.ltb_spec i 32).
  - destruct (Z.testbit m i), (Z.testbit old i), (Z.testbit v i); done.
  - rewrite (u32_bits_high old i) by (done || lia).
    destruct (Z.testbit m i), (Z.testbit v i); done.
Qed.

Lemma lnot_u32 m : is_u32 m -> u32 (Z.lnot m) = 2 ^ 32 - 1 - m.
Proof.
  intros Hm. unfold u32, is_u32, Z.lnot in *.
  replace (Z.pred (- m)) with (2 ^ 32 - 1 - m + (-1) * 2 ^ 32) by lia.
  rewrite Z.mod_add by lia. apply Z.mod_small. lia.
Qed.

Lemma land_low v k : 0 <= k -> Z.land v (2 ^ k - 1) = v mod 2 ^ k.
Proof. intros Hk. rewrite <- Z.land_ones by done. f_equal. rewrite Z.ones_equiv. lia. Qed.

(** The mask a BAR of size 2^k reads back: its address bits, and the read-only
    low bits of its value. *)
Lemma cfg_written_ones k v :
  0 <= k <= 32 -> is_u32 v ->
  cfg_written (2 ^ 32 - 2 ^ k) v 0xFFFFFFFF = 2 ^ 32 - 2 ^ k + v mod 2 ^ k.
Proof.
  intros Hk Hv. assert (0 < 2 ^ k) by lia.
  assert (2 ^ k <= 2 ^ 32) by (apply Z.pow_le_mono_r; lia).
  unfold cfg_written. rewrite lnot_u32 by (unfold is_u32; lia).
  replace (2 ^ 32 - 1 - (2 ^ 32 - 2 ^ k)) with (2 ^ k - 1) by lia.
  rewrite land_low by lia. rewrite Z.land_comm, land_ffffffff, u32_id by (unfold is_u32; lia).
  assert (Hp : 2 ^ 32 = 2 ^ (32 - k) * 2 ^ k) by (rewrite <- Z.pow_add_r; f_equal; lia).
  replace (2 ^ 32 - 2 ^ k) with (Z.shiftl (2 ^ (32 - k) - 1) k)
    by (rewrite Z.shiftl_mul_pow2 by lia; nia).
  rewrite lor_shiftl_add, Z.shiftl_mul_pow2 by (lia || (apply Z.mod_pos_bound; lia)). done.
Qed.

(** Clearing the low [j] bits of an [n]-bit word with a complemented mask. *)
Lemma land_lnot_ones x j n :
  0 <= x < 2 ^ n -> 0 <= j <= n -> Z.land x (Z.lnot (Z.ones j) mod 2 ^ n) = x - x mod 2 ^ j.
Proof.
  intros Hx Hj. assert (0 < 2 ^ j) by lia.
  transitivity (Z.ldiff x (Z.ones j)).
  - apply Z.bits_inj'. intros i Hi. rewrite Z.land_spec, Z.ldiff_spec.
    destruct (Z.lt_ge_cases i n) as [Hlt|Hge].
    + by rewrite Z.mod_pow2_bits_low, Z.lnot_spec by lia.
    + rewrite <- (Z.mod_small x (2 ^ n)), !(Z.mod_pow2_bits_high x) by lia. done.
  - rewrite Z.ldiff_ones_r, Z.shiftl_mul_pow2, Z.shiftr_div_pow2 by lia.
    pose proof (Z.div_mod x (2 ^ j) ltac:(lia)). lia.
Qed.

Lemma clear_low x j : is_u32 x -> 0 <= j <= 32 -> Z.land x (2 ^ 32 - 2 ^ j) = x - x mod 2 ^ j.
Proof.
  intros Hx Hj. rewrite <- (land_lnot_ones x j 32) by (done || lia). f_equal.
  change (2 ^ 32 - 2 ^ j = u32 (Z.lnot (Z.ones j))).
  assert (0 < 2 ^ j) by lia. assert (2 ^ j <= 2 ^ 32) by (apply Z.pow_le_mono_r; lia).
  rewrite lnot_u32; rewrite Z.ones_equiv; unfold is_u32; lia.
Qed.

(** A BAR of 2^k bytes whose low bits are below 2^j is reported as 2^k bytes,
    where j bits are cleared for its kind: 4 for memory, 2 for I/O. *)
Lemma size_of_mask_pow k v :
  let j := if Z.land v 1 =? 0 then 4 else 2 in
  j <= k <= 31 -> is_u32 v -> v mod 2 ^ k < 2 ^ j - 1 ->
  size_of_mask v (cfg_written (2 ^ 32 - 2 ^ k) v 0xFFFFFFFF) = 2 ^ k.
Proof.
  intros j Hk Hv Hlow. assert (Hj : 2 <= j <= 4) by (unfold j; case_match; lia).
  rewrite cfg_written_ones by (done || lia).
  assert (Hp : 2 ^ k = 2 ^ (k - j) * 2 ^ j) by (rewrite <- Z.pow_add_r; f_equal; lia).
  assert (2 ^ k <= 2 ^ 31) by (apply Z.pow_le_mono_r; lia).
  assert (0 < 2 ^ (k - j)) by lia. assert (0 < 2 ^ j) by lia.
  pose proof (Z.mod_pos_bound v (2 ^ k) ltac:(lia)) as Hb.
  set (ro := v mod 2 ^ k) in *. clearbody ro. unfold size_of_mask.
  destruct (Z.eqb_spec (2 ^ 32 - 2 ^ k + ro) 0); [lia|].
  destruct (Z.eqb_spec (2 ^ 32 - 2 ^ k + ro) 0xFFFFFFFF); [nia|]. cbn [orb].
  assert (Hm : (if Z.land v 1 =? 0 then Z.land (2 ^ 32 - 2 ^ k + ro) 0xFFFFFFF0
                else Z.land (2 ^ 32 - 2 ^ k + ro) 0xFFFFFFFC) = 2 ^ 32 - 2 ^ k).
  { transitivity (Z.land (2 ^ 32 - 2 ^ k + ro) (2 ^ 32 - 2 ^ j)).
    - unfold j. by destruct (Z.land v 1 =? 0).
    - rewrite clear_low by (unfold is_u32; lia).
      assert (Hmod : (2 ^ 32 - 2 ^ k + ro) mod 2 ^ j = ro).
      { assert (H32 : 2 ^ 32 = 2 ^ (32 - j) * 2 ^ j) by (rewrite <- Z.pow_add_r; f_equal; lia).
        rewrite H32, Hp. replace (2 ^ (32 - j) * 2 ^ j - 2 ^ (k - j) * 2 ^ j + ro)
          with (ro + (2 ^ (32 - j) - 2 ^ (k - j)) * 2 ^ j) by lia.
        rewrite Z.mod_add by lia. apply Z.mod_small. lia. }
      rewrite Hmod. lia. }
  rewrite Hm, lnot_u32 by (unfold is_u32; lia).
  unfold u32. rewrite Z.mod_small; lia.
Qed.

Section probe.
  Context {W : Type} (ops : config_ops W) `{!ConfigSpace ops}.

(** Probing reports the size the masks say and changes no dword. *)
Lemma probe_bar_size_spec b d f o w :
  cfg_live w -> cfg_ok (CfgAddr b d f o) ->
  let a := CfgAddr b d f o in
  exists w', probe_bar_size ops b d f o w
    = Ok (size_of_mask (cfg w a) (cfg_written (cfg_mask a) (cfg w a) 0xFFFFFFFF), w') /\
  cfg_live w' /\ forall a, cfg_ok a -> cfg w' a = cfg w a.
Proof.
  intros Hl Ha a. unfold probe_bar_size.
  destruct (cfg_read w b d f o Hl Ha) as (w1 & E1 & Hl1 & H1).
  rewrite (St_bind_ok _ _ _ _ _ E1).
  destruct (cfg_write w1 b d f o 0xFFFFFFFF Hl1 Ha) as (w2 & E2 & Hl2 & H2);
    [unfold is_u32; lia|].
  rewrite (St_bind_ok _ _ _ _ _ E2).
  destruct (cfg_read w2 b d f o Hl2 Ha) as (w3 & E3 & Hl3 & H3).
  rewrite (St_bind_ok _ _ _ _ _ E3).
  destruct (cfg_write w3 b d f o (cfg w a) Hl3 Ha) as (w4 & E4 & Hl4 & H4); [by apply cfg_u32|].
  rewrite (St_bind_ok _ _ _ _ _ E4). exists w4. fold a in H2, H4 |- *. fold a in Ha.
  split; [|split; [done|]].
  - rewrite H2 by done. destruct (decide (a = a)); [|done]. by rewrite H1.
  - intros a' Ha'. rewrite H4, H3, H2, H1 by done. destruct (decide (a' = a)) as [->|]; [|done].
    apply cfg_written_restore; [apply cfg_mask_u32|by apply cfg_u32].
Qed.
End probe.

(* ------------------------------------------------------------------ *)
(** ** ECAM *)

(** The address of a dword in the memory-mapped configuration space. *)
Definition ecam_of (base : Z) (a : cfg_addr) : Z :=
  base + c_bus a * 2 ^ 20 + c_dev a * 2 ^ 15 + c_fun a * 2 ^ 12 + c_off a.

Lemma land_ffc o : 0 <= o < 256 -> Z.land o 0xFFC = Z.land o 0xFC.
Proof.
  intros Ho. rewrite <- (u8_id o) by done. rewrite <- land_255 at 1.
  by rewrite <- Z.land_assoc, <- (land_255 o), <- Z.land_assoc.
Qed.

Lemma ecam_address_of base a :
  base mod 2 ^ 28 = 0 -> 0 <= base -> cfg_ok a ->
  ecam_address base (c_bus a) (c_dev a) (c_fun a) (c_off a) = ecam_of base a.
Proof.
  intros Hbase H0 (Hb & Hd & Hf & Ho & Hm). unfold ecam_address, ecam_of.
  rewrite land_ffc, land_fc by done. rewrite !Z.shiftl_mul_pow2 by lia.
  assert (Hq : base = base / 2 ^ 28 * 2 ^ 28) by zdm. set (q := base / 2 ^ 28) in *.
  rewrite (lor_mul_add base q (c_bus a * 2 ^ 20) 28) by lia.
  rewrite (lor_mul_add _ (q * 2 ^ 8 + c_bus a) (c_dev a * 2 ^ 15) 20) by lia.
  rewrite (lor_mul_add _ ((q * 2 ^ 8 + c_bus a) * 2 ^ 5 + c_dev a) (c_fun a * 2 ^ 12) 15) by lia.
  rewrite (lor_mul_add _ (((q * 2 ^ 8 + c_bus a) * 2 ^ 5 + c_dev a) * 2 ^ 3 + c_fun a) (c_off a) 12)
    by lia.
  lia.
Qed.

Lemma ecam_of_inj base a a' : cfg_ok a -> cfg_ok a' -> ecam_of base a = ecam_of base a' -> a = a'.
Proof.
  destruct a as [b d f o], a' as [b' d' f' o'].
  intros (? & ? & ? & ? & _) (? & ? & ? & ? & _). unfold ecam_of. cbn in *. intros E.
  assert (o = o') by zdm. assert (f = f') by zdm. assert (d = d') by zdm. assert (b = b') by lia.
  by subst.
Qed.

(** A host bridge that maps the configuration space at [base]. *)
Class EcamHost (W : Type) `{Bus W} (base : Z) := {
  ecam_base_ok : base mod 2 ^ 28 = 0 /\ 0 <= base /\ base + 2 ^ 28 <= 2 ^ 64;
  ecam_cfg : W -> cfg_addr -> Z;
  ecam_mask : cfg_addr -> Z;
  ecam_live : W -> Prop;
  ecam_u32 : forall w a, ecam_live w -> is_u32 (ecam_cfg w a);
  ecam_mask_u32 : forall a, is_u32 (ecam_mask a);
  ecam_read : forall w a, ecam_live w -> cfg_ok a ->
    exists w', bus_read Mmio32 (ecam_of base a) w = Ok (ecam_cfg w a, w') /\
      ecam_live w' /\ forall a', ecam_cfg w' a' = ecam_cfg w a';
  ecam_write : forall w a v, ecam_live w -> cfg_ok a -> is_u32 v ->
    exists w', bus_write Mmio32 (ecam_of base a) v w = Ok (tt, w') /\ ecam_live w' /\
      forall a', ecam_cfg w' a' = if decide (a' = a)
                                  then cfg_written (ecam_mask a) (ecam_cfg w a) v
                                  else ecam_cfg w a'
}.

Lemma ecam_u64_address {W} `{Bus W} base `{!EcamHost W base} b d f o :
  cfg_ok (CfgAddr b d f o) -> u64 (ecam_address base b d f o) = ecam_of base (CfgAddr b d f o).
Proof.
  intros Ha. destruct ecam_base_ok as (Hm & H0 & Hmax).
  pose proof (ecam_address_of base (CfgAddr b d f o) Hm H0 Ha) as E.
  cbn [c_bus c_dev c_fun c_off] in E. rewrite E. apply u64_id.
  destruct Ha as (? & ? & ? & ? & _). unfold is_u64, ecam_of. cbn in *. lia.
Qed.

(** The ECAM accesses implement a configuration space. *)
#[export] Instance ecam_config {W} `{Bus W} base `{!EcamHost W base} :
  ConfigSpace (ecam_ops base).
Proof.
  refine {| cfg := ecam_cfg; cfg_mask := ecam_mask; cfg_live := ecam_live |}.
  - intros. by apply ecam_u32.
  - apply ecam_mask_u32.
  - intros w b d f o Hl Ha. cbn [read32 ecam_ops]. unfold ecam_read32, mmio_read32.
    rewrite (ecam_u64_address base _ _ _ _ Ha). destruct (ecam_read w _ Hl Ha) as (w' & E & Hl' & Hs).
    exists w'. split; [done|]. split; [done|]. intros; apply Hs.
  - intros w b d f o v Hl Ha Hv. cbn [write32 ecam_ops]. unfold ecam_write32, mmio_write32.
    rewrite (ecam_u64_address base _ _ _ _ Ha), (u32_id v) by done.
    destruct (ecam_write w _ v Hl Ha Hv) as (w' & E & Hl' & Hs).
    exists w'. split; [done|]. split; [done|]. intros a _.
    rewrite Hs. case_decide as E'; [|done]. by rewrite E'.
Defined.

(* ------------------------------------------------------------------ *)
(** ** Properties *)

(** Probing a BAR of 2^k bytes, memory or I/O, returns 2^k, probing an
    unimplemented one returns 0, and either way every configuration dword holds
    afterwards what it held before. *)
Theorem probe_bar_size_correct {W} (ops : config_ops W) `{!ConfigSpace ops} b d f o w :
  let a := CfgAddr b d f o in
  let j := if Z.land (cfg w a) 1 =? 0 then 4 else 2 in
  cfg_live w -> cfg_ok a ->
  exists size w', probe_bar_size ops b d f o w = Ok (size, w') /\ cfg_live w' /\
    (forall a, cfg_ok a -> cfg w' a = cfg w a) /\
    (forall k, j <= k <= 31 -> cfg_mask a = 2 ^ 32 - 2 ^ k -> cfg w a mod 2 ^ k < 2 ^ j - 1 ->
       size = 2 ^ k) /\
    (cfg_mask a = 0 -> cfg w a = 0 -> size = 0).
Proof.
  intros a j Hl Ha. destruct (probe_bar_size_spec ops b d f o w Hl Ha) as (w' & E & Hl' & Hsame).
  fold a in E. eexists _, w'. split; [exact E|]. split; [done|]. split; [done|]. split.
  - intros k Hk Hm Hlow. rewrite Hm. apply size_of_mask_pow; [done|by apply cfg_u32|done].
  - intros Hm Hv. by rewrite Hm, Hv.
Qed.

(** A configuration space of one network card on bus 0, device 3: a memory BAR
    of 128 KB at 0xFEBC0000 and an I/O BAR of 64 bytes. *)
Module pci_sample.
Definition space : Type := cfg_addr -> Z.
Definition mask (a : cfg_addr) : Z :=
  if decide (a = CfgAddr 0 3 0 0x10) then 2 ^ 32 - 2 ^ 17
  else if decide (a = CfgAddr 0 3 0 0x14) then 2 ^ 32 - 2 ^ 6
  else if decide (a = CfgAddr 0 3 0 0x04) then 0x507
  else 0.
Definition initial : space := fun a =>
  if decide (a = CfgAddr 0 3 0 0x00) then 0x100E8086
  else if decide (a = CfgAddr 0 3 0 0x10) then 0xFEBC0000
  else if decide (a = CfgAddr 0 3 0 0x14) then 0xC001
  else if decide (c_off a = 0) then 0xFFFFFFFF
  else 0.
Definition update (s : space) (a : cfg_addr) (v : Z) : space := fun a' =>
  if decide (a' = a) then v else s a'.
Definition ops : config_ops space := ConfigOps
  (fun b d f o s => Ok (s (CfgAddr b d f o), s))
  (fun b d f o v s => let a := CfgAddr b d f o in
     Ok (tt, update s a (cfg_written (mask a) (s a) v))).

Lemma written_u32 m old v : is_u32 m -> is_u32 old -> is_u32 (cfg_written m old v).
Proof.
  intros Hm Ho.
  assert (Hw : cfg_written m old v = u32 (cfg_written m old v)).
  { apply Z.bits_inj'. intros i Hi. rewrite u32_bits by done. unfold cfg_written.
    rewrite Z.lor_spec, !Z.land_spec.
    destruct (Z.ltb_spec i 32); [done|].
    rewrite (u32_bits_high m), (u32_bits_high old) by (done || lia). by rewrite andb_false_r. }
  rewrite Hw. apply u32_range.
Qed.

Lemma mask_u32 a : is_u32 (mask a).
Proof. unfold mask, is_u32. repeat case_decide; lia. Qed.

Lemma initial_u32 a : is_u32 (initial a).
Proof. unfold initial, is_u32. repeat case_decide; lia. Qed.

#[export] Instance sample_space : ConfigSpace ops.
Proof.
  refine {| cfg s a := s a; cfg_mask := mask; cfg_live s := forall a, is_u32 (s a) |}.
  - done.
  - exact mask_u32.
  - intros w b d f o Hl _. by exists w.
  - intros w b d f o v Hl _ Hv. eexists. split; [reflexivity|]. split.
    + intros a. unfold update. case_decide as Ha; [|done]. subst a.
      apply written_u32; [apply mask_u32|apply Hl].
    + intros a _. unfold update. case_decide; by subst.
Defined.
End pci_sample.

(** The same space behind an ECAM bridge, at any base. *)
Module ecam_sample.
Definition decode (x : Z) : cfg_addr :=
  CfgAddr (x / 2 ^ 20 mod 256) (x / 2 ^ 15 mod 32) (x / 2 ^ 12 mod 8) (x mod 2 ^ 12).

Definition bus (base : Z) : Bus pci_sample.space := {|
  bus_read a addr w :=
    match a with Mmio32 => Ok (w (decode (addr - base)), w) | _ => Ok (0, w) end;
  bus_write a addr v w :=
    match a with
    | Mmio32 => let a := decode (addr - base) in
                Ok (tt, pci_sample.update w a (cfg_written (pci_sample.mask a) (w a) v))
    | _ => Ok (tt, w)
    end |}.

Lemma decode_of base a : cfg_ok a -> decode (ecam_of base a - base) = a.
Proof.
  destruct a as [b d f o]. intros (? & ? & ? & ? & _). unfold decode, ecam_of. cbn in *.
  f_equal; zdm.
Qed.

Definition host base (Hb : base mod 2 ^ 28 = 0 /\ 0 <= base /\ base + 2 ^ 28 <= 2 ^ 64) :
  @EcamHost pci_sample.space (bus base) base.
Proof.
  refine {| ecam_base_ok := Hb; ecam_cfg w := w; ecam_mask := pci_sample.mask;
            ecam_live w := forall a, is_u32 (w a) |}.
  - intros w a Hl. apply Hl.
  - apply pci_sample.mask_u32.
  - intros w a Hl Ha. exists w. cbn. by rewrite decode_of.
  - intros w a v Hl Ha Hv. cbn. rewrite decode_of by done. eexists. split; [reflexivity|]. split.
    + intros a'. unfold pci_sample.update. case_decide; [|done].
      apply pci_sample.written_u32; [apply pci_sample.mask_u32|apply Hl].
    + done.
Defined.
End ecam_sample.

Lemma probe_bar_size_correct_witness :
  exists size w', probe_bar_size pci_sample.ops 0 3 0 0x10 pci_sample.initial = Ok (size, w') /\
    size = 2 ^ 17.
Proof.
  destruct (@probe_bar_size_correct _ pci_sample.ops pci_sample.sample_space 0 3 0 0x10
    pci_sample.initial) as (size & w' & E & _ & _ & H & _).
  - exact pci_sample.initial_u32.
  - cbv. intuition congruence.
  - exists size, w'. split; [exact E|]. apply (H 17).
    + change (Z.land (cfg pci_sample.initial (CfgAddr 0 3 0 16)) 1) with 0. cbn. lia.
    + reflexivity.
    + vm_compute. reflexivity.
Defined.
