(* ===== verification/EcamScan.v ===== *)
(** The scan of a memory-mapped configuration space, as the ARM64 and RISC-V enumerators
    do it: what the accesses of a scan do and keep, and the loop over the slots. *)

From S2P Require Export Device Pci Console.

Open Scope Z_scope.

(* ------------------------------------------------------------------ *)
(** ** Slots *)

(** Devices 0 to 31 of buses 0 and 1, in scan order. *)
Definition bus_slots (bus : Z) : list (Z * Z) := (fun i => (bus, Z.of_nat i)) <$> seq 0 32.
Definition ecam_slots : list (Z * Z) := bus_slots 0 ++ bus_slots 1.
Definition slot_in_range (s : Z * Z) : Prop := 0 <= s.1 < 256 /\ 0 <= s.2 < 32.

Lemma ecam_slots_ok : Forall slot_in_range ecam_slots.
Proof.
  apply Forall_forall. intros s. unfold ecam_slots, bus_slots, slot_in_range.
  rewrite elem_of_app, !list_elem_of_fmap.
  intros [(i & -> & Hi%elem_of_seq)|(i & -> & Hi%elem_of_seq)]; cbn; lia.
Qed.

Lemma slot_cfg_ok b d o : slot_in_range (b, d) -> 0 <= o < 256 -> o mod 4 = 0 ->
  cfg_ok (CfgAddr b d 0 o).
Proof. intros [? ?] ? ?. unfold cfg_ok. cbn in *. lia. Qed.

(** The contents of a configuration space, and a write to one dword of it: [mask] says
    which bits can be changed. *)
Definition contents : Type := cfg_addr -> Z.
Definition set_dword (mask : contents) (a : cfg_addr) (v : Z) (c : contents) : contents := fun a' =>
  if decide (a' = a) then cfg_written (mask a) (c a) v else c a'.

(** Memory accesses and bus mastering switched on in the command register. *)
Definition enabled (mask : contents) (b d : Z) (c : contents) : contents :=
  let a := CfgAddr b d 0 4 in
  set_dword mask a (Z.lor (Z.land (c a) 0xFFFF0000) (Z.lor (half_of (c a) 4) 6)) c.

(** What a scan does with a slot, from the contents of the configuration space and the
    allocator's next address: its device, if there is one, and both afterwards. *)
Definition description : Type := contents -> Z * Z -> Z -> option (device * contents * Z).

Fixpoint scan_ref (describe : description) (slots : list (Z * Z)) (c : contents) (next : Z)
    : list device * contents * Z :=
  match slots with
  | [] => ([], c, next)
  | s :: slots =>
      match describe c s next with
      | Some (d, c, next) =>
          let '(ds, c, next) := scan_ref describe slots c next in (d :: ds, c, next)
      | None => scan_ref describe slots c next
      end
  end.

(** What probing reports of the BAR at [a]. *)
Definition probed_size (mask c : contents) (a : cfg_addr) : Z :=
  size_of_mask (c a) (cfg_written (mask a) (c a) 0xFFFFFFFF).

(** An address with the low bits of a BAR is a dword. *)
Lemma new_bar_u32 next v : is_u32 (Z.lor (u32 next) (Z.land v 0xF)).
Proof.
  assert (Z.lor (u32 next) (Z.land v 0xF) = u32 (Z.lor (u32 next) (Z.land v 0xF))) as ->;
    [|apply u32_range].
  rewrite <- (land_ffffffff (Z.lor _ _)), Z.land_lor_distr_l, land_ffffffff, <- Z.land_assoc.
  by rewrite (u32_id (u32 next)) by apply u32_range.
Qed.

(** The two nested loops are one over the slots. *)
Lemma nested_slots {W A} (f : Z -> Z -> A -> St W A) a w :
  for_n 2 (fun bus r => for_n 32 (fun dev r => f (Z.of_nat bus) (Z.of_nat dev) r) r) a w
  = iter_list (fun s => f s.1 s.2) ecam_slots a w.
Proof.
  rewrite for_n_iter. cbn [seq iter_list]. unfold ecam_slots. rewrite iter_list_app.
  assert (forall bus a w, for_n 32 (fun dev r => f (Z.of_nat bus) (Z.of_nat dev) r) a w
    = iter_list (fun s => f s.1 s.2) (bus_slots (Z.of_nat bus)) a w) as Hbus.
  { intros bus a' w'. rewrite for_n_iter. unfold bus_slots.
    by rewrite (iter_list_fmap (fun s : Z * Z => f s.1 s.2) (fun i => (Z.of_nat bus, Z.of_nat i))). }
  etransitivity; [apply St_bind_eq_l, Hbus|]. apply St_bind_ext. intros b w' _.
  rewrite St_bind_ret. apply Hbus.
Qed.

(* ------------------------------------------------------------------ *)
(** ** Accesses *)

Section access.
  Context {W : Type} `{Bus W} (base : Z) `{!EcamHost W base}.
  (** [P l w]: in [w] the callback has been given the devices [l]. *)
  Context (P : list device -> W -> Prop) (P_hw : forall l, bus_keeps (P l)).

Lemma ecam_keeps l b d f o v :
  keeps (P l) (ecam_read32 base b d f o) /\ keeps (P l) (ecam_write32 base b d f o v) /\
  keeps (P l) (ecam_read16 base b d f o) /\ keeps (P l) (ecam_write16 base b d f o v).
Proof using P_hw.
  pose proof (fun p v => io_keeps (P l) p v (P_hw l)) as Hio.
  assert (forall a, keeps (P l) (mmio_read32 a)) as Hr by (intros a; apply (Hio a 0)).
  assert (forall a v, keeps (P l) (mmio_write32 a v)) as Hw by (intros; apply Hio).
  unfold ecam_read32, ecam_write32, ecam_read16, ecam_write16.
  split_and!; eauto 10 with keeps.
Qed.

(** A step that changes nothing the scan sees. *)
Record reads (w w' : W) : Prop := Reads {
  rs_live : ecam_live w';
  rs_cfg : forall a', cfg_ok a' -> ecam_cfg w' a' = ecam_cfg w a';
  rs_seen : forall l, P l w -> P l w'
}.

#[export] Instance reads_trans : Transitive reads.
Proof using.
  intros w1 w2 w3 [_ H1 P1] [L2 H2 P2]. split; [done| |by auto].
  intros a Ha. by rewrite H2, H1.
Qed.

Lemma ecam_read32_step b d f o w : ecam_live w -> cfg_ok (CfgAddr b d f o) ->
  exists w', ecam_read32 base b d f o w = Ok (ecam_cfg w (CfgAddr b d f o), w') /\ reads w w'.
Proof using P_hw.
  intros Hl Ha.
  destruct (cfg_read (ConfigSpace := ecam_config base) w b d f o Hl Ha) as (w' & E & Hl' & Hc).
  exists w'. split; [exact E|]. split; [done|done|].
  intros l Hp. exact (proj1 (ecam_keeps l b d f o 0) w _ w' Hp E).
Qed.

(** The contents are [c], and the callback has been given [l]. *)
Record scanned (c : contents) (l : list device) (w : W) : Prop := Scanned {
  sc_live : ecam_live w;
  sc_cfg : forall a, cfg_ok a -> ecam_cfg w a = c a;
  sc_seen : P l w
}.

Lemma scanned_reads c l w w' : scanned c l w -> reads w w' -> scanned c l w'.
Proof using. intros [_ Hc Hp] [Hl Hr HP]. split; [done| |auto]. intros a Ha. by rewrite Hr, Hc. Qed.

(** The computation returns [r] and leads from one stage of a scan to another. *)
Definition scans {A} c l (m : St W A) (r : A) c' l' : Prop :=
  forall w, scanned c l w -> exists w', m w = Ok (r, w') /\ scanned c' l' w'.

Lemma scans_ret {A} c l (a : A) : scans c l (mret a) a c l.
Proof using. intros w Hw. by exists w. Qed.
Lemma scans_lift {A} c l m (a : A) : m = Ok a -> scans c l (lift m) a c l.
Proof using. intros -> w Hw. by exists w. Qed.
Lemma scans_bind {A B} c l (m : St W A) r c1 l1 (f : A -> St W B) s c2 l2 :
  scans c l m r c1 l1 -> scans c1 l1 (f r) s c2 l2 -> scans c l (m ≫= f) s c2 l2.
Proof using.
  intros Hm Hf w Hv. destruct (Hm w Hv) as (w1 & E1 & Hv1). rewrite (St_bind_ok _ _ _ _ _ E1).
  by apply Hf.
Qed.

Lemma scans_assoc {A B C} c l (m : St W A) (f : A -> St W B) (g : B -> St W C) r c' l' :
  scans c l ((m ≫= f) ≫= g) r c' l' -> scans c l (m ≫= (fun a => f a ≫= g)) r c' l'.
Proof using. intros Hm w Hw. destruct (Hm w Hw) as (w' & E & Hw'). exists w'. by rewrite <- St_bind_assoc. Qed.

Lemma scans_dword {A} c l a (m : St W A) r c' l' : cfg_ok a ->
  (is_u32 (c a) -> scans c l m r c' l') -> scans c l m r c' l'.
Proof using.
  intros Ha Hm w Hw. apply Hm; [|done]. rewrite <- (sc_cfg _ _ _ Hw a Ha).
  apply ecam_u32, (sc_live _ _ _ Hw).
Qed.

Lemma scans_read32 c l b d f o : cfg_ok (CfgAddr b d f o) ->
  scans c l (ecam_read32 base b d f o) (c (CfgAddr b d f o)) c l.
Proof using P_hw.
  intros Ha w Hw. destruct (ecam_read32_step b d f o w (sc_live _ _ _ Hw) Ha) as (w' & E & R).
  exists w'. rewrite <- (sc_cfg _ _ _ Hw _ Ha). split; [done|]. by eapply scanned_reads.
Qed.

Lemma scans_write32 c l b d f o v : cfg_ok (CfgAddr b d f o) -> is_u32 v ->
  scans c l (ecam_write32 base b d f o v) tt (set_dword ecam_mask (CfgAddr b d f o) v c) l.
Proof using P_hw.
  intros Ha Hv w [Hl Hc Hp].
  destruct (cfg_write (ConfigSpace := ecam_config base) w b d f o v Hl Ha Hv) as (w' & E & Hl' & Hc').
  exists w'. split; [exact E|]. split; [done| |].
  - intros a' Ha'. etransitivity; [exact (Hc' a' Ha')|]. unfold set_dword.
    case_decide as Ea; [|by apply Hc]. rewrite <- Ea, <- (Hc a' Ha'). done.
  - exact (proj1 (proj2 (ecam_keeps l b d f o v)) w _ w' Hp E).
Qed.

(** An offset and the dword it lies in have the same address. *)
Lemma ecam_address_dword b d f o :
  0 <= o < 256 -> ecam_address base b d f o = ecam_address base b d f (Z.land o 0xFC).
Proof using.
  intros Ho. unfold ecam_address. f_equal. rewrite land_ffc by done.
  rewrite <- Z.land_assoc. done.
Qed.

Lemma scans_read16 c l b d f o : 0 <= o < 256 -> cfg_ok (CfgAddr b d f (Z.land o 0xFC)) ->
  scans c l (ecam_read16 base b d f o) (half_of (c (CfgAddr b d f (Z.land o 0xFC))) o) c l.
Proof using P_hw.
  intros Ho Ha. unfold ecam_read16. rewrite (ecam_address_dword b d f o Ho).
  eapply scans_bind; [by apply (scans_read32 c l b d f)|]. apply scans_ret.
Qed.

Lemma ecam_probe_step b d o w : ecam_live w -> cfg_ok (CfgAddr b d 0 o) ->
  exists w', probe_bar_size (ecam_ops base) b d 0 o w
      = Ok (probed_size ecam_mask (ecam_cfg w) (CfgAddr b d 0 o), w') /\ reads w w'.
Proof using P_hw.
  intros Hl Ha.
  destruct (@probe_bar_size_spec W (ecam_ops base) (ecam_config base) b d 0 o w Hl Ha)
    as (w' & E & Hl' & Hc).
  exists w'. split; [exact E|]. split; [done|done|]. intros l Hp.
  assert (keeps (P l) (probe_bar_size (ecam_ops base) b d 0 o)) as Hk.
  { unfold probe_bar_size. cbn [read32 write32 ecam_ops].
    assert (keeps (P l) (ecam_read32 base b d 0 o)) by apply (ecam_keeps l b d 0 o 0).
    assert (forall v, keeps (P l) (ecam_write32 base b d 0 o v)) by (intros v; apply ecam_keeps).
    eauto 10 with keeps. }
  exact (Hk w _ w' Hp E).
Qed.

Lemma scans_probe c l b d o : cfg_ok (CfgAddr b d 0 o) ->
  scans c l (probe_bar_size (ecam_ops base) b d 0 o) (probed_size ecam_mask c (CfgAddr b d 0 o)) c l.
Proof using P_hw.
  intros Ha w Hw. destruct (ecam_probe_step b d o w (sc_live _ _ _ Hw) Ha) as (w' & E & R).
  exists w'. unfold probed_size in *. rewrite <- (sc_cfg _ _ _ Hw _ Ha). split; [done|].
  by eapply scanned_reads.
Qed.

(** The two halves of the first dword of a slot, and its command register. *)
Lemma scans_vendor c l b d : slot_in_range (b, d) ->
  scans c l (ecam_read16 base b d 0 PCI_VENDOR_ID_OFFSET) (half_of (c (CfgAddr b d 0 0)) 0) c l.
Proof using P_hw. intros Hs. by apply (scans_read16 c l b d 0 0); [|apply slot_cfg_ok]. Qed.
Lemma scans_device c l b d : slot_in_range (b, d) ->
  scans c l (ecam_read16 base b d 0 PCI_DEVICE_ID_OFFSET) (half_of (c (CfgAddr b d 0 0)) 2) c l.
Proof using P_hw. intros Hs. by apply (scans_read16 c l b d 0 2); [|apply slot_cfg_ok]. Qed.

Lemma scans_command c l b d v : slot_in_range (b, d) -> is_u16 v -> let a := CfgAddr b d 0 4 in
  scans c l (ecam_write16 base b d 0 PCI_COMMAND_OFFSET v) tt
    (set_dword ecam_mask a (Z.lor (Z.land (c a) 0xFFFF0000) v) c) l.
Proof using P_hw.
  intros Hs Hv a. pose proof (slot_cfg_ok b d 4 Hs ltac:(lia) eq_refl) as Ha.
  change PCI_COMMAND_OFFSET with 4. unfold ecam_write16.
  eapply scans_bind; [exact (scans_read32 c l b d 0 4 Ha)|]. fold a. set (cur := c a).
  eapply scans_bind; [apply scans_lift|].
  - unfold put_half. change (half_shift 4) with 0. change (shl_int 0xFFFF 0) with (Ok 0xFFFF).
    cbn [mbind res_bind]. rewrite Z.shiftl_0_r, (u32_id v) by (unfold is_u16, is_u32 in *; lia).
    reflexivity.
  - apply (scans_write32 c l b d 0 4); [done|].
    assert (Z.lor (Z.land cur 0xFFFF0000) v = u32 (Z.lor (Z.land cur 0xFFFF0000) v)) as Eu.
    { rewrite <- land_ffffffff, Z.land_lor_distr_l, <- Z.land_assoc, (land_ffffffff v), (u32_id v)
        by (unfold is_u16, is_u32 in *; lia).
      by change (Z.land 0xFFFF0000 0xFFFFFFFF) with 0xFFFF0000. }
    change (is_u32 (Z.lor (Z.land cur 0xFFFF0000) v)). rewrite Eu. apply u32_range.
Qed.

(** Enabling the device of a slot, reporting it and counting it. *)
Lemma scans_report c l b d (call : device -> St W unit) x (n next : Z) : slot_in_range (b, d) ->
  (forall w, ecam_live w -> P l w -> exists w', call x w = Ok (tt, w') /\ ecam_live w' /\
     P (l ++ [x]) w' /\ forall a, cfg_ok a -> ecam_cfg w' a = ecam_cfg w a) ->
  scans c l (command ← ecam_read16 base b d 0 PCI_COMMAND_OFFSET;
     let command := Z.lor command (Z.lor PCI_COMMAND_MEMORY PCI_COMMAND_MASTER) in
     _ ← ecam_write16 base b d 0 PCI_COMMAND_OFFSET command;
     _ ← call x; mret (n + 1, next)) (n + 1, next) (enabled ecam_mask b d c) (l ++ [x]).
Proof using P_hw.
  intros Hs Hcall. eapply scans_bind; [by apply (scans_read16 c l b d 0 4); [|apply slot_cfg_ok]|].
  cbv zeta. eapply scans_bind; [apply scans_command; [done|]|].
  { apply lor_u16; [unfold half_of; rewrite land_ffff; apply u16_range|done]. }
  eapply scans_bind; [|apply scans_ret]. intros w [Hl Hc Hp].
  destruct (Hcall w Hl Hp) as (w' & E & Hl' & Hp' & Hc'). exists w'. split; [done|].
  split; [done| |done]. intros a Ha. rewrite Hc' by done. by apply Hc.
Qed.

(** A computation that returns and changes nothing the scan sees, whatever it
    returns: what the scan prints. *)
Definition passive {A} (m : St W A) : Prop :=
  forall w, ecam_live w -> exists r w', m w = Ok (r, w') /\ reads w w'.

Lemma passive_ret {A} (a : A) : passive (mret a).
Proof using. intros w Hl. exists a, w. by split. Qed.
Lemma passive_bind {A B} (m : St W A) (f : A -> St W B) :
  passive m -> (forall a, passive (f a)) -> passive (m ≫= f).
Proof using.
  intros Hm Hf w Hl. destruct (Hm w Hl) as (a & w1 & E1 & R1).
  destruct (Hf a w1 (rs_live _ _ R1)) as (b & w2 & E2 & R2).
  exists b, w2. rewrite (St_bind_ok _ _ _ _ _ E1). split; [done|]. by etransitivity.
Qed.
Lemma passive_if {A} (b : bool) (m n : St W A) : passive m -> passive n -> passive (if b then m else n).
Proof using. by destruct b. Qed.
Lemma passive_for_n {A} n (f : nat -> A -> St W A) a :
  (forall i a, (i < n)%nat -> passive (f i a)) -> passive (for_n n f a).
Proof using.
  intros Hf w Hl. rewrite for_n_iter.
  assert (forall l, (forall i, i ∈ l -> (i < n)%nat) -> forall a, passive (iter_list f l a)) as Hit.
  { induction l as [|i l IH]; intros Hn b; cbn [iter_list]; [apply passive_ret|].
    apply passive_bind; [apply Hf, Hn; by left|]. intros x. apply IH. intros j Hj. apply Hn. by right. }
  apply Hit; [|done]. intros i Hi%elem_of_seq. lia.
Qed.
Lemma passive_read32 b d f o : cfg_ok (CfgAddr b d f o) -> passive (ecam_read32 base b d f o).
Proof using P_hw.
  intros Ha w Hl. destruct (ecam_read32_step b d f o w Hl Ha) as (w' & E & R). by eexists _, _.
Qed.
Lemma passive_probe b d o : cfg_ok (CfgAddr b d 0 o) ->
  passive (probe_bar_size (ecam_ops base) b d 0 o).
Proof using P_hw.
  intros Ha w Hl. destruct (ecam_probe_step b d o w Hl Ha) as (w' & E & R). by eexists _, _.
Qed.

Lemma scans_passive {A B} c l (m : St W A) (f : A -> St W B) s c2 l2 :
  passive m -> (forall r, scans c l (f r) s c2 l2) -> scans c l (m ≫= f) s c2 l2.
Proof using.
  intros Hm Hf w Hw. destruct (Hm w (sc_live _ _ _ Hw)) as (r & w1 & E & R).
  rewrite (St_bind_ok _ _ _ _ _ E). apply Hf. by eapply scanned_reads.
Qed.
End access.

(* ------------------------------------------------------------------ *)
(** ** The scan *)

Section scan.
  Context {W : Type} `{Bus W} (base : Z) `{!EcamHost W base}.
  Context (P : list device -> W -> Prop) (describe : description).
  (** The body of the loop: its state is the count and the allocator's next address. *)
  Context (body : Z -> Z -> Z * Z -> St W (Z * Z)).

(** The body of the loop does with a slot what the description says. *)
Definition scans_slot : Prop := forall c l b d n next, slot_in_range (b, d) ->
  match describe c (b, d) next with
  | Some (x, c', next') => scans base P c l (body b d (n, next)) (n + 1, next') c' (l ++ [x])
  | None => scans base P c l (body b d (n, next)) (n, next) c l
  end.

Lemma scan_slots_ok todo : scans_slot -> forall c l n next, Forall slot_in_range todo ->
  let '(found, c', next') := scan_ref describe todo c next in
  scans base P c l (iter_list (fun s => body s.1 s.2) todo (n, next)) (n + len found, next')
    c' (l ++ found).
Proof using.
  intros Hbody. induction todo as [|[b d] todo IH]; intros c l n next Hs.
  { cbn [scan_ref iter_list]. rewrite app_nil_r, Z.add_0_r. apply scans_ret. }
  apply Forall_cons in Hs as [Hs Hss]. specialize (Hbody c l b d n next Hs).
  cbn [iter_list scan_ref fst snd]. destruct (describe c (b, d) next) as [[[x c1] next1]|].
  - specialize (IH c1 (l ++ [x]) (n + 1) next1 Hss).
    destruct (scan_ref describe todo c1 next1) as [[found c2] next2].
    eapply scans_bind; [exact Hbody|]. rewrite len_cons.
    replace (n + (1 + len found)) with (n + 1 + len found) by lia.
    by rewrite <- app_assoc in IH.
  - specialize (IH c l n next Hss). destruct (scan_ref describe todo c next) as [[found c2] next2].
    by eapply scans_bind.
Qed.

Lemma scans_buses c l next : scans_slot ->
  let '(found, c', last) := scan_ref describe ecam_slots c next in
  scans base P c l
    (for_n 2 (fun bus r => for_n 32 (fun dev r => body (Z.of_nat bus) (Z.of_nat dev) r) r)
       (0, next)) (len found, last) c' (l ++ found).
Proof using.
  intros Hbody. pose proof (scan_slots_ok ecam_slots Hbody c l 0 next ecam_slots_ok) as Hscan.
  pose proof (nested_slots body (0, next)) as Hn.
  generalize dependent ecam_slots. intros slots Hscan Hn.
  destruct (scan_ref describe slots c next) as [[found c'] last].
  intros w Hw. rewrite Hn. by apply Hscan.
Qed.
End scan.

(* ------------------------------------------------------------------ *)
(** ** What a scan needs of its callback and of the console *)

Section env.
  Context {W : Type} `{Bus W} (base : Z) `{!EcamHost W base}.
  Context (P : list device -> W -> Prop).

(** [P l w] says that in [w] the callback has been given [l]: no access to the hardware
    changes that, and given one more device the callback returns and leaves the
    configuration space alone. *)
Record records (call : device -> St W unit) : Prop := Records {
  records_bus : forall l, bus_keeps (P l);
  records_call : forall d l w, ecam_live w -> P l w ->
    exists w', call d w = Ok (tt, w') /\ ecam_live w' /\ P (l ++ [d]) w' /\
      forall a, cfg_ok a -> ecam_cfg w' a = ecam_cfg w a
}.

Lemma records_scanned call c l x : records call -> scans base P c l (call x) tt c (l ++ [x]).
Proof using.
  intros [_ Hcall] w [Hl Hc Hp]. destruct (Hcall x l w Hl Hp) as (w' & E & Hl' & Hp' & Hc').
  exists w'. split; [done|]. split; [done| |done]. intros a Ha. rewrite Hc' by done. by apply Hc.
Qed.

(** Printing and registering a tag concern neither the callback nor the hardware. *)
Record silent `{Console W} : Prop := Silent {
  silent_write : forall s w, ecam_live w -> reads base P w (con_write s w);
  silent_register : forall name level, passive base P (klog_register name level)
}.

Lemma silent_kput `{Console W} o s : silent -> o = Ok s -> passive base P (kput o).
Proof using. intros Hs -> w Hl. exists tt, (con_write s w). split; [done|by apply Hs]. Qed.
Lemma silent_prefix `{Console W} p level : silent -> 0 <= level -> passive base P (klog_prefix p level).
Proof using.
  intros Hs Hl w Hw. destruct (klog_prefix_ok p level w Hl) as [s E].
  exists tt, (con_write s w). split; [exact E|by apply Hs].
Qed.

(** A host bridge answers in slot 0:0. *)
Definition bridge_present (c : contents) : bool :=
  let vendor := half_of (c (CfgAddr 0 0 0 0)) 0 in
  negb (vendor =? 0x0000) && negb (vendor =? 0xFFFF).

Lemma scans_detect c l : (forall l, bus_keeps (P l)) ->
  scans base P c l
    (test_value ← mmio_read32 base;
     let vendor := Z.land test_value 0xFFFF in
     mret (negb (vendor =? 0x0000) && negb (vendor =? 0xFFFF))) (bridge_present c) c l.
Proof using.
  intros Hk. assert (mmio_read32 base = ecam_read32 base 0 0 0 0) as ->.
  { unfold ecam_read32, ecam_address. by rewrite !Z.shiftl_0_l, Z.land_0_l, !Z.lor_0_r. }
  eapply scans_bind; [by apply scans_read32; [|apply (slot_cfg_ok 0 0 0)]|]. apply scans_ret.
Qed.

(** The scan, if there is a host bridge. *)
Definition pci_ref (describe : description) (c : contents) (next : Z)
    : list device * contents * Z :=
  if bridge_present c then scan_ref describe ecam_slots c next else ([], c, next).

(** The part of devices_enumerate before the device tree: the tag, the test for the
    bridge, a message, and the scan. *)
Lemma scan_if_present `{Console W} (tag : tag_ptr) (scan : Z -> St W (Z * Z)) msg describe c l next :
  silent -> (forall l, bus_keeps (P l)) ->
  (let '(found, c', last) := scan_ref describe ecam_slots c next in
   scans base P c l (scan next) (len found, last) c' (l ++ found)) ->
  let '(found, c', last) := pci_ref describe c next in
  scans base P c l
    (ecam ← (test_value ← mmio_read32 base;
       let vendor := Z.land test_value 0xFFFF in
       mret (negb (vendor =? 0x0000) && negb (vendor =? 0xFFFF)));
     if (ecam : bool) then
       debug ← klog_enabled tag LOG_DEBUG;
       _ ← when debug (_ ← klog_prefix tag LOG_DEBUG; kput (puts msg));
       scan next
     else mret (0, next)) (len found, last) c' (l ++ found).
Proof using.
  intros Hs Hk Hscan. unfold pci_ref.
  destruct (bridge_present c) eqn:Eb.
  - destruct (scan_ref describe ecam_slots c next) as [[found c'] last].
    eapply scans_bind; [by apply scans_detect|]. rewrite Eb.
    eapply scans_passive; [|intros debug].
    { intros w Hl. eexists _, w. split; [reflexivity|by split]. }
    eapply scans_passive; [|by intros _]. unfold when. apply passive_if; [|apply passive_ret].
    apply passive_bind; [by apply silent_prefix|]. intros _. by eapply silent_kput.
  - eapply scans_bind; [by apply scans_detect|]. rewrite Eb, app_nil_r. apply scans_ret.
Qed.
End env.

(* ------------------------------------------------------------------ *)
(** ** A bridge with a card behind it, and the devices a callback was given *)

Module ecam_bridge.
Record world := World { space : pci_sample.space; seen : list device; shown : bytes }.

(** The host bridge at 0:0 and the card at 0:3. *)
Definition initial : pci_sample.space := fun a =>
  if decide (a = CfgAddr 0 0 0 0) then 0x00081B36 else pci_sample.initial a.
Lemma bridge_u32 a : is_u32 (initial a).
Proof. unfold initial. case_decide; [unfold is_u32; lia|apply pci_sample.initial_u32]. Qed.

(** Outside of the configuration space at [base] the registers [regs] are read. *)
Definition bus (base : Z) (regs : Z -> Z) : Bus world := {|
  bus_read a addr w :=
    match a with
    | Mmio32 =>
        if (base <=? addr) && (addr <? base + 2 ^ 28)
        then Ok (space w (ecam_sample.decode (addr - base)), w) else Ok (regs addr, w)
    | _ => Ok (0, w)
    end;
  bus_write a addr v w :=
    match a with
    | Mmio32 =>
        if (base <=? addr) && (addr <? base + 2 ^ 28) then
          let a := ecam_sample.decode (addr - base) in
          Ok (tt, World (pci_sample.update (space w) a
                           (cfg_written (pci_sample.mask a) (space w a) v)) (seen w) (shown w))
        else Ok (tt, w)
    | _ => Ok (tt, w)
    end |}.

Lemma in_window base a : cfg_ok a ->
  (base <=? ecam_of base a) && (ecam_of base a <? base + 2 ^ 28) = true.
Proof.
  intros (? & ? & ? & ? & _). apply andb_true_iff. rewrite Z.leb_le, Z.ltb_lt.
  unfold ecam_of. change (2 ^ 28) with 268435456. lia.
Qed.

Definition host base regs (Hb : base mod 2 ^ 28 = 0 /\ 0 <= base /\ base + 2 ^ 28 <= 2 ^ 64) :
  @EcamHost world (bus base regs) base.
Proof.
  refine {| ecam_base_ok := Hb; ecam_cfg := space; ecam_mask := pci_sample.mask;
            ecam_live w := forall a, is_u32 (space w a) |}.
  - intros w a Hl. apply Hl.
  - apply pci_sample.mask_u32.
  - intros w a Hl Ha. exists w. cbn [bus_read bus]. rewrite in_window by done.
    by rewrite ecam_sample.decode_of.
  - intros w a v Hl Ha Hv. cbn [bus_write bus]. rewrite in_window by done.
    rewrite ecam_sample.decode_of by done.
    eexists. split; [reflexivity|]. split.
    + intros a'. cbn. unfold pci_sample.update. case_decide; [|done].
      apply pci_sample.written_u32; [apply pci_sample.mask_u32|apply Hl].
    + done.
Defined.

Definition console : Console world := {|
  con_write s w := World (space w) (seen w) (shown w ++ s);
  con_log _ := log_empty;
  con_set_log _ w := w |}.
Definition report (d : device) : St world unit := fun w =>
  Ok (tt, World (space w) (seen w ++ [d]) (shown w)).
Definition start : world := World initial [] [].

(** The part of a scan's result that concerns the card. *)
Definition result (r : list device * contents * Z) : list device * Z * Z :=
  (r.1.1, r.1.2 (CfgAddr 0 3 0 4), r.2).

Lemma seen_keeps base regs l : bus_keeps (H := bus base regs) (fun w => seen w = l).
Proof.
  split.
  - intros a addr w v w' Hw. cbn. destruct a; try (intros [= _ <-]; exact Hw).
    destruct (_ && _); intros [= _ <-]; exact Hw.
  - intros a addr v w [] w' Hw. cbn. destruct a; try (intros [= <-]; exact Hw).
    destruct (_ && _); intros [= <-]; exact Hw.
Qed.
End ecam_bridge.
