(* ===== verification/FdtScan.v ===== *)
(** The devices of the device tree, as the ARM64 and RISC-V enumerators treat them: the
    nodes the walk of the blob reports, and what probing the virtio,mmio ones gives. *)

From S2P Require Export EcamScan VirtioMmio Fdt.

Open Scope Z_scope.

#[export] Instance string_at_dec mem s : forall a, Decision (string_at mem a s).
Proof. induction s as [|c s IH]; intros a; cbn [string_at]; apply _. Defined.

Lemma string_at_inj mem s1 : forall a s2, string_at mem a s1 -> string_at mem a s2 -> s1 = s2.
Proof.
  induction s1 as [|c1 s1 IH]; intros a [|c2 s2] H1 H2; cbn in H1, H2; [done|..].
  - destruct H2 as (E & Hn & _). congruence.
  - destruct H1 as (E & Hn & _). congruence.
  - destruct H1 as (E1 & _ & H1), H2 as (E2 & _ & H2). rewrite E1 in E2. injection E2 as <-.
    f_equal. by apply (IH (a + 1)).
Qed.

(** The device nodes of the blob at [fdt]; there are none when there is no blob. *)
Inductive fdt_nodes (mem : memory) (fdt : Z) : list device -> Prop :=
  | no_blob : fdt = 0 -> fdt_nodes mem fdt []
  | blob so names ts : fdt_blob mem fdt so names ts ->
      fdt_nodes mem fdt (walk names (fdt + so) ts (WalkState 0 device_zero false false)).

Lemma fdt_nodes_none mem fdt nodes : fdt_nodes mem fdt nodes -> fdt = 0 -> nodes = [].
Proof. intros [?|so names ts Hb] E; [done|]. by destruct (blob_addr _ _ _ _ _ Hb). Qed.

(** A node whose compatible property is a string and whose registers are in memory. *)
Record node_ok (mem : memory) (d : device) : Prop := NodeOk {
  node_compatible : forall a, dev_compatible d = Some a -> exists s, string_at mem a s;
  node_low : 0 <= reg_base d;
  node_high : reg_base d + 8 < 2 ^ 64
}.

Definition is_virtio (mem : memory) (d : device) : bool :=
  match dev_compatible d with
  | Some a => bool_decide (string_at mem a (str "virtio,mmio"))
  | None => false
  end.

(** The device of a node: a virtio,mmio node has one if its registers identify one. *)
Definition node_device (mem : memory) (regs : Z -> Z) (d : device) : option device :=
  if is_virtio mem d then
    if reg_base d =? 0 then None else set_ids d 0x1AF4 <$> slot_id regs (reg_base d)
  else Some d.

(** The code's test of the compatible string. *)
Lemma compatible_test mem d : node_ok mem d ->
  match dev_compatible d with
  | None => Ok false
  | Some a => r ← strcmp_mem mem a (str "virtio,mmio"); mret (r =? 0)
  end = Ok (is_virtio mem d).
Proof.
  intros [Hs _ _]. unfold is_virtio. destruct (dev_compatible d) as [a|]; [|done].
  destruct (Hs a eq_refl) as [s Ha].
  destruct (strcmp_mem_at mem (str "virtio,mmio") a s Ha) as (r & -> & Hr); [by apply no_nul_lit|].
  cbn [mbind res_bind]. unfold mret, res_ret. f_equal.
  destruct (Z.eqb_spec r 0) as [E|E]; symmetry.
  - apply bool_decide_eq_true. apply Hr in E. by subst.
  - apply bool_decide_eq_false. intros Hl. apply E, Hr. by eapply string_at_inj.
Qed.

Section probe.
  Context {W : Type} `{Bus W} (mem : memory) (regs : Z -> Z).

(** The identification registers of the virtio,mmio nodes read as [regs] says. *)
Definition slots_answer (ds : list device) (w : W) : Prop :=
  Forall (fun d => is_virtio mem d = true -> id_registers regs (reg_base d) w) ds.

(** Probing the virtio,mmio node [d]. *)
Lemma probe_node d w : node_ok mem d -> is_virtio mem d = true -> id_registers regs (reg_base d) w ->
  virtio_mmio_probe_device (Some d) w =
  Ok (match node_device mem regs d with Some x => (0, Some x) | None => (-1, Some d) end, w).
Proof.
  intros [_ Hl Hh] Hv Hr. rewrite (virtio_probe_correct regs d w Hr Hl Hh).
  unfold node_device. rewrite Hv. destruct (reg_base d =? 0); [done|].
  by destruct (slot_id regs (reg_base d)).
Qed.
End probe.

(** What fdt_enumerate_devices does with the nodes. *)
Lemma fdt_enumerate_nodes {C} mem (call : device -> C -> res C) fdt nodes c :
  fdt_nodes mem fdt nodes -> fdt <> 0 ->
  fdt_enumerate_devices mem (Some call) fdt c = (c' ← call_all call nodes c; Ok (len nodes, c')).
Proof. intros [?|so names ts Hb] Hf; [done|]. by apply fdt_enumerate_walk. Qed.

Lemma call_all_cons {C} (call : device -> C -> res C) d ds c :
  call_all call (d :: ds) c = (c' ← call d c; call_all call ds c').
Proof.
  exact (call_all_app call [d] ds c).
Qed.

(* ------------------------------------------------------------------ *)
(** ** The nodes of the sample blob, on the machine of [ecam_bridge] *)

Definition sample_nodes : list device :=
  walk sample_names (4096 + 40) sample_tokens (WalkState 0 device_zero false false).

Lemma sample_nodes_ok : Forall (node_ok sample_mem) sample_nodes.
Proof.
  assert (forall d, reg_base d = 0x10001000 -> dev_compatible d = Some 4216 -> node_ok sample_mem d).
  { intros d Hb Hc. split; rewrite ?Hb; [|lia..]. intros a. rewrite Hc. intros [= <-].
    exists (str "virtio,mmio"). vm_compute. repeat split; discriminate. }
  repeat (apply Forall_cons; split); auto.
Qed.

Lemma sample_slots_answer base w : 0x10001008 < base ->
  slots_answer (H := ecam_bridge.bus base mmio_sample.regs) sample_mem mmio_sample.regs
    sample_nodes w.
Proof.
  intros Hb. assert (forall d, reg_base d = 0x10001000 ->
    id_registers (H := ecam_bridge.bus base mmio_sample.regs) mmio_sample.regs (reg_base d) w) as Hid.
  { intros d -> o Ho. assert (0 <= o <= 8) by (revert Ho; rewrite !elem_of_cons; intros [->|[->|[->|[]%not_elem_of_nil]]]; lia).
    split; [|apply mmio_sample.regs_stable with (w := [])]. cbn [bus_read ecam_bridge.bus].
    by destruct (Z.leb_spec base (0x10001000 + o)); [lia|]. }
  repeat (apply Forall_cons; split); auto.
Qed.
