(* ===== verification/DevicesAmd64.v ===== *)
(** PCI enumeration on AMD64 (kernel/devices/devices_amd64.c): configuration
    accesses through the ports 0xCF8/0xCFC or ECAM, and the scan of two buses. *)

From S2P Require Export Pci.
From S2P Require Import EcamScan.

Open Scope Z_scope.

Definition PCI_CONFIG_ADDRESS_PORT : Z := 0xCF8.
Definition PCI_CONFIG_DATA_PORT : Z := 0xCFC.
Definition PCI_ENABLE_BIT : Z := 0x80000000.
Definition PCIE_ECAM_BASE : Z := 0xB0000000.

Definition pci_make_address (bus device function offset : Z) : Z :=
  Z.lor (Z.lor (Z.lor (Z.lor PCI_ENABLE_BIT (u32 (Z.shiftl bus 16))) (u32 (Z.shiftl device 11)))
           (u32 (Z.shiftl function 8)))
    (Z.land offset 0xFC).

Section amd64.
  Context {W : Type} `{Bus W}.

Definition pci_io_read16 (bus device function offset : Z) : St W Z :=
  let address := pci_make_address bus device function offset in
  _ ← io_outl PCI_CONFIG_ADDRESS_PORT address;
  data ← io_inl PCI_CONFIG_DATA_PORT;
  mret (half_of data offset).

Definition pci_io_read32 (bus device function offset : Z) : St W Z :=
  let address := pci_make_address bus device function offset in
  _ ← io_outl PCI_CONFIG_ADDRESS_PORT address;
  io_inl PCI_CONFIG_DATA_PORT.

Definition pci_io_write16 (bus device function offset value : Z) : St W unit :=
  let address := pci_make_address bus device function offset in
  _ ← io_outl PCI_CONFIG_ADDRESS_PORT address;
  data ← io_inl PCI_CONFIG_DATA_PORT;
  data ← lift (put_half data offset value);
  io_outl PCI_CONFIG_DATA_PORT data.

Definition pci_io_write32 (bus device function offset value : Z) : St W unit :=
  let address := pci_make_address bus device function offset in
  _ ← io_outl PCI_CONFIG_ADDRESS_PORT address;
  io_outl PCI_CONFIG_DATA_PORT value.

Definition pcie_ecam_address : Z -> Z -> Z -> Z -> Z := ecam_address PCIE_ECAM_BASE.
Definition pcie_ecam_read16 : Z -> Z -> Z -> Z -> St W Z := ecam_read16 PCIE_ECAM_BASE.
Definition pcie_ecam_read32 : Z -> Z -> Z -> Z -> St W Z := ecam_read32 PCIE_ECAM_BASE.
Definition pcie_ecam_write16 : Z -> Z -> Z -> Z -> Z -> St W unit := ecam_write16 PCIE_ECAM_BASE.
Definition pcie_ecam_write32 : Z -> Z -> Z -> Z -> Z -> St W unit := ecam_write32 PCIE_ECAM_BASE.

(** The unified accesses; the port functions take an 8-bit offset. *)
Definition pci_config_read16 (use_ecam : bool) (bus device function offset : Z) : St W Z :=
  if use_ecam then pcie_ecam_read16 bus device function offset
  else pci_io_read16 bus device function (u8 offset).
Definition pci_config_read32 (use_ecam : bool) (bus device function offset : Z) : St W Z :=
  if use_ecam then pcie_ecam_read32 bus device function offset
  else pci_io_read32 bus device function (u8 offset).
Definition pci_config_write16 (use_ecam : bool) (bus device function offset value : Z)
    : St W unit :=
  if use_ecam then pcie_ecam_write16 bus device function offset value
  else pci_io_write16 bus device function (u8 offset) value.
Definition pci_config_write32 (use_ecam : bool) (bus device function offset value : Z)
    : St W unit :=
  if use_ecam then pcie_ecam_write32 bus device function offset value
  else pci_io_write32 bus device function (u8 offset) value.

Definition pci_detect_ecam : bool := false.

Definition config_accesses (use_ecam : bool) : config_ops W :=
  ConfigOps (pci_config_read32 use_ecam) (pci_config_write32 use_ecam).

Definition pci_probe_bar_size (use_ecam : bool) (bus device function bar_offset : Z) : St W Z :=
  probe_bar_size (config_accesses use_ecam) bus device function bar_offset.

(** The body of the scan for one slot; the result is the new count. *)
Definition scan_slot (use_ecam : bool) (callback : option (device -> St W unit))
    (bus device device_count : Z) : St W Z :=
  vendor ← pci_config_read16 use_ecam bus device 0 PCI_VENDOR_ID_OFFSET;
  if vendor =? 0xFFFF then mret device_count else
  device_val ← pci_config_read16 use_ecam bus device 0 PCI_DEVICE_ID_OFFSET;
  bar0 ← pci_config_read32 use_ecam bus device 0 PCI_BAR0_OFFSET;
  bar_size ← pci_probe_bar_size use_ecam bus device 0 PCI_BAR0_OFFSET;
  command ← pci_config_read16 use_ecam bus device 0 PCI_COMMAND_OFFSET;
  let command := Z.lor command (Z.lor PCI_COMMAND_MEMORY PCI_COMMAND_MASTER) in
  _ ← pci_config_write16 use_ecam bus device 0 PCI_COMMAND_OFFSET command;
  let dev_info :=
    Device None None (Z.land bar0 0xFFFFFFF0) bar_size vendor device_val bus device 0 None
      DEVICE_STATE_DISCOVERED 0 0 None None None 0 None in
  _ ← match callback with Some call => call dev_info | None => skip end;
  mret (device_count + 1).

(** Devices 0 to 31 of buses 0 and 1. *)
Definition scan_buses (use_ecam : bool) (callback : option (device -> St W unit)) : St W Z :=
  for_n 2 (fun bus device_count =>
    for_n 32 (fun device device_count =>
      scan_slot use_ecam callback (Z.of_nat bus) (Z.of_nat device) device_count)
      device_count) 0.

(** The debug line about the access mechanism. *)
Definition print_access `{Console W} (pci_log : tag_ptr) (use_ecam : bool) : St W unit :=
  debug ← klog_enabled pci_log LOG_DEBUG;
  when debug
    (if use_ecam then
       _ ← klog_prefix pci_log LOG_DEBUG;
       kput (puts (str "Using PCIe ECAM at 0x" ++ put_hex64 PCIE_ECAM_BASE ++ nl))
     else
       _ ← klog_prefix pci_log LOG_DEBUG;
       kput (puts (str "Using legacy I/O ports (0x" ++ put_hex16 PCI_CONFIG_ADDRESS_PORT
                   ++ str "/0x" ++ put_hex16 PCI_CONFIG_DATA_PORT ++ str ")" ++ nl))).

(** The two lookups the file only declares: nothing is ever found. *)
Definition devices_find (compatible : option cstr) (dev : option device) : Z := 0.
Definition devices_get_name (vendor_id device_id : Z) : option cstr := None.

(** [pci_log]: the static tag; the result has its new value. *)
Definition devices_enumerate `{Console W} (pci_log : tag_ptr)
    (callback : option (device -> St W unit)) : St W (Z * tag_ptr) :=
  pci_log ← match pci_log with
            | Some _ => mret pci_log | None => klog_register "pci" LOG_INFO
            end;
  let use_ecam := pci_detect_ecam in
  _ ← print_access pci_log use_ecam;
  device_count ← scan_buses use_ecam callback;
  mret (device_count, pci_log).
End amd64.

(* ------------------------------------------------------------------ *)
(** ** The contract of the configuration ports *)

(** The word written to 0xCF8 to select a dword (PCI configuration mechanism 1). *)
Definition mechanism1 (a : cfg_addr) : Z :=
  2 ^ 31 + c_bus a * 2 ^ 16 + c_dev a * 2 ^ 11 + c_fun a * 2 ^ 8 + c_off a.

(** A host bridge: 0xCF8 selects a dword, which 0xCFC then reads and writes any
    number of times; a write changes the writable bits of that dword only. *)
Class ConfigPorts (W : Type) `{Bus W} := {
  port_cfg : W -> cfg_addr -> Z;
  port_mask : cfg_addr -> Z;
  port_live : W -> Prop;
  port_selected : W -> option cfg_addr;
  port_u32 : forall w a, port_live w -> is_u32 (port_cfg w a);
  port_mask_u32 : forall a, is_u32 (port_mask a);
  port_select : forall w a, port_live w -> cfg_ok a ->
    exists w', bus_write Port32 0xCF8 (mechanism1 a) w = Ok (tt, w') /\ port_live w' /\
      port_selected w' = Some a /\ forall a', port_cfg w' a' = port_cfg w a';
  port_data_read : forall w a, port_live w -> port_selected w = Some a ->
    exists w', bus_read Port32 0xCFC w = Ok (port_cfg w a, w') /\ port_live w' /\
      port_selected w' = Some a /\ forall a', port_cfg w' a' = port_cfg w a';
  port_data_write : forall w a v, port_live w -> port_selected w = Some a -> is_u32 v ->
    exists w', bus_write Port32 0xCFC v w = Ok (tt, w') /\ port_live w' /\
      port_selected w' = Some a /\
      forall a', port_cfg w' a' = if decide (a' = a)
                                  then cfg_written (port_mask a) (port_cfg w a) v
                                  else port_cfg w a'
}.

(* ------------------------------------------------------------------ *)
(** ** Lemmas *)

(** The fields of an address do not overlap. *)
Lemma pci_make_address_sum a o :
  cfg_ok a -> 0 <= o < 256 -> c_off a = Z.land o 0xFC ->
  pci_make_address (c_bus a) (c_dev a) (c_fun a) o = mechanism1 a.
Proof.
  intros (Hb & Hd & Hf & Ho & _) Hor Hland. unfold pci_make_address, mechanism1, PCI_ENABLE_BIT.
  rewrite <- Hland. rewrite !Z.shiftl_mul_pow2 by lia.
  rewrite (u32_id (c_bus a * _)), (u32_id (c_dev a * _)), (u32_id (c_fun a * _))
    by (unfold is_u32; lia).
  rewrite (lor_mul_add _ 1 (c_bus a * 2 ^ 16) 31) by lia.
  rewrite (lor_mul_add _ (2 ^ 15 + c_bus a) (c_dev a * 2 ^ 11) 16) by lia.
  rewrite (lor_mul_add _ ((2 ^ 15 + c_bus a) * 2 ^ 5 + c_dev a) (c_fun a * 2 ^ 8) 11) by lia.
  rewrite (lor_mul_add _ (((2 ^ 15 + c_bus a) * 2 ^ 5 + c_dev a) * 2 ^ 3 + c_fun a) (c_off a) 8)
    by lia.
  lia.
Qed.

Lemma mechanism1_u32 a : cfg_ok a -> is_u32 (mechanism1 a).
Proof. intros (? & ? & ? & ? & _). unfold mechanism1, is_u32. lia. Qed.

(** Different dwords have different addresses. *)
Lemma mechanism1_inj a a' : cfg_ok a -> cfg_ok a' -> mechanism1 a = mechanism1 a' -> a = a'.
Proof.
  destruct a as [b d f o], a' as [b' d' f' o'].
  intros (? & ? & ? & ? & _) (? & ? & ? & ? & _). unfold mechanism1. cbn in *. intros E.
  assert (o = o') by zdm. assert (f = f') by zdm. assert (d = d') by zdm. assert (b = b') by lia.
  by subst.
Qed.

Section ports.
  Context {W : Type} `{ConfigPorts W}.

Lemma select_spec b d f o w :
  port_live w -> cfg_ok (CfgAddr b d f (Z.land o 0xFC)) -> 0 <= o < 256 ->
  exists w', io_outl PCI_CONFIG_ADDRESS_PORT (pci_make_address b d f o) w = Ok (tt, w') /\
    port_live w' /\ port_selected w' = Some (CfgAddr b d f (Z.land o 0xFC)) /\
    forall a, port_cfg w' a = port_cfg w a.
Proof.
  intros Hl Ha Ho. unfold io_outl.
  rewrite (pci_make_address_sum (CfgAddr b d f (Z.land o 0xFC))) by done.
  rewrite u32_id by (by apply mechanism1_u32). by apply port_select.
Qed.

Lemma io_read32_spec b d f o w :
  port_live w -> cfg_ok (CfgAddr b d f (Z.land o 0xFC)) -> 0 <= o < 256 ->
  exists w', pci_io_read32 b d f o w
      = Ok (port_cfg w (CfgAddr b d f (Z.land o 0xFC)), w') /\
    port_live w' /\ forall a, port_cfg w' a = port_cfg w a.
Proof.
  intros Hl Ha Ho. unfold pci_io_read32.
  destruct (select_spec b d f o w Hl Ha Ho) as (w1 & E1 & Hl1 & Hs1 & H1).
  rewrite (St_bind_ok _ _ _ _ _ E1).
  destruct (port_data_read w1 _ Hl1 Hs1) as (w2 & E2 & Hl2 & _ & H2).
  exists w2. rewrite <- H1. split; [exact E2|]. split; [done|]. intros a. by rewrite H2.
Qed.

Lemma io_read16_spec b d f o w :
  port_live w -> cfg_ok (CfgAddr b d f (Z.land o 0xFC)) -> 0 <= o < 256 ->
  exists w', pci_io_read16 b d f o w
      = Ok (half_of (port_cfg w (CfgAddr b d f (Z.land o 0xFC))) o, w') /\
    port_live w' /\ forall a, port_cfg w' a = port_cfg w a.
Proof.
  intros Hl Ha Ho. destruct (io_read32_spec b d f o w Hl Ha Ho) as (w' & E & Hl' & Hs).
  exists w'. split; [|done]. unfold pci_io_read16, pci_io_read32 in *.
  apply St_bind_inv in E as ([] & w1 & E1 & E).
  rewrite (St_bind_ok _ _ _ _ _ E1). by rewrite (St_bind_ok _ _ _ _ _ E).
Qed.

Lemma io_write32_spec b d f o v w :
  port_live w -> cfg_ok (CfgAddr b d f (Z.land o 0xFC)) -> 0 <= o < 256 -> is_u32 v ->
  let a := CfgAddr b d f (Z.land o 0xFC) in
  exists w', pci_io_write32 b d f o v w = Ok (tt, w') /\ port_live w' /\
    forall a', port_cfg w' a' = if decide (a' = a)
                                then cfg_written (port_mask a) (port_cfg w a) v
                                else port_cfg w a'.
Proof.
  intros Hl Ha Ho Hv a. unfold pci_io_write32.
  destruct (select_spec b d f o w Hl Ha Ho) as (w1 & E1 & Hl1 & Hs1 & H1).
  rewrite (St_bind_ok _ _ _ _ _ E1). unfold io_outl. rewrite u32_id by done.
  destruct (port_data_write w1 a v Hl1 Hs1 Hv) as (w2 & E2 & Hl2 & _ & H2).
  exists w2. split; [exact E2|]. split; [done|]. intros a'. rewrite H2. by rewrite !H1.
Qed.

(** The 16-bit write of the command register leaves every other dword alone. *)
Lemma io_write16_low_spec b d f o v w :
  port_live w -> cfg_ok (CfgAddr b d f o) -> is_u16 v ->
  half_shift o = 0 ->
  let a := CfgAddr b d f o in
  exists w', pci_io_write16 b d f o v w = Ok (tt, w') /\ port_live w' /\
    port_cfg w' a = cfg_written (port_mask a) (port_cfg w a)
                      (Z.lor (Z.land (port_cfg w a) 0xFFFF0000) v) /\
    forall a', a' <> a -> port_cfg w' a' = port_cfg w a'.
Proof.
  intros Hl Ha Hv Hs a. pose proof Ha as (_ & _ & _ & Ho & Hm). cbn in Ho, Hm.
  assert (Hof : Z.land o 0xFC = o) by by apply land_fc.
  unfold pci_io_write16.
  destruct (select_spec b d f o w) as (w1 & E1 & Hl1 & Hs1 & H1); [done|by rewrite Hof|done|].
  rewrite Hof in Hs1. rewrite (St_bind_ok _ _ _ _ _ E1).
  destruct (port_data_read w1 a Hl1 Hs1) as (w2 & E2 & Hl2 & Hs2 & H2).
  assert (E2' : io_inl PCI_CONFIG_DATA_PORT w1 = Ok (port_cfg w1 a, w2)) by exact E2.
  rewrite (St_bind_ok _ _ _ _ _ E2').
  pose proof (port_u32 w1 a Hl1) as Hu.
  set (new := Z.lor (Z.land (port_cfg w1 a) 0xFFFF0000) v).
  assert (Enew : put_half (port_cfg w1 a) o v = Ok new).
  { unfold put_half. rewrite Hs. change (shl_int 65535 0) with (Ok 65535).
    cbn [mbind res_bind]. rewrite Z.shiftl_0_r.
    rewrite (u32_id v) by (unfold is_u16, is_u32 in *; lia). done. }
  rewrite (St_bind_ok _ _ _ _ _ (lift_ok _ _ w2 Enew)).
  assert (Hnew : is_u32 new).
  { unfold new. replace (Z.land (port_cfg w1 a) 0xFFFF0000)
      with (port_cfg w1 a - port_cfg w1 a mod 2 ^ 16)
      by (symmetry; apply (clear_low (port_cfg w1 a) 16); [done|lia]).
    unfold is_u32, is_u16 in *. rewrite (lor_mul_add _ (port_cfg w1 a / 2 ^ 16) v 16) by zdm. zdm. }
  destruct (port_data_write w2 a new Hl2 Hs2 Hnew) as (w3 & E3 & Hl3 & _ & H3).
  assert (E3' : io_outl PCI_CONFIG_DATA_PORT new w2 = Ok (tt, w3))
    by (unfold io_outl; by rewrite u32_id).
  exists w3. split; [exact E3'|]. split; [done|]. split.
  - rewrite H3. destruct (decide (a = a)); [|done]. rewrite H2. unfold new. by rewrite H1.
  - intros a' Ha'. rewrite H3. destruct (decide (a' = a)); [done|]. by rewrite H2, H1.
Qed.

(** The ports implement a configuration space. *)
#[global] Instance ports_config : ConfigSpace (config_accesses (W := W) false).
Proof.
  refine {| cfg := port_cfg; cfg_mask := port_mask; cfg_live := port_live |}.
  - intros. by apply port_u32.
  - apply port_mask_u32.
  - intros w b d f o Hl Ha. pose proof Ha as (_ & _ & _ & Ho & Hm). cbn in Ho, Hm.
    cbn [read32 config_accesses]. unfold pci_config_read32.
    rewrite (u8_id o) by done. assert (Hof : Z.land o 0xFC = o) by by apply land_fc.
    destruct (io_read32_spec b d f o w) as (w' & E & Hl' & Hs); [done|by rewrite Hof|done|].
    rewrite Hof in E. exists w'. split; [done|]. split; [done|]. intros; apply Hs.
  - intros w b d f o v Hl Ha Hv. pose proof Ha as (_ & _ & _ & Ho & Hm). cbn in Ho, Hm.
    cbn [write32 config_accesses]. unfold pci_config_write32.
    rewrite (u8_id o) by done. assert (Hof : Z.land o 0xFC = o) by by apply land_fc.
    destruct (io_write32_spec b d f o v w) as (w' & E & Hl' & Hs); [done|by rewrite Hof|done|done|].
    rewrite Hof in Hs. exists w'. split; [done|]. split; [done|]. intros a _.
    rewrite Hs. case_decide as E'; [|done]. by rewrite E'.
Defined.
End ports.

(* ------------------------------------------------------------------ *)
(** ** The scan *)

(** The slots in scan order, and the device a slot's configuration dwords
    describe; a vendor of all ones is an empty slot. *)
Definition slots : list (Z * Z) :=
  (fun i => (Z.of_nat (i / 32), Z.of_nat (i mod 32))) <$> seq 0 64.

Definition slot_device (c mask : cfg_addr -> Z) (slot : Z * Z) : option device :=
  let '(b, d) := slot in
  let at_ o := CfgAddr b d 0 o in
  let bar0 := c (at_ 0x10) in
  if half_of (c (at_ 0)) 0 =? 0xFFFF then None else
  Some (Device None None (Z.land bar0 0xFFFFFFF0)
          (size_of_mask bar0 (cfg_written (mask (at_ 0x10)) bar0 0xFFFFFFFF))
          (half_of (c (at_ 0)) 0) (half_of (c (at_ 0)) 2) b d 0 None
          DEVICE_STATE_DISCOVERED 0 0 None None None 0 None).

(** What the scan does with a slot: a device that is present is reported and enabled; no
    window is given out. *)
Definition describe_slot (mask : contents) : description := fun c s next =>
  (fun d => (d, enabled mask s.1 s.2 c, next)) <$> slot_device c mask s.

(** Enabling a device changes its command register only: what is reported is what the
    slots held before the scan. *)
Lemma slot_device_enabled mask b d c s :
  s <> (b, d) -> slot_device (enabled mask b d c) mask s = slot_device c mask s.
Proof.
  destruct s as [b' d']. intros Hne. unfold slot_device, enabled, set_dword.
  by rewrite !decide_False by congruence.
Qed.
Lemma scan_ref_found mask todo : forall c next, NoDup todo ->
  (scan_ref (describe_slot mask) todo c next).1.1 = omap (slot_device c mask) todo.
Proof.
  induction todo as [|[b d] todo IH]; intros c next Hnd; [done|].
  apply NoDup_cons in Hnd as [Hnin Hnd]. cbn [scan_ref omap list_omap]. unfold describe_slot at 1.
  destruct (slot_device c mask (b, d)) as [x|]; cbn [fmap option_fmap option_map]; [|by apply IH].
  specialize (IH (enabled mask b d c) next Hnd). destruct (scan_ref _ _ _ _) as [[ds c'] next'].
  cbn in *. subst ds. f_equal. clear - Hnin. induction todo as [|s todo IH]; [done|].
  apply not_elem_of_cons in Hnin as [Hne Hnin]. cbn [omap list_omap].
  rewrite slot_device_enabled by done. by rewrite IH.
Qed.

(** The command registers of the devices present. *)
Definition command_dwords (mask : contents) (slots : list (Z * Z)) (c : contents) : list cfg_addr :=
  (fun s => CfgAddr s.1 s.2 0 4) <$> filter (fun s => is_Some (slot_device c mask s)) slots.
Definition switched_on (mask : contents) (c : contents) (a : cfg_addr) : Z :=
  cfg_written (mask a) (c a) (Z.lor (Z.land (c a) 0xFFFF0000) (Z.lor (half_of (c a) 4) 6)).

Lemma command_dwords_enabled mask b d c todo : (b, d) ∉ todo ->
  command_dwords mask todo (enabled mask b d c) = command_dwords mask todo c /\
  CfgAddr b d 0 4 ∉ command_dwords mask todo c.
Proof.
  intros Hnin. unfold command_dwords. split.
  - f_equal. induction todo as [|s todo IH]; [done|]. apply not_elem_of_cons in Hnin as [Hne Hnin].
    rewrite !filter_cons, slot_device_enabled by done. by rewrite IH.
  - intros ([b' d'] & [= -> ->] & [_ ?]%list_elem_of_filter)%list_elem_of_fmap. done.
Qed.
Lemma scan_ref_contents mask todo : forall c next, NoDup todo -> forall a,
  (scan_ref (describe_slot mask) todo c next).1.2 a
  = if decide (a ∈ command_dwords mask todo c) then switched_on mask c a else c a.
Proof.
  induction todo as [|[b d] todo IH]; intros c next Hnd a; [done|].
  apply NoDup_cons in Hnd as [Hnin Hnd]. cbn [scan_ref]. unfold describe_slot at 1.
  unfold command_dwords. rewrite filter_cons.
  destruct (slot_device c mask (b, d)) as [x|]; cbn [fmap option_fmap option_map].
  - rewrite (decide_True (P := is_Some (Some x))) by by eexists. cbn [fst snd].
    specialize (IH (enabled mask b d c) next Hnd a). destruct (scan_ref _ _ _ _) as [[ds c'] next'].
    cbn [fst snd] in *. rewrite IH.
    destruct (command_dwords_enabled mask b d c todo Hnin) as [-> Hout].
    cbn [list_fmap fmap]. fold (command_dwords mask todo c).
    unfold switched_on, enabled, set_dword. destruct (decide (a = CfgAddr b d 0 4)) as [->|Hne].
    + rewrite decide_False by done. rewrite decide_True by (apply elem_of_cons; by left). done.
    + destruct (decide (a ∈ command_dwords mask todo c)).
      * rewrite decide_True by (apply elem_of_cons; by right). done.
      * rewrite decide_False by (rewrite elem_of_cons; tauto). done.
  - rewrite (decide_False (P := is_Some None)) by by intros []. apply (IH c next Hnd a).
Qed.

Section scan.
  Context {W : Type} `{ConfigPorts W}.

(** [P l w]: in [w] the callback has been given the devices [l]. *)
Variable P : list device -> W -> Prop.
Variable call : device -> St W unit.
Hypothesis P_hw : forall l, bus_keeps (P l).
Hypothesis call_ok : forall d l w, port_live w -> P l w ->
  exists w', call d w = Ok (tt, w') /\ port_live w' /\ P (l ++ [d]) w' /\
    forall a, port_cfg w' a = port_cfg w a.

(** The configuration space has the contents [c]. *)
Definition holds (c : contents) (w : W) : Prop := forall a, cfg_ok a -> port_cfg w a = c a.

Lemma io_read_keeps l b d f o :
  keeps (P l) (pci_io_read16 b d f o) /\ keeps (P l) (pci_io_read32 b d f o).
Proof.
  unfold pci_io_read16, pci_io_read32.
  pose proof (io_keeps (P l) PCI_CONFIG_DATA_PORT 0 (P_hw l)) as (? & _).
  pose proof (io_keeps (P l) PCI_CONFIG_ADDRESS_PORT (pci_make_address b d f o) (P_hw l))
    as (_ & ? & _). split; eauto 10 with keeps.
Qed.

Lemma io_write_keeps l b d f o v :
  keeps (P l) (pci_io_write16 b d f o v) /\ keeps (P l) (pci_io_write32 b d f o v).
Proof.
  unfold pci_io_write16, pci_io_write32.
  pose proof (io_keeps (P l) PCI_CONFIG_DATA_PORT 0 (P_hw l)) as (? & _).
  assert (forall x, keeps (P l) (io_outl PCI_CONFIG_DATA_PORT x))
    by (intros x; apply (io_keeps (P l) PCI_CONFIG_DATA_PORT x (P_hw l))).
  pose proof (io_keeps (P l) PCI_CONFIG_ADDRESS_PORT (pci_make_address b d f o) (P_hw l))
    as (_ & ? & _). split; eauto 10 with keeps.
Qed.

Lemma probe_keeps l b d f o : keeps (P l) (pci_probe_bar_size false b d f o).
Proof.
  unfold pci_probe_bar_size, probe_bar_size. cbn [read32 write32 config_accesses].
  unfold pci_config_read32, pci_config_write32.
  destruct (io_read_keeps l b d f (u8 o)) as [_ ?].
  assert (forall v, keeps (P l) (pci_io_write32 b d f (u8 o) v))
    by (intros v; apply io_write_keeps). eauto 10 with keeps.
Qed.

Definition slot_ok (s : Z * Z) : Prop := 0 <= s.1 < 256 /\ 0 <= s.2 < 32.

Lemma slot_addr_ok b d o : slot_ok (b, d) -> 0 <= o < 256 -> o mod 4 = 0 ->
  cfg_ok (CfgAddr b d 0 o).
Proof. intros [? ?] ? ?. unfold cfg_ok. cbn in *. lia. Qed.

(** What an access of the scan keeps. *)
Definition same_as (w w' : W) : Prop :=
  port_live w' /\ (forall a, port_cfg w' a = port_cfg w a) /\ (forall l, P l w -> P l w').

Lemma read16_step b d o w : slot_ok (b, d) -> 0 <= o < 256 -> port_live w ->
  Z.land o 0xFC mod 4 = 0 -> 0 <= Z.land o 0xFC < 256 ->
  exists w', pci_config_read16 false b d 0 o w
    = Ok (half_of (port_cfg w (CfgAddr b d 0 (Z.land o 0xFC))) o, w') /\ same_as w w'.
Proof.
  intros Hs Ho Hl Hm Hr. unfold pci_config_read16. rewrite (u8_id o) by done.
  destruct (io_read16_spec b d 0 o w Hl) as (w' & E & Hl' & Hc); [by apply slot_addr_ok|done|].
  exists w'. split; [done|]. split; [done|]. split; [done|].
  intros l Hp. exact (proj1 (io_read_keeps l b d 0 o) w _ w' Hp E).
Qed.

Lemma read32_step b d o w : slot_ok (b, d) -> 0 <= o < 256 -> port_live w -> o mod 4 = 0 ->
  exists w', pci_config_read32 false b d 0 o w = Ok (port_cfg w (CfgAddr b d 0 o), w') /\
    same_as w w'.
Proof.
  intros Hs Ho Hl Hm. unfold pci_config_read32. rewrite (u8_id o) by done.
  assert (Hof : Z.land o 0xFC = o) by by apply land_fc.
  destruct (io_read32_spec b d 0 o w Hl) as (w' & E & Hl' & Hc);
    [rewrite Hof; by apply slot_addr_ok|done|].
  rewrite Hof in E. exists w'. split; [done|]. split; [done|]. split; [done|].
  intros l Hp. exact (proj2 (io_read_keeps l b d 0 o) w _ w' Hp E).
Qed.

Lemma probe_step b d w : slot_ok (b, d) -> port_live w ->
  let bar0 := port_cfg w (CfgAddr b d 0 0x10) in
  exists w', pci_probe_bar_size false b d 0 PCI_BAR0_OFFSET w
    = Ok (size_of_mask bar0 (cfg_written (port_mask (CfgAddr b d 0 0x10)) bar0 0xFFFFFFFF), w') /\
    port_live w' /\ (forall a, cfg_ok a -> port_cfg w' a = port_cfg w a) /\
    (forall l, P l w -> P l w').
Proof.
  intros Hs Hl bar0.
  destruct (@probe_bar_size_spec W (config_accesses false) ports_config b d 0 PCI_BAR0_OFFSET w Hl)
    as (w' & E & Hl' & Hc); [by apply slot_addr_ok|].
  exists w'. split; [exact E|]. split; [done|]. split; [done|].
  intros l Hp. exact (probe_keeps l b d 0 PCI_BAR0_OFFSET w _ w' Hp E).
Qed.

(** One slot: its device, if any, is given to the callback and enabled, and nothing else
    is changed. *)
Lemma scan_slot_spec c b d n l w :
  slot_ok (b, d) -> port_live w -> P l w -> holds c w ->
  let found := match slot_device c port_mask (b, d) with Some x => [x] | None => [] end in
  exists w', scan_slot false (Some call) b d n w = Ok (n + len found, w') /\
    port_live w' /\ P (l ++ found) w' /\
    holds match slot_device c port_mask (b, d) with Some _ => enabled port_mask b d c | None => c end w'.
Proof.
  intros Hs Hl Hp Hag found. unfold scan_slot.
  assert (Hc : forall o, 0 <= o < 256 -> o mod 4 = 0 ->
    port_cfg w (CfgAddr b d 0 o) = c (CfgAddr b d 0 o)) by (intros o Ho Hm; by apply Hag, slot_addr_ok).
  destruct (read16_step b d PCI_VENDOR_ID_OFFSET w Hs) as (w1 & E1 & Hl1 & H1 & P1);
    [done|done|done|done|].
  rewrite (St_bind_ok _ _ _ _ _ E1). change (Z.land PCI_VENDOR_ID_OFFSET 0xFC) with 0.
  change PCI_VENDOR_ID_OFFSET with 0. rewrite Hc by done.
  unfold slot_device in found |- *.
  destruct (Z.eqb_spec (half_of (c (CfgAddr b d 0 0)) 0) 0xFFFF) as [Hv|Hv].
  { exists w1. subst found. rewrite app_nil_r, Z.add_0_r. split; [done|]. split; [done|].
    split; [by apply P1|]. intros a Ha. rewrite H1. by apply Hag. }
  destruct (read16_step b d PCI_DEVICE_ID_OFFSET w1 Hs) as (w2 & E2 & Hl2 & H2 & P2);
    [done|done|done|done|].
  rewrite (St_bind_ok _ _ _ _ _ E2). change (Z.land PCI_DEVICE_ID_OFFSET 0xFC) with 0.
  change PCI_DEVICE_ID_OFFSET with 2.
  destruct (read32_step b d PCI_BAR0_OFFSET w2 Hs) as (w3 & E3 & Hl3 & H3 & P3);
    [done|done|done|].
  rewrite (St_bind_ok _ _ _ _ _ E3). change PCI_BAR0_OFFSET with 0x10 in E3 |- *.
  destruct (probe_step b d w3 Hs Hl3) as (w4 & E4 & Hl4 & H4 & P4).
  rewrite (St_bind_ok _ _ _ _ _ E4).
  destruct (read16_step b d PCI_COMMAND_OFFSET w4 Hs) as (w5 & E5 & Hl5 & H5 & P5);
    [done|done|done|done|].
  rewrite (St_bind_ok _ _ _ _ _ E5). cbv zeta.
  set (cmd := half_of _ PCI_COMMAND_OFFSET).
  assert (Hcmd : is_u16 (Z.lor cmd (Z.lor PCI_COMMAND_MEMORY PCI_COMMAND_MASTER))).
  { assert (is_u16 cmd) by (unfold cmd, half_of; rewrite land_ffff; apply u16_range).
    unfold PCI_COMMAND_MEMORY, PCI_COMMAND_MASTER. by apply lor_u16. }
  unfold pci_config_write16. change (u8 PCI_COMMAND_OFFSET) with 4.
  set (v := Z.lor cmd _) in *.
  destruct (io_write16_low_spec b d 0 4 v w5 Hl5) as (w6 & E6 & Hl6 & Hcmd6 & H6);
    [by apply slot_addr_ok|done|done|].
  rewrite (St_bind_ok _ _ _ _ _ E6).
  rewrite H3, H2, H1, H1, !Hc by done.
  set (info := Device _ _ _ _ _ _ _ _ _ _ _ _ _ _ _ _ _ _).
  assert (P6 : P l w6).
  { apply (proj1 (io_write_keeps l b d 0 4 v) w5 tt w6); [by apply P5, P4, P3, P2, P1|exact E6]. }
  destruct (call_ok info l w6 Hl6 P6) as (w7 & E7 & Hl7 & P7 & H7).
  rewrite (St_bind_ok _ _ _ _ _ E7). exists w7.
  assert (found = [info]) as ->.
  { unfold found, info. done. }
  split; [done|]. split; [done|]. split; [done|]. intros a Ha. rewrite H7.
  assert (forall a, cfg_ok a -> port_cfg w5 a = c a) as H5c
    by (intros a' Ha'; by rewrite H5, H4, H3, H2, H1, Hag by done).
  unfold enabled, set_dword. case_decide as Ea; [|by rewrite H6, H5c].
  subst a. rewrite Hcmd6, H5c by done. unfold v, cmd.
  change (Z.land PCI_COMMAND_OFFSET 0xFC) with 4. by rewrite <- H5, H5c.
Qed.

Lemma scan_buses_slots w :
  scan_buses false (Some call) w =
  iter_list (fun s => scan_slot false (Some call) s.1 s.2) slots 0 w.
Proof.
  unfold scan_buses. rewrite for_n_iter. cbn [seq iter_list].
  change slots with (((fun i => (0, Z.of_nat i)) <$> seq 0 32)
                     ++ ((fun i => (1, Z.of_nat i)) <$> seq 0 32)).
  rewrite iter_list_app.
  transitivity ((a ← iter_list (fun i => scan_slot false (Some call) 0 (Z.of_nat i)) (seq 0 32) 0;
                 iter_list (fun i => scan_slot false (Some call) 1 (Z.of_nat i)) (seq 0 32) a) w).
  - etransitivity; [apply St_bind_eq_l, for_n_iter|]. apply St_bind_ext. intros a w' _.
    rewrite St_bind_ret. apply for_n_iter.
  - set (f := fun s : Z * Z => scan_slot false (Some call) s.1 s.2).
    etransitivity; [apply St_bind_eq_l; symmetry;
      apply (iter_list_fmap f (fun i => (0, Z.of_nat i)))|].
    apply St_bind_ext. intros a w' _. symmetry.
    apply (iter_list_fmap f (fun i => (1, Z.of_nat i))).
Qed.

Lemma scan_list_spec todo : forall c n l w,
  Forall slot_ok todo -> port_live w -> P l w -> holds c w ->
  let '(found, c', _) := scan_ref (describe_slot port_mask) todo c 0 in
  exists w', iter_list (fun s => scan_slot false (Some call) s.1 s.2) todo n w
      = Ok (n + len found, w') /\
    port_live w' /\ P (l ++ found) w' /\ holds c' w'.
Proof.
  induction todo as [|[b d] todo IH]; intros c n l w Hs Hl Hp Hag.
  { exists w. cbn. rewrite app_nil_r, Z.add_0_r. done. }
  apply Forall_cons in Hs as [Hs Hss]. cbn [iter_list scan_ref].
  destruct (scan_slot_spec c b d n l w Hs Hl Hp Hag) as (w1 & E1 & Hl1 & P1 & Hag1).
  set (f1 := match slot_device c port_mask (b, d) with Some x => [x] | None => [] end) in *.
  set (c1 := match slot_device c port_mask (b, d) with Some _ => _ | None => c end) in *.
  specialize (IH c1 (n + len f1) (l ++ f1) w1 Hss Hl1 P1 Hag1). unfold describe_slot at 1.
  subst f1 c1. destruct (slot_device c port_mask (b, d)) as [x|]; cbn [fmap option_fmap option_map fst snd];
    destruct (scan_ref _ _ _ _) as [[found c'] next];
    destruct IH as (w2 & E2 & Hl2 & P2 & Hag2); exists w2; rewrite <- app_assoc in P2;
    (split; [erewrite St_bind_ok by exact E1; rewrite E2; do 2 f_equal; rewrite ?len_cons, ?len_nil; lia|done]).
Qed.
End scan.

(** The devices on the two buses. *)
Abbreviation on_buses c mask := (omap (slot_device c mask) slots).

Lemma slots_ok : Forall slot_ok slots.
Proof.
  apply Forall_fmap, Forall_forall. intros i Hi. apply elem_of_seq in Hi.
  change (slot_ok (Z.of_nat (i / 32), Z.of_nat (i mod 32))). unfold slot_ok. cbn [fst snd].
  assert (i / 32 < 2)%nat by (apply Nat.Div0.div_lt_upper_bound; lia).
  assert (i mod 32 < 32)%nat by (apply Nat.mod_upper_bound; lia). split; lia.
Qed.
Lemma slots_NoDup : NoDup slots.
Proof.
  apply NoDup_fmap_2_strong; [|apply NoDup_seq]. intros i j _ _ E.
  assert (E1 : (i / 32 = j / 32)%nat) by exact (Nat2Z.inj _ _ (f_equal fst E)).
  assert (E2 : (i mod 32 = j mod 32)%nat) by exact (Nat2Z.inj _ _ (f_equal snd E)).
  by rewrite (Nat.div_mod_eq i 32), (Nat.div_mod_eq j 32), E1, E2.
Qed.

(** The whole scan. *)
Lemma scan_buses_ok `{ConfigPorts W} (P : list device -> W -> Prop)
    (call : device -> St W unit) w found :
  found = on_buses (port_cfg w) port_mask ->
  (forall l, bus_keeps (P l)) ->
  (forall d l w, port_live w -> P l w ->
     exists w', call d w = Ok (tt, w') /\ port_live w' /\ P (l ++ [d]) w' /\
       forall a, port_cfg w' a = port_cfg w a) ->
  port_live w -> P [] w ->
  let c' := (scan_ref (describe_slot port_mask) slots (port_cfg w) 0).1.2 in
  exists w', scan_buses false (Some call) w = Ok (len found, w') /\
    port_live w' /\ P found w' /\ forall a, cfg_ok a -> port_cfg w' a = c' a.
Proof.
  intros -> Hk Hcall Hl Hp c'. rewrite scan_buses_slots.
  rewrite <- (scan_ref_found port_mask slots (port_cfg w) 0 slots_NoDup). subst c'.
  pose proof (scan_list_spec P call Hk Hcall slots (port_cfg w) 0 [] w slots_ok Hl Hp
    (fun _ _ => eq_refl)) as Hscan.
  destruct (scan_ref _ _ _ _) as [[found c'] next]. exact Hscan.
Qed.

(* ------------------------------------------------------------------ *)
(** ** Properties *)

(** C23: On a machine with the PCI configuration ports the scan reports exactly the
    devices present in the 64 slots of buses 0 and 1, in slot order, each with its
    vendor and device ID, the address in its BAR 0 and the size of that BAR, and
    returns their number.  Afterwards the configuration space is as before, except that
    in the command register of each of these devices memory accesses and bus mastering
    are switched on: probing a BAR leaves no trace, and no other device is touched. *)
Theorem amd64_scan_correct `{ConfigPorts W} (P : list device -> W -> Prop)
    (call : device -> St W unit) w :
  (forall l, bus_keeps (P l)) ->
  (forall d l w, port_live w -> P l w ->
     exists w', call d w = Ok (tt, w') /\ port_live w' /\ P (l ++ [d]) w' /\
       forall a, port_cfg w' a = port_cfg w a) ->
  port_live w -> P [] w ->
  let found := omap (slot_device (port_cfg w) port_mask) slots in
  exists w', scan_buses false (Some call) w = Ok (len found, w') /\
    port_live w' /\ P found w' /\
    forall a, cfg_ok a -> port_cfg w' a
      = if decide (a ∈ command_dwords port_mask slots (port_cfg w))
        then switched_on port_mask (port_cfg w) a else port_cfg w a.
Proof.
  intros Hk Hcall Hl Hp found.
  destruct (scan_buses_ok P call w found eq_refl Hk Hcall Hl Hp) as (w' & E & Hl' & Hp' & Hc).
  exists w'. split; [done|]. split; [done|]. split; [done|]. intros a Ha.
  rewrite Hc by done. apply scan_ref_contents, slots_NoDup.
Qed.

(** Different configuration dwords are selected by different words, and the
    word the code computes for a dword is the one the mechanism defines. *)
Theorem pci_make_address_correct a a' :
  cfg_ok a -> cfg_ok a' ->
  pci_make_address (c_bus a) (c_dev a) (c_fun a) (c_off a) = mechanism1 a /\
  (mechanism1 a = mechanism1 a' -> a = a').
Proof.
  intros Ha Ha'. split; [|by apply mechanism1_inj].
  pose proof Ha as (_ & _ & _ & Ho & Hm).
  apply pci_make_address_sum; [done|done|]. symmetry. by apply land_fc.
Qed.

(** A host bridge with the card of [pci_sample] behind it, and the devices the
    callback was given. *)
Module bridge.
Record world := World { space : pci_sample.space; latch : option cfg_addr; seen : list device }.

(** The dword a selection word designates. *)
Definition decode (v : Z) : cfg_addr :=
  CfgAddr (v / 2 ^ 16 mod 256) (v / 2 ^ 11 mod 32) (v / 2 ^ 8 mod 8) (v mod 256).

Definition bus : Bus world := {|
  bus_read a addr w :=
    match a, latch w with
    | Port32, Some s => if addr =? 0xCFC then Ok (space w s, w) else Ok (0, w)
    | _, _ => Ok (0, w)
    end;
  bus_write a addr v w :=
    match a with
    | Port32 =>
        if addr =? 0xCF8 then Ok (tt, World (space w) (Some (decode v)) (seen w)) else
        if addr =? 0xCFC then
          match latch w with
          | Some s =>
              Ok (tt, World (pci_sample.update (space w) s
                               (cfg_written (pci_sample.mask s) (space w s) v))
                        (latch w) (seen w))
          | None => Ok (tt, w)
          end
        else Ok (tt, w)
    | _ => Ok (tt, w)
    end |}.

Lemma decode_mechanism1 a : cfg_ok a -> decode (mechanism1 a) = a.
Proof.
  destruct a as [b d f o]. intros (? & ? & ? & ? & _). unfold decode, mechanism1. cbn in *.
  f_equal; zdm.
Qed.

Definition ports : @ConfigPorts world bus.
Proof.
  refine {| port_cfg w := space w; port_mask := pci_sample.mask;
            port_live w := forall a, is_u32 (space w a); port_selected := latch |}.
  - intros w a Hl. apply Hl.
  - apply pci_sample.mask_u32.
  - intros w a Hl Ha. eexists. split; [reflexivity|]. cbn. by rewrite decode_mechanism1.
  - intros w a Hl Hs. exists w. cbn. by rewrite Hs.
  - intros w a v Hl Hs Hv. cbn. rewrite Hs. eexists. split; [reflexivity|]. cbn [space latch].
    split; [|split; [done|]].
    + intros a'. unfold pci_sample.update. case_decide; [|done].
      apply pci_sample.written_u32; [apply pci_sample.mask_u32|apply Hl].
    + intros a'. done.
Defined.

Definition report (d : device) : St world unit := fun w =>
  Ok (tt, World (space w) (latch w) (seen w ++ [d])).
Definition start : world := World pci_sample.initial None [].
End bridge.

Lemma amd64_scan_correct_witness :
  exists w', @scan_buses _ bridge.bus false (Some bridge.report) bridge.start = Ok (1, w') /\
    bridge.seen w' =
    [Device None None 0xFEBC0000 (2 ^ 17) 0x8086 0x100E 0 3 0 None DEVICE_STATE_DISCOVERED
       0 0 None None None 0 None] /\
    bridge.space w' (CfgAddr 0 3 0 4) = 6.
Proof.
  destruct (@amd64_scan_correct _ bridge.bus bridge.ports (fun l w => bridge.seen w = l)
    bridge.report bridge.start) as (w' & E & _ & Hs & Hc).
  - intros l. split.
    + intros a addr w v w' Hw. cbn. destruct a; try (intros [= _ <-]; exact Hw).
      destruct (bridge.latch w); [destruct (addr =? 3324)|]; intros [= _ <-]; exact Hw.
    + intros a addr v w [] w' Hw. cbn. destruct a; try (intros [= <-]; exact Hw).
      destruct (addr =? 3320); [intros [= <-]; exact Hw|].
      destruct (addr =? 3324); [destruct (bridge.latch w)|]; intros [= <-]; exact Hw.
  - intros d l w Hl <-. eexists. split; [reflexivity|].
    split; [exact Hl|]. split; [reflexivity|]. intros a. reflexivity.
  - exact pci_sample.initial_u32.
  - reflexivity.
  - exists w'. split; [exact E|]. split; [rewrite Hs; vm_compute; reflexivity|].
    etransitivity; [apply (Hc (CfgAddr 0 3 0 4)); repeat split; discriminate|vm_compute; reflexivity].
Defined.

Lemma pci_make_address_correct_witness :
  pci_make_address 1 3 0 0x10 = 0x80011810 /\
  (mechanism1 (CfgAddr 1 3 0 0x10) = mechanism1 (CfgAddr 1 3 0 0x10) ->
   CfgAddr 1 3 0 0x10 = CfgAddr 1 3 0 0x10).
Proof.
  apply (pci_make_address_correct (CfgAddr 1 3 0 0x10) (CfgAddr 1 3 0 0x10));
    repeat split; cbn; lia.
Defined.
