(* ===== verification/DevicesRiscv.v ===== *)
(** PCI and device-tree enumeration on RISC-V (kernel/devices/devices_riscv.c):
    ECAM accesses, BAR assignment, and the probing of virtio,mmio nodes. *)

From S2P Require Export FdtScan.

Open Scope Z_scope.

Definition PCIE_ECAM_BASE : Z := 0x30000000.
Definition PCI_MMIO_BASE : Z := 0x40000000.
Definition PCI_MMIO_SIZE : Z := 0x10000000.
Definition PCI_MAX_BUSES : nat := 2.
Definition PCI_MAX_DEVICES : nat := 32.
Definition PCI_MAX_BARS : nat := 6.
Definition PCI_INVALID_VENDOR_LOW : Z := 0x0000.
Definition PCI_INVALID_VENDOR_HIGH : Z := 0xFFFF.
Definition PCI_BAR_IO_FLAG : Z := 0x1.
Definition PCI_BAR_MEM_MASK : Z := 0xFFFFFFF0.
Definition PCI_BAR_IO_MASK : Z := 0xFFFFFFFC.
Definition PCI_VIRTIO_VENDOR_ID : Z := 0x1AF4.
Definition PCI_BAR4_OFFSET : Z := PCI_BAR0_OFFSET + 16.

Definition pci_vendor_is_valid (vendor_id : Z) : bool :=
  negb (vendor_id =? PCI_INVALID_VENDOR_LOW) && negb (vendor_id =? PCI_INVALID_VENDOR_HIGH).
Definition pci_bar_is_implemented (bar_value : Z) : bool := negb (bar_value =? 0).
Definition pci_bar_is_io (bar_value : Z) : bool := negb (Z.land bar_value PCI_BAR_IO_FLAG =? 0).
Definition pci_bar_get_address (bar_value : Z) : Z :=
  if pci_bar_is_io bar_value then Z.land bar_value PCI_BAR_IO_MASK
  else Z.land bar_value PCI_BAR_MEM_MASK.
Definition pci_bar_get_type_string (bar_value : Z) : bytes :=
  if pci_bar_is_io bar_value then str " (I/O)" else str " (MEM)".

(** [pci_bar_info_t] and [pci_selected_bar_t]. *)
Record pci_bar_info := BarInfo { bar_value : Z; bar_size : Z; bar_index : Z }.
Record pci_selected_bar := SelectedBar { base_address : Z; selected_size : Z }.

Definition pci_create_device_info (bus device_num vendor_id device_id reg_base reg_size : Z)
    : device :=
  Device None None reg_base reg_size vendor_id device_id bus device_num 0 None
    DEVICE_STATE_DISCOVERED 0 0 None None None 0 None.

Definition pci_is_virtio_with_io_bar (vendor_id bar0_value : Z) : bool :=
  (vendor_id =? PCI_VIRTIO_VENDOR_ID) && pci_bar_is_io bar0_value.

Section riscv.
  Context {W : Type} `{Bus W} `{Console W}.

Definition pcie_ecam_address : Z -> Z -> Z -> Z -> Z := ecam_address PCIE_ECAM_BASE.
Definition pcie_ecam_read16 : Z -> Z -> Z -> Z -> St W Z := ecam_read16 PCIE_ECAM_BASE.
Definition pcie_ecam_read32 : Z -> Z -> Z -> Z -> St W Z := ecam_read32 PCIE_ECAM_BASE.
Definition pcie_ecam_write32 : Z -> Z -> Z -> Z -> Z -> St W unit := ecam_write32 PCIE_ECAM_BASE.
Definition pcie_ecam_write16 (bus device function offset value : Z) : St W unit :=
  let addr := pcie_ecam_address bus device function (Z.land offset (Z.lnot 3)) in
  current ← mmio_read32 addr;
  new_value ← lift (put_half current offset value);
  mmio_write32 addr new_value.

Definition pci_probe_bar_size (bus device function bar_offset : Z) : St W Z :=
  probe_bar_size (ecam_ops PCIE_ECAM_BASE) bus device function bar_offset.

(** [next_mmio_address] is the allocator's static variable; the results are the
    BAR value and the variable afterwards. *)
Definition pci_assign_bar_if_needed (next_mmio_address bus device function bar_offset bar_size : Z)
    : St W (Z * Z) :=
  bar_value ← pcie_ecam_read32 bus device function bar_offset;
  if negb (Z.land bar_value 1 =? 0) then mret (bar_value, next_mmio_address) else
  if bar_size =? 0 then mret (bar_value, next_mmio_address) else
  if PCI_MMIO_BASE + PCI_MMIO_SIZE <? u64 (next_mmio_address + bar_size)
  then mret (bar_value, next_mmio_address) else
  let aligned_address :=
    Z.land (u64 (next_mmio_address + (bar_size - 1))) (u64 (Z.lnot (bar_size - 1))) in
  if PCI_MMIO_BASE + PCI_MMIO_SIZE <? u64 (aligned_address + bar_size)
  then mret (bar_value, next_mmio_address) else
  let new_bar := Z.lor (u32 aligned_address) (Z.land bar_value 0xF) in
  _ ← pcie_ecam_write32 bus device function bar_offset new_bar;
  mret (new_bar, u64 (aligned_address + bar_size)).

Definition pci_detect_ecam : St W bool :=
  test_value ← mmio_read32 PCIE_ECAM_BASE;
  let vendor := Z.land test_value 0xFFFF in
  mret (negb (vendor =? 0x0000) && negb (vendor =? 0xFFFF)).

Definition pci_print_device_header (vendor_id device_id bus device_num : Z) : St W unit :=
  kput (puts (str "[PCI] Device " ++ put_hex16 vendor_id ++ str ":" ++ put_hex16 device_id
              ++ str " at bus=" ++ put_hex8 bus ++ str " dev=" ++ put_hex8 device_num ++ nl)).

Definition pci_print_bar_info (bar_index bar_value bar_size : Z) : St W unit :=
  kput (puts (str "  BAR" ++ put_hex8 bar_index ++ str "=0x" ++ put_hex32 bar_value
              ++ pci_bar_get_type_string bar_value ++ str " size=0x" ++ put_hex64 bar_size ++ nl)).

Definition pci_print_selected_bar (bar_name : string) (base_address original_bar size : Z)
    : St W unit :=
  kput (puts (str "  " ++ str bar_name ++ str " reg_base=0x" ++ put_hex64 base_address
              ++ str " (" ++ str bar_name ++ str "=0x" ++ put_hex32 original_bar
              ++ str " masked), size=0x" ++ put_hex64 size ++ nl)).

Definition pci_read_bar (bus device_num bar_index : Z) : St W pci_bar_info :=
  let bar_offset := PCI_BAR0_OFFSET + bar_index * 4 in
  bar_size ← pci_probe_bar_size bus device_num 0 (u8 bar_offset);
  bar_value ← pcie_ecam_read32 bus device_num 0 bar_offset;
  mret (BarInfo bar_value bar_size bar_index).

Definition pci_print_all_bars (bus device_num : Z) : St W unit :=
  for_n PCI_MAX_BARS (fun i _ =>
    bar_info ← pci_read_bar bus device_num (Z.of_nat i);
    if negb (pci_bar_is_implemented (bar_value bar_info)) then skip else
    pci_print_bar_info (bar_index bar_info) (bar_value bar_info) (bar_size bar_info)) tt.

Definition pci_select_bar_for_device (vendor_id : Z) (bar0 bar1 bar4 : pci_bar_info)
    : St W pci_selected_bar :=
  let selected (bar : pci_bar_info) :=
    SelectedBar (pci_bar_get_address (bar_value bar)) (bar_size bar) in
  let print_bar name (bar : pci_bar_info) :=
    pci_print_selected_bar name (pci_bar_get_address (bar_value bar)) (bar_value bar)
      (bar_size bar) in
  if pci_is_virtio_with_io_bar vendor_id (bar_value bar0) then
    _ ← kput (puts (str "  VirtIO device detected, using BAR4 for MMIO" ++ nl));
    _ ← print_bar "BAR4" bar4;
    mret (selected bar4)
  else if pci_bar_is_io (bar_value bar0) && (0 <? bar_size bar1)
          && negb (pci_bar_is_io (bar_value bar1)) then
    _ ← kput (puts (str "  BAR0 is I/O, using BAR1 for MMIO" ++ nl));
    _ ← print_bar "BAR1" bar1;
    mret (selected bar1)
  else
    _ ← print_bar "BAR0" bar0;
    mret (selected bar0).

(** Assigns a BAR that has a size. *)
Definition assign_bar (next bus device_num bar_offset : Z) (bar : pci_bar_info)
    : St W (pci_bar_info * Z) :=
  if 0 <? bar_size bar then
    '(v, next) ← pci_assign_bar_if_needed next bus device_num 0 bar_offset (bar_size bar);
    mret (BarInfo v (bar_size bar) (bar_index bar), next)
  else mret (bar, next).

(** The results: device_count and next_mmio_address. *)
Definition pci_process_device (callback : option (device -> St W unit)) (bus device_num : Z)
    (device_count next_mmio_address : Z) : St W (Z * Z) :=
  vendor_id ← pcie_ecam_read16 bus device_num 0 PCI_VENDOR_ID_OFFSET;
  if negb (pci_vendor_is_valid vendor_id) then mret (device_count, next_mmio_address) else
  device_id ← pcie_ecam_read16 bus device_num 0 PCI_DEVICE_ID_OFFSET;
  _ ← pci_print_device_header vendor_id device_id bus device_num;
  bar0 ← pci_read_bar bus device_num 0;
  bar1 ← pci_read_bar bus device_num 1;
  bar4 ← pci_read_bar bus device_num 4;
  '(bar0, next) ← assign_bar next_mmio_address bus device_num PCI_BAR0_OFFSET bar0;
  '(bar1, next) ← assign_bar next bus device_num PCI_BAR1_OFFSET bar1;
  '(bar4, next) ← assign_bar next bus device_num PCI_BAR4_OFFSET bar4;
  _ ← pci_print_all_bars bus device_num;
  selected_bar ← pci_select_bar_for_device vendor_id bar0 bar1 bar4;
  command ← pcie_ecam_read16 bus device_num 0 PCI_COMMAND_OFFSET;
  let command := Z.lor command (Z.lor PCI_COMMAND_MEMORY PCI_COMMAND_MASTER) in
  _ ← pcie_ecam_write16 bus device_num 0 PCI_COMMAND_OFFSET command;
  let device_info := pci_create_device_info bus device_num vendor_id device_id
                       (base_address selected_bar) (selected_size selected_bar) in
  _ ← match callback with Some call => call device_info | None => skip end;
  mret (device_count + 1, next).

Definition pcie_enumerate_devices (callback : option (device -> St W unit))
    (next_mmio_address : Z) : St W (Z * Z) :=
  for_n PCI_MAX_BUSES (fun bus r =>
    for_n PCI_MAX_DEVICES (fun device_num '(device_count, next) =>
      pci_process_device callback (Z.of_nat bus) (Z.of_nat device_num) device_count next) r)
    (0, next_mmio_address).

(** The callback given to fdt_enumerate_devices; the context holds the static
    [next_mmio_device_num] and the world. *)
Definition probe_virtio_callback (mem : memory) (user_callback : option (device -> St W unit))
    (d : device) (c : Z * W) : res (Z * W) :=
  let '(next_mmio_device_num, w) := c in
  let pass d (next : Z) w :=
    match user_callback with
    | Some call => match call d w with
                   | Ok (_, w) => Ok (next, w) | UB => UB | NoFuel => NoFuel end
    | None => Ok (next, w)
    end in
  is_virtio ← match dev_compatible d with
              | None => Ok false
              | Some a => r ← strcmp_mem mem a (str "virtio,mmio"); mret (r =? 0)
              end;
  if negb is_virtio then pass d next_mmio_device_num w else
  match virtio_mmio_probe_device (Some d) w with
  | Ok ((r, Some d), w) =>
      if r =? 0 then
        pass (set_location d 0 next_mmio_device_num) (u8 (next_mmio_device_num + 1)) w
      else Ok (next_mmio_device_num, w)
  | Ok ((_, None), w) => Ok (next_mmio_device_num, w)
  | UB => UB
  | NoFuel => NoFuel
  end.

(** The static variables of the file. *)
Record statics := Statics { pci_log : tag_ptr; next_mmio : Z; next_mmio_num : Z }.
Definition statics_zero : statics := Statics None PCI_MMIO_BASE 1.

(** fdt_enumerate_devices with that callback. *)
Definition enumerate_fdt (mem : memory) (fdt_address : Z)
    (callback : option (device -> St W unit)) (next_mmio_device_num : Z) : St W (Z * Z) := fun w =>
  match fdt_enumerate_devices mem (Some (probe_virtio_callback mem callback)) fdt_address
          (next_mmio_device_num, w) with
  | Ok (n, (num, w)) => Ok ((n, num), w) | UB => UB | NoFuel => NoFuel
  end.

(** The two lookups the file only declares: nothing is ever found. *)
Definition devices_find (compatible : option cstr) (dev : option device) : Z := 0.
Definition devices_get_name (vendor_id device_id : Z) : option cstr := None.

(** [fdt_address]: what device_get_fdt returns. *)
Definition devices_enumerate (mem : memory) (fdt_address : Z) (s : statics)
    (callback : option (device -> St W unit)) : St W (Z * statics) :=
  pci_log ← match pci_log s with
            | Some p => mret (Some p) | None => klog_register "pci" LOG_INFO
            end;
  ecam ← pci_detect_ecam;
  '(total_devices, next) ←
    (if (ecam : bool) then
       debug ← klog_enabled pci_log LOG_DEBUG;
       _ ← when debug
             (_ ← klog_prefix pci_log LOG_DEBUG;
              kput (puts (str "Using PCIe ECAM at 0x" ++ put_hex64 PCIE_ECAM_BASE ++ nl)));
       pcie_enumerate_devices callback (next_mmio s)
     else mret (0, next_mmio s));
  if negb (fdt_address =? 0) then
    '(n, num) ← enumerate_fdt mem fdt_address callback (next_mmio_num s);
    mret (total_devices + n, Statics pci_log next num)
  else mret (total_devices, Statics pci_log next (next_mmio_num s)).
End riscv.

(* ------------------------------------------------------------------ *)
(** ** The BAR allocator *)

Definition window_end : Z := PCI_MMIO_BASE + PCI_MMIO_SIZE.

(** The first multiple of [size] from [next] on, if it fits the range. *)
Definition place (next size : Z) : option Z :=
  let addr := (next + size - 1) / size * size in
  if addr + size <=? window_end then Some addr else None.

Lemma place_spec next size addr :
  0 < size -> PCI_MMIO_BASE <= next -> place next size = Some addr ->
  next <= addr /\ addr mod size = 0 /\ PCI_MMIO_BASE <= addr /\ addr + size <= window_end.
Proof.
  intros Hs Hn. unfold place. intros H.
  destruct (Z.leb_spec ((next + size - 1) / size * size + size) window_end) as [Hl|]; [|done].
  injection H as <-. split_and!; [zdm|apply Z.mod_mul; lia|zdm|done].
Qed.

Lemma align_bits next k :
  0 <= next -> 0 <= k <= 32 -> next < 2 ^ 62 ->
  Z.land (u64 (next + (2 ^ k - 1))) (u64 (Z.lnot (2 ^ k - 1)))
  = (next + 2 ^ k - 1) / 2 ^ k * 2 ^ k.
Proof.
  intros Hn Hk Hb. assert (0 < 2 ^ k) by lia.
  assert (2 ^ k <= 2 ^ 32) by (apply Z.pow_le_mono_r; lia).
  rewrite (u64_id (next + _)) by (unfold is_u64; lia).
  replace (2 ^ k - 1) with (Z.ones k) at 2 by (rewrite Z.ones_equiv; lia).
  unfold u64. rewrite land_lnot_ones by lia.
  replace (next + (2 ^ k - 1)) with (next + 2 ^ k - 1) by lia.
  pose proof (Z.div_mod (next + 2 ^ k - 1) (2 ^ k) ltac:(lia)). lia.
Qed.

Section allocator.
  Context {W : Type} `{Bus W} `{!EcamHost W PCIE_ECAM_BASE}.

Lemma ecam_read32_spec b d f o w :
  ecam_live w -> cfg_ok (CfgAddr b d f o) ->
  exists w', pcie_ecam_read32 b d f o w = Ok (ecam_cfg w (CfgAddr b d f o), w') /\
    ecam_live w' /\ forall a, cfg_ok a -> ecam_cfg w' a = ecam_cfg w a.
Proof. exact (cfg_read (ConfigSpace := ecam_config PCIE_ECAM_BASE) w b d f o). Qed.

Lemma ecam_write32_spec b d f o v w :
  ecam_live w -> cfg_ok (CfgAddr b d f o) -> is_u32 v ->
  exists w', pcie_ecam_write32 b d f o v w = Ok (tt, w') /\ ecam_live w' /\
    forall a, cfg_ok a ->
      ecam_cfg w' a = if decide (a = CfgAddr b d f o)
                      then cfg_written (ecam_mask a) (ecam_cfg w a) v else ecam_cfg w a.
Proof. exact (cfg_write (ConfigSpace := ecam_config PCIE_ECAM_BASE) w b d f o v). Qed.

(** The code places a memory BAR of 2^k bytes where [place] says. *)
Lemma assign_spec next b d f o k w :
  let a := CfgAddr b d f o in
  let v := ecam_cfg w a in
  ecam_live w -> cfg_ok a -> PCI_MMIO_BASE <= next <= window_end -> 0 <= k <= 32 ->
  Z.land v 1 = 0 ->
  exists w', ecam_live w' /\
  match place next (2 ^ k) with
  | Some addr =>
      pci_assign_bar_if_needed next b d f o (2 ^ k) w
        = Ok ((Z.lor addr (Z.land v 0xF), addr + 2 ^ k), w') /\
      forall a', cfg_ok a' ->
        ecam_cfg w' a' = if decide (a' = a)
                         then cfg_written (ecam_mask a) v (Z.lor addr (Z.land v 0xF))
                         else ecam_cfg w a'
  | None =>
      pci_assign_bar_if_needed next b d f o (2 ^ k) w = Ok ((v, next), w') /\
      forall a', cfg_ok a' -> ecam_cfg w' a' = ecam_cfg w a'
  end.
Proof.
  intros a v Hl Ha Hn Hk Hv. unfold window_end, PCI_MMIO_BASE, PCI_MMIO_SIZE in Hn.
  assert (0 < 2 ^ k) by lia. assert (2 ^ k <= 2 ^ 32) by (apply Z.pow_le_mono_r; lia).
  destruct (ecam_read32_spec b d f o w Hl Ha) as (w1 & E1 & Hl1 & Hc1).
  unfold pci_assign_bar_if_needed. rewrite (St_bind_ok _ _ _ _ _ E1).
  fold a. fold v. rewrite Hv. cbn [Z.eqb negb].
  destruct (Z.eqb_spec (2 ^ k) 0); [lia|].
  rewrite align_bits by lia. rewrite (u64_id (next + 2 ^ k)) by (unfold is_u64; lia).
  unfold place, window_end. set (addr := (next + 2 ^ k - 1) / 2 ^ k * 2 ^ k).
  assert (Haddr : next <= addr <= next + 2 ^ k - 1) by (unfold addr; zdm).
  rewrite (u64_id (addr + 2 ^ k)) by (unfold is_u64; lia).
  destruct (Z.leb_spec (addr + 2 ^ k) (PCI_MMIO_BASE + PCI_MMIO_SIZE)) as [Hfit|Hfit].
  - destruct (Z.ltb_spec (PCI_MMIO_BASE + PCI_MMIO_SIZE) (next + 2 ^ k)); [lia|].
    destruct (Z.ltb_spec (PCI_MMIO_BASE + PCI_MMIO_SIZE) (addr + 2 ^ k)); [lia|].
    unfold PCI_MMIO_BASE, PCI_MMIO_SIZE in Hfit. rewrite u32_id by (unfold is_u32; lia).
    set (nb := Z.lor addr (Z.land v 15)).
    assert (Hnb : is_u32 nb).
    { assert (nb = u32 nb) as ->; [|apply u32_range]. rewrite <- land_ffffffff. unfold nb.
      rewrite Z.land_lor_distr_l, <- Z.land_assoc, land_ffffffff, u32_id
        by (unfold is_u32; lia). done. }
    destruct (ecam_write32_spec b d f o nb w1 Hl1 Ha Hnb) as (w2 & E2 & Hl2 & Hc2).
    exists w2. split; [done|]. rewrite (St_bind_ok _ _ _ _ _ E2). split; [done|].
    intros a' Ha'. rewrite Hc2, Hc1 by done. fold a. case_decide as E; [|done]. by subst a'.
  - exists w1. split; [done|]. split; [|intros; by apply Hc1].
    destruct (Z.ltb_spec (PCI_MMIO_BASE + PCI_MMIO_SIZE) (next + 2 ^ k)); [done|].
    destruct (Z.ltb_spec (PCI_MMIO_BASE + PCI_MMIO_SIZE) (addr + 2 ^ k)); [done|lia].
Qed.

(** A BAR of 2^k bytes given an aligned address decodes that address. *)
Lemma written_bar addr v k :
  4 <= k <= 31 -> is_u32 addr -> is_u32 v -> addr mod 2 ^ k = 0 -> v mod 2 ^ k < 16 ->
  Z.land (cfg_written (2 ^ 32 - 2 ^ k) v (Z.lor addr (Z.land v 0xF))) 0xFFFFFFF0 = addr.
Proof.
  intros Hk Ha Hv Hal Hlow. assert (0 < 2 ^ k) by lia.
  assert (Hp : 2 ^ k = 2 ^ (k - 4) * 2 ^ 4) by (rewrite <- Z.pow_add_r; f_equal; lia).
  assert (0 < 2 ^ (k - 4)) by lia. change (2 ^ 4) with 16 in Hp.
  assert (2 ^ k <= 2 ^ 31) by (apply Z.pow_le_mono_r; lia).
  pose proof (Z.mod_pos_bound v (2 ^ k) ltac:(lia)).
  assert (Hf : 0 <= Z.land v 15 < 16).
  { change 15 with (2 ^ 4 - 1). rewrite land_low by lia. apply Z.mod_pos_bound. lia. }
  assert (Hq : addr = addr / 2 ^ k * 2 ^ k) by zdm.
  assert (Hb : addr + Z.land v 15 < 2 ^ 32).
  { unfold is_u32 in Ha. assert (addr <= 2 ^ 32 - 16); [|lia].
    assert (2 ^ 32 = 2 ^ (32 - k) * 2 ^ k) by (rewrite <- Z.pow_add_r; f_equal; lia). nia. }
  unfold cfg_written. rewrite lnot_u32 by (unfold is_u32; lia).
  replace (2 ^ 32 - 1 - (2 ^ 32 - 2 ^ k)) with (2 ^ k - 1) by lia. rewrite land_low by lia.
  rewrite (lor_mul_add addr (addr / 2 ^ k) (Z.land v 15) k) by lia.
  rewrite clear_low by (unfold is_u32 in *; lia).
  assert (Hm : (addr + Z.land v 15) mod 2 ^ k = Z.land v 15).
  { rewrite Hq, Z.add_comm, Z.mod_add by lia. apply Z.mod_small. lia. }
  rewrite Hm. replace (addr + Z.land v 15 - Z.land v 15) with addr by lia.
  rewrite (lor_mul_add addr (addr / 2 ^ k) (v mod 2 ^ k) k) by lia.
  change 0xFFFFFFF0 with (2 ^ 32 - 2 ^ 4).
  rewrite clear_low by (unfold is_u32 in *; lia). change (2 ^ 4) with 16.
  assert (Hr : (addr + v mod 2 ^ k) mod 16 = v mod 2 ^ k).
  { rewrite Hq, Hp. replace (addr / (2 ^ (k - 4) * 16) * (2 ^ (k - 4) * 16))
      with (addr / (2 ^ (k - 4) * 16) * 2 ^ (k - 4) * 16) by lia.
    rewrite Z.add_comm, Z.mod_add by lia. rewrite <- Hp. apply Z.mod_small. lia. }
  rewrite Hr. lia.
Qed.

(** Several memory BARs assigned in turn: each request is a BAR and the binary
    logarithm of its size; the result lists the BARs placed, with their
    windows. *)
Record window := Window { win_bar : cfg_addr; win_start : Z; win_log : Z }.

Fixpoint assign_all (reqs : list (cfg_addr * Z)) (next : Z) : St W (list window * Z) :=
  match reqs with
  | [] => mret ([], next)
  | (a, k) :: reqs =>
      '(_, next') ← pci_assign_bar_if_needed next (c_bus a) (c_dev a) (c_fun a) (c_off a) (2 ^ k);
      '(ws, last) ← assign_all reqs next';
      mret (if next' =? next then ws else Window a (next' - 2 ^ k) k :: ws, last)
  end.

(** A window is aligned to its size, inside the range from [lo] on, and its BAR
    decodes it. *)
Record window_ok (w : W) (lo : Z) (x : window) : Prop := WindowOk {
  win_above : lo <= win_start x;
  win_fits : win_start x + 2 ^ win_log x <= window_end;
  win_aligned : win_start x mod 2 ^ win_log x = 0;
  win_decoded : ecam_mask (win_bar x) = 2 ^ 32 - 2 ^ win_log x ->
    Z.land (ecam_cfg w (win_bar x)) 0xFFFFFFF0 = win_start x
}.

(** No window starts before an earlier one ends. *)
Fixpoint disjoint_from (lo : Z) (ws : list window) : Prop :=
  match ws with
  | [] => True
  | x :: ws => lo <= win_start x /\ disjoint_from (win_start x + 2 ^ win_log x) ws
  end.

Definition request_ok (w : W) (r : cfg_addr * Z) : Prop :=
  cfg_ok r.1 /\ 4 <= r.2 <= 31 /\ Z.land (ecam_cfg w r.1) 1 = 0 /\
  ecam_cfg w r.1 mod 2 ^ r.2 < 16.

Lemma assign_all_spec reqs : forall next w,
  ecam_live w -> PCI_MMIO_BASE <= next <= window_end ->
  NoDup reqs.*1 -> Forall (request_ok w) reqs ->
  exists ws last w', assign_all reqs next w = Ok ((ws, last), w') /\ ecam_live w' /\
    Forall (window_ok w' next) ws /\ disjoint_from next ws /\
    (forall a, cfg_ok a -> a ∉ reqs.*1 -> ecam_cfg w' a = ecam_cfg w a) /\
    (forall x, x ∈ ws -> win_bar x ∈ reqs.*1).
Proof.
  induction reqs as [|[a k] reqs IH]; intros next w Hl Hn Hnd Hr.
  { exists [], next, w. split_and!; [done|done|by constructor|done|done|].
    intros x Hx. by apply not_elem_of_nil in Hx. }
  cbn [fmap list_fmap fst] in Hnd. apply NoDup_cons in Hnd as [Hnin Hnd].
  apply Forall_cons in Hr as [(Ha & Hk & Hmem & Hlow) Hr]. cbn [fst snd] in *.
  destruct a as [b d f o].
  destruct (assign_spec next b d f o k w) as (w1 & Hl1 & Hcase); [done|done|done|lia|done|].
  set (a := CfgAddr b d f o) in *.
  assert (Hsame : forall r, r ∈ reqs -> r.1 <> a).
  { intros r Hin Er. apply Hnin. rewrite <- Er. apply list_elem_of_fmap. by exists r. }
  assert (Hok : forall w2, (forall a', cfg_ok a' -> a' <> a -> ecam_cfg w2 a' = ecam_cfg w a') ->
                  Forall (request_ok w2) reqs).
  { intros w2 Hw2. apply Forall_forall. intros r Hin. rewrite Forall_forall in Hr.
    destruct (Hr r Hin) as (? & ? & ? & ?). unfold request_ok.
    rewrite !Hw2 by (done || by apply Hsame). done. }
  cbn [assign_all c_bus c_dev c_fun c_off].
  destruct (place next (2 ^ k)) as [addr|] eqn:Ep.
  - destruct Hcase as [E Hc]. unfold a in E at 1.
    destruct (place_spec next (2 ^ k) addr ltac:(lia) ltac:(lia) Ep) as (? & Hal & ? & ?).
    rewrite (St_bind_ok _ _ _ _ _ E).
    destruct (IH (addr + 2 ^ k) w1 Hl1) as (ws & last & w2 & E2 & Hl2 & Hws & Hdis & Hrest & Hbars);
      [lia|done| |].
    { apply Hok. intros a' Ha' Hne. rewrite Hc by done. by case_decide. }
    rewrite (St_bind_ok _ _ _ _ _ E2).
    destruct (Z.eqb_spec (addr + 2 ^ k) next); [lia|].
    replace (addr + 2 ^ k - 2 ^ k) with addr by lia.
    exists (Window a addr k :: ws), last, w2. split; [done|]. split; [done|]. split_and!.
    + apply Forall_cons. split; [split; cbn; [lia|done|done|]|].
      * intros Hm. rewrite (Hrest a Ha Hnin), Hc by done. destruct (decide (a = a)); [|done].
        rewrite Hm. apply written_bar; [lia| |by apply ecam_u32|done|done].
        unfold window_end, PCI_MMIO_BASE, PCI_MMIO_SIZE, is_u32 in *. lia.
      * eapply Forall_impl; [exact Hws|]. intros x [Hx1 ? ? ?]. split; (done || lia).
    + cbn. split; [lia|done].
    + intros a' Ha' Hnin'. cbn [fmap list_fmap fst] in Hnin'.
      apply not_elem_of_cons in Hnin' as [Hne Hnin']. rewrite Hrest, Hc by done. by case_decide.
    + intros x. rewrite elem_of_cons. cbn [fmap list_fmap fst]. rewrite elem_of_cons.
      intros [->|Hx]; [by left|right; by apply Hbars].
  - destruct Hcase as [E Hc]. rewrite (St_bind_ok _ _ _ _ _ E).
    destruct (IH next w1 Hl1) as (ws & last & w2 & E2 & Hl2 & Hws & Hdis & Hrest & Hbars);
      [lia|done| |].
    { apply Hok. intros a' Ha' _. by apply Hc. }
    rewrite (St_bind_ok _ _ _ _ _ E2), Z.eqb_refl.
    exists ws, last, w2. split_and!; [done..| |].
    + intros a' Ha' Hnin'. cbn [fmap list_fmap fst] in Hnin'.
      apply not_elem_of_cons in Hnin' as [Hne Hnin']. by rewrite Hrest, Hc by done.
    + intros x Hx. cbn [fmap list_fmap fst]. apply elem_of_cons. right. by apply Hbars.
Qed.
End allocator.

(* ------------------------------------------------------------------ *)
(** ** The scan *)

(** The BAR at [a] given aligned free bytes if it is a memory BAR that has a size and
    the range has room: its value, the contents and the next address. *)
Definition assigned_bar (mask c : contents) (next : Z) (a : cfg_addr) (size : Z)
    : Z * contents * Z :=
  let v := c a in
  let addr := Z.land (u64 (next + (size - 1))) (u64 (Z.lnot (size - 1))) in
  if (0 <? size) && (Z.land v 1 =? 0) && (u64 (next + size) <=? window_end)
     && (u64 (addr + size) <=? window_end)
  then let bar := Z.lor (u32 addr) (Z.land v 0xF) in
       (bar, set_dword mask a bar c, u64 (addr + size))
  else (v, c, next).

(** For a power of two that is the first multiple of it that fits. *)
Lemma assigned_bar_place mask c next a k :
  PCI_MMIO_BASE <= next <= window_end -> 0 <= k <= 32 -> Z.land (c a) 1 = 0 ->
  assigned_bar mask c next a (2 ^ k) =
  match place next (2 ^ k) with
  | Some addr =>
      let bar := Z.lor addr (Z.land (c a) 0xF) in (bar, set_dword mask a bar c, addr + 2 ^ k)
  | None => (c a, c, next)
  end.
Proof.
  intros Hn Hk Hv. unfold window_end, PCI_MMIO_BASE, PCI_MMIO_SIZE in Hn.
  assert (0 < 2 ^ k) by lia. assert (2 ^ k <= 2 ^ 32) by (apply Z.pow_le_mono_r; lia).
  unfold assigned_bar, place. rewrite align_bits, Hv by lia.
  set (addr := (next + 2 ^ k - 1) / 2 ^ k * 2 ^ k).
  assert (Haddr : next <= addr <= next + 2 ^ k - 1) by (unfold addr; zdm).
  rewrite !u64_id by (unfold is_u64; lia). destruct (Z.ltb_spec 0 (2 ^ k)); [cbn [andb Z.eqb]|lia].
  unfold window_end, PCI_MMIO_BASE, PCI_MMIO_SIZE.
  destruct (Z.leb_spec (addr + 2 ^ k) (0x40000000 + 0x10000000)) as [Hf|Hf];
    destruct (Z.leb_spec (next + 2 ^ k) (0x40000000 + 0x10000000)); cbn [andb]; [|lia|done..].
  by rewrite u32_id by (unfold is_u32; lia).
Qed.

(** The address in a BAR, whose low bits are flags. *)
Definition bar_address (v : Z) : Z := if Z.odd v then v - v mod 4 else v - v mod 16.

(** The window of a device: that of BAR 4 for a VirtIO device whose BAR 0 is an I/O BAR,
    of BAR 1 for another one whose BAR 1 is a memory BAR with a size, else of BAR 0. *)
Definition window_of (vendor bar0 size0 bar1 size1 bar4 size4 : Z) : Z * Z :=
  if negb (Z.odd bar0) then (bar_address bar0, size0)
  else if vendor =? 0x1AF4 then (bar_address bar4, size4)
  else if (0 <? size1) && negb (Z.odd bar1) then (bar_address bar1, size1)
  else (bar_address bar0, size0).

(** The device of a slot, from the BARs after they were given addresses; it is left
    enabled. *)
Definition riscv_device (mask : contents) : description := fun c '(b, d) next =>
  let at_ o := CfgAddr b d 0 o in
  let vendor := half_of (c (at_ 0)) 0 in
  if (vendor =? 0x0000) || (vendor =? 0xFFFF) then None else
  let size0 := probed_size mask c (at_ 0x10) in
  let size1 := probed_size mask c (at_ 0x14) in
  let size4 := probed_size mask c (at_ 0x20) in
  let '(bar0, c0, next) := assigned_bar mask c next (at_ 0x10) size0 in
  let '(bar1, c1, next) := assigned_bar mask c0 next (at_ 0x14) size1 in
  let '(bar4, c4, next) := assigned_bar mask c1 next (at_ 0x20) size4 in
  let '(reg_base, reg_size) := window_of vendor bar0 size0 bar1 size1 bar4 size4 in
  Some (Device None None reg_base reg_size vendor (half_of (c (at_ 0)) 2) b d 0 None
          DEVICE_STATE_DISCOVERED 0 0 None None None 0 None, enabled mask b d c4, next).

(** The device of a node and the next number: the virtio,mmio ones are numbered, on bus 0. *)
Definition numbered_node (mem : memory) (regs : Z -> Z) (d : device) (num : Z) : option device * Z :=
  match node_device mem regs d with
  | Some x => if is_virtio mem d then (Some (set_location x 0 num), u8 (num + 1)) else (Some x, num)
  | None => (None, num)
  end.
Fixpoint numbered (mem : memory) (regs : Z -> Z) (nodes : list device) (num : Z)
    : list device * Z :=
  match nodes with
  | [] => ([], num)
  | d :: nodes =>
      let '(x, num) := numbered_node mem regs d num in
      let '(ds, num) := numbered mem regs nodes num in (option_list x ++ ds, num)
  end.

Section scan.
  Context {W : Type} `{Bus W} `{Console W} `{!EcamHost W PCIE_ECAM_BASE}.
  Context (P : list device -> W -> Prop) (call : device -> St W unit).
  Context (env : records PCIE_ECAM_BASE P call) (out : silent PCIE_ECAM_BASE P).
Let P_hw := records_bus _ _ _ env.

Notation passive := (passive PCIE_ECAM_BASE P).

Lemma passive_puts s : passive (kput (puts s)).
Proof using out. by eapply silent_kput. Qed.

(** The offset of BAR [i]. *)
Lemma bar_offset_ok b d i : slot_in_range (b, d) -> 0 <= i < 6 ->
  cfg_ok (CfgAddr b d 0 (PCI_BAR0_OFFSET + i * 4)) /\
  u8 (PCI_BAR0_OFFSET + i * 4) = PCI_BAR0_OFFSET + i * 4.
Proof using.
  intros Hs Hi. unfold PCI_BAR0_OFFSET. split; [apply slot_cfg_ok; [done|lia|zdm]|].
  apply u8_id. unfold is_u8. lia.
Qed.

Lemma passive_print_bars b d : slot_in_range (b, d) -> passive (pci_print_all_bars b d).
Proof using env out.
  intros Hs. apply passive_for_n. intros i u Hi. unfold PCI_MAX_BARS in Hi.
  destruct (bar_offset_ok b d (Z.of_nat i) Hs ltac:(lia)) as [Ha Eo]. unfold pci_read_bar.
  rewrite Eo. apply passive_bind.
  - apply passive_bind; [by apply passive_probe|]. intros size.
    apply passive_bind; [by apply passive_read32|]. intros v. apply passive_ret.
  - intros bar. apply passive_if; [apply passive_ret|apply passive_puts].
Qed.

Lemma scans_read_bar c l b d i o : slot_in_range (b, d) -> 0 <= i < 6 ->
  o = PCI_BAR0_OFFSET + i * 4 ->
  scans PCIE_ECAM_BASE P c l (pci_read_bar b d i)
    (BarInfo (c (CfgAddr b d 0 o)) (probed_size ecam_mask c (CfgAddr b d 0 o)) i) c l.
Proof using env.
  intros Hs Hi ->. destruct (bar_offset_ok b d i Hs Hi) as [Ha Eo]. unfold pci_read_bar.
  rewrite Eo. eapply scans_bind; [by apply scans_probe|].
  eapply scans_bind; [by apply scans_read32|]. apply scans_ret.
Qed.

(** [v]: the value the BAR was read with, which it still has. *)
Lemma scans_assign_bar c l b d next o v size i : cfg_ok (CfgAddr b d 0 o) ->
  c (CfgAddr b d 0 o) = v ->
  let r := assigned_bar ecam_mask c next (CfgAddr b d 0 o) size in
  scans PCIE_ECAM_BASE P c l (assign_bar next b d o (BarInfo v size i))
    (BarInfo r.1.1 size i, r.2) r.1.2 l.
Proof using env.
  intros Ha <- r. set (v := c _). unfold assign_bar. cbn [bar_size bar_index].
  destruct (Z.ltb_spec 0 size) as [Hp|].
  2: { assert (r = (v, c, next)) as ->; [|apply scans_ret].
       unfold r, assigned_bar. by destruct (Z.ltb_spec 0 size); [lia|]. }
  eapply (scans_bind _ _ _ _ _ (r.1.1, r.2) r.1.2); [|apply scans_ret].
  unfold pci_assign_bar_if_needed, r, assigned_bar. destruct (Z.ltb_spec 0 size); [|lia].
  eapply scans_bind; [by apply scans_read32|]. fold v. rewrite !Z.ltb_antisym.
  destruct (Z.eqb_spec size 0); [lia|]. fold window_end.
  set (addr := Z.land _ (u64 (Z.lnot (size - 1)))).
  destruct (Z.land v 1 =? 0); cbn [negb andb]; [|apply scans_ret].
  destruct (u64 (next + size) <=? window_end); cbn [negb andb]; [|apply scans_ret].
  destruct (u64 (addr + size) <=? window_end); cbn [negb]; [|apply scans_ret].
  eapply scans_bind; [apply scans_write32; [done..|apply new_bar_u32]|]. apply scans_ret.
Qed.

Lemma riscv_assigned_u32 c next a size : is_u32 (c a) ->
  is_u32 (assigned_bar ecam_mask c next a size).1.1.
Proof using. intros Hv. unfold assigned_bar. by destruct (_ && _); [apply new_bar_u32|]. Qed.
Lemma assigned_other c next a size a' : a' <> a ->
  (assigned_bar ecam_mask c next a size).1.2 a' = c a'.
Proof using.
  intros Hne. unfold assigned_bar. destruct (_ && _); [|done]. cbn [fst snd]. unfold set_dword.
  by rewrite decide_False.
Qed.

Lemma scans_assigned c l b d next o v size i : cfg_ok (CfgAddr b d 0 o) ->
  c (CfgAddr b d 0 o) = v ->
  exists bar c' next',
    assigned_bar ecam_mask c next (CfgAddr b d 0 o) size = (bar, c', next') /\
    (is_u32 v -> is_u32 bar) /\ (forall a, a <> CfgAddr b d 0 o -> c' a = c a) /\
    scans PCIE_ECAM_BASE P c l (assign_bar next b d o (BarInfo v size i))
      (BarInfo bar size i, next') c' l.
Proof using env.
  intros Ha E. pose proof (scans_assign_bar c l b d next o v size i Ha E) as Hs.
  pose proof (riscv_assigned_u32 c next (CfgAddr b d 0 o) size) as Hu. rewrite E in Hu.
  pose proof (assigned_other c next (CfgAddr b d 0 o) size) as Hk.
  destruct (assigned_bar ecam_mask c next _ size) as [[bar c'] next']. by exists bar, c', next'.
Qed.

Lemma bar_is_io_odd v : pci_bar_is_io v = Z.odd v.
Proof using.
  unfold pci_bar_is_io. change PCI_BAR_IO_FLAG with (Z.ones 1).
  rewrite Z.land_ones, Zmod_odd by lia. by destruct (Z.odd v).
Qed.
Lemma bar_get_address v : is_u32 v -> pci_bar_get_address v = bar_address v.
Proof using.
  intros Hv. unfold pci_bar_get_address, bar_address. rewrite bar_is_io_odd.
  change PCI_BAR_IO_MASK with (2 ^ 32 - 2 ^ 2). change PCI_BAR_MEM_MASK with (2 ^ 32 - 2 ^ 4).
  by rewrite !clear_low by (done || lia).
Qed.

Lemma scans_select c l vendor bar0 size0 bar1 size1 bar4 size4 :
  is_u32 bar0 -> is_u32 bar1 -> is_u32 bar4 ->
  let r := window_of vendor bar0 size0 bar1 size1 bar4 size4 in
  scans PCIE_ECAM_BASE P c l
    (pci_select_bar_for_device vendor (BarInfo bar0 size0 0) (BarInfo bar1 size1 1)
       (BarInfo bar4 size4 4)) (SelectedBar r.1 r.2) c l.
Proof using out.
  intros Hv0 Hv1 Hv4 r. unfold r, window_of, pci_select_bar_for_device, pci_is_virtio_with_io_bar.
  cbn [bar_value bar_size]. rewrite !bar_is_io_odd, !bar_get_address by done.
  change PCI_VIRTIO_VENDOR_ID with 0x1AF4.
  destruct (Z.odd bar0); rewrite ?andb_false_r; cbn [negb andb]; rewrite ?andb_true_r;
    [destruct (vendor =? 0x1AF4); [|destruct ((0 <? size1) && _)]|];
    repeat (eapply scans_passive; [apply passive_puts|intros _]); apply scans_ret.
Qed.

Lemma riscv_scans_slot :
  scans_slot PCIE_ECAM_BASE P (riscv_device ecam_mask)
    (fun b d '(count, next) => pci_process_device (Some call) b d count next).
Proof using env out.
  intros c l b d n next Hs. unfold riscv_device, pci_process_device, pci_vendor_is_valid.
  unfold PCI_INVALID_VENDOR_LOW, PCI_INVALID_VENDOR_HIGH.
  change PCI_BAR0_OFFSET with 0x10. change PCI_BAR1_OFFSET with 0x14.
  change PCI_BAR4_OFFSET with 0x20.
  assert (A0 : cfg_ok (CfgAddr b d 0 0x10)) by by apply slot_cfg_ok.
  assert (A1 : cfg_ok (CfgAddr b d 0 0x14)) by by apply slot_cfg_ok.
  assert (A4 : cfg_ok (CfgAddr b d 0 0x20)) by by apply slot_cfg_ok.
  set (v := half_of (c _) 0). destruct (_ || _) eqn:Ev.
  { eapply scans_bind; [by apply scans_vendor|]. fold v.
    rewrite negb_andb, !negb_involutive, Ev. apply scans_ret. }
  set (s0 := probed_size ecam_mask c (CfgAddr b d 0 0x10)).
  set (s1 := probed_size ecam_mask c (CfgAddr b d 0 0x14)).
  set (s4 := probed_size ecam_mask c (CfgAddr b d 0 0x20)).
  destruct (scans_assigned c l b d next 0x10 _ s0 0 A0 eq_refl)
    as (bar0 & c0 & next0 & -> & U0 & K0 & S0).
  destruct (scans_assigned c0 l b d next0 0x14 _ s1 1 A1 (K0 (CfgAddr b d 0 0x14) ltac:(done)))
    as (bar1 & c1 & next1 & -> & U1 & K1 & S1).
  assert (E4 : c1 (CfgAddr b d 0 0x20) = c (CfgAddr b d 0 0x20)) by by rewrite K1, K0.
  destruct (scans_assigned c1 l b d next1 0x20 _ s4 4 A4 E4)
    as (bar4 & c4 & next4 & -> & U4 & _ & S4).
  pose proof (fun c => scans_select c l v bar0 s0 bar1 s1 bar4 s4) as Ssel.
  destruct (window_of v bar0 s0 bar1 s1 bar4 s4) as [reg_base reg_size].
  apply (scans_dword _ _ _ _ _ _ _ _ _ A0). intros D0.
  apply (scans_dword _ _ _ _ _ _ _ _ _ A1). intros D1.
  apply (scans_dword _ _ _ _ _ _ _ _ _ A4). intros D4.
  eapply scans_bind; [by apply scans_vendor|]. fold v. rewrite negb_andb, !negb_involutive, Ev.
  eapply scans_bind; [by apply scans_device|].
  eapply scans_passive; [apply passive_puts|intros _].
  eapply scans_bind; [by apply (scans_read_bar _ _ _ _ 0 0x10)|].
  eapply scans_bind; [by apply (scans_read_bar _ _ _ _ 1 0x14)|].
  eapply scans_bind; [by apply (scans_read_bar _ _ _ _ 4 0x20)|].
  eapply scans_bind; [exact S0|]. eapply scans_bind; [exact S1|]. eapply scans_bind; [exact S4|].
  eapply scans_passive; [by apply passive_print_bars|intros _].
  eapply scans_bind; [apply Ssel; auto|]. apply scans_report; [done..|]. intros w. apply (records_call _ _ _ env).
Qed.

Lemma riscv_scans_pcie c l next :
  let '(found, c', last) := scan_ref (riscv_device ecam_mask) ecam_slots c next in
  scans PCIE_ECAM_BASE P c l (pcie_enumerate_devices (Some call) next) (len found, last) c'
    (l ++ found).
Proof using env out. exact (scans_buses _ _ _ _ c l next riscv_scans_slot). Qed.

(** The device tree: each node that holds a device is reported. *)
Lemma riscv_node mem regs d c l w num : node_ok mem d ->
  (is_virtio mem d = true -> id_registers regs (reg_base d) w) ->
  scanned PCIE_ECAM_BASE P c l w ->
  let '(x, num') := numbered_node mem regs d num in
  exists w', probe_virtio_callback mem (Some call) d (num, w) = Ok (num', w') /\
    scanned PCIE_ECAM_BASE P c (l ++ option_list x) w'.
Proof using env.
  intros Hd Hr Hw. pose proof (fun x => records_scanned _ P call c l x env w Hw) as Hcall.
  unfold probe_virtio_callback, numbered_node. rewrite compatible_test by done.
  cbn [mbind res_bind]. destruct (is_virtio mem d) eqn:Ev; cbn [negb].
  - rewrite (probe_node mem regs d w Hd Ev (Hr eq_refl)).
    destruct (node_device mem regs d) as [x|]; cbn [option_list Z.eqb].
    + destruct (Hcall (set_location x 0 num)) as (w' & -> & Hw'). by exists w'.
    + exists w. by rewrite app_nil_r.
  - unfold node_device. rewrite Ev. destruct (Hcall d) as (w' & -> & Hw'). by exists w'.
Qed.

Lemma riscv_nodes mem regs nodes : Forall (node_ok mem) nodes ->
  (forall l w, P l w -> slots_answer mem regs nodes w) -> forall c l w num,
  scanned PCIE_ECAM_BASE P c l w ->
  exists w', call_all (probe_virtio_callback mem (Some call)) nodes (num, w)
      = Ok ((numbered mem regs nodes num).2, w') /\
    scanned PCIE_ECAM_BASE P c (l ++ (numbered mem regs nodes num).1) w'.
Proof using env.
  induction nodes as [|d nodes IH]; intros Hok Hslots c l w num Hw.
  { exists w. rewrite app_nil_r. by split. }
  apply Forall_cons in Hok as [Hd Hok]. rewrite call_all_cons. cbn [numbered].
  pose proof (Hslots l w (sc_seen _ _ _ _ _ Hw)) as [Hr _]%Forall_cons.
  pose proof (riscv_node mem regs d c l w num Hd Hr Hw) as Hnode.
  destruct (numbered_node mem regs d num) as [x num1]. destruct Hnode as (w1 & E1 & Hw1).
  rewrite E1. cbn [mbind res_bind].
  destruct (IH Hok) with (c := c) (num := num1) (2 := Hw1) as (w2 & E2 & Hw2).
  { intros l' w' Hp. by pose proof (Hslots l' w' Hp) as [_ Ha]%Forall_cons. }
  exists w2. destruct (numbered mem regs nodes num1). by rewrite <- app_assoc in Hw2.
Qed.

(** devices_enumerate: the scan, then the device tree. *)
Lemma riscv_enumerates mem regs fdt nodes s c :
  fdt_nodes mem fdt nodes -> Forall (node_ok mem) nodes ->
  (forall l w, P l w -> slots_answer mem regs nodes w) ->
  let '(found, c', last) := pci_ref (riscv_device ecam_mask) c (next_mmio s) in
  let '(slots, num) := numbered mem regs nodes (next_mmio_num s) in
  forall w, scanned PCIE_ECAM_BASE P c [] w ->
  exists tag w', devices_enumerate mem fdt s (Some call) w
      = Ok (len found + len nodes, Statics tag last num, w') /\
    scanned PCIE_ECAM_BASE P c' (found ++ slots) w'.
Proof using env out.
  intros Hfdt Hok Hslots.
  pose proof (fun tag msg => scan_if_present _ P tag _ msg _ c [] (next_mmio s) out P_hw
    (riscv_scans_pcie c [] (next_mmio s))) as Hscan.
  destruct (pci_ref _ c (next_mmio s)) as [[found c'] last].
  pose proof (fun w => riscv_nodes mem regs nodes Hok Hslots c' found w (next_mmio_num s)) as Hnodes.
  pose proof (fdt_nodes_none mem fdt nodes Hfdt) as Hnone.
  destruct (numbered mem regs nodes (next_mmio_num s)) as [slots num] eqn:En. intros w Hw.
  unfold devices_enumerate.
  assert (passive (match pci_log s with
    | Some p => mret (Some p) | None => klog_register "pci" LOG_INFO end)) as Htag.
  { destruct (pci_log s); [apply passive_ret|apply out]. }
  destruct (Htag w (sc_live _ _ _ _ _ Hw)) as (tag & w1 & E1 & R1). rewrite (St_bind_ok _ _ _ _ _ E1).
  destruct (Hscan tag (str "Using PCIe ECAM at 0x" ++ put_hex64 PCIE_ECAM_BASE ++ nl) w1
    (scanned_reads _ _ _ _ _ _ Hw R1)) as (w2 & E2 & Hw2). rewrite app_nil_l in Hw2.
  rewrite <- St_bind_assoc. unfold pci_detect_ecam. rewrite (St_bind_ok _ _ _ _ _ E2).
  exists tag. destruct (Z.eqb_spec fdt 0) as [E0|E0]; cbn [negb].
  - rewrite (Hnone E0) in *. injection En as <- <-. rewrite Z.add_0_r, app_nil_r. by exists w2.
  - destruct (Hnodes w2 Hw2) as (w3 & E3 & Hw3). exists w3. split; [|done].
    rewrite (St_bind_ok _ _ w2 (len nodes, num) w3); [done|].
    unfold enumerate_fdt. by rewrite (fdt_enumerate_nodes mem _ fdt nodes _ Hfdt E0), E3.
Qed.
End scan.

(* ------------------------------------------------------------------ *)
(** ** Properties *)

(** C25: devices_enumerate on RISC-V, on a machine with a memory-mapped configuration
    space.  If a host bridge answers, the scan does with the 64 slots of buses 0 and 1
    what [scan_ref] says: each device present is reported, in slot order, with its
    identifiers and the window of its BAR 4, BAR 1 or BAR 0, as the kinds of its BARs
    demand, where memory BARs were given aligned free bytes of the range; it is enabled,
    and no other dword changes.  Then the nodes of the device tree are reported in order,
    the virtio,mmio nodes numbered, except those whose registers identify no device.
    These are counted all the same: the result is the number of slots and nodes. *)
Theorem riscv_enumerate_correct `{Bus W} `{Console W} `{!EcamHost W PCIE_ECAM_BASE}
    (P : list device -> W -> Prop) (call : device -> St W unit) mem regs fdt nodes s w :
  records PCIE_ECAM_BASE P call -> silent PCIE_ECAM_BASE P ->
  fdt_nodes mem fdt nodes -> Forall (node_ok mem) nodes ->
  (forall l w, P l w -> slots_answer mem regs nodes w) ->
  ecam_live w -> P [] w ->
  let '(found, c, last) := pci_ref (riscv_device ecam_mask) (ecam_cfg w) (next_mmio s) in
  let '(slots, num) := numbered mem regs nodes (next_mmio_num s) in
  exists tag w', devices_enumerate mem fdt s (Some call) w
      = Ok (len found + len nodes, Statics tag last num, w') /\
    P (found ++ slots) w' /\ ecam_live w' /\ forall a, cfg_ok a -> ecam_cfg w' a = c a.
Proof.
  intros He Hs Hf Hok Hsl Hl Hp.
  pose proof (riscv_enumerates P call He Hs mem regs fdt nodes s (ecam_cfg w) Hf Hok Hsl) as Hd.
  destruct (pci_ref _ _ _) as [[found c] last]. destruct (numbered _ _ _ _) as [slots num].
  destruct (Hd w) as (tag & w' & E & [? ? ?]); [by split|]. by exists tag, w'.
Qed.

(** C22: The memory BARs the RISC-V enumerator assigns, in whatever order and of
    whatever power-of-two sizes, get windows that lie in the PCI range, are aligned
    to their size and never overlap, and each placed BAR then decodes exactly the
    start of its window; a BAR that does not fit is left alone. *)
Theorem riscv_bar_windows `{Bus W} `{!EcamHost W PCIE_ECAM_BASE} reqs next w :
  ecam_live w -> PCI_MMIO_BASE <= next <= window_end ->
  NoDup reqs.*1 -> Forall (request_ok w) reqs ->
  exists ws last w', assign_all reqs next w = Ok ((ws, last), w') /\
    Forall (window_ok w' next) ws /\ disjoint_from next ws /\
    (forall a, cfg_ok a -> a ∉ reqs.*1 -> ecam_cfg w' a = ecam_cfg w a).
Proof.
  intros Hl Hn Hnd Hr.
  destruct (assign_all_spec reqs next w Hl Hn Hnd Hr)
    as (ws & last & w' & E & _ & Hws & Hdis & Hrest & _).
  by exists ws, last, w'.
Qed.

Definition riscv_base_ok :
  PCIE_ECAM_BASE mod 2 ^ 28 = 0 /\ 0 <= PCIE_ECAM_BASE /\ PCIE_ECAM_BASE + 2 ^ 28 <= 2 ^ 64.
Proof. split; [reflexivity|]. unfold PCIE_ECAM_BASE. lia. Defined.

Lemma riscv_bar_windows_witness :
  let bus := ecam_sample.bus PCIE_ECAM_BASE in
  let host := ecam_sample.host PCIE_ECAM_BASE riscv_base_ok in
  exists ws last w',
    @assign_all _ bus [(CfgAddr 0 3 0 0x10, 17)] 0x40001000 pci_sample.initial
      = Ok ((ws, last), w') /\
    Forall (@window_ok _ bus host w' 0x40001000) ws /\ disjoint_from 0x40001000 ws /\
    (forall a, cfg_ok a -> a ∉ [(CfgAddr 0 3 0 0x10, 17)].*1 ->
       @ecam_cfg _ bus PCIE_ECAM_BASE host w' a
       = @ecam_cfg _ bus PCIE_ECAM_BASE host pci_sample.initial a).
Proof.
  intros bus host.
  apply (@riscv_bar_windows _ bus host [(CfgAddr 0 3 0 0x10, 17)] 0x40001000 pci_sample.initial).
  - exact pci_sample.initial_u32.
  - unfold window_end, PCI_MMIO_BASE, PCI_MMIO_SIZE. lia.
  - apply NoDup_singleton.
  - apply Forall_singleton. split; [|split; [|split]].
    + repeat split; cbn; lia.
    + cbn. lia.
    + vm_compute. reflexivity.
    + vm_compute. reflexivity.
Defined.

(** The bridge, its card and the entropy device of the sample blob, whose node the walk
    reports twice (see [fdt_duplicate_report]). *)
Lemma riscv_enumerate_correct_witness :
  let bus := ecam_bridge.bus PCIE_ECAM_BASE mmio_sample.regs in
  exists tag w', @devices_enumerate _ bus ecam_bridge.console sample_mem 4096 statics_zero
      (Some ecam_bridge.report) ecam_bridge.start = Ok (4, Statics tag 0x40020000 3, w') /\
    (fun d => (vendor_id d, device_id d, device_num d, reg_base d)) <$> ecam_bridge.seen w' =
      [(0x1B36, 8, 0, 0); (0x8086, 0x100E, 3, 0x40000000);
       (0x1AF4, 0x1005, 1, 0x10001000); (0x1AF4, 0x1005, 2, 0x10001000)] /\
    ecam_bridge.space w' (CfgAddr 0 3 0 4) = 6.
Proof.
  intros bus. set (host := ecam_bridge.host PCIE_ECAM_BASE mmio_sample.regs riscv_base_ok).
  pose proof (@riscv_enumerate_correct _ bus ecam_bridge.console host
    (fun l w => ecam_bridge.seen w = l) ecam_bridge.report sample_mem mmio_sample.regs 4096
    sample_nodes statics_zero ecam_bridge.start) as Hscan.
  destruct (pci_ref _ _ _) as [[found c] last] eqn:Es.
  apply (f_equal ecam_bridge.result) in Es. vm_compute in Es. injection Es as <- Hc <-.
  destruct (numbered _ _ _ _) as [slots num] eqn:En. vm_compute in En. injection En as <- <-.
  destruct Hscan as (tag & w' & E & Hseen & _ & Hw).
  - split.
    + intros l. apply ecam_bridge.seen_keeps.
    + intros d l w Hl <-. eexists. split; [reflexivity|]. split; [exact Hl|]. split; reflexivity.
  - split; [intros s w Hl; split; [exact Hl|reflexivity|by intros l]|].
    intros name level w Hl. eexists _, w. split; [reflexivity|]. by split.
  - exact (blob sample_mem 4096 40 sample_names sample_tokens sample_blob_ok).
  - exact sample_nodes_ok.
  - intros l w _. by apply sample_slots_answer.
  - exact ecam_bridge.bridge_u32.
  - reflexivity.
  - exists tag, w'. split; [exact E|]. split; [rewrite Hseen; vm_compute; reflexivity|].
    specialize (Hw (CfgAddr 0 3 0 4)). rewrite <- Hc in Hw. apply Hw, slot_cfg_ok; [|lia|reflexivity].
    unfold slot_in_range. cbn. lia.
Defined.
