(* ===== verification/DevicesArm64.v ===== *)
(** PCI and device-tree enumeration on ARM64 (kernel/devices/devices_arm64.c). *)

From S2P Require Export FdtScan.

Open Scope Z_scope.

Definition PCIE_ECAM_BASE : Z := 0x4010000000.
Definition PCI_MMIO_BASE : Z := 0x10000000.
Definition PCI_MMIO_SIZE : Z := 0x10000000.

Section arm64.
  Context {W : Type} `{Bus W}.

Definition pcie_ecam_address : Z -> Z -> Z -> Z -> Z := ecam_address PCIE_ECAM_BASE.
Definition pcie_ecam_read16 : Z -> Z -> Z -> Z -> St W Z := ecam_read16 PCIE_ECAM_BASE.
Definition pcie_ecam_read32 : Z -> Z -> Z -> Z -> St W Z := ecam_read32 PCIE_ECAM_BASE.
Definition pcie_ecam_write16 : Z -> Z -> Z -> Z -> Z -> St W unit := ecam_write16 PCIE_ECAM_BASE.
Definition pcie_ecam_write32 : Z -> Z -> Z -> Z -> Z -> St W unit := ecam_write32 PCIE_ECAM_BASE.

Definition pci_probe_bar_size (bus device function bar_offset : Z) : St W Z :=
  probe_bar_size (ecam_ops PCIE_ECAM_BASE) bus device function bar_offset.

(** [next_mmio_address] is the allocator's static variable; the results are the
    BAR value and the variable afterwards. *)
Definition pci_assign_bar_if_needed (next_mmio_address bus device function bar_offset bar_size : Z)
    : St W (Z * Z) :=
  bar_value ← pcie_ecam_read32 bus device function bar_offset;
  if Z.land bar_value 1 =? 0 then
    let addr := Z.land bar_value 0xFFFFFFF0 in
    if negb (addr =? 0) then mret (bar_value, next_mmio_address) else
    if (0 <? bar_size)
       && (u64 (next_mmio_address + bar_size) <=? PCI_MMIO_BASE + PCI_MMIO_SIZE) then
      let new_bar := Z.lor (u32 next_mmio_address) (Z.land bar_value 0xF) in
      _ ← pcie_ecam_write32 bus device function bar_offset new_bar;
      mret (new_bar, u64 (next_mmio_address + bar_size))
    else mret (bar_value, next_mmio_address)
  else mret (bar_value, next_mmio_address).

Definition pci_detect_ecam : St W bool :=
  test_value ← mmio_read32 PCIE_ECAM_BASE;
  let vendor := Z.land test_value 0xFFFF in
  mret (negb (vendor =? 0x0000) && negb (vendor =? 0xFFFF)).

(** The register window of a device: BAR 1 when BAR 0 is an I/O BAR and BAR 1 is
    a memory BAR with a size, else BAR 0. *)
Definition select_bar (bar0 bar0_size bar1 bar1_size : Z) : Z * Z :=
  if negb (Z.land bar0 1 =? 0) && (0 <? bar1_size) && (Z.land bar1 1 =? 0)
  then (Z.land bar1 0xFFFFFFF0, bar1_size)
  else (Z.land bar0 0xFFFFFFF0, bar0_size).

(** The body of the scan for one slot. *)
Definition scan_slot (callback : option (device -> St W unit)) (bus device : Z)
    (device_count next : Z) : St W (Z * Z) :=
  vendor ← pcie_ecam_read16 bus device 0 PCI_VENDOR_ID_OFFSET;
  if (vendor =? 0xFFFF) || (vendor =? 0x0000) then mret (device_count, next) else
  device_val ← pcie_ecam_read16 bus device 0 PCI_DEVICE_ID_OFFSET;
  bar0_size ← pci_probe_bar_size bus device 0 PCI_BAR0_OFFSET;
  bar1_size ← pci_probe_bar_size bus device 0 PCI_BAR1_OFFSET;
  '(bar0, next) ← pci_assign_bar_if_needed next bus device 0 PCI_BAR0_OFFSET bar0_size;
  '(bar1, next) ← pci_assign_bar_if_needed next bus device 0 PCI_BAR1_OFFSET bar1_size;
  let '(reg_base, reg_size) := select_bar bar0 bar0_size bar1 bar1_size in
  command ← pcie_ecam_read16 bus device 0 PCI_COMMAND_OFFSET;
  let command := Z.lor command (Z.lor PCI_COMMAND_MEMORY PCI_COMMAND_MASTER) in
  _ ← pcie_ecam_write16 bus device 0 PCI_COMMAND_OFFSET command;
  let dev_info :=
    Device None None reg_base reg_size vendor device_val bus device 0 None
      DEVICE_STATE_DISCOVERED 0 0 None None None 0 None in
  _ ← match callback with Some call => call dev_info | None => skip end;
  mret (device_count + 1, next).

Definition pcie_enumerate_devices (callback : option (device -> St W unit))
    (next_mmio_address : Z) : St W (Z * Z) :=
  for_n 2 (fun bus r =>
    for_n 32 (fun device '(device_count, next) =>
      scan_slot callback (Z.of_nat bus) (Z.of_nat device) device_count next) r)
    (0, next_mmio_address).

(** The callback given to fdt_enumerate_devices. *)
Definition probe_virtio_callback (mem : memory) (user_callback : option (device -> St W unit))
    (d : device) (w : W) : res W :=
  let pass d w :=
    match user_callback with
    | Some call => match call d w with Ok (_, w) => Ok w | UB => UB | NoFuel => NoFuel end
    | None => Ok w
    end in
  is_virtio ← match dev_compatible d with
              | None => Ok false
              | Some a => r ← strcmp_mem mem a (str "virtio,mmio"); mret (r =? 0)
              end;
  if negb is_virtio then pass d w else
  match virtio_mmio_probe_device (Some d) w with
  | Ok ((r, Some d), w) => if r =? 0 then pass d w else Ok w
  | Ok ((_, None), w) => Ok w
  | UB => UB
  | NoFuel => NoFuel
  end.

Definition enumerate_fdt (mem : memory) (fdt_address : Z)
    (callback : option (device -> St W unit)) : St W Z := fun w =>
  fdt_enumerate_devices mem (Some (probe_virtio_callback mem callback)) fdt_address w.

(** The static variables of the file. *)
Record statics := Statics { pci_log : tag_ptr; next_mmio : Z }.
Definition statics_zero : statics := Statics None PCI_MMIO_BASE.

(** The two lookups the file only declares: nothing is ever found. *)
Definition devices_find (compatible : option cstr) (dev : option device) : Z := 0.
Definition devices_get_name (vendor_id device_id : Z) : option cstr := None.

(** [fdt_address]: what device_get_fdt returns. *)
Definition devices_enumerate `{Console W} (mem : memory) (fdt_address : Z) (s : statics)
    (callback : option (device -> St W unit)) : St W (Z * statics) :=
  pci_log ← match pci_log s with
            | Some p => mret (Some p) | None => klog_register "pci" LOG_INFO
            end;
  ecam ← pci_detect_ecam;
  '(total_devices, next) ←
    (if (ecam : bool) then
       debug ← klog_enabled pci_log LOG_DEBUG;
       _ ← when debug
             (_ ← klog_prefix pci_log LOG_DEBUG;
              kput (puts (str "Using PCIe ECAM at 0x" ++ put_hex64 PCIE_ECAM_BASE ++ nl)));
       pcie_enumerate_devices callback (next_mmio s)
     else mret (0, next_mmio s));
  if negb (fdt_address =? 0) then
    n ← enumerate_fdt mem fdt_address callback;
    mret (total_devices + n, Statics pci_log next)
  else mret (total_devices, Statics pci_log next).
End arm64.

(* ------------------------------------------------------------------ *)
(** ** The scan *)

(** The BAR at [a] given the next free bytes if it is a memory BAR that has a size but
    no address, and the range has room: its value, the contents and the next address. *)
Definition assigned_bar (mask c : contents) (next : Z) (a : cfg_addr) (size : Z)
    : Z * contents * Z :=
  let v := c a in
  if (Z.land v 1 =? 0) && (Z.land v 0xFFFFFFF0 =? 0) && (0 <? size)
     && (u64 (next + size) <=? PCI_MMIO_BASE + PCI_MMIO_SIZE)
  then let bar := Z.lor (u32 next) (Z.land v 0xF) in
       (bar, set_dword mask a bar c, u64 (next + size))
  else (v, c, next).

(** The window of a device: that of its BAR 0, or of BAR 1 when BAR 0 is an I/O BAR. *)
Definition window_of (bar0 size0 bar1 size1 : Z) : Z * Z :=
  let is_io v := Z.odd v in
  if is_io bar0 && negb (is_io bar1) && (0 <? size1)
  then (bar1 - bar1 mod 16, size1) else (bar0 - bar0 mod 16, size0).

(** The device of a slot, from the BARs after both were given addresses; it is left
    enabled. *)
Definition arm64_device (mask : contents) : description := fun c '(b, d) next =>
  let at_ o := CfgAddr b d 0 o in
  let vendor := half_of (c (at_ 0)) 0 in
  if (vendor =? 0xFFFF) || (vendor =? 0x0000) then None else
  let size0 := probed_size mask c (at_ 0x10) in
  let size1 := probed_size mask c (at_ 0x14) in
  let '(bar0, c0, next) := assigned_bar mask c next (at_ 0x10) size0 in
  let '(bar1, c1, next) := assigned_bar mask c0 next (at_ 0x14) size1 in
  let '(reg_base, reg_size) := window_of bar0 size0 bar1 size1 in
  Some (Device None None reg_base reg_size vendor (half_of (c (at_ 0)) 2) b d 0 None
          DEVICE_STATE_DISCOVERED 0 0 None None None 0 None, enabled mask b d c1, next).

Section scan.
  Context {W : Type} `{Bus W} `{!EcamHost W PCIE_ECAM_BASE}.
  Context (P : list device -> W -> Prop) (call : device -> St W unit).
  Context (env : records PCIE_ECAM_BASE P call).
Let P_hw := records_bus _ _ _ env.

Lemma scans_assign c l b d next o size : cfg_ok (CfgAddr b d 0 o) ->
  let r := assigned_bar ecam_mask c next (CfgAddr b d 0 o) size in
  scans PCIE_ECAM_BASE P c l (pci_assign_bar_if_needed next b d 0 o size) (r.1.1, r.2) r.1.2 l.
Proof using env.
  intros Ha r. unfold pci_assign_bar_if_needed.
  eapply scans_bind; [by apply scans_read32|]. unfold r, assigned_bar. set (v := c _).
  destruct (Z.land v 1 =? 0); [|apply scans_ret].
  destruct (Z.land v 0xFFFFFFF0 =? 0); cbn [negb andb]; [|apply scans_ret].
  destruct ((0 <? size) && _); [|apply scans_ret].
  eapply scans_bind; [apply scans_write32; [done..|apply new_bar_u32]|]. apply scans_ret.
Qed.

(** The code chooses that window, of BARs that are dwords. *)
Lemma select_bar_window bar0 size0 bar1 size1 : is_u32 bar0 -> is_u32 bar1 ->
  select_bar bar0 size0 bar1 size1 = window_of bar0 size0 bar1 size1.
Proof using.
  intros H0 H1. unfold select_bar, window_of. change 0xFFFFFFF0 with (2 ^ 32 - 2 ^ 4).
  rewrite !clear_low by (done || lia).
  assert (forall v, (Z.land v 1 =? 0) = negb (Z.odd v)) as Hodd.
  { intros v. change 1 with (Z.ones 1). rewrite Z.land_ones, Zmod_odd by lia. by destruct (Z.odd v). }
  rewrite !Hodd, negb_involutive, <- !andb_assoc, (andb_comm (0 <? size1)). done.
Qed.

Lemma assigned_u32 c next a size : is_u32 (c a) ->
  is_u32 (assigned_bar ecam_mask c next a size).1.1.
Proof using. intros Hv. unfold assigned_bar. by destruct (_ && _); [apply new_bar_u32|]. Qed.

Lemma arm64_scans_slot :
  scans_slot PCIE_ECAM_BASE P (arm64_device ecam_mask)
    (fun b d '(count, next) => scan_slot (Some call) b d count next).
Proof using env.
  intros c l b d n next Hs. unfold arm64_device, scan_slot.
  change PCI_BAR0_OFFSET with 0x10. change PCI_BAR1_OFFSET with 0x14.
  assert (H0 : cfg_ok (CfgAddr b d 0 0x10)) by by apply slot_cfg_ok.
  assert (H1 : cfg_ok (CfgAddr b d 0 0x14)) by by apply slot_cfg_ok.
  set (v := half_of (c _) 0). destruct (_ || _) eqn:Ev.
  { eapply scans_bind; [by apply scans_vendor|]. fold v. rewrite Ev. apply scans_ret. }
  set (s0 := probed_size ecam_mask c (CfgAddr b d 0 0x10)).
  set (s1 := probed_size ecam_mask c (CfgAddr b d 0 0x14)).
  pose proof (assigned_u32 c next (CfgAddr b d 0 0x10) s0) as U0.
  pose proof (scans_assign c l b d next 0x10 s0 H0) as S0.
  destruct (assigned_bar ecam_mask c next _ s0) as [[bar0 c0] next0].
  pose proof (assigned_u32 c0 next0 (CfgAddr b d 0 0x14) s1) as U1.
  pose proof (scans_assign c0 l b d next0 0x14 s1 H1) as S1.
  destruct (assigned_bar ecam_mask c0 next0 _ s1) as [[bar1 c1] next1]. cbn [fst snd] in *.
  destruct (window_of bar0 _ bar1 _) as [reg_base reg_size] eqn:Es.
  apply (scans_dword _ _ _ _ _ _ _ _ _ H0). intros D0.
  eapply scans_bind; [by apply scans_vendor|]. fold v. rewrite Ev.
  eapply scans_bind; [by apply scans_device|].
  eapply scans_bind; [by apply scans_probe|]. eapply scans_bind; [by apply scans_probe|].
  eapply scans_bind; [exact S0|]. cbv beta iota. apply (scans_dword _ _ _ _ _ _ _ _ _ H1). intros D1.
  eapply scans_bind; [exact S1|]. cbv beta iota. fold s0 s1.
  rewrite select_bar_window, Es by auto.
  apply scans_report; [done..|]. intros w. apply (records_call _ _ _ env).
Qed.

Lemma arm64_scans_pcie c l next :
  let '(found, c', last) := scan_ref (arm64_device ecam_mask) ecam_slots c next in
  scans PCIE_ECAM_BASE P c l (pcie_enumerate_devices (Some call) next) (len found, last) c'
    (l ++ found).
Proof using env. exact (scans_buses _ _ _ _ c l next arm64_scans_slot). Qed.

(** The device tree: each node that holds a device is reported. *)
Lemma arm64_node mem regs d c l w : node_ok mem d ->
  (is_virtio mem d = true -> id_registers regs (reg_base d) w) ->
  scanned PCIE_ECAM_BASE P c l w ->
  exists w', probe_virtio_callback mem (Some call) d w = Ok w' /\
    scanned PCIE_ECAM_BASE P c (l ++ option_list (node_device mem regs d)) w'.
Proof using env.
  intros Hd Hr Hw. pose proof (fun x => records_scanned _ P call c l x env w Hw) as Hcall.
  unfold probe_virtio_callback. rewrite compatible_test by done. cbn [mbind res_bind].
  destruct (is_virtio mem d) eqn:Ev; cbn [negb].
  - rewrite (probe_node mem regs d w Hd Ev (Hr eq_refl)).
    destruct (node_device mem regs d) as [x|]; cbn [option_list Z.eqb].
    + destruct (Hcall x) as (w' & -> & Hw'). by exists w'.
    + exists w. by rewrite app_nil_r.
  - unfold node_device. rewrite Ev. destruct (Hcall d) as (w' & -> & Hw'). by exists w'.
Qed.

Lemma arm64_nodes mem regs nodes : Forall (node_ok mem) nodes ->
  (forall l w, P l w -> slots_answer mem regs nodes w) -> forall c l w,
  scanned PCIE_ECAM_BASE P c l w ->
  exists w', call_all (probe_virtio_callback mem (Some call)) nodes w = Ok w' /\
    scanned PCIE_ECAM_BASE P c (l ++ omap (node_device mem regs) nodes) w'.
Proof using env.
  induction nodes as [|d nodes IH]; intros Hok Hslots c l w Hw.
  { exists w. rewrite app_nil_r. by split. }
  apply Forall_cons in Hok as [Hd Hok]. rewrite call_all_cons.
  pose proof (Hslots l w (sc_seen _ _ _ _ _ Hw)) as [Hr _]%Forall_cons.
  destruct (arm64_node mem regs d c l w Hd Hr Hw) as (w1 & E1 & Hw1). rewrite E1. cbn [mbind res_bind].
  destruct (IH Hok) with (c := c) (2 := Hw1) as (w2 & E2 & Hw2).
  { intros l' w' Hp. by pose proof (Hslots l' w' Hp) as [_ Ha]%Forall_cons. }
  exists w2. split; [done|]. rewrite <- app_assoc in Hw2. cbn [omap list_omap].
  by destruct (node_device mem regs d).
Qed.

(** devices_enumerate: the scan, then the device tree. *)
Lemma arm64_enumerates `{Console W} mem regs fdt nodes s c : silent PCIE_ECAM_BASE P ->
  fdt_nodes mem fdt nodes -> Forall (node_ok mem) nodes ->
  (forall l w, P l w -> slots_answer mem regs nodes w) ->
  let '(found, c', last) := pci_ref (arm64_device ecam_mask) c (next_mmio s) in
  forall w, scanned PCIE_ECAM_BASE P c [] w ->
  exists tag w', devices_enumerate mem fdt s (Some call) w
      = Ok (len found + len nodes, Statics tag last, w') /\
    scanned PCIE_ECAM_BASE P c' (found ++ omap (node_device mem regs) nodes) w'.
Proof using env.
  intros Hs Hfdt Hok Hslots.
  pose proof (fun tag msg => scan_if_present _ P tag _ msg _ c [] (next_mmio s) Hs P_hw
    (arm64_scans_pcie c [] (next_mmio s))) as Hscan.
  destruct (pci_ref _ c (next_mmio s)) as [[found c'] last]. intros w Hw.
  unfold devices_enumerate.
  assert (passive PCIE_ECAM_BASE P (match pci_log s with
    | Some p => mret (Some p) | None => klog_register "pci" LOG_INFO end)) as Htag.
  { destruct (pci_log s); [apply passive_ret|apply Hs]. }
  destruct (Htag w (sc_live _ _ _ _ _ Hw)) as (tag & w1 & E1 & R1). rewrite (St_bind_ok _ _ _ _ _ E1).
  destruct (Hscan tag (str "Using PCIe ECAM at 0x" ++ put_hex64 PCIE_ECAM_BASE ++ nl) w1
    (scanned_reads _ _ _ _ _ _ Hw R1)) as (w2 & E2 & Hw2). rewrite app_nil_l in Hw2.
  rewrite <- St_bind_assoc. unfold pci_detect_ecam. rewrite (St_bind_ok _ _ _ _ _ E2).
  exists tag. destruct (Z.eqb_spec fdt 0) as [E0|E0]; cbn [negb].
  - rewrite (fdt_nodes_none mem fdt nodes Hfdt E0), Z.add_0_r, app_nil_r. by exists w2.
  - destruct (arm64_nodes mem regs nodes Hok Hslots c' found w2 Hw2) as (w3 & E3 & Hw3).
    exists w3. split; [|done]. rewrite (St_bind_ok _ _ w2 (len nodes) w3); [done|].
    unfold enumerate_fdt. by rewrite (fdt_enumerate_nodes mem _ fdt nodes w2 Hfdt E0), E3.
Qed.
End scan.

(* ------------------------------------------------------------------ *)
(** ** Properties *)

(** C24: devices_enumerate on ARM64, on a machine with a memory-mapped configuration
    space.  If a host bridge answers, the scan does with the 64 slots of buses 0 and 1
    what [scan_ref] says: each device present is reported, in slot order, with its
    identifiers and the window of its BAR 0, or of BAR 1 when BAR 0 is an I/O BAR, where
    memory BARs without address were given the next free bytes of the range; it is
    enabled, and no other dword changes.  Then the nodes of the device tree are reported
    in order, except the virtio,mmio nodes whose registers identify no device.  These
    are counted all the same: the result is the number of slots and nodes. *)
Theorem arm64_enumerate_correct `{Bus W} `{Console W} `{!EcamHost W PCIE_ECAM_BASE}
    (P : list device -> W -> Prop) (call : device -> St W unit) mem regs fdt nodes s w :
  records PCIE_ECAM_BASE P call -> silent PCIE_ECAM_BASE P ->
  fdt_nodes mem fdt nodes -> Forall (node_ok mem) nodes ->
  (forall l w, P l w -> slots_answer mem regs nodes w) ->
  ecam_live w -> P [] w ->
  let '(found, c, last) := pci_ref (arm64_device ecam_mask) (ecam_cfg w) (next_mmio s) in
  exists tag w', devices_enumerate mem fdt s (Some call) w
      = Ok (len found + len nodes, Statics tag last, w') /\
    P (found ++ omap (node_device mem regs) nodes) w' /\
    ecam_live w' /\ forall a, cfg_ok a -> ecam_cfg w' a = c a.
Proof.
  intros He Hs Hf Hok Hsl Hl Hp.
  pose proof (arm64_enumerates P call He mem regs fdt nodes s (ecam_cfg w) Hs Hf Hok Hsl) as Hd.
  destruct (pci_ref _ _ _) as [[found c] last].
  destruct (Hd w) as (tag & w' & E & [? ? ?]); [by split|]. by exists tag, w'.
Qed.

(** The ARM64 allocator configures a memory BAR only when it has no address
    yet: it then gets the next free bytes of the range, the allocator advances by
    its size, and no other dword changes; a BAR that has an address, is an I/O BAR,
    has no size or does not fit is left alone. *)
Theorem arm64_assign_correct `{Bus W} `{!EcamHost W PCIE_ECAM_BASE} next b d f o size w :
  let a := CfgAddr b d f o in
  let v := ecam_cfg w a in
  ecam_live w -> cfg_ok a -> PCI_MMIO_BASE <= next <= PCI_MMIO_BASE + PCI_MMIO_SIZE ->
  0 <= size <= 2 ^ 32 ->
  exists w', ecam_live w' /\
  if (Z.land v 1 =? 0) && (Z.land v 0xFFFFFFF0 =? 0) && (0 <? size)
     && (next + size <=? PCI_MMIO_BASE + PCI_MMIO_SIZE)
  then pci_assign_bar_if_needed next b d f o size w
         = Ok ((Z.lor next (Z.land v 0xF), next + size), w') /\
       forall a', cfg_ok a' ->
         ecam_cfg w' a' = if decide (a' = a)
                          then cfg_written (ecam_mask a) v (Z.lor next (Z.land v 0xF))
                          else ecam_cfg w a'
  else pci_assign_bar_if_needed next b d f o size w = Ok ((v, next), w') /\
       forall a', cfg_ok a' -> ecam_cfg w' a' = ecam_cfg w a'.
Proof.
  intros a v Hl Ha Hn Hsz. unfold PCI_MMIO_BASE, PCI_MMIO_SIZE in Hn.
  destruct (cfg_read (ConfigSpace := ecam_config PCIE_ECAM_BASE) w b d f o Hl Ha)
    as (w1 & E1 & Hl1 & Hc1).
  unfold pci_assign_bar_if_needed. rewrite (St_bind_ok _ _ w _ w1 E1).
  change (cfg w (CfgAddr b d f o)) with v.
  assert (Hskip : exists w', ecam_live w' /\ mret (M := St W) (v, next) w1 = Ok ((v, next), w') /\
    forall a', cfg_ok a' -> ecam_cfg w' a' = ecam_cfg w a').
  { exists w1. split; [done|]. split; [done|]. exact Hc1. }
  destruct (Z.land v 1 =? 0); [|exact Hskip].
  destruct (Z.land v 0xFFFFFFF0 =? 0); [|exact Hskip]. cbn [negb andb].
  rewrite (u64_id (next + size)) by (unfold is_u64; lia).
  destruct (0 <? size); [|exact Hskip]. cbn [andb].
  destruct (next + size <=? PCI_MMIO_BASE + PCI_MMIO_SIZE); [|exact Hskip].
  rewrite (u32_id next) by (unfold is_u32; lia). set (nb := Z.lor next (Z.land v 15)).
  assert (Hnb : is_u32 nb).
  { assert (nb = u32 nb) as ->; [|apply u32_range]. rewrite <- land_ffffffff. unfold nb.
    rewrite Z.land_lor_distr_l, <- Z.land_assoc, land_ffffffff, u32_id
      by (unfold is_u32; lia). done. }
  destruct (cfg_write (ConfigSpace := ecam_config PCIE_ECAM_BASE) w1 b d f o nb Hl1 Ha Hnb)
    as (w2 & E2 & Hl2 & Hc2).
  exists w2. split; [exact Hl2|]. rewrite (St_bind_ok _ _ w1 _ w2 E2). split; [done|].
  intros a' Ha'. etransitivity; [exact (Hc2 a' Ha')|]. fold a.
  assert (Hs : cfg w1 a' = ecam_cfg w a') by exact (Hc1 a' Ha'). rewrite Hs.
  case_decide as E; [|done]. by subst a'.
Qed.

Definition arm64_base_ok :
  PCIE_ECAM_BASE mod 2 ^ 28 = 0 /\ 0 <= PCIE_ECAM_BASE /\ PCIE_ECAM_BASE + 2 ^ 28 <= 2 ^ 64.
Proof. split; [reflexivity|]. unfold PCIE_ECAM_BASE. lia. Defined.

(** The bridge, its card and the entropy device of the sample blob, whose node the walk
    reports twice (see [fdt_duplicate_report]). *)
Lemma arm64_enumerate_correct_witness :
  let bus := ecam_bridge.bus PCIE_ECAM_BASE mmio_sample.regs in
  exists tag w', @devices_enumerate _ bus ecam_bridge.console sample_mem 4096 statics_zero
      (Some ecam_bridge.report) ecam_bridge.start = Ok (4, Statics tag PCI_MMIO_BASE, w') /\
    (fun d => (vendor_id d, device_id d, reg_base d, reg_size d)) <$> ecam_bridge.seen w' =
      [(0x1B36, 8, 0, 0); (0x8086, 0x100E, 0xFEBC0000, 2 ^ 17);
       (0x1AF4, 0x1005, 0x10001000, 0x1000); (0x1AF4, 0x1005, 0x10001000, 0x1000)] /\
    ecam_bridge.space w' (CfgAddr 0 3 0 4) = 6.
Proof.
  intros bus. set (host := ecam_bridge.host PCIE_ECAM_BASE mmio_sample.regs arm64_base_ok).
  pose proof (@arm64_enumerate_correct _ bus ecam_bridge.console host
    (fun l w => ecam_bridge.seen w = l) ecam_bridge.report sample_mem mmio_sample.regs 4096 sample_nodes
    statics_zero ecam_bridge.start) as Hscan.
  destruct (pci_ref _ _ _) as [[found c] last] eqn:Es.
  apply (f_equal ecam_bridge.result) in Es. vm_compute in Es. injection Es as <- Hc <-.
  destruct Hscan as (tag & w' & E & Hseen & _ & Hw).
  - split.
    + intros l. apply ecam_bridge.seen_keeps.
    + intros d l w Hl <-. eexists. split; [reflexivity|]. split; [exact Hl|]. split; reflexivity.
  - split; [intros s w Hl; split; [exact Hl|reflexivity|by intros l]|].
    intros name level w Hl. eexists _, w. split; [reflexivity|]. by split.
  - exact (blob sample_mem 4096 40 sample_names sample_tokens sample_blob_ok).
  - exact sample_nodes_ok.
  - intros l w _. by apply sample_slots_answer.
  - exact ecam_bridge.bridge_u32.
  - reflexivity.
  - exists tag, w'. split; [exact E|]. split; [rewrite Hseen; vm_compute; reflexivity|].
    specialize (Hw (CfgAddr 0 3 0 4)). rewrite <- Hc in Hw. apply Hw, slot_cfg_ok; [|lia|reflexivity].
    unfold slot_in_range. cbn. lia.
Defined.

Lemma arm64_assign_correct_witness :
  let bus := ecam_sample.bus PCIE_ECAM_BASE in
  exists w', @pci_assign_bar_if_needed _ bus PCI_MMIO_BASE 0 3 0 0x10 (2 ^ 17) pci_sample.initial
    = Ok ((0xFEBC0000, PCI_MMIO_BASE), w').
Proof.
  intros bus.
  destruct (@arm64_assign_correct _ bus (ecam_sample.host PCIE_ECAM_BASE arm64_base_ok)
    PCI_MMIO_BASE 0 3 0 0x10 (2 ^ 17) pci_sample.initial) as (w' & _ & E & _).
  - exact pci_sample.initial_u32.
  - unfold cfg_ok; cbn. repeat split; try lia; reflexivity.
  - unfold PCI_MMIO_BASE, PCI_MMIO_SIZE. lia.
  - split; vm_compute; discriminate.
  - exists w'. exact E.
Defined.

(** Two unassigned BARs of one card, of 4 KB and of 128 KB. *)
Module two_bars.
Definition space : pci_sample.space := fun a =>
  if decide (a = CfgAddr 0 3 0 0x00) then 0x100E8086 else 0.
Definition mask (a : cfg_addr) : Z :=
  if decide (a = CfgAddr 0 3 0 0x10) then 2 ^ 32 - 2 ^ 12
  else if decide (a = CfgAddr 0 3 0 0x14) then 2 ^ 32 - 2 ^ 17 else 0.
Definition bus : Bus pci_sample.space := {|
  bus_read a addr w := Ok (w (ecam_sample.decode (addr - PCIE_ECAM_BASE)), w);
  bus_write a addr v w :=
    let a := ecam_sample.decode (addr - PCIE_ECAM_BASE) in
    Ok (tt, pci_sample.update w a (cfg_written (mask a) (w a) v)) |}.

(** What the two BARs decode after they were assigned in turn. *)
Definition assigned : res (Z * Z * Z) :=
  let m : St pci_sample.space (Z * Z * Z) :=
    '(_, next) ← @pci_assign_bar_if_needed _ bus PCI_MMIO_BASE 0 3 0 0x10 (2 ^ 12);
    '(bar1, next) ← @pci_assign_bar_if_needed _ bus next 0 3 0 0x14 (2 ^ 17);
    v0 ← @pcie_ecam_read32 _ bus 0 3 0 0x10;
    v1 ← @pcie_ecam_read32 _ bus 0 3 0 0x14;
    mret (v0, v1, bar1) in
  match m space with Ok (r, _) => Ok r | UB => UB | NoFuel => NoFuel end.
End two_bars.

(** The ARM64 allocator does not align: after a 4 KB BAR a 128 KB BAR is given
    the unaligned address 0x10001000, so it decodes 0x10000000 and overlaps the
    first BAR, while the enumerator records 0x10001000 for it. *)
Theorem arm64_bar_overlap :
  two_bars.assigned = Ok (0x10000000, 0x10000000, 0x10001000).
Proof. vm_compute. reflexivity. Qed.
