(* ===== verification/Ring.v ===== *)
(** Descriptor rings: N slots of which a window, from a head slot on, holds the
    entries of a FIFO queue.  The drivers' rings are instances. *)

From S2P Require Export Prelude.

(** Slot [j] of the window whose head is slot [h]. *)
Definition ring_slot (N h j : nat) : nat := ((h + j) mod N)%nat.

(** The window of [s] from [h] on holds the queue [q], entry by entry in the
    relation [full]; the slots outside the window are [free]. *)
Record ring_ok {A D : Type} (N : nat) (full : A -> D -> Prop) (free : D -> Prop)
    (h : nat) (q : list A) (s : list D) : Prop := RingOk {
  ring_length : length s = N;
  ring_head : (h < N)%nat;
  ring_fits : (length q <= N)%nat;
  ring_full : forall j a, q !! j = Some a -> exists d, s !! ring_slot N h j = Some d /\ full a d;
  ring_free : forall j, (length q <= j < N)%nat ->
    exists d, s !! ring_slot N h j = Some d /\ free d
}.

Lemma ring_slot_lt N h j : (h < N)%nat -> (ring_slot N h j < N)%nat.
Proof. intros. apply Nat.mod_upper_bound. lia. Qed.

Lemma ring_slot_0 N h : (h < N)%nat -> ring_slot N h 0 = h.
Proof. intros. unfold ring_slot. rewrite Nat.add_0_r. by apply Nat.mod_small. Qed.

Lemma ring_slot_ne N h i j : (h < N)%nat -> (i < N)%nat -> (j < N)%nat -> i <> j ->
  ring_slot N h i <> ring_slot N h j.
Proof.
  unfold ring_slot. intros Hh Hi Hj Hne E.
  pose proof (Nat.div_mod_eq (h + i) N). pose proof (Nat.div_mod_eq (h + j) N).
  rewrite E in *. assert ((h + i) / N = (h + j) / N \/ (h + i) / N < (h + j) / N \/
    (h + j) / N < (h + i) / N)%nat as [?|[?|?]] by lia; nia.
Qed.

Lemma ring_slot_S N h j : (0 < N)%nat -> ring_slot N (S h mod N) j = ring_slot N h (S j).
Proof.
  intros. unfold ring_slot. rewrite Nat.Div0.add_mod_idemp_l. f_equal. lia.
Qed.

Lemma ring_slot_wrap N h : (h < N)%nat -> ring_slot N (S h mod N) (N - 1) = h.
Proof.
  intros. rewrite ring_slot_S by lia. unfold ring_slot.
  replace (h + S (N - 1))%nat with (h + 1 * N)%nat by lia.
  rewrite Nat.Div0.mod_add. by apply Nat.mod_small.
Qed.

Lemma ring_slot_add N h i j : ring_slot N (ring_slot N h i) j = ring_slot N h (i + j).
Proof. unfold ring_slot. rewrite Nat.Div0.add_mod_idemp_l. f_equal. lia. Qed.

Section ring.
  Context {A D : Type} (N : nat) (full : A -> D -> Prop) (free : D -> Prop).

(** A slot taken after the window extends the queue. *)
Lemma ring_push h q s a d :
  ring_ok N full free h q s -> (length q < N)%nat -> full a d ->
  ring_ok N full free h (q ++ [a]) (<[ring_slot N h (length q) := d]> s).
Proof.
  intros [Hl Hh Hq Hf He] Hn Hd. split; [by rewrite length_insert|done| | |].
  - rewrite length_app. cbn. lia.
  - intros j b [Hj|[Hle Hj]]%lookup_app_Some.
    + pose proof (lookup_lt_Some _ _ _ Hj). rewrite list_lookup_insert_ne; [eauto|].
      apply ring_slot_ne; lia.
    + destruct (j - length q)%nat eqn:E; [|by destruct n]. injection Hj as <-.
      replace j with (length q) by lia. exists d. split; [|done].
      rewrite list_lookup_insert_eq; [done|]. rewrite Hl. by apply ring_slot_lt.
  - intros j Hj. rewrite length_app in Hj. cbn in Hj.
    rewrite list_lookup_insert_ne; [apply He; lia|]. apply ring_slot_ne; lia.
Qed.

(** Freeing the head slot removes the first entry. *)
Lemma ring_pop h a q s d :
  ring_ok N full free h (a :: q) s -> free d ->
  ring_ok N full free (S h mod N) q (<[h := d]> s).
Proof.
  intros [Hl Hh Hq Hf He] Hd. cbn in Hq. split.
  - by rewrite length_insert.
  - apply Nat.mod_upper_bound. lia.
  - lia.
  - intros j b Hj. rewrite ring_slot_S by lia.
    destruct (Hf (S j) b Hj) as (x & Hx & Hb). exists x. split; [|done].
    rewrite list_lookup_insert_ne; [done|]. pose proof (lookup_lt_Some _ _ _ Hj).
    rewrite <- (ring_slot_0 N h) at 1 by done. apply ring_slot_ne; lia.
  - intros j Hj. destruct (decide (j = (N - 1)%nat)) as [->|].
    + rewrite ring_slot_wrap by done. exists d. split; [|done].
      rewrite list_lookup_insert_eq; [done|lia].
    + rewrite ring_slot_S by lia. destruct (He (S j)) as (x & Hx & Hb); [cbn; lia|].
      exists x. split; [|done]. rewrite list_lookup_insert_ne; [done|].
      rewrite <- (ring_slot_0 N h) at 1 by done. apply ring_slot_ne; lia.
Qed.

(** The head slot holds the first entry, or is free when the queue is empty. *)
Lemma ring_first h a q s :
  ring_ok N full free h (a :: q) s -> exists d, s !! h = Some d /\ full a d.
Proof.
  intros H. destruct (ring_full _ _ _ _ _ _ H 0%nat a eq_refl) as (d & Hd & Ha).
  rewrite ring_slot_0 in Hd by apply H. eauto.
Qed.

Lemma ring_empty h s : ring_ok N full free h [] s -> exists d, s !! h = Some d /\ free d.
Proof.
  intros H. destruct (ring_free _ _ _ _ _ _ H 0%nat) as (d & Hd & Ha).
  { cbn. pose proof (ring_head _ _ _ _ _ _ H). lia. }
  rewrite ring_slot_0 in Hd by apply H. eauto.
Qed.

(** The slot after the window: free, or the head of a full ring. *)
Lemma ring_next_free h q s : ring_ok N full free h q s -> (length q < N)%nat ->
  exists d, s !! ring_slot N h (length q) = Some d /\ free d.
Proof. intros H ?. apply H. lia. Qed.

Lemma ring_next_full h a q s : ring_ok N full free h (a :: q) s -> length (a :: q) = N ->
  ring_slot N h (length (a :: q)) = h.
Proof.
  intros H E. pose proof (ring_head _ _ _ _ _ _ H). unfold ring_slot. rewrite E.
  replace (h + N)%nat with (h + 1 * N)%nat by lia. rewrite Nat.Div0.mod_add.
  by apply Nat.mod_small.
Qed.

Lemma ring_init s : length s = N -> (0 < N)%nat -> Forall free s -> ring_ok N full free 0 [] s.
Proof.
  intros Hl HN Hs. split; cbn; [done..|lia|done|].
  intros j Hj. destruct (lookup_lt_is_Some_2 s (ring_slot N 0 j)) as [d Hd].
  { rewrite Hl. by apply ring_slot_lt. }
  exists d. split; [done|]. by eapply Forall_lookup.
Qed.
End ring.
