(* ===== verification/Driver.v ===== *)
(** What the device drivers share: contexts in the memory of the world, which the
    device may also write, and the static log tags of the driver files. *)

From S2P Require Export Console Io Device Ring.

Open Scope Z_scope.

(** The contexts of one driver: the object a pointer [p : P] points to, and its
    address.  Between two accesses of the driver to a register the device may have
    changed the object, so it is read again after each. *)
Class CtxMem (P C W : Type) := {
  ctx_get : P -> W -> C;
  ctx_put : P -> C -> W -> W;
  ctx_address : P -> Z
}.

Definition ctx_modify {P C W} `{CtxMem P C W} (p : P) (f : C -> C) : St W unit :=
  modify (fun w => ctx_put p (f (ctx_get p w)) w).

(** A change of the object that can be undefined behaviour. *)
Definition ctx_update {P C W} `{CtxMem P C W} (p : P) (f : C -> res C) : St W unit := fun w =>
  match f (ctx_get p w) with
  | Ok c => Ok (tt, ctx_put p c w) | UB => UB | NoFuel => NoFuel
  end.

(** The static [log_tag_t *] variables, by name. *)
Class TagVars (W : Type) := {
  tag_var : string -> W -> tag_ptr;
  set_tag_var : string -> tag_ptr -> W -> W
}.

(** [if (!var) var = log_register(name, level);] *)
Definition register_once {W} `{Console W} `{TagVars W} (var name : string) (level : Z)
    : St W unit :=
  p ← gets (tag_var var);
  match p with
  | Some _ => skip
  | None => q ← klog_register name level; modify (set_tag_var var q)
  end.

(** A driver's log message. *)
Definition tag_info {W} `{Console W} `{TagVars W} (var msg : string) : St W unit :=
  p ← gets (tag_var var); klog_info p msg.

(** What these steps keep. *)
Lemma keeps_gets {W A} (P : W -> Prop) (f : W -> A) : keeps P (gets f).
Proof. by intros w a w' Hw [= _ <-]. Qed.
Lemma keeps_modify {W} (P : W -> Prop) (f : W -> W) : (forall w, P w -> P (f w)) -> keeps P (modify f).
Proof. intros Hf w a w' Hw [= _ <-]. by apply Hf. Qed.
Lemma keeps_ctx_update {P C W} `{CtxMem P C W} (Q : W -> Prop) p f :
  (forall c w, Q w -> Q (ctx_put p c w)) -> keeps Q (ctx_update p f).
Proof. intros Hf w a w' Hw. unfold ctx_update. destruct (f _); [|done..]. intros [= _ <-]. by apply Hf. Qed.
Lemma keeps_ctx_modify {P C W} `{CtxMem P C W} (Q : W -> Prop) p f :
  (forall c w, Q w -> Q (ctx_put p c w)) -> keeps Q (ctx_modify p f).
Proof. intros Hf. apply keeps_modify. intros w. apply Hf. Qed.
Lemma keeps_skip {W} (P : W -> Prop) : keeps P skip.
Proof. by intros w a w' Hw [= _ <-]. Qed.
Lemma keeps_kput {W} `{Console W} (P : W -> Prop) o :
  (forall s w, P w -> P (con_write s w)) -> keeps P (kput o).
Proof.
  intros Hc. apply keeps_bind; [apply keeps_lift|]. intros s. apply keeps_modify. apply Hc.
Qed.
#[export] Hint Resolve keeps_gets keeps_skip : keeps.

(** Computations whose every step keeps a property. *)
Ltac solve_keeps :=
  repeat first
    [ progress eauto with keeps
    | apply keeps_bind; [|intros ?]
    | apply keeps_if
    | apply keeps_ctx_update; by intros
    | apply keeps_ctx_modify; by intros
    | apply keeps_modify; by intros
    | apply keeps_kput; by intros ].

(** The world's state after a step whose outcome is known. *)
Lemma ctx_update_ok {P C W} `{CtxMem P C W} (p : P) (f : C -> res C) c w :
  f (ctx_get p w) = Ok c -> ctx_update p f w = Ok (tt, ctx_put p c w).
Proof. intros E. unfold ctx_update. by rewrite E. Qed.

(** Changes one element of an array; outside it is undefined. *)
Definition at_index {A} (l : list A) (i : Z) (f : A -> A) : res (list A) :=
  x ← rd l i; wr l i (f x).

(* ------------------------------------------------------------------ *)
(** ** A machine with one card *)

(** The driver context (shared with the device), the card's registers by offset,
    the frames it sent, and the logger. *)
Record machine {C : Type} := Machine {
  m_ctx : C;
  m_regs : Z -> Z;
  m_wire : list bytes;
  m_console : console;
  m_tag : tag_ptr
}.
Arguments machine : clear implicits.
Arguments Machine {C} _ _ _ _ _.

Definition reg_set (r : Z -> Z) (a v : Z) : Z -> Z := fun x => if decide (x = a) then v else r x.
Lemma reg_set_eq r a v : reg_set r a v a = v.
Proof. unfold reg_set. by rewrite decide_True. Qed.
Lemma reg_set_ne r a b v : a <> b -> reg_set r a v b = r b.
Proof. intros. unfold reg_set. by rewrite decide_False. Qed.
Definition with_ctx {C} (c : C) (m : machine C) : machine C :=
  Machine c (m_regs m) (m_wire m) (m_console m) (m_tag m).
Definition poke {C} (offset v : Z) (m : machine C) : machine C :=
  Machine (m_ctx m) (reg_set (m_regs m) offset v) (m_wire m) (m_console m) (m_tag m).

#[export] Instance machine_console {C} : Console (machine C) := {
  con_write s m := Machine (m_ctx m) (m_regs m) (m_wire m) (con_write s (m_console m)) (m_tag m);
  con_log m := con_log (m_console m);
  con_set_log st m :=
    Machine (m_ctx m) (m_regs m) (m_wire m) (con_set_log st (m_console m)) (m_tag m)
}.
#[export] Instance machine_console_laws {C} : ConsoleLaws (machine C).
Proof.
  split; [done|..].
  - intros [c r x [o l] t]. unfold con_write. cbn. by rewrite app_nil_r.
  - intros s u [c r x [o l] t]. unfold con_write. cbn. by rewrite app_assoc.
Qed.
#[export] Instance machine_tags {C} : TagVars (machine C) := {
  tag_var _ m := m_tag m;
  set_tag_var _ t m := Machine (m_ctx m) (m_regs m) (m_wire m) (m_console m) t
}.

(** Registering the tag and logging change neither context nor registers. *)
Lemma register_ok {C} var name level (m : machine C) :
  exists m1, register_once var name level m = Ok (tt, m1) /\ m_ctx m1 = m_ctx m /\ m_regs m1 = m_regs m /\ m_wire m1 = m_wire m.
Proof.
  unfold register_once. erewrite St_bind_ok by reflexivity. cbn [tag_var machine_tags].
  destruct (m_tag m); [by exists m|]. unfold klog_register.
  destruct (log_register (con_log m) (str name) level) as [p st] eqn:E.
  eexists. erewrite St_bind_ok by (cbn beta; rewrite E; reflexivity). by split.
Qed.

(** The tags already registered stay what they are. *)
Definition has_tag {W} `{Console W} (p : tag_ptr) (t : log_tag) (w : W) : Prop :=
  get_tag (con_log w) p = Some t.
Lemma keeps_register {C} p t var name level :
  keeps (has_tag (W := machine C) p t) (register_once var name level).
Proof.
  apply keeps_bind; [apply keeps_gets|]. intros [q|]; [apply keeps_skip|].
  apply keeps_bind; [|intros; by apply keeps_modify].
  intros m a m' Hm. unfold klog_register.
  pose proof (log_register_get _ (str name) level _ _ Hm) as Hg.
  destruct (log_register _ _ _). by intros [= _ <-].
Qed.
Lemma keeps_tag_info {C} p t var msg : keeps (has_tag (W := machine C) p t) (tag_info var msg).
Proof.
  apply keeps_bind; [apply keeps_gets|]. intros q m a m' Hm E.
  apply (keeps_kput (has_tag p t) (log_info (klog_tag q m) (str msg))) in E; [done|by intros|done].
Qed.

Lemma tag_info_ok {C} var msg (m : machine C) : exists m1, tag_info var msg m = Ok (tt, m1) /\ m_ctx m1 = m_ctx m /\ m_regs m1 = m_regs m /\ m_wire m1 = m_wire m.
Proof.
  unfold tag_info. erewrite St_bind_ok by reflexivity.
  destruct (klog_msg_ok (tag_var var m) LOG_INFO msg m) as [s E]; [done|].
  change (klog_info ?p ?t ?w) with (klog_msg p LOG_INFO t w). rewrite E. by eexists.
Qed.

(* ------------------------------------------------------------------ *)
(** ** Arrays of descriptors and buffers *)

Lemma at_index_ok {D} (l : list D) i f x :
  0 <= i -> l !! Z.to_nat i = Some x -> at_index l i f = Ok (<[Z.to_nat i := f x]> l).
Proof.
  intros Hi Hx. unfold at_index. rewrite (rd_ok l i x) by done. cbn [mbind res_bind].
  apply wr_insert. pose proof (lookup_lt_Some _ _ _ Hx). llia.
Qed.

(** What was stored is loaded back. *)
Lemma load_store_at {A} (b f b' : list A) o : store b o f = Ok b' -> load b' o (len f) = Ok f.
Proof. intros (h & m & t & _ & <- & _ & ->)%store_inv. apply load_ok. Qed.

Lemma load_store (b f b' : bytes) : store b 0 f = Ok b' -> load b' 0 (len f) = Ok f.
Proof. apply load_store_at. Qed.

(** A pair of parallel arrays. *)
Lemma zip_lookup {A B} (l : list A) (k : list B) i x y :
  zip l k !! i = Some (x, y) <-> l !! i = Some x /\ k !! i = Some y.
Proof.
  rewrite lookup_zip_with_Some. split; [by intros (a & c & [= -> ->] & ?)|].
  intros [? ?]. by exists x, y.
Qed.

Lemma zip_insert_both {A B} (l : list A) (k : list B) i x y :
  zip (<[i := x]> l) (<[i := y]> k) = <[i := (x, y)]> (zip l k).
Proof. symmetry. exact (insert_zip_with pair l k i x y). Qed.

Lemma zip_insert_l {A B} (l : list A) (k : list B) i x y :
  k !! i = Some y -> zip (<[i := x]> l) k = <[i := (x, y)]> (zip l k).
Proof. intros Hk. rewrite <- zip_insert_both. by rewrite (list_insert_id k i y). Qed.

(** Ring indices kept as machine integers. *)
Lemma ring_slot_Z N h j : 0 <= h -> 0 < N ->
  ring_slot (Z.to_nat N) (Z.to_nat h) j = Z.to_nat ((h + Z.of_nat j) mod N).
Proof.
  intros Hh HN. unfold ring_slot. rewrite Z2Nat.inj_mod by lia.
  f_equal. rewrite Z2Nat.inj_add by lia. lia.
Qed.

Lemma ring_next_Z N h : 0 <= h -> 0 < N ->
  (S (Z.to_nat h) mod Z.to_nat N)%nat = Z.to_nat ((h + 1) mod N).
Proof. intros Hh HN. rewrite Z2Nat.inj_mod by lia. f_equal. lia. Qed.
