(* ===== verification/E1000.v ===== *)
(** The Intel 82540EM driver (drivers/e1000): initialisation, the receive and
    transmit descriptor rings, and the rings' protocol with the device. *)

From S2P Require Export Driver Netdev.

Open Scope Z_scope.

Definition PCI_VENDOR_ID_INTEL : Z := 0x8086.
Definition E1000_DEVICE_ID_82540EM : Z := 0x100E.
Definition E1000_CTRL : Z := 0x00000.
Definition E1000_ICR : Z := 0x000C0.
Definition E1000_IMS : Z := 0x000D0.
Definition E1000_RCTL : Z := 0x00100.
Definition E1000_TCTL : Z := 0x00400.
Definition E1000_RDBAL : Z := 0x02800.
Definition E1000_RDBAH : Z := 0x02804.
Definition E1000_RDLEN : Z := 0x02808.
Definition E1000_RDH : Z := 0x02810.
Definition E1000_RDT : Z := 0x02818.
Definition E1000_TDBAL : Z := 0x03800.
Definition E1000_TDBAH : Z := 0x03804.
Definition E1000_TDLEN : Z := 0x03808.
Definition E1000_TDH : Z := 0x03810.
Definition E1000_TDT : Z := 0x03818.
Definition E1000_RAL : Z := 0x05400.
Definition E1000_RAH : Z := 0x05404.
Definition E1000_CTRL_SLU : Z := 2 ^ 6.
Definition E1000_RCTL_EN : Z := 2 ^ 1.
Definition E1000_RCTL_UPE : Z := 2 ^ 3.
Definition E1000_RCTL_MPE : Z := 2 ^ 4.
Definition E1000_RCTL_BAM : Z := 2 ^ 15.
Definition E1000_RCTL_BSIZE_2K : Z := 0.
Definition E1000_TCTL_EN : Z := 2 ^ 1.
Definition E1000_TCTL_PSP : Z := 2 ^ 3.
Definition E1000_RXD_STAT_DD : Z := 2 ^ 0.
Definition E1000_RXD_STAT_EOP : Z := 2 ^ 1.
Definition E1000_TXD_CMD_EOP : Z := 2 ^ 0.
Definition E1000_TXD_CMD_RS : Z := 2 ^ 3.
Definition E1000_TXD_STAT_DD : Z := 2 ^ 0.
Definition E1000_NUM_RX_DESC : Z := 8.
Definition E1000_NUM_TX_DESC : Z := 8.
Definition E1000_RX_BUFFER_SIZE : Z := 2048.
Definition E1000_TX_BUFFER_SIZE : Z := 2048.

(** [e1000_rx_desc_t] and [e1000_tx_desc_t], 16 packed bytes each. *)
Record rx_desc := RxDesc {
  rx_addr : Z; rx_length : Z; rx_checksum : Z; rx_status : Z; rx_errors : Z; rx_special : Z }.
Record tx_desc := TxDesc {
  tx_addr : Z; tx_length : Z; tx_cso : Z; tx_cmd : Z; tx_status : Z; tx_css : Z; tx_special : Z }.
Definition sizeof_rx_desc : Z := 16.
Definition sizeof_tx_desc : Z := 16.

Definition rx_desc_setup (addr status : Z) (d : rx_desc) : rx_desc :=
  RxDesc addr (rx_length d) (rx_checksum d) status (rx_errors d) (rx_special d).
Definition rx_desc_status (status : Z) (d : rx_desc) : rx_desc :=
  rx_desc_setup (rx_addr d) status d.
Definition tx_desc_setup (addr status cmd : Z) (d : tx_desc) : tx_desc :=
  TxDesc addr (tx_length d) (tx_cso d) cmd status (tx_css d) (tx_special d).
Definition tx_desc_send (length cmd status : Z) (d : tx_desc) : tx_desc :=
  TxDesc (tx_addr d) length (tx_cso d) cmd status (tx_css d) (tx_special d).

(** [e1000_t]. *)
Record e1000 := E1000Ctx {
  mmio_base : Z;
  initialized : bool;
  mac_addr : bytes;
  rx_descs : list rx_desc;
  rx_buffers : list bytes;
  rx_current : Z;
  tx_descs : list tx_desc;
  tx_buffers : list bytes;
  tx_current : Z
}.

(** Byte offsets of the fields of [e1000_t] whose addresses the device is told:
    the arrays are 16-byte aligned. *)
Definition offsetof_rx_descs : Z := 16.
Definition offsetof_rx_buffers : Z := offsetof_rx_descs + E1000_NUM_RX_DESC * sizeof_rx_desc.
Definition offsetof_tx_descs : Z := offsetof_rx_buffers + E1000_NUM_RX_DESC * E1000_RX_BUFFER_SIZE + 16.
Definition offsetof_tx_buffers : Z := offsetof_tx_descs + E1000_NUM_TX_DESC * sizeof_tx_desc.

Definition set_base (base : Z) (c : e1000) : e1000 :=
  E1000Ctx base (initialized c) (mac_addr c) (rx_descs c) (rx_buffers c) 0
    (tx_descs c) (tx_buffers c) 0.
Definition set_mac (mac : bytes) (c : e1000) : e1000 :=
  E1000Ctx (mmio_base c) (initialized c) mac (rx_descs c) (rx_buffers c) (rx_current c)
    (tx_descs c) (tx_buffers c) (tx_current c).
Definition set_initialized (c : e1000) : e1000 :=
  E1000Ctx (mmio_base c) true (mac_addr c) (rx_descs c) (rx_buffers c) (rx_current c)
    (tx_descs c) (tx_buffers c) (tx_current c).
Definition set_rx_descs (ds : list rx_desc) (c : e1000) : e1000 :=
  E1000Ctx (mmio_base c) (initialized c) (mac_addr c) ds (rx_buffers c) (rx_current c)
    (tx_descs c) (tx_buffers c) (tx_current c).
Definition set_rx_current (n : Z) (c : e1000) : e1000 :=
  E1000Ctx (mmio_base c) (initialized c) (mac_addr c) (rx_descs c) (rx_buffers c) n
    (tx_descs c) (tx_buffers c) (tx_current c).
Definition set_rx_buffers (bs : list bytes) (c : e1000) : e1000 :=
  E1000Ctx (mmio_base c) (initialized c) (mac_addr c) (rx_descs c) bs (rx_current c)
    (tx_descs c) (tx_buffers c) (tx_current c).
Definition set_tx_descs (ds : list tx_desc) (c : e1000) : e1000 :=
  E1000Ctx (mmio_base c) (initialized c) (mac_addr c) (rx_descs c) (rx_buffers c) (rx_current c)
    ds (tx_buffers c) (tx_current c).
Definition set_tx_buffers (bs : list bytes) (c : e1000) : e1000 :=
  E1000Ctx (mmio_base c) (initialized c) (mac_addr c) (rx_descs c) (rx_buffers c) (rx_current c)
    (tx_descs c) bs (tx_current c).
Definition set_tx_current (n : Z) (c : e1000) : e1000 :=
  E1000Ctx (mmio_base c) (initialized c) (mac_addr c) (rx_descs c) (rx_buffers c) (rx_current c)
    (tx_descs c) (tx_buffers c) n.

Section e1000.
  Context {W P : Type} `{Console W} `{TagVars W} `{Bus W} `{CtxMem P e1000 W}.

Definition e1000_read32 (ctx : P) (offset : Z) : St W Z :=
  base ← gets (fun w => mmio_base (ctx_get ctx w));
  mmio_read32 (u64 (base + offset)).
Definition e1000_write32 (ctx : P) (offset value : Z) : St W unit :=
  base ← gets (fun w => mmio_base (ctx_get ctx w));
  mmio_write32 (u64 (base + offset)) value.

Definition e1000_read_mac_address (ctx : P) : St W unit :=
  base ← gets (fun w => mmio_base (ctx_get ctx w));
  if base =? 0 then ctx_modify ctx (set_mac (replicate 6 0)) else
  ral ← e1000_read32 ctx E1000_RAL;
  rah ← e1000_read32 ctx E1000_RAH;
  ctx_modify ctx (set_mac
    [u8 ral; u8 (Z.shiftr ral 8); u8 (Z.shiftr ral 16); u8 (Z.shiftr ral 24);
     u8 rah; u8 (Z.shiftr rah 8)]).

(** The delay loop only spends time; the descriptor loops. *)
Definition setup_rx_descs (ctx : P) : St W unit :=
  for_n (Z.to_nat E1000_NUM_RX_DESC) (fun i _ =>
    ctx_update ctx (fun c =>
      ds ← at_index (rx_descs c) (Z.of_nat i)
             (rx_desc_setup (ctx_address (W := W) ctx + offsetof_rx_buffers
                             + Z.of_nat i * E1000_RX_BUFFER_SIZE) 0);
      mret (set_rx_descs ds c))) tt.
Definition setup_tx_descs (ctx : P) : St W unit :=
  for_n (Z.to_nat E1000_NUM_TX_DESC) (fun i _ =>
    ctx_update ctx (fun c =>
      ds ← at_index (tx_descs c) (Z.of_nat i)
             (tx_desc_setup (ctx_address (W := W) ctx + offsetof_tx_buffers
                             + Z.of_nat i * E1000_TX_BUFFER_SIZE) E1000_TXD_STAT_DD 0);
      mret (set_tx_descs ds c))) tt.

Definition e1000_init_context (ctx : option P) (dev : option device) : St W Z :=
  match ctx, dev with
  | Some ctx, Some dev =>
      _ ← register_once "e1000_log" "e1000" LOG_INFO;
      _ ← ctx_modify ctx (set_base (reg_base dev));
      ctrl ← e1000_read32 ctx E1000_CTRL;
      _ ← e1000_write32 ctx E1000_CTRL (Z.lor ctrl E1000_CTRL_SLU);
      _ ← e1000_read_mac_address ctx;
      _ ← setup_rx_descs ctx;
      let rx_ring := ctx_address (W := W) ctx + offsetof_rx_descs in
      _ ← e1000_write32 ctx E1000_RDBAL (u32 rx_ring);
      _ ← e1000_write32 ctx E1000_RDBAH (u32 (Z.shiftr rx_ring 32));
      _ ← e1000_write32 ctx E1000_RDLEN (E1000_NUM_RX_DESC * sizeof_rx_desc);
      _ ← e1000_write32 ctx E1000_RDH 0;
      _ ← e1000_write32 ctx E1000_RDT (E1000_NUM_RX_DESC - 1);
      _ ← e1000_read32 ctx E1000_ICR;
      _ ← e1000_write32 ctx E1000_IMS 0;
      _ ← setup_tx_descs ctx;
      let tx_ring := ctx_address (W := W) ctx + offsetof_tx_descs in
      _ ← e1000_write32 ctx E1000_TDBAL (u32 tx_ring);
      _ ← e1000_write32 ctx E1000_TDBAH (u32 (Z.shiftr tx_ring 32));
      _ ← e1000_write32 ctx E1000_TDLEN (E1000_NUM_TX_DESC * sizeof_tx_desc);
      _ ← e1000_write32 ctx E1000_TDH 0;
      _ ← e1000_write32 ctx E1000_TDT 0;
      _ ← e1000_write32 ctx E1000_TCTL (Z.lor E1000_TCTL_EN E1000_TCTL_PSP);
      _ ← e1000_write32 ctx E1000_RCTL
            (Z.lor (Z.lor (Z.lor (Z.lor E1000_RCTL_EN E1000_RCTL_UPE) E1000_RCTL_MPE)
                      E1000_RCTL_BAM) E1000_RCTL_BSIZE_2K);
      _ ← ctx_modify ctx set_initialized;
      _ ← tag_info "e1000_log" "Driver initialized successfully
";
      mret 0
  | _, _ => mret (-1)
  end.

(** e1000_deinit_context does nothing. *)
Definition e1000_deinit_context (ctx : option P) : St W unit := skip.

Definition e1000_id_table : list device_id_entry :=
  [DeviceId None PCI_VENDOR_ID_INTEL E1000_DEVICE_ID_82540EM
     (Some (str "Intel 82540EM Gigabit Ethernet"));
   DeviceId None 0 0 None].

(** [reg]: the device registry in the world. *)
Definition e1000_driver (reg : W -> registry) : driver := {|
  drv_name := str "e1000"; drv_version := str "0.1.0"; drv_type := DRIVER_TYPE_NETWORK;
  id_table := Some e1000_id_table;
  init_context := Some (fun ctx i w =>
    d ← slot (reg w) i; e1000_init_context (Some ctx) (Some d) w);
  deinit_context := Some (fun ctx w => '(_, w) ← e1000_deinit_context (Some ctx) w; mret w) |}.

Definition e1000_get_mac (ctx : option P) (mac : option bytes) : St W (Z * option bytes) :=
  match ctx, mac with
  | Some ctx, Some mac =>
      c ← gets (ctx_get ctx);
      if negb (initialized c) then mret (-1, Some mac) else
      mac ← lift (memcpy mac 0 (mac_addr c) 0 6);
      mret (0, Some mac)
  | _, _ => mret (-1, mac)
  end.

(** [desc->status = 0] on the current descriptor. *)
Definition clear_current (c : e1000) : res e1000 :=
  ds ← at_index (rx_descs c) (rx_current c) (rx_desc_status 0);
  mret (set_rx_descs ds c).
Definition next_rx (c : e1000) : e1000 :=
  set_rx_current (u16 ((rx_current c + 1) mod E1000_NUM_RX_DESC)) c.

(** [buffer]: an object and an offset into it, or NULL; [received_length]: what
    the pointed-to variable holds, or NULL.  Both are returned as left. *)
Definition e1000_receive (ctx : option P) (buffer : option (bytes * Z)) (buffer_size : Z)
    (received_length : option Z) : St W (Z * option (bytes * Z) * option Z) :=
  let fail := (-1, buffer, received_length) in
  match ctx, buffer, received_length with
  | Some ctx, Some (b, o), Some _ =>
      c ← gets (ctx_get ctx);
      if negb (initialized c) then mret fail else
      desc ← lift (rd (rx_descs c) (rx_current c));
      if Z.land (rx_status desc) E1000_RXD_STAT_DD =? 0 then mret fail else
      if Z.land (rx_status desc) E1000_RXD_STAT_EOP =? 0 then
        _ ← ctx_update ctx (fun c => c ← clear_current c; mret (next_rx c));
        mret fail
      else
      let pkt_len := rx_length desc in
      if buffer_size <? pkt_len then
        _ ← ctx_update ctx (fun c => c ← clear_current c; mret (next_rx c));
        mret fail
      else
      b ← lift (src ← rd (rx_buffers c) (rx_current c);
                memcpy b o src 0 (Z.to_nat pkt_len));
      _ ← ctx_update ctx clear_current;
      _ ← e1000_write32 ctx E1000_RDT (rx_current c);
      _ ← ctx_modify ctx next_rx;
      mret (0, Some (b, o), Some pkt_len)
  | _, _, _ => mret fail
  end.

Definition e1000_transmit (ctx : option P) (buffer : option (bytes * Z)) (length : Z) : St W Z :=
  match ctx, buffer with
  | Some ctx, Some (b, o) =>
      c ← gets (ctx_get ctx);
      if negb (initialized c) then mret (-1) else
      if E1000_TX_BUFFER_SIZE <? length then mret (-1) else
      desc ← lift (rd (tx_descs c) (tx_current c));
      if Z.land (tx_status desc) E1000_TXD_STAT_DD =? 0 then mret (-1) else
      _ ← ctx_update ctx (fun c =>
            dst ← rd (tx_buffers c) (tx_current c);
            dst ← memcpy dst 0 b o (Z.to_nat length);
            bs ← wr (tx_buffers c) (tx_current c) dst;
            ds ← at_index (tx_descs c) (tx_current c)
                   (tx_desc_send (u16 length) (Z.lor E1000_TXD_CMD_EOP E1000_TXD_CMD_RS) 0);
            mret (set_tx_descs ds (set_tx_buffers bs c)));
      let next_tx := u16 ((tx_current c + 1) mod E1000_NUM_TX_DESC) in
      _ ← ctx_modify ctx (set_tx_current next_tx);
      _ ← e1000_write32 ctx E1000_TDT next_tx;
      mret 0
  | _, _ => mret (-1)
  end.
End e1000.

(* ------------------------------------------------------------------ *)
(** ** The device: what the 82540EM manual says of the two rings *)

(** A machine with one card, whose driver context the device shares. *)
Abbreviation machine := (Driver.machine e1000).

Section card.
  (** The addresses of the context and of the card's registers. *)
  Context (A B : Z).

#[local] Instance card_ctx : CtxMem unit e1000 machine := {
  ctx_get _ := m_ctx;
  ctx_put _ := with_ctx;
  ctx_address _ := A
}.
(** Registers hold what was last written; only the device's own steps, below,
    move the heads of the rings. *)
#[local] Instance card_bus : Bus machine := {
  bus_read _ addr m := Ok (u32 (m_regs m (addr - B)), m);
  bus_write _ addr v m := Ok (tt, poke (addr - B) v m)
}.

Definition reg64 (lo hi : Z) (m : machine) : Z := m_regs m lo + m_regs m hi * 2 ^ 32.
Definition ring_size (reg : Z) (m : machine) : Z := m_regs m reg / 16.
Definition tx_buffer_addr (i : Z) : Z := A + offsetof_tx_buffers + i * E1000_TX_BUFFER_SIZE.
Definition rx_buffer_addr (i : Z) : Z := A + offsetof_rx_buffers + i * E1000_RX_BUFFER_SIZE.

(** What can be observed of the driver and the device. *)
Inductive event :=
  | Transmit (f : bytes) (result : Z)
  | Receive (buffer_size : Z) (got : option bytes)
  | Sent (f : bytes)
  | Arrived (f : bytes) (eop : bool).

(** The device's steps.  The transmitter, when enabled and while head and tail
    differ, sends the buffer of the descriptor at the head, sets its DD bit and
    advances the head.  The receiver, when enabled and while head and tail differ,
    writes what arrives into the buffer of the descriptor at the head, sets length,
    DD and, at the end of the packet, EOP, and advances the head. *)
Inductive hw_step : machine -> event -> machine -> Prop :=
  | hw_sent m h d i buf f :
      h = m_regs m E1000_TDH -> h <> m_regs m E1000_TDT ->
      Z.testbit (m_regs m E1000_TCTL) 1 = true ->
      reg64 E1000_TDBAL E1000_TDBAH m = A + offsetof_tx_descs ->
      tx_descs (m_ctx m) !! Z.to_nat h = Some d ->
      tx_addr d = tx_buffer_addr (Z.of_nat i) ->
      tx_buffers (m_ctx m) !! i = Some buf ->
      load buf 0 (tx_length d) = Ok f ->
      hw_step m (Sent f)
        (Machine
           (set_tx_descs (<[Z.to_nat h := TxDesc (tx_addr d) (tx_length d) (tx_cso d) (tx_cmd d)
                              (Z.lor (tx_status d) E1000_TXD_STAT_DD) (tx_css d) (tx_special d)]>
                            (tx_descs (m_ctx m))) (m_ctx m))
           (reg_set (m_regs m) E1000_TDH ((h + 1) mod ring_size E1000_TDLEN m))
           (m_wire m ++ [f]) (m_console m) (m_tag m))
  | hw_arrived m h d i buf buf' f (eop : bool) :
      h = m_regs m E1000_RDH -> h <> m_regs m E1000_RDT ->
      Z.testbit (m_regs m E1000_RCTL) 1 = true ->
      reg64 E1000_RDBAL E1000_RDBAH m = A + offsetof_rx_descs ->
      is_bytes f -> len f <= E1000_RX_BUFFER_SIZE ->
      rx_descs (m_ctx m) !! Z.to_nat h = Some d ->
      rx_addr d = rx_buffer_addr (Z.of_nat i) ->
      rx_buffers (m_ctx m) !! i = Some buf ->
      store buf 0 f = Ok buf' ->
      hw_step m (Arrived f eop)
        (Machine
           (set_rx_descs (<[Z.to_nat h := RxDesc (rx_addr d) (len f) (rx_checksum d)
                              (Z.lor E1000_RXD_STAT_DD (if eop then E1000_RXD_STAT_EOP else 0))
                              (rx_errors d) (rx_special d)]> (rx_descs (m_ctx m)))
              (set_rx_buffers (<[i := buf']> (rx_buffers (m_ctx m))) (m_ctx m)))
           (reg_set (m_regs m) E1000_RDH ((h + 1) mod ring_size E1000_RDLEN m))
           (m_wire m) (m_console m) (m_tag m)).

(* ------------------------------------------------------------------ *)
(** ** The specification: two bounded queues *)

Record queues := Queues {
  to_send : list bytes;               (* accepted, not yet sent *)
  arrived : list (bytes * bool);      (* arrived, not yet received *)
  sent : list bytes
}.

Inductive spec_step : queues -> event -> queues -> Prop :=
  | q_accept t r s f : (length t < 8)%nat -> len f <= E1000_TX_BUFFER_SIZE ->
      spec_step (Queues t r s) (Transmit f 0) (Queues (t ++ [f]) r s)
  | q_refuse t r s f : length t = 8%nat \/ E1000_TX_BUFFER_SIZE < len f ->
      spec_step (Queues t r s) (Transmit f (-1)) (Queues t r s)
  | q_sent t r s f : spec_step (Queues (f :: t) r s) (Sent f) (Queues t r (s ++ [f]))
  | q_arrived t r s f eop : (length r < 7)%nat ->
      spec_step (Queues t r s) (Arrived f eop) (Queues t (r ++ [(f, eop)]) s)
  | q_received t r s f n : len f <= n ->
      spec_step (Queues t ((f, true) :: r) s) (Receive n (Some f)) (Queues t r s)
  | q_nothing t s n : spec_step (Queues t [] s) (Receive n None) (Queues t [] s)
  | q_dropped t r s f eop n : eop = false \/ n < len f ->
      spec_step (Queues t ((f, eop) :: r) s) (Receive n None) (Queues t r s).

(** A descriptor and its buffer that hold a frame, or are free. *)
Definition tx_full (f : bytes) (x : tx_desc * bytes) : Prop :=
  Z.land (tx_status x.1) E1000_TXD_STAT_DD = 0 /\ tx_length x.1 = len f /\
  load x.2 0 (len f) = Ok f.
Definition tx_free (x : tx_desc * bytes) : Prop :=
  Z.land (tx_status x.1) E1000_TXD_STAT_DD <> 0.
Definition rx_full (f : bytes * bool) (x : rx_desc * bytes) : Prop :=
  Z.land (rx_status x.1) E1000_RXD_STAT_DD <> 0 /\
  (Z.land (rx_status x.1) E1000_RXD_STAT_EOP =? 0) = negb f.2 /\
  rx_length x.1 = len f.1 /\ load x.2 0 (len f.1) = Ok f.1 /\ is_bytes f.1.
Definition rx_free (x : rx_desc * bytes) : Prop :=
  Z.land (rx_status x.1) E1000_RXD_STAT_DD = 0.

(** The registers as e1000_init_context leaves them. *)
Definition configured (m : machine) : Prop :=
  reg64 E1000_TDBAL E1000_TDBAH m = A + offsetof_tx_descs /\
  reg64 E1000_RDBAL E1000_RDBAH m = A + offsetof_rx_descs /\
  m_regs m E1000_TDLEN = 128 /\ m_regs m E1000_RDLEN = 128 /\
  Z.testbit (m_regs m E1000_TCTL) 1 = true /\ Z.testbit (m_regs m E1000_RCTL) 1 = true.

(** The sizes of the context's arrays. *)
Record sized (c : e1000) : Prop := Sized {
  rx_descs_len : length (rx_descs c) = 8%nat;
  rx_buffers_len : length (rx_buffers c) = 8%nat;
  tx_descs_len : length (tx_descs c) = 8%nat;
  tx_buffers_len : length (tx_buffers c) = 8%nat;
  rx_buffers_size : Forall (fun b => len b = E1000_RX_BUFFER_SIZE) (rx_buffers c);
  tx_buffers_size : Forall (fun b => len b = E1000_TX_BUFFER_SIZE) (tx_buffers c)
}.

(** A machine whose memory and registers represent the two queues. *)
Record represents (m : machine) (q : queues) : Prop := Represents {
  rep_init : initialized (m_ctx m) = true;
  rep_base : mmio_base (m_ctx m) = B;
  rep_configured : configured m;
  rep_sized : sized (m_ctx m);
  rep_wire : m_wire m = sent q;
  rep_tx_addr : forall i d, tx_descs (m_ctx m) !! i = Some d ->
    tx_addr d = tx_buffer_addr (Z.of_nat i);
  rep_rx_addr : forall i d, rx_descs (m_ctx m) !! i = Some d ->
    rx_addr d = rx_buffer_addr (Z.of_nat i);
  rep_tdh : 0 <= m_regs m E1000_TDH < 8;
  rep_tx : ring_ok 8 tx_full tx_free (Z.to_nat (m_regs m E1000_TDH)) (to_send q)
             (zip (tx_descs (m_ctx m)) (tx_buffers (m_ctx m)));
  rep_tdt : m_regs m E1000_TDT = tx_current (m_ctx m);
  rep_tail : tx_current (m_ctx m) = (m_regs m E1000_TDH + len (to_send q)) mod 8;
  rep_rxc : 0 <= rx_current (m_ctx m) < 8;
  rep_rx : ring_ok 8 rx_full rx_free (Z.to_nat (rx_current (m_ctx m))) (arrived q)
             (zip (rx_descs (m_ctx m)) (rx_buffers (m_ctx m)));
  rep_rdh : m_regs m E1000_RDH = (rx_current (m_ctx m) + len (arrived q)) mod 8;
  rep_rdt : 0 <= m_regs m E1000_RDT < 8;
  rep_room : (m_regs m E1000_RDT - m_regs m E1000_RDH) mod 8 + len (arrived q) <= 7
}.

(* ------------------------------------------------------------------ *)
(** ** The driver keeps the representation *)

  Hypothesis HB : 0 < B /\ B + 0x6000 <= 2 ^ 64.
  Hypothesis HA : 0 <= A /\ A + 0x9000 <= 2 ^ 64.

Lemma write_ok (m : machine) off v : mmio_base (m_ctx m) = B -> 0 <= off < 0x6000 -> is_u32 v ->
  e1000_write32 tt off v m = Ok (tt, poke off v m).
Proof using HB.
  intros Hm Ho Hv.
  change (e1000_write32 tt off v m) with (mmio_write32 (u64 (mmio_base (m_ctx m) + off)) v m).
  rewrite Hm. unfold mmio_write32. cbn [bus_write card_bus].
  rewrite (u64_id (B + off)), u64_id, (u32_id v) by (unfold is_u64; lia || done).
  do 2 f_equal. unfold poke. f_equal. f_equal. lia.
Qed.

Lemma read_ok (m : machine) off : mmio_base (m_ctx m) = B -> 0 <= off < 0x6000 ->
  e1000_read32 tt off m = Ok (u32 (m_regs m off), m).
Proof using HB.
  intros Hm Ho.
  change (e1000_read32 tt off m) with (mmio_read32 (u64 (mmio_base (m_ctx m) + off)) m).
  rewrite Hm. unfold mmio_read32. cbn [bus_read card_bus].
  rewrite (u64_id (B + off)), u64_id by (unfold is_u64; lia).
  by replace (B + off - B) with off by lia.
Qed.

(** The slot of the next frame to transmit. *)
Lemma tx_slot m q : represents m q ->
  ring_slot 8 (Z.to_nat (m_regs m E1000_TDH)) (length (to_send q))
  = Z.to_nat (tx_current (m_ctx m)) /\ 0 <= tx_current (m_ctx m) < 8.
Proof using.
  intros R. pose proof (rep_tdh _ _ R). rewrite (rep_tail _ _ R).
  split; [|apply Z.mod_pos_bound; lia]. by rewrite (ring_slot_Z 8) by lia.
Qed.

(** The machine after a frame was put into the slot at the tail. *)
Definition queued (d : tx_desc) (buf f : bytes) (m : machine) : machine :=
  let i := tx_current (m_ctx m) in
  poke E1000_TDT ((i + 1) mod 8)
    (with_ctx (set_tx_current ((i + 1) mod 8)
       (set_tx_descs (<[Z.to_nat i := tx_desc_send (len f) 9 0 d]> (tx_descs (m_ctx m)))
          (set_tx_buffers (<[Z.to_nat i := buf]> (tx_buffers (m_ctx m))) (m_ctx m)))) m).

Lemma queued_represents m q d old buf f :
  represents m q -> (length (to_send q) < 8)%nat ->
  tx_descs (m_ctx m) !! Z.to_nat (tx_current (m_ctx m)) = Some d ->
  store old 0 f = Ok buf -> len old = E1000_TX_BUFFER_SIZE ->
  represents (queued d buf f m) (Queues (to_send q ++ [f]) (arrived q) (sent q)).
Proof using.
  intros R Hq Hd Hs Hold. pose proof R as R'. destruct (tx_slot m q R) as [Hslot Hcur].
  pose proof (store_len _ _ _ _ Hs) as Hlen.
  destruct R, rep_sized0. unfold queued.
  split; cbn [m_ctx m_regs m_wire poke with_ctx]; try done; cbn; try done.
  - split; cbn; rewrite ?length_insert; try done.
    apply Forall_insert; [done|]. by rewrite Hlen.
  - intros i d'. destruct (decide (i = Z.to_nat (tx_current (m_ctx m)))) as [->|].
    + rewrite list_lookup_insert_eq by (by eapply lookup_lt_Some). intros [= <-].
      exact (rep_tx_addr0 _ _ Hd).
    + rewrite list_lookup_insert_ne by done. apply rep_tx_addr0.
  - rewrite zip_insert_both, <- Hslot. apply ring_push; [done|done|].
    split; [done|]. split; [done|]. by eapply load_store.
  - change ((tx_current (m_ctx m) + 1) mod 8
      = (m_regs m E1000_TDH + len (to_send q ++ [f])) mod 8).
    rewrite rep_tail0, len_app, len_cons, len_nil, Zplus_mod_idemp_l. f_equal. lia.
Qed.

Lemma transmit_accept m q b o n f :
  represents m q -> load b o n = Ok f -> n <= E1000_TX_BUFFER_SIZE ->
  (length (to_send q) < 8)%nat ->
  exists m', e1000_transmit (Some tt) (Some (b, o)) n m = Ok (0, m') /\
    represents m' (Queues (to_send q ++ [f]) (arrived q) (sent q)) /\
    forall x, x <> E1000_TDT -> m_regs m' x = m_regs m x.
Proof using HB.
  intros R Hf Hn Hq. destruct (tx_slot m q R) as [Hslot Hcur].
  pose proof (load_len _ _ _ _ Hf) as Hfl. pose proof (len_nonneg f).
  destruct (ring_next_free _ _ _ _ _ _ (rep_tx _ _ R) Hq) as ([d old] & Hz & Hfree).
  rewrite Hslot in Hz. apply zip_lookup in Hz as [Hd Hold].
  assert (len old = E1000_TX_BUFFER_SIZE) as Hol.
  { pose proof (tx_buffers_size _ (rep_sized _ _ R)) as HF. rewrite Forall_lookup in HF. eauto. }
  destruct (store_in_range old 0 f) as [buf Hbuf]; [lia|lia|].
  exists (queued d buf f m). split;
    [|split; [by eapply queued_represents|intros x Hx; by apply reg_set_ne]].
  unfold e1000_transmit. erewrite St_bind_ok by reflexivity. cbn [ctx_get card_ctx].
  rewrite (rep_init _ _ R). cbn [negb].
  destruct (Z.ltb_spec E1000_TX_BUFFER_SIZE n); [lia|].
  erewrite St_bind_ok by (apply lift_ok; apply (rd_ok _ _ d); [lia|exact Hd]).
  unfold tx_free in Hfree. cbn [fst] in Hfree. destruct (Z.eqb_spec (Z.land (tx_status d) E1000_TXD_STAT_DD) 0); [done|].
  erewrite St_bind_ok; cycle 1.
  { apply ctx_update_ok. cbn [ctx_get card_ctx].
    rewrite (rd_ok _ _ old) by (done || lia). cbn [mbind res_bind].
    rewrite (memcpy_store _ _ _ _ _ f) by (rewrite ?Z2Nat.id by lia; done || lia).
    rewrite Hbuf. cbn [mbind res_bind].
    rewrite wr_insert by (pose proof (lookup_lt_Some _ _ _ Hold); llia).
    cbn [mbind res_bind]. rewrite (at_index_ok _ _ _ d) by (done || lia). reflexivity. }
  erewrite St_bind_ok by reflexivity. cbn [ctx_get ctx_put card_ctx].
  unfold E1000_NUM_TX_DESC. rewrite !(u16_id ((tx_current (m_ctx m) + 1) mod 8)) by
    (unfold is_u16; pose proof (Z.mod_pos_bound (tx_current (m_ctx m) + 1) 8); lia).
  erewrite St_bind_ok by (apply write_ok; [exact (rep_base _ _ R)|unfold E1000_TDT; lia|];
    unfold is_u32; pose proof (Z.mod_pos_bound (tx_current (m_ctx m) + 1) 8); lia).
  unfold queued, mret, St_ret. rewrite (u16_id n) by (unfold is_u16, E1000_TX_BUFFER_SIZE in *; lia).
  rewrite Hfl. reflexivity.
Qed.

Lemma transmit_refuse m q b o n : represents m q -> 0 <= n ->
  length (to_send q) = 8%nat \/ E1000_TX_BUFFER_SIZE < n ->
  e1000_transmit (Some tt) (Some (b, o)) n m = Ok (-1, m).
Proof using.
  intros R Hn Hq. unfold e1000_transmit. erewrite St_bind_ok by reflexivity.
  cbn [ctx_get card_ctx]. rewrite (rep_init _ _ R). cbn [negb].
  destruct (Z.ltb_spec E1000_TX_BUFFER_SIZE n); [done|]. destruct Hq as [Hq|]; [|lia].
  destruct (tx_slot m q R) as [Hslot Hcur]. pose proof (rep_tx _ _ R) as Hr.
  destruct (to_send q) as [|f t] eqn:Et; [done|].
  rewrite (ring_next_full _ _ _ _ _ _ _ Hr Hq) in Hslot.
  destruct (ring_first _ _ _ _ _ _ _ Hr) as ([d buf] & [Hd _]%zip_lookup & Hdd & _).
  rewrite Hslot in Hd.
  erewrite St_bind_ok by (apply lift_ok; apply (rd_ok _ _ d); [lia|exact Hd]).
  cbn [fst] in Hdd. by rewrite Hdd.
Qed.

(** The descriptors the device has and those it filled are at most seven. *)
Lemma room_after rdt rdt' cur rdh n :
  0 <= n <= 7 -> rdh = (cur + (1 + n)) mod 8 -> (rdt - rdh) mod 8 + (1 + n) <= 7 ->
  rdt' = rdt \/ rdt' = cur -> (rdt' - rdh) mod 8 + n <= 7.
Proof using. intros ? -> ? [-> | ->]; [lia|zdm]. Qed.

(** The machine after the frame in the current slot was taken; only the tail
    register may have changed. *)
Definition taken (d : rx_desc) (regs : Z -> Z) (m : machine) : machine :=
  let i := rx_current (m_ctx m) in
  Machine (set_rx_current ((i + 1) mod 8)
             (set_rx_descs (<[Z.to_nat i := rx_desc_status 0 d]> (rx_descs (m_ctx m))) (m_ctx m)))
    regs (m_wire m) (m_console m) (m_tag m).

Lemma taken_represents m t a r s d regs :
  represents m (Queues t (a :: r) s) ->
  rx_descs (m_ctx m) !! Z.to_nat (rx_current (m_ctx m)) = Some d ->
  (forall x, x <> E1000_RDT -> regs x = m_regs m x) ->
  regs E1000_RDT = m_regs m E1000_RDT \/ regs E1000_RDT = rx_current (m_ctx m) ->
  represents (taken d regs m) (Queues t r s).
Proof using.
  intros R Hd Hregs Hrdt.
  destruct (ring_first _ _ _ _ _ _ _ (rep_rx _ _ R)) as ([d' buf] & Hz & _).
  apply zip_lookup in Hz as [_ Hb].
  pose proof (ring_fits _ _ _ _ _ _ (rep_rx _ _ R)) as Hfit. cbn in Hfit.
  destruct R, rep_sized0. cbn [to_send arrived sent] in *. unfold taken, configured, reg64 in *.
  split; cbn [m_ctx m_regs m_wire to_send arrived sent]; try done; rewrite ?Hregs by done; try done.
  - unfold configured, reg64. cbn [m_regs]. rewrite !Hregs by done. done.
  - split; cbn; rewrite ?length_insert; done.
  - intros i d0. cbn [rx_descs set_rx_current set_rx_descs].
    destruct (decide (i = Z.to_nat (rx_current (m_ctx m)))) as [->|].
    + rewrite list_lookup_insert_eq by (by eapply lookup_lt_Some). intros [= <-].
      exact (rep_rx_addr0 _ _ Hd).
    + rewrite list_lookup_insert_ne by done. apply rep_rx_addr0.
  - cbn. apply Z.mod_pos_bound. lia.
  - cbn [rx_current rx_descs rx_buffers set_rx_current set_rx_descs].
    rewrite (zip_insert_l _ _ _ _ buf) by done. rewrite <- (ring_next_Z 8) by lia.
    by apply (ring_pop 8 rx_full rx_free _ a).
  - cbn [rx_current set_rx_current]. rewrite rep_rdh0, len_cons, Zplus_mod_idemp_l. f_equal. lia.
  - destruct Hrdt as [-> | ->]; lia.
  - rewrite len_cons in *. apply (room_after (m_regs m E1000_RDT) _ (rx_current (m_ctx m)));
      [llia|by rewrite Hregs| |done]. by rewrite (Hregs E1000_RDH).
Qed.

Lemma receive_empty m q b o n l : represents m q -> arrived q = [] ->
  e1000_receive (Some tt) (Some (b, o)) n (Some l) m = Ok (-1, Some (b, o), Some l, m).
Proof using.
  intros R Hq. unfold e1000_receive. erewrite St_bind_ok by reflexivity.
  cbn [ctx_get card_ctx]. rewrite (rep_init _ _ R). cbn [negb].
  pose proof (rep_rx _ _ R) as Hr. rewrite Hq in Hr. pose proof (rep_rxc _ _ R).
  destruct (ring_empty _ _ _ _ _ Hr) as ([d buf] & [Hd _]%zip_lookup & Hf).
  erewrite St_bind_ok by (apply lift_ok; apply (rd_ok _ _ d); [lia|exact Hd]).
  unfold rx_free in Hf. cbn [fst] in Hf. by rewrite Hf.
Qed.

Lemma next_rx_eq d m : 0 <= rx_current (m_ctx m) < 8 ->
  next_rx (set_rx_descs (<[Z.to_nat (rx_current (m_ctx m)) := rx_desc_status 0 d]>
                           (rx_descs (m_ctx m))) (m_ctx m))
  = set_rx_current ((rx_current (m_ctx m) + 1) mod 8)
      (set_rx_descs (<[Z.to_nat (rx_current (m_ctx m)) := rx_desc_status 0 d]>
                       (rx_descs (m_ctx m))) (m_ctx m)).
Proof using.
  intros Hc. unfold next_rx, E1000_NUM_RX_DESC. cbn [rx_current set_rx_descs].
  rewrite u16_id; [done|]. unfold is_u16.
  pose proof (Z.mod_pos_bound (rx_current (m_ctx m) + 1) 8). lia.
Qed.

Lemma clear_current_ok d m : 0 <= rx_current (m_ctx m) ->
  rx_descs (m_ctx m) !! Z.to_nat (rx_current (m_ctx m)) = Some d ->
  clear_current (m_ctx m) =
    Ok (set_rx_descs (<[Z.to_nat (rx_current (m_ctx m)) := rx_desc_status 0 d]>
                        (rx_descs (m_ctx m))) (m_ctx m)).
Proof using. intros ? Hd. unfold clear_current. by rewrite (at_index_ok _ _ _ d). Qed.

(** What e1000_receive does with the oldest frame that arrived. *)
Lemma receive_frame m t f eop r s b o n l :
  represents m (Queues t ((f, eop) :: r) s) -> 0 <= o -> 0 <= n -> o + n <= len b ->
  exists d regs, represents (taken d regs m) (Queues t r s) /\
  if (eop : bool) && (len f <=? n)
  then exists b', store b o f = Ok b' /\ e1000_receive (Some tt) (Some (b, o)) n (Some l) m
         = Ok (0, Some (b', o), Some (len f), taken d regs m) /\
         regs = reg_set (m_regs m) E1000_RDT (rx_current (m_ctx m))
  else e1000_receive (Some tt) (Some (b, o)) n (Some l) m
         = Ok (-1, Some (b, o), Some l, taken d regs m) /\ regs = m_regs m.
Proof using HB.
  intros R Ho Hn Hb. pose proof (rep_rxc _ _ R) as Hc.
  destruct (ring_first _ _ _ _ _ _ _ (rep_rx _ _ R)) as ([d buf] & [Hd Hbuf]%zip_lookup & Hfull).
  destruct Hfull as (Hdd & Heop & Hlen & Hload & _). cbn [fst snd] in *.
  assert (Hdrop : (_ ← ctx_update tt (fun c => c ← clear_current c; mret (next_rx c));
     mret (M := St machine) (-1, Some (b, o), Some l)) m
     = Ok (-1, Some (b, o), Some l, taken d (m_regs m) m)).
  { erewrite St_bind_ok; cycle 1.
    - apply ctx_update_ok. cbn [ctx_get card_ctx].
      rewrite (clear_current_ok d) by (lia || done). cbn [mbind res_bind].
      rewrite next_rx_eq by done. reflexivity.
    - reflexivity. }
  exists d, (if eop && (len f <=? n) then reg_set (m_regs m) E1000_RDT (rx_current (m_ctx m))
             else m_regs m).
  split.
  { apply (taken_represents m t (f, eop) r s d); [done|done| |].
    - intros x Hx. case_match; [|done]. unfold reg_set. by rewrite decide_False.
    - case_match; [by right|by left]. }
  unfold e1000_receive. erewrite St_bind_ok by reflexivity. cbn [ctx_get card_ctx].
  rewrite (rep_init _ _ R). cbn [negb].
  erewrite St_bind_ok by (apply lift_ok; apply (rd_ok _ _ d); [lia|exact Hd]).
  destruct (Z.eqb_spec (Z.land (rx_status d) E1000_RXD_STAT_DD) 0); [done|].
  rewrite Heop. destruct eop; cbn [negb andb]; [|split; [exact Hdrop|done]].
  rewrite Hlen, Z.leb_antisym. destruct (Z.ltb_spec n (len f)); cbn [negb];
    [split; [exact Hdrop|done]|].
  pose proof (len_nonneg f). destruct (store_in_range b o f) as [b' Hb']; [lia|lia|].
  exists b'. split; [done|]. split; [|done].
  erewrite St_bind_ok; cycle 1.
  { apply lift_ok. rewrite (rd_ok _ _ buf) by (done || lia). cbn [mbind res_bind].
    rewrite (memcpy_store _ _ _ _ _ f) by (rewrite ?Z2Nat.id by lia; done || lia). exact Hb'. }
  erewrite St_bind_ok by (apply ctx_update_ok; by apply (clear_current_ok d); [lia|]).
  cbn [ctx_put card_ctx].
  erewrite St_bind_ok by (apply write_ok; [exact (rep_base _ _ R)|unfold E1000_RDT; lia|];
    unfold is_u32; lia).
  erewrite St_bind_ok by reflexivity. cbn [ctx_get ctx_put card_ctx].
  unfold mret, St_ret. do 2 f_equal. unfold taken. cbn [m_ctx poke with_ctx].
  rewrite next_rx_eq by done. reflexivity.
Qed.

(* ------------------------------------------------------------------ *)
(** ** The device keeps the representation *)

Lemma tx_addr_inj i j : 0 <= j -> tx_buffer_addr (Z.of_nat i) = tx_buffer_addr j -> i = Z.to_nat j.
Proof using. unfold tx_buffer_addr, E1000_TX_BUFFER_SIZE. lia. Qed.
Lemma rx_addr_inj i j : 0 <= j -> rx_buffer_addr (Z.of_nat i) = rx_buffer_addr j -> i = Z.to_nat j.
Proof using. unfold rx_buffer_addr, E1000_RX_BUFFER_SIZE. lia. Qed.

Lemma lor_dd x : Z.land (Z.lor x E1000_TXD_STAT_DD) E1000_TXD_STAT_DD <> 0.
Proof using.
  intros E. apply (f_equal (fun z => Z.testbit z 0)) in E.
  rewrite Z.land_spec, Z.lor_spec, Z.bits_0 in E. cbn in E.
  by rewrite orb_true_r in E.
Qed.

Lemma sent_represents m q f m' : represents m q -> hw_step m (Sent f) m' ->
  exists t, to_send q = f :: t /\ represents m' (Queues t (arrived q) (sent q ++ [f])).
Proof using.
  intros R Hs. inversion Hs as [m0 h d i buf f0 -> Hne Hen Hrb Hd Ha Hb Hl Em Ef|]. subst m0 f0.
  pose proof (rep_tdh _ _ R) as Hh. destruct (rep_configured _ _ R) as (_ & _ & Hsz & _).
  destruct (to_send q) as [|g t] eqn:Et.
  { destruct Hne. rewrite (rep_tdt _ _ R), (rep_tail _ _ R), Et, len_nil, Z.add_0_r.
    symmetry. by apply Z.mod_small. }
  pose proof (rep_tx _ _ R) as Hr. rewrite Et in Hr.
  destruct (ring_first _ _ _ _ _ _ _ Hr) as ([d' buf'] & [Hd' Hb']%zip_lookup & Hfull).
  rewrite Hd in Hd'. injection Hd' as <-.
  rewrite (rep_tx_addr _ _ R _ _ Hd) in Ha. rewrite Z2Nat.id in Ha by lia.
  apply eq_sym, tx_addr_inj in Ha as ->; [|lia]. rewrite Hb in Hb'. injection Hb' as <-.
  destruct Hfull as (Hdd & Hlen & Hload). cbn [fst snd] in *.
  rewrite Hlen, Hload in Hl. injection Hl as <-.
  exists t. split; [done|]. unfold ring_size. rewrite Hsz. change (128 / 16) with 8.
  destruct R, rep_sized0. unfold configured, reg64 in *.
  split; cbn [m_ctx m_regs m_wire to_send arrived sent tx_descs rx_descs rx_buffers tx_buffers
    tx_current rx_current mmio_base initialized set_tx_descs]; try done.
  - split; cbn; rewrite ?length_insert; done.
  - by rewrite rep_wire0.
  - intros j d0. destruct (decide (j = Z.to_nat (m_regs m E1000_TDH))) as [->|].
    + rewrite list_lookup_insert_eq by (by eapply lookup_lt_Some). intros [= <-].
      exact (rep_tx_addr0 _ _ Hd).
    + rewrite list_lookup_insert_ne by done. apply rep_tx_addr0.
  - apply (Z.mod_pos_bound _ 8). lia.
  - rewrite (zip_insert_l _ _ _ _ buf) by done.
    change (reg_set (m_regs m) E1000_TDH ((m_regs m E1000_TDH + 1) mod 8) E1000_TDH)
      with ((m_regs m E1000_TDH + 1) mod 8).
    rewrite <- (ring_next_Z 8) by lia. apply (ring_pop 8 tx_full tx_free _ g); [done|].
    apply lor_dd.
  - change (reg_set (m_regs m) E1000_TDH ((m_regs m E1000_TDH + 1) mod 8) E1000_TDH)
      with ((m_regs m E1000_TDH + 1) mod 8).
    rewrite rep_tail0, Et, len_cons, Zplus_mod_idemp_l. f_equal. lia.
Qed.

Lemma room_less rdt rdh n : 0 <= rdt < 8 -> 0 <= rdh < 8 -> rdh <> rdt ->
  (rdt - rdh) mod 8 + n <= 7 -> (rdt - (rdh + 1) mod 8) mod 8 + (n + 1) <= 7 /\ n <= 6.
Proof using. intros. zdm. Qed.

Lemma arrived_represents m q f eop m' : represents m q -> hw_step m (Arrived f eop) m' ->
  (length (arrived q) < 7)%nat /\
  represents m' (Queues (to_send q) (arrived q ++ [(f, eop)]) (sent q)).
Proof using.
  intros R Hs.
  inversion Hs as [|m0 h d i buf buf' f0 e0 -> Hne Hen Hrb Hfb Hfl Hd Ha Hb Hst Em Ef]. subst m0 f0 e0.
  pose proof (rep_rxc _ _ R) as Hc. destruct (rep_configured _ _ R) as (_ & _ & _ & Hsz & _).
  assert (0 <= m_regs m E1000_RDH < 8) as Hh by (rewrite (rep_rdh _ _ R); by apply Z.mod_pos_bound).
  destruct (room_less _ _ _ (rep_rdt _ _ R) Hh Hne (rep_room _ _ R)) as [Hroom Hlt].
  split; [llia|].
  assert (Hslot : ring_slot 8 (Z.to_nat (rx_current (m_ctx m))) (length (arrived q))
                  = Z.to_nat (m_regs m E1000_RDH)).
  { rewrite (rep_rdh _ _ R). by rewrite (ring_slot_Z 8) by lia. }
  rewrite (rep_rx_addr _ _ R _ _ Hd) in Ha. rewrite Z2Nat.id in Ha by lia.
  apply eq_sym, rx_addr_inj in Ha as ->; [|lia].
  pose proof (store_len _ _ _ _ Hst) as Hbl.
  unfold ring_size. rewrite Hsz. change (128 / 16) with 8.
  set (h := m_regs m E1000_RDH) in *.
  assert (Hreg : reg_set (m_regs m) E1000_RDH ((h + 1) mod 8) E1000_RDH = (h + 1) mod 8) by done.
  destruct R, rep_sized0. unfold configured, reg64 in *.
  split; cbn [m_ctx m_regs m_wire to_send arrived sent tx_descs rx_descs rx_buffers tx_buffers
    tx_current rx_current mmio_base initialized set_rx_descs set_rx_buffers]; try done.
  - split; cbn; rewrite ?length_insert; try done. apply Forall_insert; [done|].
    rewrite Hbl. rewrite Forall_lookup in rx_buffers_size0. eauto.
  - intros j d0. destruct (decide (j = Z.to_nat h)) as [->|].
    + rewrite list_lookup_insert_eq by (by eapply lookup_lt_Some). intros [= <-].
      exact (rep_rx_addr0 _ _ Hd).
    + rewrite list_lookup_insert_ne by done. apply rep_rx_addr0.
  - rewrite zip_insert_both, <- Hslot. apply ring_push; [done|llia|].
    split; [by destruct eop|]. split; [by destruct eop|]. split; [done|].
    split; [by eapply load_store|done].
  - rewrite Hreg. unfold h. rewrite rep_rdh0, len_app, len_cons, len_nil, Zplus_mod_idemp_l.
    f_equal. lia.
  - rewrite Hreg, len_app, len_cons, len_nil.
    change (reg_set (m_regs m) E1000_RDH ((h + 1) mod 8) E1000_RDT) with (m_regs m E1000_RDT). lia.
Qed.

(* ------------------------------------------------------------------ *)
(** ** Initialisation *)

(** The descriptor loops apply [g i] to descriptor [i]. *)
Lemma setup_loop {D} (get : e1000 -> list D) (put : list D -> e1000 -> e1000) (g : Z -> D -> D) n m :
  (forall ds c, get (put ds c) = ds) -> (forall ds ds' c, put ds (put ds' c) = put ds c) ->
  (forall c, put (get c) c = c) -> (n <= length (get (m_ctx m)))%nat ->
  for_n n (fun i _ => ctx_update tt (fun c =>
    ds ← at_index (get c) (Z.of_nat i) (g (Z.of_nat i)); mret (put ds c))) tt m
  = Ok (tt, with_ctx (put (imap (fun i d => if (i <? n)%nat then g (Z.of_nat i) d else d)
                             (get (m_ctx m))) (m_ctx m)) m).
Proof using.
  intros Hgp Hpp Hpg. induction n as [|n IH]; intros Hn.
  - cbn. replace (imap _ (get (m_ctx m))) with (get (m_ctx m)); [|].
    + rewrite Hpg. by destruct m.
    + apply list_eq. intros i. rewrite list_lookup_imap. by destruct (get (m_ctx m) !! i).
  - unfold for_n in *. rewrite seq_S, foldl_snoc.
    assert (n <= length (get (m_ctx m)))%nat as Hn' by lia.
    rewrite (St_bind_ok _ _ _ _ _ (IH Hn')). cbn [Nat.add]. clear IH.
    destruct (lookup_lt_is_Some_2 (get (m_ctx m)) n) as [x Hx]; [lia|].
    rewrite (ctx_update_ok _ _ (put (<[n := g (Z.of_nat n) x]>
      (imap (fun i d => if (i <? n)%nat then g (Z.of_nat i) d else d) (get (m_ctx m)))) (m_ctx m))).
    + cbn [ctx_put card_ctx]. do 2 f_equal. unfold with_ctx.
      cbn [m_ctx m_regs m_wire m_console m_tag]. do 2 f_equal. apply list_eq. intros i.
      rewrite list_lookup_imap. destruct (decide (i = n)) as [->|Hne].
      * rewrite list_lookup_insert_eq by (rewrite length_imap; lia). rewrite Hx. cbn.
        by rewrite (proj2 (Nat.leb_le n n)).
      * rewrite list_lookup_insert_ne, list_lookup_imap by done.
        destruct (get (m_ctx m) !! i); [|done]. cbn [fmap option_fmap option_map]. f_equal.
        destruct (Nat.ltb_spec i n), (Nat.ltb_spec i (S n)); try done; lia.
    + cbn [ctx_get card_ctx m_ctx with_ctx].
      rewrite (at_index_ok _ _ _ x).
      * cbn [mbind res_bind]. unfold mret, res_ret. by rewrite Nat2Z.id, Hpp, Hgp.
      * lia.
      * rewrite Hgp, Nat2Z.id, list_lookup_imap, Hx.
        cbn [fmap option_fmap option_map]. by rewrite Nat.ltb_irrefl.
Qed.

Lemma setup_rx_ok m : sized (m_ctx m) ->
  exists ds, setup_rx_descs tt m = Ok (tt, with_ctx (set_rx_descs ds (m_ctx m)) m) /\
    length ds = 8%nat /\ (forall i d, ds !! i = Some d ->
      rx_addr d = rx_buffer_addr (Z.of_nat i) /\ rx_status d = 0).
Proof using.
  intros S. destruct S. eexists. split.
  { apply (setup_loop rx_descs set_rx_descs
      (fun i => rx_desc_setup (A + offsetof_rx_buffers + i * E1000_RX_BUFFER_SIZE) 0) 8); try done.
    - by intros [].
    - lia. }
  split; [by rewrite length_imap|]. intros i d. rewrite list_lookup_imap.
  destruct (rx_descs (m_ctx m) !! i) as [d0|] eqn:E; [|done].
  apply lookup_lt_Some in E. intros [= <-]. by rewrite (proj2 (Nat.ltb_lt i 8)) by lia.
Qed.

Lemma setup_tx_ok m : sized (m_ctx m) ->
  exists ds, setup_tx_descs tt m = Ok (tt, with_ctx (set_tx_descs ds (m_ctx m)) m) /\
    length ds = 8%nat /\ (forall i d, ds !! i = Some d ->
      tx_addr d = tx_buffer_addr (Z.of_nat i) /\ tx_status d = E1000_TXD_STAT_DD).
Proof using.
  intros S. destruct S. eexists. split.
  { apply (setup_loop tx_descs set_tx_descs
      (fun i => tx_desc_setup (A + offsetof_tx_buffers + i * E1000_TX_BUFFER_SIZE)
                  E1000_TXD_STAT_DD 0) 8); try done.
    - by intros [].
    - lia. }
  split; [by rewrite length_imap|]. intros i d. rewrite list_lookup_imap.
  destruct (tx_descs (m_ctx m) !! i) as [d0|] eqn:E; [|done].
  apply lookup_lt_Some in E. intros [= <-]. by rewrite (proj2 (Nat.ltb_lt i 8)) by lia.
Qed.

Lemma read_mac_ok m : mmio_base (m_ctx m) = B -> exists mac, len mac = 6 /\ is_bytes mac /\
  e1000_read_mac_address tt m = Ok (tt, with_ctx (set_mac mac (m_ctx m)) m).
Proof using HB.
  intros Hm. unfold e1000_read_mac_address. erewrite St_bind_ok by reflexivity.
  cbn [ctx_get card_ctx]. rewrite Hm. destruct (Z.eqb_spec B 0); [lia|].
  erewrite St_bind_ok by (apply read_ok; [done|unfold E1000_RAL; lia]).
  erewrite St_bind_ok by (apply read_ok; [done|unfold E1000_RAH; lia]).
  eexists. split; [|split; [|reflexivity]]; [done|]. repeat constructor; apply u8_range.
Qed.

Lemma reg64_split x : 0 <= x < 2 ^ 64 -> u32 x + u32 (Z.shiftr x 32) * 2 ^ 32 = x.
Proof using.
  intros Hx. rewrite Z.shiftr_div_pow2 by lia. rewrite (u32_id (x / 2 ^ 32)).
  - unfold u32. pose proof (Z.div_mod x (2 ^ 32)). lia.
  - unfold is_u32. split; [apply Z.div_pos; lia|]. apply Z.div_lt_upper_bound; lia.
Qed.

Lemma lor_u32 a b : is_u32 a -> is_u32 b -> is_u32 (Z.lor a b).
Proof using.
  intros Ha Hb. assert (Z.lor a b = u32 (Z.lor a b)) as ->; [|apply u32_range].
  by rewrite <- land_ffffffff, Z.land_lor_distr_l, !land_ffffffff, !u32_id.
Qed.

(** Steps over the accesses to the card. *)
Ltac write_step :=
  erewrite St_bind_ok by
    (apply write_ok; [reflexivity|split; [discriminate|reflexivity]|
       first [apply u32_range | apply lor_u32; [apply u32_range|]; split; [discriminate|reflexivity]
             | split; [discriminate|reflexivity]]]).
Ltac read_step :=
  erewrite St_bind_ok by (apply read_ok; [reflexivity|split; [discriminate|reflexivity]]).

(** The machine when e1000_init_context has programmed the card. *)
Record programmed (m : machine) : Prop := Programmed {
  pr_init : initialized (m_ctx m) = true;
  pr_base : mmio_base (m_ctx m) = B;
  pr_sized : sized (m_ctx m);
  pr_configured : configured m;
  pr_current : rx_current (m_ctx m) = 0 /\ tx_current (m_ctx m) = 0;
  pr_tx : m_regs m E1000_TDH = 0 /\ m_regs m E1000_TDT = 0;
  pr_rx : m_regs m E1000_RDH = 0 /\ m_regs m E1000_RDT = 7;
  pr_rx_descs : forall i d, rx_descs (m_ctx m) !! i = Some d ->
    rx_addr d = rx_buffer_addr (Z.of_nat i) /\ rx_status d = 0;
  pr_tx_descs : forall i d, tx_descs (m_ctx m) !! i = Some d ->
    tx_addr d = tx_buffer_addr (Z.of_nat i) /\ tx_status d = E1000_TXD_STAT_DD;
  pr_mac : len (mac_addr (m_ctx m)) = 6 /\ is_bytes (mac_addr (m_ctx m))
}.

Lemma init_programs m dev : sized (m_ctx m) -> reg_base dev = B ->
  exists m', e1000_init_context (Some tt) (Some dev) m = Ok (0, m') /\
    programmed m' /\ m_wire m' = m_wire m.
Proof using HA HB.
  intros Hs Hdev. destruct (register_ok "e1000_log" "e1000" LOG_INFO m) as (w & Ew & Hc & Hr & Hw).
  unfold e1000_init_context. rewrite (St_bind_ok _ _ _ _ _ Ew).
  erewrite St_bind_ok by reflexivity. cbn [ctx_get ctx_put card_ctx]. rewrite Hc, Hdev.
  read_step. write_step.
  edestruct read_mac_ok as (mac & Hmac & Hmb & E); [|erewrite St_bind_ok by exact E; clear E];
    [reflexivity|].
  edestruct setup_rx_ok as (rds & E & Hrl & Hrd); [|erewrite St_bind_ok by exact E; clear E].
  { destruct Hs. by split. }
  write_step. write_step. write_step. write_step. write_step. read_step. write_step.
  edestruct setup_tx_ok as (tds & E & Htl & Htd); [|erewrite St_bind_ok by exact E; clear E].
  { destruct Hs. by split. }
  write_step. write_step. write_step. write_step. write_step. write_step. write_step.
  erewrite St_bind_ok by reflexivity. cbn [ctx_get ctx_put card_ctx].
  edestruct (tag_info_ok (C := e1000)) as (w' & E & Ec & Er & Ewi). rewrite (St_bind_ok _ _ _ _ _ E).
  exists w'. split; [done|]. split; [|by rewrite Ewi, <- Hw].
  assert (0 <= offsetof_rx_descs <= 0x8000 /\ 0 <= offsetof_tx_descs <= 0x8000) as [? ?]
    by (split; split; discriminate).
  destruct Hs. split; unfold configured, reg64; rewrite ?Ec, ?Er; try done.
  split_and!; try reflexivity.
  - apply reg64_split. lia.
  - apply reg64_split. lia.
Qed.

(** Initialising logs, but leaves the other log tags alone. *)
Lemma keeps_access p t x v :
  keeps (has_tag p t) (e1000_read32 tt x) /\ keeps (has_tag p t) (e1000_write32 tt x v).
Proof using.
  split; apply keeps_bind; try apply keeps_gets; intros base m a m' Hm; by intros [= _ <-].
Qed.

Lemma init_keeps_tag p t dev :
  keeps (has_tag p t) (e1000_init_context (Some tt) (Some dev)).
Proof using.
  pose proof (fun x => proj1 (keeps_access p t x 0)) as Hr.
  pose proof (fun x v => proj2 (keeps_access p t x v)) as Hw.
  pose proof (keeps_register (C := e1000) p t) as Hreg.
  pose proof (keeps_tag_info (C := e1000) p t) as Hinfo.
  unfold e1000_init_context, e1000_read_mac_address, setup_rx_descs, setup_tx_descs. cbv zeta.
  repeat first [ apply Hreg | apply Hinfo | apply Hr | apply Hw | apply keeps_for_n; intros ? ?
               | apply keeps_bind; [|intros ?] | apply keeps_if
               | apply keeps_ctx_update; by intros | apply keeps_ctx_modify; by intros
               | apply keeps_gets | apply keeps_ret ].
Qed.

Lemma zip_Forall {X Y} (P : X -> Prop) (l : list X) (k : list Y) :
  (forall i x, l !! i = Some x -> P x) -> Forall (fun p => P p.1) (zip l k).
Proof using.
  intros Hl. apply Forall_lookup. intros i [x y] [Hx _]%zip_lookup. cbn. eauto.
Qed.

Lemma programmed_represents m : programmed m -> represents m (Queues [] [] (m_wire m)).
Proof using.
  intros [? ? Hs ? [Hr Ht] [Htdh Htdt] [Hrdh Hrdt] Hrd Htd _]. pose proof Hs as [].
  split; cbn [to_send arrived sent]; rewrite ?Hr, ?Ht, ?Htdh, ?Htdt, ?Hrdh, ?Hrdt; try done.
  - intros i d Hd. by apply Htd in Hd as [? _].
  - intros i d Hd. by apply Hrd in Hd as [? _].
  - apply ring_init; [by rewrite length_zip_with_l_eq by lia|lia|].
    apply (zip_Forall (fun d => Z.land (tx_status d) E1000_TXD_STAT_DD <> 0)).
    intros i d Hd. apply Htd in Hd as [_ ->]. done.
  - apply ring_init; [by rewrite length_zip_with_l_eq by lia|lia|].
    apply (zip_Forall (fun d => Z.land (rx_status d) E1000_RXD_STAT_DD = 0)).
    intros i d Hd. apply Hrd in Hd as [_ ->]. done.
Qed.

(** ** Progress of the device *)

Lemma sent_enabled m f t r s : represents m (Queues (f :: t) r s) -> (length (f :: t) < 8)%nat ->
  exists m', hw_step m (Sent f) m' /\ represents m' (Queues t r (s ++ [f])).
Proof using.
  intros R Hl. pose proof R as []. cbn [to_send length] in *.
  destruct (ring_first _ _ _ _ _ _ _ rep_tx0) as ([d buf] & [Hd Hb]%zip_lookup & Hfull).
  destruct Hfull as (Hdd & Hlen & Hload). cbn [fst snd] in *.
  destruct rep_configured0 as (? & ? & ? & ? & ? & ?).
  assert (Hstep : exists m', hw_step m (Sent f) m').
  { eexists. apply (hw_sent m (m_regs m E1000_TDH) d (Z.to_nat (m_regs m E1000_TDH)) buf f); try done.
    - rewrite rep_tdt0, rep_tail0, len_cons. unfold len. cbn [length] in Hl. zdm.
    - rewrite Z2Nat.id by lia. rewrite (rep_tx_addr0 _ _ Hd). f_equal. lia.
    - by rewrite Hlen. }
  destruct Hstep as [m' Hstep]. exists m'. split; [done|].
  destruct (sent_represents _ _ _ _ R Hstep) as (t' & [= <-] & ?). done.
Qed.

Lemma arrived_enabled m t r s f : represents m (Queues t r s) ->
  m_regs m E1000_RDH <> m_regs m E1000_RDT -> is_bytes f -> len f <= E1000_RX_BUFFER_SIZE ->
  exists m', hw_step m (Arrived f true) m' /\ represents m' (Queues t (r ++ [(f, true)]) s) /\
    m_regs m' E1000_RDT = m_regs m E1000_RDT /\
    m_regs m' E1000_RDH = (m_regs m E1000_RDH + 1) mod 8.
Proof using.
  intros R Hne Hb Hf. pose proof R as []. cbn [arrived] in *.
  destruct rep_configured0 as (? & ? & ? & Hsz & ? & ?). destruct rep_sized0.
  assert (0 <= m_regs m E1000_RDH < 8) by (rewrite rep_rdh0; by apply Z.mod_pos_bound).
  destruct (lookup_lt_is_Some_2 (rx_descs (m_ctx m)) (Z.to_nat (m_regs m E1000_RDH))) as [d Hd]; [lia|].
  destruct (lookup_lt_is_Some_2 (rx_buffers (m_ctx m)) (Z.to_nat (m_regs m E1000_RDH))) as [buf Hbuf]; [lia|].
  rewrite Forall_lookup in rx_buffers_size0.
  destruct (store_in_range buf 0 f) as [buf' Hst]; [lia|rewrite (rx_buffers_size0 _ _ Hbuf); lia|].
  assert (Hstep : exists m', hw_step m (Arrived f true) m' /\
    m_regs m' E1000_RDT = m_regs m E1000_RDT /\
    m_regs m' E1000_RDH = (m_regs m E1000_RDH + 1) mod 8).
  { eexists. split; [|split].
    - apply (hw_arrived m (m_regs m E1000_RDH) d (Z.to_nat (m_regs m E1000_RDH)) buf buf' f true); try done.
      rewrite Z2Nat.id by lia. rewrite (rep_rx_addr0 _ _ Hd). f_equal. lia.
    - reflexivity.
    - cbn [m_regs]. unfold ring_size. by rewrite Hsz. }
  destruct Hstep as (m' & Hstep & Ht & Hh). exists m'. split; [done|].
  split; [|done]. by apply (arrived_represents _ _ _ _ _ R Hstep).
Qed.

(** Every call of the driver and every step of the card is one of the specification. *)
Lemma refines_step m q : represents m q ->
    (forall b o n f, load b o n = Ok f -> exists r m' q',
      e1000_transmit (Some tt) (Some (b, o)) n m = Ok (r, m') /\
      spec_step q (Transmit f r) q' /\ represents m' q') /\
    (forall b o n l, 0 <= o -> 0 <= n -> o + n <= len b -> exists got r b' l' m' q',
      e1000_receive (Some tt) (Some (b, o)) n (Some l) m = Ok (r, Some (b', o), Some l', m') /\
      match got with
      | Some f => r = 0 /\ l' = len f /\ store b o f = Ok b'
      | None => r = -1 /\ l' = l /\ b' = b
      end /\ spec_step q (Receive n got) q' /\ represents m' q') /\
    (forall ev m', hw_step m ev m' -> exists q', spec_step q ev q' /\ represents m' q').
Proof using HB.
  destruct q as [t r s]. intros R. split_and!.
  - intros b o n f Hf. pose proof (load_len _ _ _ _ Hf) as <-. pose proof (len_nonneg f).
    pose proof (ring_fits _ _ _ _ _ _ (rep_tx _ _ R)) as Hfit. cbn [to_send] in Hfit.
    destruct (decide ((length t < 8)%nat /\ len f <= E1000_TX_BUFFER_SIZE)) as [[Ht Hl]|Hno].
    + destruct (transmit_accept m _ b o _ f R Hf) as (m' & E & R' & _); [done..|].
      exists 0, m'. eexists. split; [done|]. split; [|done]. by constructor.
    + assert (length t = 8%nat \/ E1000_TX_BUFFER_SIZE < len f) by lia.
      exists (-1), m, (Queues t r s). split; [by eapply transmit_refuse|].
      split; [by constructor|done].
  - intros b o n l Ho Hn Hb. destruct r as [|[f eop] r].
    + exists None, (-1), b, l, m, (Queues t [] s).
      split; [by eapply receive_empty|]. split; [done|]. split; [constructor|done].
    + destruct (receive_frame m t f eop r s b o n l R Ho Hn Hb) as (d & regs & R' & E).
      destruct (eop && (len f <=? n)) eqn:Eok.
      * destruct E as (b' & Hst & E & _). apply andb_prop in Eok as [-> Hle%Z.leb_le].
        exists (Some f), 0, b', (len f). eexists _, _. split; [done|]. split; [done|].
        split; [by constructor|done].
      * destruct E as [E _]. exists None, (-1), b, l. eexists _, _. split; [done|]. split; [done|].
        split; [|done]. constructor. destruct eop; [right|by left].
        cbn in Eok. by apply Z.leb_gt.
  - intros ev m' Hs. destruct ev as [| |f|f eop]; [inversion Hs..| |].
    + destruct (sent_represents _ _ _ _ R Hs) as (t' & Et & R'). cbn in Et. subst t.
      eexists. split; [constructor|done].
    + destruct (arrived_represents _ _ _ _ _ R Hs) as [Hl R'].
      eexists. split; [by constructor|done].
Qed.

(* ------------------------------------------------------------------ *)
(** ** Properties *)

(** C3: The driver and the card together implement two bounded FIFO queues: after
    e1000_init_context both are empty; a transmit of at most 2048 bytes is accepted
    exactly when fewer than 8 frames are pending and appends its bytes; a receive
    yields exactly the oldest frame that arrived, unless it is a fragment or longer
    than the buffer, when it is dropped; what the card sends are the accepted
    frames in order, unaltered; no operation accesses memory outside its arrays. *)
Theorem e1000_refines_queues :
  (forall m dev, sized (m_ctx m) -> reg_base dev = B ->
    exists m', e1000_init_context (Some tt) (Some dev) m = Ok (0, m') /\
      represents m' (Queues [] [] (m_wire m))) /\
  (forall m q, represents m q ->
    (forall b o n f, load b o n = Ok f -> exists r m' q',
      e1000_transmit (Some tt) (Some (b, o)) n m = Ok (r, m') /\
      spec_step q (Transmit f r) q' /\ represents m' q') /\
    (forall b o n l, 0 <= o -> 0 <= n -> o + n <= len b -> exists got r b' l' m' q',
      e1000_receive (Some tt) (Some (b, o)) n (Some l) m = Ok (r, Some (b', o), Some l', m') /\
      match got with
      | Some f => r = 0 /\ l' = len f /\ store b o f = Ok b'
      | None => r = -1 /\ l' = l /\ b' = b
      end /\ spec_step q (Receive n got) q' /\ represents m' q') /\
    (forall ev m', hw_step m ev m' -> exists q', spec_step q ev q' /\ represents m' q')).
Proof using HA HB.
  split; [|intros m q R; by apply refines_step]. intros m dev Hs Hd.
  destruct (init_programs m dev Hs Hd) as (m' & E & Hp & Hw).
  exists m'. rewrite <- Hw. split; [done|]. by apply programmed_represents.
Qed.

(** Steps of the device alone. *)
Inductive hw_run : machine -> list event -> machine -> Prop :=
  | run_nil m : hw_run m [] m
  | run_cons m ev m1 evs m2 : hw_step m ev m1 -> hw_run m1 evs m2 -> hw_run m (ev :: evs) m2.

Lemma hw_drain t : forall m r s,
  represents m (Queues t r s) -> (length t < 8)%nat ->
  exists m', hw_run m (Sent <$> t) m' /\ represents m' (Queues [] r (s ++ t)).
Proof using.
  induction t as [|f t IH]; intros m r s R Hl.
  - exists m. rewrite app_nil_r. split; [constructor|done].
  - destruct (sent_enabled m f t r s R Hl) as (m1 & Hs & R1).
    destruct (IH m1 r (s ++ [f]) R1) as (m' & Hrun & R'); [cbn in Hl; lia|].
    exists m'. rewrite <- app_assoc in R'. split; [by econstructor|done].
Qed.

(** Whatever the card has sent is what was accepted first. *)
Lemma hw_sends l : forall m t r s m',
  represents m (Queues t r s) -> hw_run m (Sent <$> l) m' ->
  exists t', t = l ++ t' /\ represents m' (Queues t' r (s ++ l)).
Proof using.
  induction l as [|f l IH]; intros m t r s m' R Hrun; inversion Hrun as [|? ? m1 ? ? Hs Hr]; subst.
  - exists t. by rewrite app_nil_r.
  - destruct (sent_represents m _ f m1 R Hs) as (t1 & Et & R1). cbn [to_send arrived sent] in *. subst t.
    destruct (IH m1 t1 r (s ++ [f]) m' R1 Hr) as (t' & -> & R').
    exists t'. by rewrite <- app_assoc in R'.
Qed.

(** One call of the driver with what it was given and gave, or one step of the card. *)
Inductive step : machine -> event -> machine -> Prop :=
  | step_transmit m b o n f r m' : load b o n = Ok f ->
      e1000_transmit (Some tt) (Some (b, o)) n m = Ok (r, m') -> step m (Transmit f r) m'
  | step_receive m b o n l r b' l' m' got : 0 <= o -> 0 <= n -> o + n <= len b ->
      e1000_receive (Some tt) (Some (b, o)) n (Some l) m = Ok (r, Some (b', o), Some l', m') ->
      match got with Some f => r = 0 /\ load b' o l' = Ok f | None => r = -1 end ->
      step m (Receive n got) m'
  | step_hw m ev m' : hw_step m ev m' -> step m ev m'.

(** Any interleaving of them. *)
Inductive run : machine -> list event -> machine -> Prop :=
  | run_done m : run m [] m
  | run_step m ev m1 evs m2 : step m ev m1 -> run m1 evs m2 -> run m (ev :: evs) m2.

(** The frames the driver has accepted, and those the card has sent. *)
Definition accepted : list event -> list bytes :=
  omap (fun ev => match ev with Transmit f r => if r =? 0 then Some f else None | _ => None end).
Definition emitted : list event -> list bytes :=
  omap (fun ev => match ev with Sent f => Some f | _ => None end).

Lemma step_ok m q ev m' : represents m q -> step m ev m' ->
  exists q', spec_step q ev q' /\ represents m' q'.
Proof using HB.
  intros R Hs. destruct (refines_step m q R) as (Ht & Hr & Hh).
  destruct Hs as [m b o n f r m' Hf E|m b o n l r b' l' m' got Ho Hn Hb E Hgot|m ev m' Hs].
  - destruct (Ht b o n f Hf) as (r1 & m1 & q1 & E1 & H1). rewrite E in E1.
    injection E1 as <- <-. by exists q1.
  - destruct (Hr b o n l Ho Hn Hb) as (got1 & r1 & b1 & l1 & m1 & q1 & E1 & Hg & H1).
    rewrite E in E1. injection E1 as <- <- <- <-. exists q1.
    assert (got = got1) as ->; [|done]. destruct got as [f|], got1 as [f1|]; [| |..|done].
    + destruct Hgot as [_ Hl]. destruct Hg as (_ & -> & Hst).
      rewrite (load_store_at _ _ _ _ Hst) in Hl. congruence.
    + destruct Hgot as [-> _]. by destruct Hg.
    + rewrite Hgot in Hg. by destruct Hg.
  - by apply Hh.
Qed.

Lemma spec_fifo q ev q' : spec_step q ev q' ->
  sent q' = sent q ++ emitted [ev] /\
  sent q' ++ to_send q' = (sent q ++ to_send q) ++ accepted [ev].
Proof using. destruct 1; cbn; by rewrite ?app_nil_r, <- ?app_assoc. Qed.

Lemma run_ok m evs m' : run m evs m' -> forall q, represents m q -> exists q', represents m' q' /\
  sent q' = sent q ++ emitted evs /\ sent q' ++ to_send q' = (sent q ++ to_send q) ++ accepted evs.
Proof using HB.
  induction 1 as [m|m ev m1 evs m2 Hs _ IH]; intros q R.
  - exists q. cbn. by rewrite !app_nil_r.
  - destruct (step_ok m q ev m1 R Hs) as (q1 & Hq & R1). destruct (IH q1 R1) as (q2 & R2 & S2 & A2).
    destruct (spec_fifo _ _ _ Hq) as [S1 A1]. exists q2. split; [done|].
    change (ev :: evs) with ([ev] ++ evs). unfold emitted, accepted in *.
    rewrite !omap_app. split; [rewrite S2, S1|rewrite A2, A1]; by rewrite !app_assoc.
Qed.

(** C27: After e1000_init_context, whatever calls of the driver and steps of the card have
    happened, in whatever interleaving: what the card has sent are the frames that
    e1000_transmit accepted, in order and unaltered, but for at most eight at the end.
    When these are fewer than eight the card can send them all, after which the driver
    accepts a frame again; and however its sends are scheduled, as long as one is left
    the card can send the next. *)
Theorem e1000_tx_drains m dev : sized (m_ctx m) -> reg_base dev = B ->
  exists m0, e1000_init_context (Some tt) (Some dev) m = Ok (0, m0) /\
  forall evs m1, run m0 evs m1 -> exists pending,
    accepted evs = emitted evs ++ pending /\ (length pending <= 8)%nat /\
    m_wire m1 = m_wire m ++ emitted evs /\
    ((length pending < 8)%nat ->
      (exists m2, hw_run m1 (Sent <$> pending) m2 /\ m_wire m2 = m_wire m ++ accepted evs /\
         forall b o n f, load b o n = Ok f -> len f <= E1000_TX_BUFFER_SIZE ->
           exists m3, e1000_transmit (Some tt) (Some (b, o)) n m2 = Ok (0, m3)) /\
      (forall l m2, hw_run m1 (Sent <$> l) m2 -> exists rest, pending = l ++ rest /\
         (rest = [] \/ exists f m3, hw_step m2 (Sent f) m3))).
Proof using HA HB.
  intros Hs Hd. destruct (init_programs m dev Hs Hd) as (m0 & E & Hp & Hw). exists m0. split; [done|].
  intros evs m1 Hrun.
  destruct (run_ok _ _ _ Hrun _ (programmed_represents _ Hp)) as ([t r s] & R & S & F).
  cbn [sent to_send] in *. rewrite Hw, app_nil_r in *. exists t.
  assert (accepted evs = emitted evs ++ t) as HF
    by (rewrite S, <- app_assoc in F; by apply app_inv_head in F).
  split; [done|]. split; [exact (ring_fits _ _ _ _ _ _ (rep_tx _ _ R))|].
  split; [by rewrite (rep_wire _ _ R)|]. intros Hl. split.
  - destruct (hw_drain t m1 r s R Hl) as (m2 & Hrun2 & R2). exists m2. split; [done|].
    split; [by rewrite (rep_wire _ _ R2), HF; cbn; rewrite S, app_assoc|].
    intros b o n f Hf Hlen. pose proof (load_len _ _ _ _ Hf) as <-.
    destruct (transmit_accept m2 _ b o _ f R2 Hf) as (m3 & E3 & _); [done|cbn; lia|by exists m3].
  - intros l m2 Hrun2. destruct (hw_sends l m1 t r s m2 R Hrun2) as (rest & -> & R2).
    exists rest. split; [done|]. destruct rest as [|f rest]; [by left|right].
    destruct (sent_enabled m2 f rest r (s ++ l) R2) as (m3 & Hs3 & _); [|by exists f, m3].
    rewrite length_app in Hl. lia.
Qed.

(** A frame arrives and a receive with a buffer of [n] bytes refuses it. *)
Definition lost (n : Z) (m m' : machine) : Prop := exists f b m1,
  hw_step m (Arrived f true) m1 /\
  e1000_receive (Some tt) (Some (b, 0)) n (Some 0) m1 = Ok (-1, Some (b, 0), Some 0, m').

(** Frames the caller's buffer is too small for consume the receive ring: the
    tail register is only written when a frame was delivered. *)
Lemma lost_reaches_dead k : forall m t s n,
  represents m (Queues t [] s) -> (m_regs m E1000_RDT - m_regs m E1000_RDH) mod 8 = Z.of_nat k ->
  0 <= n < E1000_RX_BUFFER_SIZE ->
  exists m', rtc (lost n) m m' /\ represents m' (Queues t [] s) /\
    m_regs m' E1000_RDH = m_regs m' E1000_RDT.
Proof using HB.
  induction k as [|k IH]; intros m t s n R Hk Hn; pose proof (rep_rdt _ _ R);
    assert (0 <= m_regs m E1000_RDH < 8) by (rewrite (rep_rdh _ _ R); by apply Z.mod_pos_bound).
  - exists m. split; [constructor|]. split; [done|]. zdm.
  - destruct (arrived_enabled m t [] s (replicate (Z.to_nat (n + 1)) 0) R) as (m1 & Hs & R1 & Ht & Hh).
    + intros E. rewrite E, Z.sub_diag in Hk. cbn in Hk. lia.
    + apply Forall_replicate. done.
    + unfold len. rewrite length_replicate. lia.
    + set (f := replicate (Z.to_nat (n + 1)) 0) in *.
      assert (Hf : len f = n + 1) by (unfold len, f; rewrite length_replicate; lia).
      destruct (receive_frame m1 t f true [] s (replicate (Z.to_nat n) 0) 0 n 0 R1)
        as (d & regs & R2 & E); [lia|lia|unfold len; rewrite length_replicate; lia|].
      destruct (Z.leb_spec (len f) n); [lia|]. destruct E as [E ->].
      destruct (IH _ t s n R2) as (m' & Hrun & R' & Hdead); [|done|].
      { cbn [m_regs taken]. rewrite Ht, Hh. zdm. }
      exists m'. split; [|done]. eapply rtc_l; [|exact Hrun]. by exists f, (replicate (Z.to_nat n) 0), m1.
Qed.

(** Two ways the rings stop for good.  When eight frames are pending the tail
    register equals the head, which the card reads as an empty ring: it sends
    nothing more and every further transmit is refused.  And from any state with no
    frame waiting, frames longer than the caller's buffer lead to a state in which
    the card has no receive descriptor left, so that nothing can arrive, and
    every receive returns -1 without giving one back. *)
Theorem e1000_stalls m t r s :
  represents m (Queues t r s) ->
  (length t = 8%nat ->
    (forall f m', ~ hw_step m (Sent f) m') /\
    (forall b o n, 0 <= n -> e1000_transmit (Some tt) (Some (b, o)) n m = Ok (-1, m))) /\
  (r = [] -> forall n, 0 <= n < E1000_RX_BUFFER_SIZE -> exists m',
    rtc (lost n) m m' /\ (forall f eop m2, ~ hw_step m' (Arrived f eop) m2) /\
    (forall b o n l, e1000_receive (Some tt) (Some (b, o)) n (Some l) m'
                     = Ok (-1, Some (b, o), Some l, m'))).
Proof using HB.
  intros R. split.
  - intros Hl. split; [|intros; eapply transmit_refuse; [done..|by left]].
    intros f m' Hs. inversion Hs as [m0 h d i buf f0 -> Hne|]. destruct Hne.
    rewrite (rep_tdt _ _ R), (rep_tail _ _ R). cbn [to_send].
    pose proof (rep_tdh _ _ R). unfold len. rewrite Hl. zdm.
  - intros -> n Hn. pose proof (Z.mod_pos_bound (m_regs m E1000_RDT - m_regs m E1000_RDH) 8).
    destruct (lost_reaches_dead (Z.to_nat ((m_regs m E1000_RDT - m_regs m E1000_RDH) mod 8))
      m t s n R) as (m' & Hrun & R' & Hdead); [lia|done|].
    exists m'. split; [done|]. split; [|intros; by eapply receive_empty].
    intros f eop m2 Hs. inversion Hs as [|m0 h d i buf buf' f0 e0 -> Hne]. by destruct Hne.
Qed.

(* ------------------------------------------------------------------ *)
(** ** The driver keeps the contract of the network device layer *)

(** The layer over this card; the other drivers have no device here. *)
#[local] Instance machine_net : NetDriver machine := {
  drv_get_mac k c mac :=
    match k with
    | E1000 => '(r, m) ← e1000_get_mac ((fun _ => tt) <$> c) (Some mac); mret (r, default mac m)
    | _ => mret (-1, mac)
    end;
  drv_transmit k c b o n :=
    match k with
    | E1000 => e1000_transmit ((fun _ => tt) <$> c) (Some (b, o)) n
    | _ => mret (-1)
    end;
  drv_receive k c b o n l :=
    match k with
    | E1000 =>
        '(r, buf, got) ← e1000_receive ((fun _ => tt) <$> c) (Some (b, o)) n (Some l);
        mret (r, default b (fst <$> buf), default l got)
    | _ => mret (-1, b, l)
    end;
  net_acquire _ _ := mret None;
  net_print_tag _ _ := Ok []
}.

Lemma transmit_keeps_log c b o n l :
  keeps (fun m : machine => con_log m = l) (e1000_transmit c (Some (b, o)) n).
Proof using.
  assert (forall x y, keeps (fun m : machine => con_log m = l) (e1000_write32 tt x y)) as Hw.
  { intros x y. apply keeps_bind; [apply keeps_gets|]. intros base m a m' Hm. by intros [= _ <-]. }
  unfold e1000_transmit. destruct c as [[]|]; [|apply keeps_ret].
  solve_keeps.
Qed.

Lemma oldest_is_bytes m t f eop r s : represents m (Queues t ((f, eop) :: r) s) -> is_bytes f.
Proof using.
  intros R. by destruct (ring_first _ _ _ _ _ _ _ (rep_rx _ _ R)) as (x & _ & _ & _ & _ & _ & ?).
Qed.

Lemma receive_contract m q b o n l : represents m q -> 0 <= o -> 0 <= n -> o + n <= len b ->
  is_bytes b -> exists r b' l' m' q',
    e1000_receive (Some tt) (Some (b, o)) n (Some l) m = Ok (r, Some (b', o), Some l', m') /\
    represents m' q' /\ con_log m' = con_log m /\ len b' = len b /\ is_bytes b'.
Proof using HB.
  intros R Ho Hn Hb Hbb. destruct q as [t [|[f eop] r] s].
  - exists (-1), b, l, m. eexists. split; [by eapply receive_empty|]. done.
  - destruct (receive_frame m t f eop r s b o n l R Ho Hn Hb) as (d & regs & R' & E).
    pose proof (oldest_is_bytes _ _ _ _ _ _ R) as Hfb.
    destruct (eop && (len f <=? n)).
    + destruct E as (b' & Hst & E & _). exists 0, b', (len f). eexists _, _. split; [done|].
      split; [done|]. split; [done|]. split; [by eapply store_len|].
      apply store_inv in Hst as (h & mid & tl & -> & _ & _ & ->). rewrite !is_bytes_app in Hbb |- *.
      destruct Hbb as (? & _ & ?). by split_and!.
    + destruct E as [E _]. exists (-1), b, l. eexists _, _. split; [done|]. done.
Qed.

(** The contract: a context is ready while memory and registers represent some
    queues. *)
Definition machine_net_laws : NetDriverLaws machine.
Proof using HA HB.
  refine {| net_ready _ _ m := exists q, represents m q |}.
  - intros k c s m [q []]. exists q. by split.
  - intros k c b o n w r w' E. destruct k; [by injection E as _ <-..|].
    exact (transmit_keeps_log _ b o n (con_log w) w r w' eq_refl E).
  - intros k c b o n m [q R] Ho Hn Hl Hb. destruct k; [by eexists _, m; eauto..|].
    destruct c as [c|]; [|eexists _, m; eauto]. cbn [drv_transmit machine_net fmap option_fmap option_map].
    destruct (split_at b o n) as (h & f & tl & -> & <- & <-); [lia..|].
    pose proof (ring_fits _ _ _ _ _ _ (rep_tx _ _ R)) as Hfit.
    destruct (decide ((length (to_send q) < 8)%nat /\ len f <= E1000_TX_BUFFER_SIZE)) as [[Ht Hf]|Hno].
    + destruct (transmit_accept m q _ _ _ f R (load_ok h f tl)) as (m' & E & R' & _); [done..|]. eauto.
    + eexists _, m. split; [eapply transmit_refuse; [done|lia|]|eauto]. lia.
  - intros k c b o n l m [q R] Ho Hn Hl Hb. destruct k; [eexists _, _, _, m; by eauto 10..|].
    destruct c as [c|]; [|by eexists _, _, _, m; eauto 10].
    cbn [drv_receive machine_net fmap option_fmap option_map].
    destruct (receive_contract m q b o n l R) as (r & b' & l' & m' & q' & E & R' & H'); [done..|].
    exists r, b', l', m'. split; [by rewrite (St_bind_ok _ _ _ _ _ E)|]. split; [by exists q'|done].
Defined.
End card.

(* ------------------------------------------------------------------ *)
(** ** A card *)

Module card_sample.
Definition A : Z := 0x200000.
Definition B : Z := 0xFEBC0000.
Definition context : e1000 :=
  E1000Ctx 0 false (replicate 6 0) (replicate 8 (RxDesc 0 0 0 0 0 0)) (replicate 8 (replicate 2048 0))
    0 (replicate 8 (TxDesc 0 0 0 0 0 0 0)) (replicate 8 (replicate 2048 0)) 0.
Definition start : machine := Machine context (fun _ => 0) [] (ConsoleState [] log_empty) None.
Definition dev : device := set_reg device_zero B 0x20000.

Lemma A_ok : 0 <= A /\ A + 0x9000 <= 2 ^ 64.
Proof. split; discriminate. Qed.
Lemma B_ok : 0 < B /\ B + 0x6000 <= 2 ^ 64.
Proof. split; [reflexivity|discriminate]. Qed.

Lemma context_sized : sized context.
Proof. split; try reflexivity; apply Forall_replicate; vm_compute; reflexivity. Qed.

Lemma initialised : exists m, represents A B m (Queues [] [] []).
Proof.
  destruct (init_programs A B B_ok A_ok start dev context_sized eq_refl) as (m & _ & Hp & Hw).
  exists m. change [] with (m_wire start) at 3. rewrite <- Hw. by apply programmed_represents.
Qed.

Lemma pending : exists m, represents A B m (Queues [[1; 2; 3]] [] []).
Proof.
  destruct initialised as [m R].
  destruct (transmit_accept A B B_ok m _ [1; 2; 3] 0 3 [1; 2; 3] R) as (m' & _ & R' & _);
    [reflexivity|discriminate|cbn; lia|]. by exists m'.
Qed.
End card_sample.
Import card_sample.

Lemma e1000_refines_queues_witness :
  exists m, @e1000_init_context machine unit _ _ (card_bus B) (card_ctx A) (Some tt) (Some dev) start
    = Ok (0, m) /\ represents A B m (Queues [] [] []).
Proof.
  exact (proj1 (e1000_refines_queues A B B_ok A_ok) start dev context_sized eq_refl).
Defined.

Lemma e1000_tx_drains_witness : exists m0 m1 m2,
  @e1000_init_context machine unit _ _ (card_bus B) (card_ctx A) (Some tt) (Some dev) start = Ok (0, m0) /\
  run A B m0 [Transmit [1; 2; 3] 0] m1 /\ hw_run A m1 [Sent [1; 2; 3]] m2 /\ m_wire m2 = [[1; 2; 3]].
Proof.
  destruct (e1000_tx_drains A B B_ok A_ok start dev context_sized eq_refl) as (m0 & E & H).
  destruct (init_programs A B B_ok A_ok start dev context_sized eq_refl) as (m0' & E' & Hp & _).
  assert (m0' = m0) as -> by congruence.
  destruct (transmit_accept A B B_ok m0 _ [1; 2; 3] 0 3 [1; 2; 3] (programmed_represents A B m0 Hp))
    as (m1 & Et & _); [reflexivity|discriminate|cbn; lia|].
  assert (run A B m0 [Transmit [1; 2; 3] 0] m1) as Hrun.
  { eapply run_step; [|apply run_done]. by apply (step_transmit A B m0 [1; 2; 3] 0 3). }
  destruct (H _ m1 Hrun) as (pending & Hp' & _ & _ & Hdrain). cbn in Hp'. subst pending.
  destruct (proj1 (Hdrain ltac:(cbn; lia))) as (m2 & Hrun2 & Hw & _).
  exists m0, m1, m2. split; [exact E|]. split; [exact Hrun|]. split; [exact Hrun2|exact Hw].
Defined.

Lemma e1000_stalls_witness :
  exists m, represents A B m (Queues [] [] []) /\ exists m', rtc (lost A B 64) m m' /\
    (forall f eop m2, ~ hw_step A m' (Arrived f eop) m2).
Proof.
  destruct initialised as [m R]. exists m. split; [exact R|].
  destruct (proj2 (e1000_stalls A B B_ok m [] [] [] R) eq_refl 64) as (m' & Hrun & Hdead & _).
  - split; [discriminate|reflexivity].
  - by exists m'.
Defined.
