(* ===== verification/Rtl8139.v ===== *)
(** The Realtek RTL8139 driver (drivers/rtl8139): register access over ports or
    memory, initialisation, the receive ring and transmission. *)

From S2P Require Export Driver Netdev ByteOrder.

Open Scope Z_scope.

Definition PCI_VENDOR_ID_REALTEK : Z := 0x10EC.
Definition RTL8139_DEVICE_ID : Z := 0x8139.
Definition RTL8139_MAC0 : Z := 0x00.
Definition RTL8139_MAR0 : Z := 0x08.
Definition RTL8139_TXSTATUS0 : Z := 0x10.
Definition RTL8139_TXADDR0 : Z := 0x20.
Definition RTL8139_RXBUF : Z := 0x30.
Definition RTL8139_CMD : Z := 0x37.
Definition RTL8139_CAPR : Z := 0x38.
Definition RTL8139_IMR : Z := 0x3C.
Definition RTL8139_ISR : Z := 0x3E.
Definition RTL8139_TCR : Z := 0x40.
Definition RTL8139_RCR : Z := 0x44.
Definition RTL8139_CONFIG1 : Z := 0x52.
Definition RTL8139_CMD_RST : Z := 2 ^ 4.
Definition RTL8139_CMD_RE : Z := 2 ^ 3.
Definition RTL8139_CMD_TE : Z := 2 ^ 2.
Definition RTL8139_CMD_BUFE : Z := 2 ^ 0.
Definition RTL8139_INT_RXOK : Z := 2 ^ 0.
Definition RTL8139_INT_RXERR : Z := 2 ^ 1.
Definition RTL8139_RCR_AAP : Z := 2 ^ 0.
Definition RTL8139_RCR_APM : Z := 2 ^ 1.
Definition RTL8139_RCR_AM : Z := 2 ^ 2.
Definition RTL8139_RCR_AB : Z := 2 ^ 3.
Definition RTL8139_RCR_WRAP : Z := 2 ^ 7.
Definition RTL8139_RCR_RBLEN_8K : Z := 0.
Definition RTL8139_TCR_IFG_STD : Z := 3 * 2 ^ 24.
Definition RTL8139_RX_BUFFER_SIZE : Z := 8192 + 16 + 1536.
Definition PCI_CONFIG_ADDRESS : Z := 0xCF8.
Definition PCI_CONFIG_DATA : Z := 0xCFC.

(** [rtl8139_t]; [rx_offset] is not used. *)
Record rtl8139 := Rtl8139 {
  mmio_base : Z;
  initialized : bool;
  use_mmio : bool;
  mac_addr : bytes;
  rx_buffer : bytes;
  tx_current : Z;
  tx_buffer : bytes
}.
(** Offsets in [rtl8139_t]: rx_buffer is 16-byte aligned, tx_buffer 8-byte. *)
Definition offsetof_rx_buffer : Z := 32.
Definition offsetof_tx_buffer : Z := offsetof_rx_buffer + RTL8139_RX_BUFFER_SIZE + 8.

Definition setup (base : Z) (c : rtl8139) : rtl8139 :=
  Rtl8139 base (initialized c) (0x10000 <=? base) (mac_addr c) (rx_buffer c) 0 (tx_buffer c).
Definition set_mac (mac : bytes) (c : rtl8139) : rtl8139 :=
  Rtl8139 (mmio_base c) (initialized c) (use_mmio c) mac (rx_buffer c) (tx_current c) (tx_buffer c).
Definition set_initialized (c : rtl8139) : rtl8139 :=
  Rtl8139 (mmio_base c) true (use_mmio c) (mac_addr c) (rx_buffer c) (tx_current c) (tx_buffer c).
Definition set_tx_buffer (b : bytes) (c : rtl8139) : rtl8139 :=
  Rtl8139 (mmio_base c) (initialized c) (use_mmio c) (mac_addr c) (rx_buffer c) (tx_current c) b.
Definition set_tx_current (n : Z) (c : rtl8139) : rtl8139 :=
  Rtl8139 (mmio_base c) (initialized c) (use_mmio c) (mac_addr c) (rx_buffer c) n (tx_buffer c).

Section rtl8139.
  Context {W P : Type} `{Arch} `{Console W} `{TagVars W} `{Bus W} `{CtxMem P rtl8139 W}.

(** [#if defined(__x86_64__) || defined(__i386__)]. *)
Definition on_x86 : bool := bool_decide (the_arch = AMD64).

(** An access of some width: memory-mapped, or by port on x86. *)
Definition rtl8139_read (mmio port : access) (width : Z) (ctx : P) (offset : Z) : St W Z :=
  c ← gets (ctx_get ctx);
  if use_mmio c then bus_read mmio (u64 (mmio_base c + offset / width * width)) else
  if on_x86 then bus_read port (u16 (u16 (mmio_base c) + offset)) else mret 0.
Definition rtl8139_write (mmio port : access) (width : Z) (ctx : P) (offset value : Z) : St W unit :=
  c ← gets (ctx_get ctx);
  if use_mmio c then bus_write mmio (u64 (mmio_base c + offset / width * width)) value else
  if on_x86 then bus_write port (u16 (u16 (mmio_base c) + offset)) value else skip.

Definition rtl8139_read8 : P -> Z -> St W Z := rtl8139_read Mmio8 Port8 1.
Definition rtl8139_read16 : P -> Z -> St W Z := rtl8139_read Mmio16 Port16 2.
Definition rtl8139_read32 : P -> Z -> St W Z := rtl8139_read Mmio32 Port32 4.
Definition rtl8139_write8 (ctx : P) (offset value : Z) : St W unit :=
  rtl8139_write Mmio8 Port8 1 ctx offset (u8 value).
Definition rtl8139_write16 (ctx : P) (offset value : Z) : St W unit :=
  rtl8139_write Mmio16 Port16 2 ctx offset (u16 value).
Definition rtl8139_write32 (ctx : P) (offset value : Z) : St W unit :=
  rtl8139_write Mmio32 Port32 4 ctx offset (u32 value).

Definition read_mac_address (ctx : P) : St W unit :=
  for_n 6 (fun i _ =>
    x ← rtl8139_read8 ctx (RTL8139_MAC0 + Z.of_nat i);
    ctx_update ctx (fun c => mac ← wr (mac_addr c) (Z.of_nat i) x; mret (set_mac mac c))) tt.

Definition enable_bus_master (bus device function : Z) : St W unit :=
  let address := Z.lor (Z.lor (Z.lor (Z.lor 0x80000000 (u32 (Z.shiftl bus 16)))
                                 (u32 (Z.shiftl device 11))) (u32 (Z.shiftl function 8))) 0x04 in
  _ ← io_outl PCI_CONFIG_ADDRESS address;
  command ← io_inl PCI_CONFIG_DATA;
  when (Z.land command 0x04 =? 0) (io_outl PCI_CONFIG_DATA (Z.lor command 0x04)).

(** [while ((read8(CMD) & RST) != 0);], given up after [fuel] polls. *)
Fixpoint wait_reset (fuel : nat) (ctx : P) : St W unit :=
  match fuel with
  | O => lift NoFuel
  | S fuel =>
      x ← rtl8139_read8 ctx RTL8139_CMD;
      if negb (Z.land x RTL8139_CMD_RST =? 0) then wait_reset fuel ctx else skip
  end.

Definition rcr_value : Z :=
  foldl Z.lor RTL8139_RCR_AAP
    [RTL8139_RCR_APM; RTL8139_RCR_AM; RTL8139_RCR_AB; RTL8139_RCR_WRAP; RTL8139_RCR_RBLEN_8K;
     4 * 2 ^ 13; 4 * 2 ^ 8].
Definition tcr_value : Z := Z.lor (Z.lor RTL8139_TCR_IFG_STD (4 * 2 ^ 8)) 0x03000000.

(** [fuel]: the polls of the reset bit after which the model gives up. *)
Definition rtl8139_init_context (fuel : nat) (ctx : option P) (dev : option device) : St W Z :=
  match ctx, dev with
  | Some ctx, Some dev =>
      _ ← register_once "rtl_log" "rtl8139" LOG_INFO;
      _ ← ctx_modify ctx (setup (reg_base dev));
      c ← gets (ctx_get ctx);
      _ ← when (on_x86 && negb (use_mmio c))
            (enable_bus_master (dev_bus dev) (device_num dev) (dev_function dev));
      _ ← read_mac_address ctx;
      _ ← rtl8139_write8 ctx RTL8139_CONFIG1 0x00;
      _ ← rtl8139_write8 ctx RTL8139_CMD RTL8139_CMD_RST;
      _ ← wait_reset fuel ctx;
      _ ← for_n 6 (fun i _ =>
            c ← gets (ctx_get ctx);
            x ← lift (rd (mac_addr c) (Z.of_nat i));
            rtl8139_write8 ctx (RTL8139_MAC0 + Z.of_nat i) x) tt;
      _ ← rtl8139_write32 ctx RTL8139_MAR0 0xFFFFFFFF;
      _ ← rtl8139_write32 ctx (RTL8139_MAR0 + 4) 0xFFFFFFFF;
      _ ← rtl8139_write8 ctx RTL8139_CMD (Z.lor RTL8139_CMD_RE RTL8139_CMD_TE);
      _ ← rtl8139_write32 ctx RTL8139_RCR rcr_value;
      _ ← rtl8139_write32 ctx RTL8139_TCR tcr_value;
      _ ← rtl8139_write32 ctx RTL8139_RXBUF (ctx_address (W := W) ctx + offsetof_rx_buffer);
      _ ← rtl8139_write16 ctx RTL8139_CAPR 0xFFF0;
      _ ← rtl8139_write32 ctx 0x4C 0;
      _ ← rtl8139_write8 ctx RTL8139_CMD (Z.lor RTL8139_CMD_RE RTL8139_CMD_TE);
      _ ← rtl8139_write16 ctx RTL8139_ISR 0xFFFF;
      _ ← rtl8139_write16 ctx RTL8139_IMR (Z.lor RTL8139_INT_RXOK RTL8139_INT_RXERR);
      _ ← ctx_modify ctx set_initialized;
      _ ← tag_info "rtl_log" "Driver initialized successfully
";
      mret 0
  | _, _ => mret (-1)
  end.

Definition rtl8139_deinit_context (ctx : option P) : St W unit := skip.

Definition rtl8139_id_table : list device_id_entry :=
  [DeviceId None PCI_VENDOR_ID_REALTEK RTL8139_DEVICE_ID
     (Some (str "Realtek RTL8139 Fast Ethernet"));
   DeviceId None 0 0 None].

Definition rtl8139_driver (fuel : nat) (reg : W -> registry) : driver := {|
  drv_name := str "rtl8139"; drv_version := str "0.1.0"; drv_type := DRIVER_TYPE_NETWORK;
  id_table := Some rtl8139_id_table;
  init_context := Some (fun ctx i w =>
    d ← slot (reg w) i; rtl8139_init_context fuel (Some ctx) (Some d) w);
  deinit_context := Some (fun ctx w => '(_, w) ← rtl8139_deinit_context (Some ctx) w; mret w) |}.

Definition rtl8139_get_mac (ctx : option P) (mac : option bytes) : St W (Z * option bytes) :=
  match ctx, mac with
  | Some ctx, Some mac =>
      c ← gets (ctx_get ctx);
      if negb (initialized c) then mret (-1, Some mac) else
      mac ← lift (memcpy mac 0 (mac_addr c) 0 6);
      mret (0, Some mac)
  | _, _ => mret (-1, mac)
  end.

(** The copy out of the ring: [buffer[i] = rx_buffer[(offset + 4 + i) % 8192]]. *)
Definition ring_copy (b : bytes) (o : Z) (rx : bytes) (offset : Z) (n : nat) : res bytes :=
  for_n n (fun i b =>
    x ← rd rx ((offset + 4 + Z.of_nat i) mod 8192); wr b (o + Z.of_nat i) x) b.

Definition rtl8139_receive (ctx : option P) (buffer : option (bytes * Z)) (buffer_size : Z)
    (received_length : option Z) : St W (Z * option (bytes * Z) * option Z) :=
  let fail := (-1, buffer, received_length) in
  match ctx, buffer, received_length with
  | Some ctx, Some (b, o), Some _ =>
      c ← gets (ctx_get ctx);
      if negb (initialized c) then mret fail else
      cmd ← rtl8139_read8 ctx RTL8139_CMD;
      if negb (Z.land cmd RTL8139_CMD_BUFE =? 0) then mret fail else
      capr ← rtl8139_read16 ctx RTL8139_CAPR;
      let offset := u16 ((capr + 16) mod 8192) in
      c ← gets (ctx_get ctx);
      packet_status ← lift (ld16 (rx_buffer c) offset);
      packet_length ← lift (ld16 (rx_buffer c) (offset + 2));
      if (Z.land packet_status 0x01 =? 0) || (packet_length <? 4) then mret fail else
      isr ← rtl8139_read16 ctx RTL8139_ISR;
      _ ← when (negb (isr =? 0)) (rtl8139_write16 ctx RTL8139_ISR isr);
      let packet_length := packet_length - 4 in
      if buffer_size <? packet_length then mret fail else
      c ← gets (ctx_get ctx);
      b ← lift (ring_copy b o (rx_buffer c) offset (Z.to_nat packet_length));
      let offset := Z.land (offset + packet_length + 4 + 3) (Z.lnot 3) mod 8192 in
      _ ← rtl8139_write16 ctx RTL8139_CAPR (u16 (offset - 16));
      mret (0, Some (b, o), Some packet_length)
  | _, _, _ => mret fail
  end.

Definition rtl8139_transmit (ctx : option P) (buffer : option (bytes * Z)) (length : Z) : St W Z :=
  match ctx, buffer with
  | Some ctx, Some (b, o) =>
      c ← gets (ctx_get ctx);
      if negb (initialized c) || (2048 <? length) || (length <? 1) then mret (-1) else
      let descriptor := tx_current c in
      _ ← ctx_update ctx (fun c =>
            t ← memcpy (tx_buffer c) 0 b o (Z.to_nat length); mret (set_tx_buffer t c));
      _ ← rtl8139_write32 ctx (RTL8139_TXADDR0 + descriptor * 4)
            (ctx_address (W := W) ctx + offsetof_tx_buffer);
      _ ← rtl8139_write32 ctx (RTL8139_TXSTATUS0 + descriptor * 4) length;
      _ ← ctx_modify ctx (fun c => set_tx_current (u8 ((tx_current c + 1) mod 4)) c);
      mret 0
  | _, _ => mret (-1)
  end.
End rtl8139.

(* ------------------------------------------------------------------ *)
(** ** A machine with a memory-mapped card *)

Abbreviation machine := (Driver.machine rtl8139).

(** The bytes of a packet in the receive ring: [n] of them behind the header at
    [p], wrapping at 8192. *)
Definition ring_frame (rx : bytes) (p : Z) (n : nat) : bytes :=
  (fun i => default 0 (rx !! Z.to_nat ((p + 4 + Z.of_nat i) mod 8192))) <$> seq 0 n.

Section card.
  (** The addresses of the context and of the card's registers, and the target. *)
  Context (A B : Z) `{Arch}.

#[local] Instance card_ctx : CtxMem unit rtl8139 machine := {
  ctx_get _ := m_ctx;
  ctx_put _ := with_ctx;
  ctx_address _ := A
}.
(** The registers after a reset: the card knows its MAC address, its receive ring is
    empty, and the driver owns the four transmit descriptors. *)
Definition reset_regs (r : Z -> Z) (off : Z) : Z :=
  if off <? 6 then r off
  else if bool_decide (off ∈ [0x10; 0x14; 0x18; 0x1C]) then 0x2000
  else if off =? RTL8139_CMD then RTL8139_CMD_BUFE else 0.
Definition reset (m : machine) : machine :=
  Machine (m_ctx m) (reset_regs (m_regs m)) (m_wire m) (m_console m) (m_tag m).

(** Registers hold what was last written; but writing the reset bit resets the card, and
    writing the interrupt status clears the bits that are ones in the value. *)
Definition written (off v : Z) (m : machine) : machine :=
  if (off =? RTL8139_CMD) && Z.testbit v 4 then reset m
  else if off =? RTL8139_ISR then poke off (Z.ldiff (m_regs m off) v) m
  else poke off v m.
#[local] Instance card_bus : Bus machine := {
  bus_read a addr m := Ok (m_regs m (addr - B) mod (access_max a + 1), m);
  bus_write _ addr v m := Ok (tt, written (addr - B) v m)
}.

  Hypothesis HB : 0x10000 <= B /\ B + 0x100 <= 2 ^ 64.

(** A context after initialisation. *)
Record ready (m : machine) : Prop := Ready {
  ready_init : initialized (m_ctx m) = true;
  ready_mmio : use_mmio (m_ctx m) = true;
  ready_base : mmio_base (m_ctx m) = B;
  ready_rx : len (rx_buffer (m_ctx m)) = RTL8139_RX_BUFFER_SIZE;
  ready_rx_bytes : is_bytes (rx_buffer (m_ctx m));
  ready_tx : len (tx_buffer (m_ctx m)) = 2048;
  ready_current : 0 <= tx_current (m_ctx m) < 4
}.

(** The read position, and the card once the interrupts it shows are acknowledged. *)
Definition read_position (m : machine) : Z := (m_regs m RTL8139_CAPR mod 2 ^ 16 + 16) mod 8192.
Definition acknowledged (m : machine) : machine :=
  if m_regs m RTL8139_ISR mod 2 ^ 16 =? 0 then m
  else poke RTL8139_ISR (Z.ldiff (m_regs m RTL8139_ISR) (m_regs m RTL8139_ISR mod 2 ^ 16)) m.

Lemma acknowledged_clear m : m_regs (acknowledged m) RTL8139_ISR mod 2 ^ 16 = 0.
Proof using.
  unfold acknowledged. destruct (Z.eqb_spec (m_regs m RTL8139_ISR mod 2 ^ 16) 0) as [|_]; [done|].
  change (m_regs (poke ?a ?v m) RTL8139_ISR) with v. set (x := m_regs m RTL8139_ISR).
  apply Z.bits_inj'. intros i Hi. rewrite Z.bits_0. destruct (Z.lt_ge_cases i 16).
  - rewrite Z.mod_pow2_bits_low, Z.ldiff_spec, Z.mod_pow2_bits_low by done. by destruct (Z.testbit x i).
  - by rewrite Z.mod_pow2_bits_high.
Qed.

Lemma read_reg mmio port w (m : machine) off :
  use_mmio (m_ctx m) = true -> mmio_base (m_ctx m) = B -> 0 < w -> 0 <= off < 0x100 ->
  off mod w = 0 ->
  rtl8139_read mmio port w tt off m = Ok (m_regs m off mod (access_max mmio + 1), m).
Proof using HB.
  intros Hm Hbase Hw Ho Hd. unfold rtl8139_read. erewrite St_bind_ok by reflexivity.
  cbn [ctx_get card_ctx]. rewrite Hm, Hbase.
  replace (off / w * w) with off by (pose proof (Z.div_mod off w); lia).
  cbn [bus_read card_bus]. rewrite u64_id by (unfold is_u64; lia).
  by replace (B + off - B) with off by lia.
Qed.

Lemma write_reg mmio port w (m : machine) off v :
  use_mmio (m_ctx m) = true -> mmio_base (m_ctx m) = B -> 0 < w -> 0 <= off < 0x100 ->
  off mod w = 0 ->
  rtl8139_write mmio port w tt off v m =
    Ok (tt, written off v m).
Proof using HB.
  intros Hm Hbase Hw Ho Hd. unfold rtl8139_write. erewrite St_bind_ok by reflexivity.
  cbn [ctx_get card_ctx]. rewrite Hm, Hbase.
  replace (off / w * w) with off by (pose proof (Z.div_mod off w); lia).
  cbn [bus_write card_bus]. rewrite u64_id by (unfold is_u64; lia).
  by replace (B + off - B) with off by lia.
Qed.

Lemma read8_ok (m : machine) off :
  use_mmio (m_ctx m) = true -> mmio_base (m_ctx m) = B -> 0 <= off < 0x100 ->
  rtl8139_read8 tt off m = Ok (m_regs m off mod 2 ^ 8, m).
Proof using HB. intros. apply read_reg; [done..|apply Z.mod_1_r]. Qed.
Lemma read16_ok (m : machine) off :
  use_mmio (m_ctx m) = true -> mmio_base (m_ctx m) = B -> 0 <= off < 0x100 -> off mod 2 = 0 ->
  rtl8139_read16 tt off m = Ok (m_regs m off mod 2 ^ 16, m).
Proof using HB. intros. by apply read_reg. Qed.
Lemma write16_ok (m : machine) off v :
  use_mmio (m_ctx m) = true -> mmio_base (m_ctx m) = B -> 0 <= off < 0x100 -> off mod 2 = 0 ->
  off <> RTL8139_ISR -> rtl8139_write16 tt off v m = Ok (tt, poke off (u16 v) m).
Proof using HB.
  intros ? ? ? He Hi. unfold rtl8139_write16. rewrite write_reg by done. unfold written.
  destruct (Z.eqb_spec off RTL8139_CMD); [by subst|]. by destruct (Z.eqb_spec off RTL8139_ISR).
Qed.
Lemma write_isr_ok (m : machine) v :
  use_mmio (m_ctx m) = true -> mmio_base (m_ctx m) = B ->
  rtl8139_write16 tt RTL8139_ISR v m
  = Ok (tt, poke RTL8139_ISR (Z.ldiff (m_regs m RTL8139_ISR) (u16 v)) m).
Proof using HB. intros. unfold rtl8139_write16. by rewrite write_reg by (done || lia). Qed.
Lemma write32_ok (m : machine) off v :
  use_mmio (m_ctx m) = true -> mmio_base (m_ctx m) = B -> 0 <= off < 0x100 -> off mod 4 = 0 ->
  rtl8139_write32 tt off v m = Ok (tt, poke off (u32 v) m).
Proof using HB.
  intros ? ? ? He. unfold rtl8139_write32. rewrite write_reg by done. unfold written.
  destruct (Z.eqb_spec off RTL8139_CMD); [by subst|]. destruct (Z.eqb_spec off RTL8139_ISR); [by subst|done].
Qed.
Lemma rtl_write8_ok (m : machine) off v :
  use_mmio (m_ctx m) = true -> mmio_base (m_ctx m) = B -> 0 <= off < 0x100 ->
  off <> RTL8139_ISR -> off <> RTL8139_CMD \/ Z.testbit (u8 v) 4 = false ->
  rtl8139_write8 tt off v m = Ok (tt, poke off (u8 v) m).
Proof using HB.
  intros ? ? ? Hi Hv. unfold rtl8139_write8. rewrite write_reg by (done || apply Z.mod_1_r).
  unfold written. destruct (Z.eqb_spec off RTL8139_ISR); [done|].
  destruct (Z.eqb_spec off RTL8139_CMD) as [->|]; [|done]. by destruct Hv as [Hv|Hv]; [|rewrite Hv].
Qed.

(** Side conditions of the register accesses, at constant offsets. *)
Ltac at_reg := first [assumption | reflexivity | discriminate | split; [discriminate|reflexivity]].

Lemma ring_frame_len rx p n : len (ring_frame rx p n) = Z.of_nat n.
Proof using. unfold len, ring_frame. by rewrite length_fmap, length_seq. Qed.

Lemma ring_copy_store b o rx p n : 8192 <= len rx -> 0 <= o -> o + Z.of_nat n <= len b ->
  ring_copy b o rx p n = store b o (ring_frame rx p n).
Proof using.
  intros Hrx Ho. unfold ring_copy, for_n, ring_frame. induction n as [|n IH]; intros Hn.
  - destruct (split_at b o 0) as (h & mid & t & -> & <- & Hm); [lia..|].
    destruct mid; [|rewrite len_cons in Hm; pose proof (len_nonneg mid); lia].
    cbn [seq foldl fmap list_fmap]. by rewrite (store_ok h [] t []).
  - rewrite seq_S, foldl_snoc, fmap_app, IH by lia. cbn [Nat.add fmap list_fmap].
    rewrite <- (wr_seq b o _ _ (o + Z.of_nat n)) by (unfold len; rewrite length_fmap, length_seq; lia).
    destruct (store b o _) as [b'| |]; [|done..]. cbn [mbind res_bind].
    pose proof (Z.mod_pos_bound (p + 4 + Z.of_nat n) 8192 ltac:(lia)).
    destruct (rd_in_range rx ((p + 4 + Z.of_nat n) mod 8192)) as (x & -> & ->); [lia|done].
Qed.

Lemma ld16_range b o : is_bytes b -> 0 <= o -> o + 2 <= len b ->
  exists v, ld16 b o = Ok v /\ is_u16 v.
Proof using.
  intros Hb Ho Hl. unfold ld16.
  destruct (rd_in_range b o) as (x & E & _); [lia|]. rewrite E. pose proof (is_bytes_rd _ _ _ Hb E).
  destruct (rd_in_range b (o + 1)) as (y & E' & _); [lia|]. cbn [mbind res_bind]. rewrite E'.
  pose proof (is_bytes_rd _ _ _ Hb E'). eexists. split; [reflexivity|].
  unfold is_u16, is_u8 in *. lia.
Qed.

(** The whole of rtl8139_receive, branch by branch. *)
Lemma receive_cases m b o n l status length :
  let p := read_position m in
  let size := length - 4 in
  ready m -> 0 <= o -> 0 <= n -> o + n <= len b ->
  ld16 (rx_buffer (m_ctx m)) p = Ok status -> ld16 (rx_buffer (m_ctx m)) (p + 2) = Ok length ->
  let receive := rtl8139_receive (Some tt) (Some (b, o)) n (Some l) in
  if negb (Z.land (m_regs m RTL8139_CMD mod 2 ^ 8) RTL8139_CMD_BUFE =? 0)
     || (Z.land status 0x01 =? 0) || (length <? 4)
  then receive m = Ok (-1, Some (b, o), Some l, m)
  else if n <? size then receive m = Ok (-1, Some (b, o), Some l, acknowledged m)
  else exists b',
    store b o (ring_frame (rx_buffer (m_ctx m)) p (Z.to_nat size)) = Ok b' /\
    receive m = Ok (0, Some (b', o), Some size,
      poke RTL8139_CAPR (u16 (Z.land (p + size + 7) (Z.lnot 3) mod 8192 - 16)) (acknowledged m)).
Proof using HB.
  intros p size [Hi Hm Hbase Hrx Hrxb _ _] Ho Hn Hb Hs Hl receive.
  assert (Hp : 0 <= p < 8192) by (by apply Z.mod_pos_bound).
  unfold receive, rtl8139_receive. erewrite St_bind_ok by reflexivity. cbn [ctx_get card_ctx].
  rewrite Hi. cbn [negb].
  erewrite St_bind_ok by (apply read8_ok; at_reg).
  destruct (negb (Z.land (m_regs m RTL8139_CMD mod 2 ^ 8) RTL8139_CMD_BUFE =? 0)); [done|].
  cbn [orb].
  erewrite St_bind_ok by (apply read16_ok; at_reg). fold (read_position m). fold p.
  rewrite (u16_id p) by (unfold is_u16; lia).
  erewrite St_bind_ok by reflexivity. cbn [ctx_get card_ctx].
  rewrite (St_bind_ok _ _ m _ m (lift_ok _ _ m Hs)), (St_bind_ok _ _ m _ m (lift_ok _ _ m Hl)).
  destruct ((Z.land status 0x01 =? 0) || (length <? 4)) eqn:Ebad; [done|].
  apply orb_false_iff in Ebad as [_ Hlen%Z.ltb_ge].
  erewrite St_bind_ok by (apply read16_ok; at_reg).
  assert (Hack : when (negb (m_regs m RTL8139_ISR mod 2 ^ 16 =? 0))
     (rtl8139_write16 tt RTL8139_ISR (m_regs m RTL8139_ISR mod 2 ^ 16)) m = Ok (tt, acknowledged m)
     /\ m_ctx (acknowledged m) = m_ctx m).
  { unfold acknowledged. destruct (m_regs m RTL8139_ISR mod 2 ^ 16 =? 0); [done|]. cbn [negb when].
    split; [|done]. rewrite write_isr_ok by at_reg.
    by rewrite u16_id by (unfold is_u16; by apply Z.mod_pos_bound). }
  destruct Hack as [Hack Hctx]. rewrite (St_bind_ok _ _ m _ _ Hack). fold size.
  destruct (Z.ltb_spec n size); [done|].
  erewrite St_bind_ok by reflexivity. cbn [ctx_get card_ctx]. rewrite Hctx.
  destruct (store_in_range b o (ring_frame (rx_buffer (m_ctx m)) p (Z.to_nat size))) as [b' Hb'];
    [done|rewrite ring_frame_len; lia|].
  exists b'. split; [done|].
  erewrite St_bind_ok by (apply lift_ok; rewrite ring_copy_store;
    [exact Hb'|rewrite Hrx; discriminate|lia|lia]).
  erewrite St_bind_ok by (apply write16_ok; rewrite ?Hctx; at_reg).
  rewrite (u16_id (u16 _)) by apply u16_range.
  replace (p + size + 4 + 3) with (p + size + 7) by lia. reflexivity.
Qed.

Lemma land_not_3 x : Z.land x (Z.lnot 3) = x / 4 * 4.
Proof using.
  change 3 with (Z.ones 2). rewrite <- Z.ldiff_land, Z.ldiff_ones_r by lia.
  rewrite Z.shiftr_div_pow2, Z.shiftl_mul_pow2 by lia. done.
Qed.

(** The read pointer written after a packet of [size] bytes at [p] makes the next
    read position the multiple of 4 at or after [p + size + 4]. *)
Lemma position_after p size m : 
  read_position (poke RTL8139_CAPR (u16 (Z.land (p + size + 7) (Z.lnot 3) mod 8192 - 16)) m)
  = (p + size + 7) / 4 * 4 mod 8192.
Proof using.
  unfold read_position. rewrite land_not_3.
  change (m_regs (poke ?a ?v m) RTL8139_CAPR) with v. unfold u16. zdm.
Qed.

Lemma acknowledged_ready m : ready m -> ready (acknowledged m).
Proof using. intros []. unfold acknowledged. by case_match. Qed.

(** The machine after the transmission of [n] bytes left the buffer at [t]. *)
Definition transmitted (t : bytes) (n : Z) (m : machine) : machine :=
  let d := tx_current (m_ctx m) in
  with_ctx (set_tx_current ((d + 1) mod 4) (set_tx_buffer t (m_ctx m)))
    (poke (RTL8139_TXSTATUS0 + d * 4) n
       (poke (RTL8139_TXADDR0 + d * 4) (u32 (A + offsetof_tx_buffer)) m)).

Lemma transmit_ok m b o n f : ready m -> load b o n = Ok f -> 1 <= n <= 2048 ->
  exists t, store (tx_buffer (m_ctx m)) 0 f = Ok t /\
    rtl8139_transmit (Some tt) (Some (b, o)) n m = Ok (0, transmitted t n m).
Proof using HB.
  intros R Hf Hn. pose proof (load_len _ _ _ _ Hf) as Hfl. pose proof R as [].
  unfold rtl8139_transmit. erewrite St_bind_ok by reflexivity. cbn [ctx_get card_ctx].
  rewrite ready_init0. cbn [negb orb].
  destruct (Z.ltb_spec 2048 n); [lia|]. destruct (Z.ltb_spec n 1); [lia|]. cbn [orb].
  destruct (store_in_range (tx_buffer (m_ctx m)) 0 f) as [t Ht]; [lia|lia|].
  exists t. split; [done|]. erewrite St_bind_ok; cycle 1.
  { apply ctx_update_ok. cbn [ctx_get card_ctx].
    rewrite (memcpy_store _ _ _ _ _ f) by (rewrite ?Z2Nat.id by lia; done || lia).
    rewrite Ht. reflexivity. }
  unfold transmitted. set (d := tx_current (m_ctx m)) in *. cbn [ctx_put card_ctx].
  assert (d = 0 \/ d = 1 \/ d = 2 \/ d = 3) as Hd by lia.
  erewrite St_bind_ok by (apply write32_ok; [done..| |];
    destruct Hd as [-> |[-> |[-> | ->]]]; at_reg).
  erewrite St_bind_ok by (apply write32_ok; [done..| |];
    destruct Hd as [-> |[-> |[-> | ->]]]; at_reg).
  erewrite St_bind_ok by reflexivity. cbn [ctx_get ctx_put card_ctx].
  rewrite (u32_id n) by (unfold is_u32; lia).
  cbn [m_ctx with_ctx poke set_tx_buffer tx_current]. fold d.
  by rewrite (u8_id ((d + 1) mod 4)) by (unfold is_u8; pose proof (Z.mod_pos_bound (d + 1) 4); lia).
Qed.

Lemma transmitted_ready t n m : ready m -> len t = 2048 -> ready (transmitted t n m).
Proof using. intros [] Ht. split; cbn; try done. apply Z.mod_pos_bound. lia. Qed.

(* ------------------------------------------------------------------ *)
(** ** Properties *)

(** C28: rtl8139_receive on every branch.  With the buffer-empty bit set, or a header
    without the OK bit or with a length below 4, it returns -1 and changes nothing.
    Otherwise it acknowledges the interrupts the card shows: none is pending after it.
    A packet longer than the buffer is then refused, the read pointer where it was; any
    other packet is copied out of the ring, its length without the checksum is returned,
    and the next read position is the next multiple of 4 behind it.  No other register
    and nothing of the context changes. *)
Theorem rtl8139_receive_correct m b o n l status length :
  let p := read_position m in
  let size := length - 4 in
  ready m -> 0 <= o -> 0 <= n -> o + n <= len b ->
  ld16 (rx_buffer (m_ctx m)) p = Ok status -> ld16 (rx_buffer (m_ctx m)) (p + 2) = Ok length ->
  let receive := rtl8139_receive (Some tt) (Some (b, o)) n (Some l) in
  if negb (Z.land (m_regs m RTL8139_CMD mod 2 ^ 8) RTL8139_CMD_BUFE =? 0)
     || (Z.land status 0x01 =? 0) || (length <? 4)
  then receive m = Ok (-1, Some (b, o), Some l, m)
  else exists result b' l' m',
    receive m = Ok (result, Some (b', o), Some l', m') /\ ready m' /\ m_ctx m' = m_ctx m /\
    m_regs m' RTL8139_ISR mod 2 ^ 16 = 0 /\
    (forall off, off <> RTL8139_ISR -> off <> RTL8139_CAPR -> m_regs m' off = m_regs m off) /\
    if n <? size then result = -1 /\ b' = b /\ l' = l /\ read_position m' = p
    else result = 0 /\ l' = size /\
      store b o (ring_frame (rx_buffer (m_ctx m)) p (Z.to_nat size)) = Ok b' /\
      read_position m' = (p + size + 7) / 4 * 4 mod 8192.
Proof using HB.
  intros p size R Ho Hn Hb Hs Hl receive.
  pose proof (receive_cases m b o n l status length R Ho Hn Hb Hs Hl) as E.
  fold p size receive in E. destruct (_ || _); [done|].
  assert (m_ctx (acknowledged m) = m_ctx m /\ read_position (acknowledged m) = p /\
    forall off, off <> RTL8139_ISR -> m_regs (acknowledged m) off = m_regs m off) as (Hc & Hrp & Hregs).
  { unfold acknowledged. destruct (m_regs m RTL8139_ISR mod 2 ^ 16 =? 0); [done|].
    split; [done|]. split; [reflexivity|]. intros off Hoff. by apply reg_set_ne. }
  pose proof (acknowledged_ready m R) as R'. pose proof (acknowledged_clear m) as Hclear.
  destruct (n <? size).
  - eexists _, _, _, _. split; [exact E|]. by split_and!; auto.
  - destruct E as (b' & Hst & E). eexists _, _, _, _. split; [exact E|].
    split; [by destruct R'|]. split; [exact Hc|]. split; [exact Hclear|]. split.
    + intros off H1 H2. cbn [poke m_regs]. rewrite reg_set_ne by done. by apply Hregs.
    + split; [done|]. split; [done|]. split; [done|]. apply position_after.
Qed.

(** Where the card puts the header of the packet that follows one of [length]
    bytes, checksum included, at [p]: behind header and packet, rounded up to a
    multiple of 4. *)
Definition next_header (p length : Z) : Z := (p + 4 + length + 3) / 4 * 4 mod 8192.

(** Two faults of the receive ring.  After every packet received the driver's next
    read position is 4 bytes before the header of the next packet, since it
    counts the packet without its checksum.  And it programs the card not to wrap a
    packet at the end of the ring (WRAP), but wraps when it copies, so a packet that
    reaches the end is read wrongly. *)
Theorem rtl8139_ring_errors :
  (forall m b o n l status length,
    let p := read_position m in
    ready m -> 0 <= o -> 0 <= n -> o + n <= len b ->
    ld16 (rx_buffer (m_ctx m)) p = Ok status -> ld16 (rx_buffer (m_ctx m)) (p + 2) = Ok length ->
    Z.land (m_regs m RTL8139_CMD mod 2 ^ 8) RTL8139_CMD_BUFE = 0 ->
    Z.land status 0x01 <> 0 -> 4 <= length <= n + 4 -> exists b' m',
    rtl8139_receive (Some tt) (Some (b, o)) n (Some l) m
      = Ok (0, Some (b', o), Some (length - 4), m') /\
    read_position m' = (next_header p length - 4) mod 8192) /\
  (Z.testbit rcr_value 7 = true /\ exists rx frame,
    len rx = RTL8139_RX_BUFFER_SIZE /\ load rx (8176 + 4) 60 = Ok frame /\
    ring_frame rx 8176 60 <> frame).
Proof using HB.
  split.
  - intros m b o n l status length p R Ho Hn Hb Hs Hl Hcmd Hok Hlen.
    pose proof (receive_cases m b o n l status length R Ho Hn Hb Hs Hl) as E. fold p in E.
    rewrite Hcmd in E. destruct (Z.eqb_spec (Z.land status 1) 0); [done|].
    destruct (Z.ltb_spec length 4); [lia|]. destruct (Z.ltb_spec n (length - 4)); [lia|].
    destruct E as (b' & _ & E). eexists b', _. split; [exact E|].
    rewrite position_after. unfold next_header. zdm.
  - split; [reflexivity|]. eexists (replicate 8192 0 ++ replicate 1552 1), _.
    split; [reflexivity|]. split; [vm_compute; reflexivity|]. vm_compute. discriminate.
Qed.

(** A transmit of 1 to 2048 bytes copies the frame into the one buffer, hands the
    card its address and length in the next of the four descriptors, and goes on to
    the one after; any other length is refused with nothing changed. *)
Theorem rtl8139_transmit_correct m b o n f :
  ready m -> load b o n = Ok f ->
  if (2048 <? n) || (n <? 1) then rtl8139_transmit (Some tt) (Some (b, o)) n m = Ok (-1, m)
  else exists m', rtl8139_transmit (Some tt) (Some (b, o)) n m = Ok (0, m') /\ ready m' /\
    load (tx_buffer (m_ctx m')) 0 n = Ok f /\
    m_regs m' (RTL8139_TXADDR0 + tx_current (m_ctx m) * 4) = u32 (A + offsetof_tx_buffer) /\
    m_regs m' (RTL8139_TXSTATUS0 + tx_current (m_ctx m) * 4) = n /\
    tx_current (m_ctx m') = (tx_current (m_ctx m) + 1) mod 4.
Proof using HB.
  intros R Hf. destruct ((2048 <? n) || (n <? 1)) eqn:En.
  { unfold rtl8139_transmit. erewrite St_bind_ok by reflexivity. cbn [ctx_get card_ctx].
    rewrite (ready_init _ R). cbn [negb orb]. by rewrite En. }
  destruct (transmit_ok m b o n f R Hf) as (t & Ht & E); [lia|]. eexists. split; [exact E|].
  split; [apply transmitted_ready; [done|]; rewrite (store_len _ _ _ _ Ht); apply R|].
  unfold transmitted. cbn [m_ctx m_regs with_ctx poke set_tx_current set_tx_buffer tx_current tx_buffer].
  split; [rewrite <- (load_len _ _ _ _ Hf); by eapply load_store|].
  pose proof (ready_current _ R). split; [|split; [by rewrite reg_set_eq|done]].
  rewrite reg_set_ne by (unfold RTL8139_TXADDR0, RTL8139_TXSTATUS0; lia). by rewrite reg_set_eq.
Qed.
End card.

(* ------------------------------------------------------------------ *)
(** ** A card with one packet in its ring *)

Module card_sample.
Definition A : Z := 0x200000.
Definition B : Z := 0xFEBD0000.
Definition packet : bytes := [1; 2; 3; 4; 5; 6].
Definition context : rtl8139 :=
  Rtl8139 B true true (replicate 6 0)
    (le16 1 ++ le16 10 ++ packet ++ replicate (Z.to_nat RTL8139_RX_BUFFER_SIZE - 10) 0) 0
    (replicate 2048 0).
(** The read pointer at the start of the ring; ring not empty, the interrupt pending. *)
Definition start : machine :=
  Machine context (reg_set (reg_set (fun _ => 0) RTL8139_CAPR 0xFFF0) RTL8139_ISR 1) [] (ConsoleState [] log_empty) None.

Lemma B_range : 0x10000 <= B /\ B + 0x100 <= 2 ^ 64.
Proof. split; discriminate. Qed.
Lemma start_ready : ready B start.
Proof.
  split; try reflexivity; [|split; [discriminate|reflexivity]].
  apply is_bytes_app. split; [apply is_bytes_le16|]. apply is_bytes_app. split; [apply is_bytes_le16|].
  apply is_bytes_app. split; [by repeat constructor|]. by apply Forall_replicate.
Qed.
End card_sample.

Lemma rtl8139_receive_correct_witness :
  exists b' m', @rtl8139_receive machine unit AMD64 (card_bus card_sample.B) (card_ctx card_sample.A)
    (Some tt) (Some (replicate 64 0, 0)) 64 (Some 0) card_sample.start
    = Ok (0, Some (b', 0), Some 6, m') /\ load b' 0 6 = Ok card_sample.packet /\
    read_position m' = 12 /\ m_regs card_sample.start RTL8139_ISR = 1 /\
    m_regs m' RTL8139_ISR mod 2 ^ 16 = 0.
Proof.
  destruct (@rtl8139_receive_correct card_sample.A card_sample.B AMD64 card_sample.B_range
    card_sample.start (replicate 64 0) 0 64 0 1 10 card_sample.start_ready) as
    (r & b' & l' & m' & E & _ & _ & Hisr & _ & -> & -> & Hst & Hp);
    [discriminate|discriminate|discriminate|reflexivity|reflexivity|].
  exists b', m'. split; [exact E|]. split; [exact (load_store _ card_sample.packet b' Hst)|].
  split; [exact Hp|]. split; [reflexivity|exact Hisr].
Defined.

Lemma rtl8139_transmit_correct_witness :
  exists m', @rtl8139_transmit machine unit AMD64 (card_bus card_sample.B) (card_ctx card_sample.A)
    (Some tt) (Some (replicate 64 7, 4)) 60 card_sample.start = Ok (0, m') /\
    m_regs m' RTL8139_TXSTATUS0 = 60.
Proof.
  destruct (@rtl8139_transmit_correct card_sample.A card_sample.B AMD64 card_sample.B_range
    card_sample.start (replicate 64 7) 4 60 (replicate 60 7) card_sample.start_ready eq_refl)
    as (m' & E & _ & _ & _ & Hn & _).
  exists m'. split; [exact E|exact Hn].
Defined.

Lemma rtl8139_ring_errors_witness :
  exists b' m', @rtl8139_receive machine unit AMD64 (card_bus card_sample.B) (card_ctx card_sample.A)
    (Some tt) (Some (replicate 64 0, 0)) 64 (Some 0) card_sample.start
    = Ok (0, Some (b', 0), Some 6, m') /\ read_position m' = 12 /\ next_header 0 10 = 16.
Proof.
  destruct (proj1 (@rtl8139_ring_errors card_sample.A card_sample.B AMD64 card_sample.B_range)
    card_sample.start (replicate 64 0) 0 64 0 1 10 card_sample.start_ready) as (b' & m' & E & Hp);
    [discriminate|discriminate|discriminate|reflexivity|reflexivity|reflexivity|discriminate
    |split; discriminate|].
  exists b', m'. split; [exact E|]. split; [exact Hp|reflexivity].
Defined.
