(* ===== verification/Rtl8139Card.v ===== *)
(** The RTL8139 driver with its card: what initialisation sets up, and what the card
    puts on the wire. *)

From S2P Require Export Rtl8139.

Open Scope Z_scope.

Section card.
  (** The addresses of the context and of the card's registers, and the target. *)
  Context (A B : Z) `{Arch}.
  #[local] Existing Instances card_ctx card_bus.
#[local] Instance the_ctx : CtxMem unit rtl8139 machine := card_ctx A.
#[local] Instance the_bus : Bus machine := card_bus B.
  Hypothesis HB : 0x10000 <= B /\ B + 0x100 <= 2 ^ 64.
  Hypothesis HA : 0 <= A /\ A + 0x10000 <= 2 ^ 32.

(** The address of the transmit buffer. *)
Definition tx_address : Z := A + offsetof_tx_buffer.

(** The card's next transmit descriptor: it goes round the four of them. *)
Definition card_descriptor (m : machine) : Z := len (m_wire m) mod 4.

(** The frame a descriptor designates, read from the transmit buffer when it is sent. *)
Definition descriptor_frame (m : machine) (d : Z) : res bytes :=
  load (tx_buffer (m_ctx m)) (m_regs m (RTL8139_TXADDR0 + d * 4) - tx_address)
    (m_regs m (RTL8139_TXSTATUS0 + d * 4) mod 2 ^ 13).

(** The card sends the frame of its next descriptor, if the transmitter is enabled and
    the descriptor is the card's (bit 13 clear), and gives the descriptor back (bits 13
    and 15). *)
Definition card_sends (m : machine) : option machine :=
  let d := card_descriptor m in
  if Z.testbit (m_regs m RTL8139_CMD) 2
     && negb (Z.testbit (m_regs m (RTL8139_TXSTATUS0 + d * 4)) 13) then
    match descriptor_frame m d with
    | Ok f =>
        let m := poke (RTL8139_TXSTATUS0 + d * 4)
                   (Z.lor (m_regs m (RTL8139_TXSTATUS0 + d * 4)) 0xA000) m in
        Some (Machine (m_ctx m) (m_regs m) (m_wire m ++ [f]) (m_console m) (m_tag m))
    | _ => None
    end
  else None.

(* ------------------------------------------------------------------ *)
(** ** Initialisation *)

(** The MAC address in the card's registers. *)
Definition card_mac (m : machine) : bytes := (fun i => u8 (m_regs m (Z.of_nat i))) <$> seq 0 6.

(** A context before initialisation: the static object of the driver. *)
Record fresh (m : machine) : Prop := Fresh {
  fresh_mac : len (mac_addr (m_ctx m)) = 6;
  fresh_rx : len (rx_buffer (m_ctx m)) = RTL8139_RX_BUFFER_SIZE;
  fresh_rx_bytes : is_bytes (rx_buffer (m_ctx m));
  fresh_tx : len (tx_buffer (m_ctx m)) = 2048;
  fresh_wire : m_wire m = []
}.

(** A running card: the ring and the modes are programmed. *)
Record configured (m : machine) : Prop := Configured {
  conf_cmd : m_regs m RTL8139_CMD = Z.lor RTL8139_CMD_RE RTL8139_CMD_TE;
  conf_rcr : m_regs m RTL8139_RCR = rcr_value;
  conf_tcr : m_regs m RTL8139_TCR = tcr_value;
  conf_ring : m_regs m RTL8139_RXBUF = A + offsetof_rx_buffer;
  conf_imr : m_regs m RTL8139_IMR = Z.lor RTL8139_INT_RXOK RTL8139_INT_RXERR
}.

Lemma rtl_read_mac_ok m : use_mmio (m_ctx m) = true -> mmio_base (m_ctx m) = B ->
  len (mac_addr (m_ctx m)) = 6 ->
  read_mac_address tt m = Ok (tt, with_ctx (set_mac (card_mac m) (m_ctx m)) m).
Proof using HB.
  destruct m as [[base i u mac rx cur tx] r x k t]. cbn [m_ctx use_mmio mmio_base mac_addr].
  intros -> -> Hm.
  apply (f_equal Z.to_nat) in Hm. unfold len in Hm. rewrite Nat2Z.id in Hm.
  destruct mac as [|a0 [|a1 [|a2 [|a3 [|a4 [|a5 [|a6 mac]]]]]]]; try discriminate Hm.
  unfold read_mac_address. rewrite for_n_iter. cbn [seq iter_list].
  do 6 (erewrite St_bind_ok; cycle 1;
    [erewrite St_bind_ok by (apply read8_ok; [done|reflexivity|reflexivity|done]);
     apply ctx_update_ok; reflexivity|cbn [ctx_put the_ctx card_ctx with_ctx m_regs m_ctx]]).
  reflexivity.
Qed.

(** A step that changes registers below [n] only. *)
Record sets_below (n : Z) (m m' : machine) : Prop := SetsBelow {
  sb_ctx : m_ctx m' = m_ctx m;
  sb_wire : m_wire m' = m_wire m;
  sb_regs : forall off, n <= off -> m_regs m' off = m_regs m off
}.
#[local] Instance sets_below_trans n : Transitive (sets_below n).
Proof.
  intros m1 m2 m3 [C1 W1 R1] [C2 W2 R2]. split; [congruence..|]. intros off Ho. by rewrite R2, R1.
Qed.

Lemma write_mac_ok m : use_mmio (m_ctx m) = true -> mmio_base (m_ctx m) = B ->
  len (mac_addr (m_ctx m)) = 6 ->
  exists m', for_n 6 (fun i _ =>
      c ← gets (ctx_get tt);
      x ← lift (rd (mac_addr c) (Z.of_nat i));
      rtl8139_write8 tt (RTL8139_MAC0 + Z.of_nat i) x) tt m = Ok (tt, m') /\ sets_below 6 m m'.
Proof using HB.
  intros Hm Hb Hl. rewrite for_n_iter.
  assert (forall l m1, (forall i, i ∈ l -> (i < 6)%nat) -> sets_below 6 m m1 ->
    exists m', iter_list (fun i _ => c ← gets (ctx_get tt);
        x ← lift (rd (mac_addr c) (Z.of_nat i)); rtl8139_write8 tt (RTL8139_MAC0 + Z.of_nat i) x)
      l tt m1 = Ok (tt, m') /\ sets_below 6 m m') as Hloop.
  { induction l as [|i l IH]; intros m1 Hi Hs; cbn [iter_list]; [by exists m1|].
    assert (i < 6)%nat by (apply Hi; by left). pose proof Hs as [C1 _ _].
    destruct (rd_in_range (mac_addr (m_ctx m)) (Z.of_nat i)) as (x & E & _); [lia|].
    erewrite St_bind_ok; cycle 1.
    { erewrite St_bind_ok by reflexivity. cbn [ctx_get the_ctx card_ctx]. rewrite C1.
      erewrite St_bind_ok by (apply lift_ok; exact E).
      apply rtl_write8_ok;
        [done|by rewrite C1..|unfold RTL8139_MAC0; lia|unfold RTL8139_MAC0, RTL8139_ISR; lia|].
      left. unfold RTL8139_MAC0, RTL8139_CMD. lia. }
    apply IH; [intros j Hj; apply Hi; by right|]. transitivity m1; [done|]. split; [done..|].
    intros off Ho. cbn [m_regs poke]. apply reg_set_ne. unfold RTL8139_MAC0. lia. }
  apply Hloop; [intros i Hi%elem_of_seq; lia|]. by split.
Qed.

Lemma rtl_init_ok fuel dev m : fresh m -> reg_base dev = B ->
  exists m', rtl8139_init_context (S fuel) (Some tt) (Some dev) m = Ok (0, m') /\
    m_ctx m' = set_initialized (set_mac (card_mac m) (setup B (m_ctx m))) /\
    m_wire m' = m_wire m /\ read_position m' = 0 /\ configured m' /\
    forall d, 0 <= d < 4 -> m_regs m' (RTL8139_TXSTATUS0 + d * 4) = 0x2000.
Proof using HB HA.
  intros [Hmac Hrx Hrxb Htx _] Hbase. unfold rtl8139_init_context.
  destruct (register_ok "rtl_log" "rtl8139" LOG_INFO m) as (m1 & E1 & C1 & R1 & W1).
  rewrite (St_bind_ok _ _ _ _ _ E1). erewrite St_bind_ok by reflexivity.
  cbn [ctx_get ctx_put the_ctx card_ctx]. rewrite Hbase, C1.
  set (c := setup B (m_ctx m)). set (m2 := with_ctx c m1).
  assert (use_mmio c = true) as Hm by (unfold c; cbn; lia).
  erewrite St_bind_ok by reflexivity. cbn [ctx_get the_ctx card_ctx].
  change (m_ctx m2) with c. rewrite Hm, andb_false_r.
  erewrite St_bind_ok by reflexivity.
  erewrite St_bind_ok by (by apply rtl_read_mac_ok). change (m_ctx m2) with c.
  assert (card_mac m2 = card_mac m) as -> by (unfold card_mac; cbn; by rewrite R1).
  set (c' := set_mac (card_mac m) c). set (m3 := with_ctx c' m2).
  assert (use_mmio (m_ctx m3) = true) as Hm3 by done.
  erewrite St_bind_ok by (apply rtl_write8_ok; [done..|split; done|done|by left]).
  unfold rtl8139_write8 at 1.
  erewrite St_bind_ok by (apply write_reg; [done..|split; done|reflexivity]).
  match goal with |- context [written ?o ?v ?m] => change (written o v m) with (reset m) end.
  set (m4 := reset _). cbn [wait_reset].
  erewrite St_bind_ok; cycle 1.
  { erewrite St_bind_ok by (apply read8_ok; [done..|split; done]). reflexivity. }
  destruct (write_mac_ok m4) as (m5 & E5 & [C5 W5 R5]); [done..|].
  rewrite (St_bind_ok _ _ _ _ _ E5). destruct m5 as [c5 r5 w5 k5 t5].
  cbn [m_ctx m_wire m_regs] in C5, W5, R5. rewrite C5. clear E5 C5.
  change (m_ctx m4) with c'. set (m5 := Machine c' r5 w5 k5 t5).
  do 2 (erewrite St_bind_ok by (apply write32_ok; [done..|split; done|done])).
  erewrite St_bind_ok by (apply rtl_write8_ok; [done..|split; done|done|by right]).
  do 3 (erewrite St_bind_ok by (apply write32_ok; [done..|split; done|done])).
  erewrite St_bind_ok by (apply write16_ok; [done..|split; done|done|discriminate]).
  erewrite St_bind_ok by (apply write32_ok; [done..|split; done|done]).
  erewrite St_bind_ok by (apply rtl_write8_ok; [done..|split; done|done|by right]).
  erewrite St_bind_ok by (by apply write_isr_ok).
  erewrite St_bind_ok by (apply write16_ok; [done..|split; done|done|discriminate]).
  erewrite St_bind_ok by reflexivity. cbn [ctx_get ctx_put the_ctx card_ctx].
  set (m6 := with_ctx _ _).
  destruct (tag_info_ok "rtl_log" "Driver initialized successfully
" m6) as (m7 & E7 & C7 & R7 & W7).
  rewrite (St_bind_ok _ _ _ _ _ E7). exists m7. split; [done|]. split; [by rewrite C7|].
  split; [by rewrite W7; cbn; rewrite W5; cbn|]. unfold read_position. rewrite R7.
  split; [reflexivity|]. split.
  - split; rewrite R7; try reflexivity.
    cbn [m6 with_ctx m_regs poke]. apply u32_id. unfold is_u32, offsetof_rx_buffer. lia.
  - intros d Hd.
    assert (d = 0 \/ d = 1 \/ d = 2 \/ d = 3) as [-> |[-> |[-> | ->]]] by lia;
      (match goal with |- m_regs _ ?o = _ => transitivity (r5 o); [reflexivity|] end;
       rewrite R5 by done; reflexivity).
Qed.

(* ------------------------------------------------------------------ *)
(** ** Transmission *)

(** The transmitter is on, driver and card are at the same descriptor. *)
Record sending (m : machine) : Prop := Sending {
  send_ready : ready B m;
  send_cmd : Z.testbit (m_regs m RTL8139_CMD) 2 = true;
  send_same : tx_current (m_ctx m) = card_descriptor m
}.

(** The driver's call for one whole frame, and the frames it accepts. *)
Definition send (f : bytes) : St machine Z := rtl8139_transmit (Some tt) (Some (f, 0)) (len f).
Definition frame_ok (f : bytes) : Prop := 1 <= len f <= 2048.

Lemma send_ok m f : ready B m -> frame_ok f ->
  exists t, store (tx_buffer (m_ctx m)) 0 f = Ok t /\ send f m = Ok (0, transmitted A t (len f) m).
Proof using HB.
  intros R Hf. apply (transmit_ok A B HB m f 0 (len f) f R); [|exact Hf].
  pose proof (load_ok [] f []) as E. by rewrite app_nil_r in E.
Qed.

(** The card sends what the buffer holds. *)
Lemma card_sends_ok m d n f : Z.testbit (m_regs m RTL8139_CMD) 2 = true ->
  card_descriptor m = d -> 1 <= n <= 2048 ->
  m_regs m (RTL8139_TXSTATUS0 + d * 4) = n ->
  m_regs m (RTL8139_TXADDR0 + d * 4) = u32 tx_address ->
  load (tx_buffer (m_ctx m)) 0 n = Ok f ->
  exists m', card_sends m = Some m' /\ m_wire m' = m_wire m ++ [f] /\ m_ctx m' = m_ctx m /\
    forall off, off <> RTL8139_TXSTATUS0 + d * 4 -> m_regs m' off = m_regs m off.
Proof using HA.
  intros Hc Hd Hn Hs Ha Hf. unfold card_sends, descriptor_frame. rewrite Hd, Hs, Ha, Hc.
  rewrite (u32_id tx_address) by (unfold is_u32, tx_address, offsetof_tx_buffer, offsetof_rx_buffer,
    RTL8139_RX_BUFFER_SIZE; lia).
  rewrite Z.sub_diag, Z.mod_small by lia. rewrite Hf.
  assert (Z.testbit n 13 = false) as ->.
  { apply Z.bits_above_log2; [lia|]. pose proof (Z.log2_le_mono n 2048 ltac:(lia)) as Hl.
    change (Z.log2 2048) with 11 in Hl. lia. }
  eexists. split; [reflexivity|]. split; [done|]. split; [done|].
  intros off Ho. cbn [m_regs poke]. by apply reg_set_ne.
Qed.

Lemma ready_ctx m m' : m_ctx m' = m_ctx m -> ready B m -> ready B m'.
Proof using. intros E []. split; by rewrite E. Qed.

(** The registers after a transmission. *)
Lemma transmitted_regs t n m (d := tx_current (m_ctx m)) (m' := transmitted A t n m) :
  0 <= d < 4 ->
  m_regs m' (RTL8139_TXSTATUS0 + d * 4) = n /\
  m_regs m' (RTL8139_TXADDR0 + d * 4) = u32 tx_address /\
  forall off, (off < RTL8139_TXSTATUS0 \/ RTL8139_RXBUF <= off) \/
      (exists d', off = RTL8139_TXSTATUS0 + d' * 4 /\ 0 <= d' < 4 /\ d' <> d) \/
      (exists d', off = RTL8139_TXADDR0 + d' * 4 /\ 0 <= d' < 4 /\ d' <> d) ->
    m_regs m' off = m_regs m off.
Proof using.
  intros Hd. unfold m', transmitted. cbn [m_regs with_ctx poke]. fold d.
  unfold RTL8139_TXSTATUS0, RTL8139_TXADDR0, RTL8139_RXBUF.
  split; [by rewrite reg_set_eq|]. split; [by rewrite reg_set_ne, reg_set_eq by lia|].
  intros off Ho. rewrite !reg_set_ne by (destruct Ho as [|[(? & -> & ? & ?)|(? & -> & ? & ?)]]; lia). done.
Qed.

Lemma send_then_card m f : sending m -> frame_ok f ->
  exists m1 m2, send f m = Ok (0, m1) /\ card_sends m1 = Some m2 /\
    m_wire m2 = m_wire m ++ [f] /\ sending m2.
Proof using HA HB.
  intros [R Hc Hd] Hf. destruct (send_ok m f R Hf) as (t & Ht & E). pose proof (ready_current _ _ R).
  destruct (transmitted_regs t (len f) m) as (Rs & Ra & Ro); [done|].
  set (m1 := transmitted A t (len f) m) in *.
  assert (m_regs m1 RTL8139_CMD = m_regs m RTL8139_CMD) as Ec by (apply Ro; left; by right).
  destruct (card_sends_ok m1 (tx_current (m_ctx m)) (len f) f) as (m2 & E2 & W2 & C2 & R2);
    [by rewrite Ec|by rewrite Hd|done..|by eapply load_store|].
  exists m1, m2. split; [done|]. split; [done|]. split; [done|]. split.
  - eapply ready_ctx; [done|]. apply transmitted_ready; [done|].
    rewrite (store_len _ _ _ _ Ht). apply R.
  - rewrite R2, Ec by (unfold RTL8139_CMD, RTL8139_TXSTATUS0; lia). done.
  - rewrite C2. unfold card_descriptor. rewrite W2, len_app.
    change (tx_current (m_ctx m1)) with ((tx_current (m_ctx m) + 1) mod 4). rewrite Hd.
    unfold card_descriptor. change (len [f]) with 1. change (m_wire m1) with (m_wire m). zdm.
Qed.

(** Each frame is sent by the card before the driver is given the next. *)
Fixpoint in_turn (fs : list bytes) (m : machine) : option machine :=
  match fs with
  | [] => Some m
  | f :: fs =>
      match send f m with
      | Ok (0, m) => match card_sends m with Some m => in_turn fs m | None => None end
      | _ => None
      end
  end.

Lemma in_turn_ok fs : forall m, sending m -> Forall frame_ok fs ->
  exists m', in_turn fs m = Some m' /\ m_wire m' = m_wire m ++ fs /\ sending m'.
Proof using HA HB.
  induction fs as [|f fs IH]; intros m Hm Hfs.
  { exists m. by rewrite app_nil_r. }
  apply Forall_cons in Hfs as [Hf Hfs].
  destruct (send_then_card m f Hm Hf) as (m1 & m2 & E1 & E2 & W2 & Hm2).
  destruct (IH m2 Hm2 Hfs) as (m3 & E3 & W3 & Hm3). exists m3. cbn [in_turn]. rewrite E1, E2.
  split; [done|]. split; [|done]. by rewrite W3, W2, <- app_assoc.
Qed.

Lemma load_stored (b g t : bytes) n : store b 0 g = Ok t -> 0 <= n <= len g ->
  load t 0 n = Ok (take (Z.to_nat n) g).
Proof using.
  intros (h & mid & tl & -> & Hh & _ & ->)%store_inv Hn.
  destruct h; [|rewrite len_cons in Hh; pose proof (len_nonneg h); lia].
  pose proof (load_ok [] (take (Z.to_nat n) g) (drop (Z.to_nat n) g ++ tl)) as E.
  rewrite !app_nil_l, app_assoc, take_drop in *.
  replace (len (take (Z.to_nat n) g)) with n in E; [exact E|].
  unfold len in *. rewrite length_take. lia.
Qed.

(** Two calls before the card runs: both descriptors designate the second frame. *)
Lemma overtaken m f g : sending m -> frame_ok f -> frame_ok g -> len f <= len g ->
  exists m1 m2 m3 m4, send f m = Ok (0, m1) /\ send g m1 = Ok (0, m2) /\
    card_sends m2 = Some m3 /\ card_sends m3 = Some m4 /\
    m_wire m4 = m_wire m ++ [take (length f) g; g].
Proof using HA HB.
  intros [R Hc Hd] Hf Hg Hle. destruct (send_ok m f R Hf) as (t & Ht & E1).
  pose proof (ready_current _ _ R) as Hcur.
  destruct (transmitted_regs t (len f) m) as (Rs & Ra & Ro); [done|].
  set (d := tx_current (m_ctx m)) in *. set (m1 := transmitted A t (len f) m) in *.
  assert (ready B m1) as R1.
  { apply transmitted_ready; [done|]. rewrite (store_len _ _ _ _ Ht). apply R. }
  destruct (send_ok m1 g R1 Hg) as (t2 & Ht2 & E2).
  destruct (transmitted_regs t2 (len g) m1) as (Rs2 & Ra2 & Ro2); [apply R1|].
  change (tx_current (m_ctx m1)) with ((d + 1) mod 4) in *. set (e := (d + 1) mod 4) in *.
  assert (e <> d /\ 0 <= e < 4) as [Hed He] by (unfold e; zdm).
  set (m2 := transmitted A t2 (len g) m1) in *.
  assert (forall off, off = RTL8139_CMD -> m_regs m2 off = m_regs m off) as Ec.
  { intros off ->. rewrite Ro2, Ro by (left; by right). done. }
  destruct (card_sends_ok m2 d (len f) (take (length f) g)) as (m3 & E3 & W3 & C3 & R3);
    [by rewrite Ec|by rewrite Hd|done| | | |].
  { rewrite Ro2; [done|]. right. left. exists d. lia. }
  { rewrite Ro2; [done|]. right. right. exists d. lia. }
  { replace (length f) with (Z.to_nat (len f)) by (unfold len; lia).
    apply (load_stored (tx_buffer (m_ctx m1))); [done|]. pose proof (len_nonneg f). lia. }
  destruct (card_sends_ok m3 e (len g) g) as (m4 & E4 & W4 & _ & _).
  - rewrite R3, Ec by (unfold RTL8139_CMD, RTL8139_TXSTATUS0; lia). done.
  - unfold card_descriptor. rewrite W3, len_app. change (len [take (length f) g]) with 1.
    change (m_wire m2) with (m_wire m). unfold e. rewrite Hd. unfold card_descriptor. zdm.
  - done.
  - rewrite R3; [done|lia].
  - rewrite R3; [done|unfold RTL8139_TXADDR0, RTL8139_TXSTATUS0; lia].
  - rewrite C3. by eapply load_store.
  - exists m1, m2, m3, m4. split_and!; [done..|]. rewrite W4, W3, <- app_assoc. done.
Qed.

(* ------------------------------------------------------------------ *)
(** ** Properties *)

(** C29: rtl8139_init_context ends on a card whose reset ends, returns 0, reads the
    card's MAC address and leaves the receive ring, the modes and the interrupts
    programmed, with the read position at the start of the ring.  From then on, if the
    card sends each frame before the driver is given the next, the wire carries exactly
    the frames in order.  If it is given another first, no shorter one, the first is
    lost: the transmit buffer is shared, and the card sends the second frame's bytes for
    both. *)
Theorem rtl8139_sends_in_order fuel dev m : fresh m -> reg_base dev = B ->
  exists m0, rtl8139_init_context (S fuel) (Some tt) (Some dev) m = Ok (0, m0) /\
    ready B m0 /\ configured m0 /\ mac_addr (m_ctx m0) = card_mac m /\ read_position m0 = 0 /\
    forall fs, Forall frame_ok fs -> exists m1, in_turn fs m0 = Some m1 /\ m_wire m1 = fs /\
      forall f g, frame_ok f -> frame_ok g -> len f <= len g -> exists m2 m3 m4 m5,
        send f m1 = Ok (0, m2) /\ send g m2 = Ok (0, m3) /\
        card_sends m3 = Some m4 /\ card_sends m4 = Some m5 /\
        m_wire m5 = fs ++ [take (length f) g; g].
Proof using HA HB.
  intros Hm Hb. pose proof Hm as [Hmac Hrx Hrxb Htx Hw].
  destruct (rtl_init_ok fuel dev m Hm Hb) as (m0 & E0 & C0 & W0 & P0 & Hconf & _).
  assert (ready B m0) as R0.
  { split; rewrite C0; cbn; try done; lia. }
  exists m0. split; [done|]. split; [done|]. split; [done|]. split; [by rewrite C0|].
  split; [done|]. intros fs Hfs. destruct (in_turn_ok fs m0) as (m1 & E1 & W1 & Hs1); [|done|].
  - split; [done|by rewrite (conf_cmd _ Hconf)|]. unfold card_descriptor. by rewrite C0, W0, Hw.
  - exists m1. rewrite W0, Hw, app_nil_l in W1. split; [done|]. split; [done|]. intros f g Hf Hg Hle.
    rewrite <- W1. by apply overtaken.
Qed.
End card.

Module init_sample.
Definition context : rtl8139 :=
  Rtl8139 0 false false (replicate 6 0) (replicate (Z.to_nat RTL8139_RX_BUFFER_SIZE) 0) 0
    (replicate 2048 0).
Definition start : machine :=
  Machine context (fun off => if off <? 6 then 0x50 + off else 0) [] (ConsoleState [] log_empty) None.
Definition device : Device.device :=
  Device None None card_sample.B 0x100 0x10EC 0x8139 0 3 0 None DEVICE_STATE_DISCOVERED 0 0 None
    None None 0 None.

Lemma start_fresh : fresh start.
Proof. split; try reflexivity. by apply Forall_replicate. Qed.
Lemma A_range : 0 <= card_sample.A /\ card_sample.A + 0x10000 <= 2 ^ 32.
Proof. split; discriminate. Qed.
End init_sample.

Lemma rtl8139_sends_in_order_witness :
  exists m0 m1, @rtl8139_init_context machine unit AMD64 machine_console machine_tags
      (card_bus card_sample.B) (card_ctx card_sample.A) 1 (Some tt) (Some init_sample.device)
      init_sample.start = Ok (0, m0) /\
    mac_addr (m_ctx m0) = [0x50; 0x51; 0x52; 0x53; 0x54; 0x55] /\
    @in_turn card_sample.A card_sample.B AMD64 [[1; 2; 3]; [4; 5]; [6]; [7]; [8; 9]] m0 = Some m1 /\
    m_wire m1 = [[1; 2; 3]; [4; 5]; [6]; [7]; [8; 9]].
Proof.
  destruct (@rtl8139_sends_in_order card_sample.A card_sample.B AMD64 card_sample.B_range
    init_sample.A_range 0 init_sample.device init_sample.start init_sample.start_fresh eq_refl)
    as (m0 & E0 & _ & _ & Hmac & _ & Hsend).
  destruct (Hsend [[1; 2; 3]; [4; 5]; [6]; [7]; [8; 9]]) as (m1 & E1 & W1 & _).
  - repeat (apply Forall_cons; split; [split; discriminate|]). apply Forall_nil_2.
  - exists m0, m1. split; [exact E0|]. split; [rewrite Hmac; reflexivity|]. split; [exact E1|exact W1].
Defined.
