(* ===== verification/Virtqueue.v ===== *)
(** The split virtqueue of the legacy virtio interface, as the virtio drivers lay
    it out (drivers/virtio_rng/virtio_rng.h, drivers/virtio_net/virtio_net.h): the
    descriptor table, the available ring the driver writes and the used ring the
    device writes.  The flags and event fields, which the drivers only clear, are
    left out. *)

From S2P Require Export Driver VirtioMmio ByteOrder.

Open Scope Z_scope.

Definition VRING_DESC_F_WRITE : Z := 2.
Definition VIRTIO_VENDOR_ID : Z := 0x1AF4.

Record vdesc := VDesc { vd_addr : Z; vd_len : Z; vd_flags : Z; vd_next : Z }.
Record used_elem := UsedElem { used_id : Z; used_len : Z }.
Record vring := VRing {
  vr_desc : list vdesc;
  avail_idx : Z;
  avail_ring : list Z;
  used_idx : Z;
  used_ring : list used_elem
}.

(** A queue of [n] descriptors after memset. *)
Definition vring_zero (n : nat) : vring :=
  VRing (replicate n (VDesc 0 0 0 0)) 0 (replicate n 0) 0 (replicate n (UsedElem 0 0)).

Definition set_desc (r : vring) (i : Z) (d : vdesc) : res vring :=
  ds ← wr (vr_desc r) i d;
  mret (VRing ds (avail_idx r) (avail_ring r) (used_idx r) (used_ring r)).

(** [avail.ring[avail.idx % n] = id; avail.idx++]. *)
Definition offer (n id : Z) (r : vring) : res vring :=
  ring ← wr (avail_ring r) (avail_idx r mod n) id;
  mret (VRing (vr_desc r) (u16 (avail_idx r + 1)) ring (used_idx r) (used_ring r)).

Lemma set_desc_ok r i d : 0 <= i < len (vr_desc r) ->
  set_desc r i d = Ok (VRing (<[Z.to_nat i := d]> (vr_desc r)) (avail_idx r) (avail_ring r)
                         (used_idx r) (used_ring r)).
Proof. intros Hi. unfold set_desc. by rewrite wr_insert. Qed.

Lemma offer_ok n id r : 0 < n -> len (avail_ring r) = n ->
  offer n id r = Ok (VRing (vr_desc r) (u16 (avail_idx r + 1))
    (<[Z.to_nat (avail_idx r mod n) := id]> (avail_ring r)) (used_idx r) (used_ring r)).
Proof.
  intros Hn Hl. unfold offer. rewrite wr_insert; [done|]. rewrite Hl. by apply Z.mod_pos_bound.
Qed.

(** Transports; the structs of the drivers spell them VIRTIO_TRANSPORT_* and
    VIRTIO_NET_TRANSPORT_*. *)
Inductive transport := TRANSPORT_MMIO | TRANSPORT_PCI.

#[export] Instance transport_eq_dec : EqDecision transport.
Proof. solve_decision. Defined.

(** [#if defined(__x86_64__) || defined(__i386__)]. *)
Definition x86 `{Arch} : bool := bool_decide (the_arch = AMD64).

(** What the device does until the driver's next look at shared memory: a busy
    wait on the used index sees the device's progress. *)
Class DeviceProgress (W : Type) := progress : W -> W.

(** A read of a volatile field of shared memory. *)
Definition volatile_read {W A} `{DeviceProgress W} (f : W -> A) : St W A := fun w =>
  let w := progress w in Ok (f w, w).

(** The first index at which [in_use] is false, below [n]. *)
Fixpoint first_free (in_use : list bool) (n : nat) (i : Z) : res (option Z) :=
  match n with
  | O => Ok None
  | S n => b ← rd in_use i; if (b : bool) then first_free in_use n (i + 1) else Ok (Some i)
  end.

Lemma first_free_spec n : forall in_use i, 0 <= i -> i + Z.of_nat n <= len in_use ->
  match first_free in_use n i with
  | Ok (Some j) => i <= j < i + Z.of_nat n /\ in_use !! Z.to_nat j = Some false /\
      (forall k, i <= k < j -> in_use !! Z.to_nat k = Some true)
  | Ok None => forall k, i <= k < i + Z.of_nat n -> in_use !! Z.to_nat k = Some true
  | _ => False
  end.
Proof.
  induction n as [|n IH]; intros in_use i Hi Hl; cbn [first_free]; [intros; lia|].
  destruct (rd_in_range in_use i) as (b & -> & Hb); [lia|]. cbn [mbind res_bind].
  destruct b; [|split; [lia|split; [done|intros; lia]]].
  specialize (IH in_use (i + 1) ltac:(lia) ltac:(lia)).
  destruct (first_free in_use n (i + 1)) as [[j|]| |]; [|..|done|done].
  - destruct IH as (Hj & Hf & Ht). split; [lia|]. split; [done|]. intros k Hk.
    destruct (decide (k = i)) as [->|]; [done|]. apply Ht. lia.
  - intros k Hk. destruct (decide (k = i)) as [->|]; [done|]. apply IH. lia.
Qed.

(* ------------------------------------------------------------------ *)
(** ** Ownership of descriptors *)

(** Where the descriptors of a queue are: offered and not yet taken by the device,
    with the device, and returned on the used ring; the driver has the others. *)
Record vq := Vq { offered : list Z; held : list Z; returned : list used_elem }.
Definition outstanding (s : vq) : list Z := offered s ++ held s ++ (used_id <$> returned s).

(** A queue of [n] slots, [k] of whose descriptors are in use, in memory: [pos] is
    the device's position in the available ring, [last] the driver's in the used
    ring. *)
Record vq_ok (n k : Z) (r : vring) (pos last : Z) (s : vq) : Prop := VqOk {
  vq_slots : 0 < k <= n /\ k < 2 ^ 16;
  vq_period : (n | 2 ^ 16);
  vq_desc_len : len (vr_desc r) = n;
  vq_avail_len : len (avail_ring r) = n;
  vq_used_len : len (used_ring r) = n;
  vq_pos : is_u16 pos;
  vq_last : is_u16 last;
  vq_avail_idx : avail_idx r = u16 (pos + len (offered s));
  vq_used_idx : used_idx r = u16 (last + len (returned s));
  vq_avail : forall j id, offered s !! j = Some id ->
    avail_ring r !! Z.to_nat ((pos + Z.of_nat j) mod n) = Some id;
  vq_used : forall j e, returned s !! j = Some e ->
    used_ring r !! Z.to_nat ((last + Z.of_nat j) mod n) = Some e;
  vq_nodup : NoDup (outstanding s);
  vq_range : Forall (fun id => 0 <= id < k) (outstanding s)
}.

(** Indices of 16 bits address a ring whose size divides 2^16. *)
Lemma u16_mod n x : 0 < n -> (n | 2 ^ 16) -> u16 x mod n = x mod n.
Proof.
  intros Hn Hd. by apply Z.mod_mod_divide.
Qed.

Lemma u16_add_mod n x y : 0 < n -> (n | 2 ^ 16) -> (u16 x + y) mod n = (x + y) mod n.
Proof.
  intros Hn Hd. rewrite <- (Zplus_mod_idemp_l (u16 x)), u16_mod by done.
  apply Zplus_mod_idemp_l.
Qed.

Lemma u16_add x y : u16 (u16 x + y) = u16 (x + y).
Proof. unfold u16. apply Zplus_mod_idemp_l. Qed.

(** Descriptors are pairwise different, so they are at most [k]. *)
Lemma ids_bounded (k : Z) (l : list Z) : 0 <= k -> NoDup l ->
  Forall (fun id => 0 <= id < k) l -> len l <= k.
Proof.
  intros Hk Hl Hr. assert (length l <= length (seqZ 0 k))%nat as H;
    [|rewrite length_seqZ in H; llia].
  apply submseteq_length, NoDup_submseteq; [done|]. intros x Hx.
  rewrite Forall_forall in Hr. apply elem_of_seqZ. specialize (Hr x Hx). lia.
Qed.

Lemma mod_ne n a i j : 0 < n -> 0 <= i < n -> 0 <= j < n -> i <> j ->
  (a + i) mod n <> (a + j) mod n.
Proof.
  intros Hn Hi Hj Hne E.
  assert ((i - j) mod n = 0) as Em.
  { replace (i - j) with ((a + i) - (a + j)) by lia. rewrite Zminus_mod, E, Z.sub_diag.
    by apply Zmod_0_l. }
  apply Z.mod_divide in Em as [q Hq]; [|lia]. assert (q = 0 \/ q <= -1 \/ 1 <= q) as [->|[?|?]] by lia;
    nia.
Qed.

Section vq.
  Context (n k : Z) (r : vring) (pos last : Z) (s : vq) (Hok : vq_ok n k r pos last s).

Lemma outstanding_bound : len (outstanding s) <= k.
Proof using Hok. destruct Hok. apply ids_bounded; [lia|done|done]. Qed.

Lemma outstanding_len : len (outstanding s) = len (offered s) + len (held s) + len (returned s).
Proof using. unfold outstanding. rewrite !len_app. unfold len. rewrite length_fmap. lia. Qed.

(** A change of a descriptor. *)
Lemma vq_set_desc i d : 0 <= i < n -> exists r', set_desc r i d = Ok r' /\
  vq_ok n k r' pos last s /\ vr_desc r' = <[Z.to_nat i := d]> (vr_desc r).
Proof using Hok.
  intros Hi. destruct Hok. eexists. split; [by apply set_desc_ok; lia|]. split; [|done].
  split; cbn [vr_desc avail_ring used_ring avail_idx used_idx]; try done.
  unfold len in *. by rewrite length_insert.
Qed.

(** The driver offers a descriptor it has. *)
Lemma vq_offer id : 0 <= id < k -> id ∉ outstanding s -> exists r', offer n id r = Ok r' /\
  vq_ok n k r' pos last (Vq (offered s ++ [id]) (held s) (returned s)) /\ vr_desc r' = vr_desc r.
Proof using Hok.
  intros Hid Hni. pose proof outstanding_len as Hlen. destruct Hok.
  assert (NoDup (id :: outstanding s)) as Hnd by (by constructor).
  pose proof (ids_bounded k _ ltac:(lia) Hnd ltac:(by constructor)) as Hb. rewrite len_cons in Hb.
  pose proof (len_nonneg (offered s)). pose proof (len_nonneg (held s)).
  pose proof (len_nonneg (returned s)).
  eexists. split; [apply offer_ok; lia|]. split; [|done].
  rewrite vq_avail_idx0, u16_mod by (lia || done).
  assert (Hperm : outstanding (Vq (offered s ++ [id]) (held s) (returned s)) ≡ₚ id :: outstanding s).
  { unfold outstanding. cbn. rewrite <- (app_assoc (offered s)). symmetry. apply Permutation_middle. }
  split; cbn [vr_desc avail_ring used_ring avail_idx used_idx offered held returned];
    rewrite ?Hperm; try done.
  - unfold len in *. by rewrite length_insert.
  - rewrite u16_add. f_equal. rewrite len_app, len_cons, len_nil. lia.
  - intros j x [Hj|[Hle Hj]]%lookup_app_Some.
    + pose proof (lookup_lt_Some _ _ _ Hj). rewrite list_lookup_insert_ne; [eauto|].
      intros E%Z2Nat.inj; [|by apply Z.mod_pos_bound; lia..]. revert E.
      apply mod_ne; llia.
    + destruct (j - length (offered s))%nat eqn:E; [|by destruct n0]. injection Hj as <-.
      replace (Z.of_nat j) with (len (offered s)) by llia.
      apply list_lookup_insert_eq. pose proof (Z.mod_pos_bound (pos + len (offered s)) n). llia.
  - by constructor.
Qed.

(** What the device finds at its position is the oldest descriptor offered. *)
Lemma vq_next id : avail_idx r <> pos -> avail_ring r !! Z.to_nat (pos mod n) = Some id ->
  exists ids, offered s = id :: ids.
Proof using Hok.
  intros Hne Hid. destruct Hok. destruct (offered s) as [|x ids].
  - rewrite len_nil, Z.add_0_r, u16_id in vq_avail_idx0 by done. done.
  - exists ids. pose proof (vq_avail0 O x eq_refl) as E. rewrite Z.add_0_r, Hid in E. congruence.
Qed.

(** The device takes the oldest descriptor offered. *)
Lemma vq_fetch id ids : offered s = id :: ids ->
  let s' := Vq ids (id :: held s) (returned s) in
  vq_ok n k r (u16 (pos + 1)) last s' /\ outstanding s' ≡ₚ outstanding s.
Proof using Hok.
  intros E s'. destruct Hok. rewrite E in *.
  assert (Hperm : outstanding s' ≡ₚ outstanding s).
  { unfold outstanding. rewrite E. cbn. symmetry. apply Permutation_middle. }
  split; [|done]. subst s'. split; cbn [offered held returned]; rewrite ?Hperm; try done.
  - apply u16_range.
  - rewrite vq_avail_idx0, u16_add, len_cons. f_equal. lia.
  - intros j x Hj. rewrite u16_add_mod by (lia || done).
    replace (pos + 1 + Z.of_nat j) with (pos + Z.of_nat (S j)) by lia. by apply vq_avail0.
Qed.

(** The device returns any of the descriptors it has. *)
Definition returns (e : used_elem) (r : vring) : vring :=
  VRing (vr_desc r) (avail_idx r) (avail_ring r) (u16 (used_idx r + 1))
    (<[Z.to_nat (used_idx r mod n) := e]> (used_ring r)).

Lemma vq_return e ids : held s ≡ₚ used_id e :: ids ->
  let s' := Vq (offered s) ids (returned s ++ [e]) in
  vq_ok n k (returns e r) pos last s' /\ outstanding s' ≡ₚ outstanding s.
Proof using Hok.
  intros E s'. pose proof outstanding_bound as Hb. pose proof outstanding_len as Hlen.
  pose proof (len_nonneg (offered s)). pose proof (len_nonneg ids).
  pose proof (len_nonneg (returned s)).
  assert (len (held s) = 1 + len ids) as Hh by (unfold len; rewrite E; cbn; lia).
  destruct Hok. unfold returns. rewrite vq_used_idx0, u16_mod by (lia || done).
  assert (Hperm : outstanding s' ≡ₚ outstanding s).
  { unfold outstanding. cbn. rewrite E, fmap_app. cbn. f_equiv.
    rewrite Permutation_app_comm. rewrite <- app_assoc. cbn. rewrite <- Permutation_middle.
    by rewrite Permutation_app_comm. }
  split; [|done]. subst s'. split; cbn [vr_desc avail_ring used_ring avail_idx used_idx offered held returned];
    rewrite ?Hperm; try done.
  - unfold len in *. by rewrite length_insert.
  - rewrite u16_add. f_equal. rewrite len_app, len_cons, len_nil. lia.
  - intros j x [Hj|[Hle Hj]]%lookup_app_Some.
    + pose proof (lookup_lt_Some _ _ _ Hj). rewrite list_lookup_insert_ne; [eauto|].
      intros Ej%Z2Nat.inj; [|by apply Z.mod_pos_bound; lia..]. revert Ej.
      apply mod_ne; llia.
    + destruct (j - length (returned s))%nat eqn:Ej; [|by destruct n0]. injection Hj as <-.
      replace (Z.of_nat j) with (len (returned s)) by llia.
      apply list_lookup_insert_eq. pose proof (Z.mod_pos_bound (last + len (returned s)) n). llia.
Qed.

(** The driver takes back the oldest descriptor returned. *)
Lemma vq_take e es : returned s = e :: es ->
  vq_ok n k r pos (u16 (last + 1)) (Vq (offered s) (held s) es) /\
  used_ring r !! Z.to_nat (last mod n) = Some e /\ used_idx r <> last /\
  0 <= used_id e < k /\ used_id e ∉ outstanding (Vq (offered s) (held s) es) /\
  outstanding s ≡ₚ used_id e :: outstanding (Vq (offered s) (held s) es).
Proof using Hok.
  intros E. pose proof outstanding_bound as Hb. pose proof outstanding_len as Hlen.
  pose proof (len_nonneg (offered s)). pose proof (len_nonneg (held s)).
  assert (Hperm : outstanding s ≡ₚ used_id e :: outstanding (Vq (offered s) (held s) es)).
  { unfold outstanding. rewrite E. cbn. rewrite !(app_assoc _ (held s)). symmetry.
    apply Permutation_middle. }
  destruct Hok. rewrite Hperm in vq_nodup0, vq_range0.
  apply NoDup_cons in vq_nodup0 as [Hni Hnd]. apply Forall_cons in vq_range0 as [Hid Hr].
  rewrite E in *. rewrite len_cons in *. pose proof (len_nonneg es).
  split; [|split_and!; try done; try apply Hid].
  - split; cbn [offered held returned]; try done.
    + apply u16_range.
    + rewrite vq_used_idx0, u16_add. f_equal. lia.
    + intros j x Hj. rewrite u16_add_mod by (lia || done).
      replace (last + 1 + Z.of_nat j) with (last + Z.of_nat (S j)) by lia. by apply vq_used0.
  - rewrite <- (Z.add_0_r last). by apply (vq_used0 O).
  - rewrite vq_used_idx0. unfold is_u16, u16 in *. zdm.
Qed.

Lemma vq_none : returned s = [] -> used_idx r = last.
Proof using Hok. intros E. destruct Hok. rewrite vq_used_idx0, E, len_nil, Z.add_0_r. by apply u16_id. Qed.
End vq.

(** A queue after memset. *)
Lemma vq_init n k : 0 < k <= Z.of_nat n /\ k < 2 ^ 16 -> (Z.of_nat n | 2 ^ 16) ->
  vq_ok (Z.of_nat n) k (vring_zero n) 0 0 (Vq [] [] []).
Proof.
  intros Hk Hn. split; cbn; unfold len, is_u16; rewrite ?length_replicate; try done; try lia.
  constructor.
Qed.
