(* ===== verification/VirtioRng.v ===== *)
(** The virtio entropy driver (drivers/virtio_rng): the transport over ports or
    memory, initialisation, and the polled read. *)

From S2P Require Export Virtqueue Resources.

Open Scope Z_scope.

Definition VIRTIO_RNG_DEVICE_ID : Z := 0x1005.
Definition VIRTIO_RNG_QUEUE_SIZE : Z := 8.
Definition VIRTIO_MMIO_INTERRUPT_STATUS : Z := 0x060.
Definition VIRTIO_PCI_ISR_STATUS : Z := 0x13.

(** [virtio_rng_t]; [last_used_idx] is a member of its queue. *)
Record virtio_rng := VirtioRng {
  io_base : Z;
  initialized : bool;
  rng_transport : transport;
  rng_queue : vring;
  last_used_idx : Z;
  rng_buffer : bytes;
  desc_in_use : list bool
}.
(** Offsets in [virtio_rng_t]: the queue is page-aligned and two pages long. *)
Definition offsetof_queue : Z := 4096.
Definition offsetof_buffer : Z := 4096 + 8192.
Definition sizeof_buffer : Z := 64.

Definition set_io (base : Z) (t : transport) (c : virtio_rng) : virtio_rng :=
  VirtioRng base (initialized c) t (rng_queue c) (last_used_idx c) (rng_buffer c) (desc_in_use c).
Definition set_queue (q : vring) (last : Z) (c : virtio_rng) : virtio_rng :=
  VirtioRng (io_base c) (initialized c) (rng_transport c) q last (rng_buffer c) (desc_in_use c).
Definition set_initialized (b : bool) (c : virtio_rng) : virtio_rng :=
  VirtioRng (io_base c) b (rng_transport c) (rng_queue c) (last_used_idx c) (rng_buffer c)
    (desc_in_use c).
Definition set_in_use (l : list bool) (c : virtio_rng) : virtio_rng :=
  VirtioRng (io_base c) (initialized c) (rng_transport c) (rng_queue c) (last_used_idx c)
    (rng_buffer c) l.

(** The register map of the legacy PCI transport; 0xFFFF marks a register it does
    not have. *)
Definition pci_offsets : list (Z * Z) :=
  [(VIRTIO_MMIO_DEVICE_FEATURES, VIRTIO_PCI_DEVICE_FEATURES);
   (VIRTIO_MMIO_DRIVER_FEATURES, VIRTIO_PCI_DRIVER_FEATURES);
   (VIRTIO_MMIO_QUEUE_PFN, VIRTIO_PCI_QUEUE_PFN);
   (VIRTIO_MMIO_QUEUE_NUM, VIRTIO_PCI_QUEUE_NUM);
   (VIRTIO_MMIO_QUEUE_SEL, VIRTIO_PCI_QUEUE_SEL);
   (VIRTIO_MMIO_QUEUE_NOTIFY, VIRTIO_PCI_QUEUE_NOTIFY);
   (VIRTIO_MMIO_STATUS, VIRTIO_PCI_STATUS);
   (VIRTIO_MMIO_INTERRUPT_STATUS, VIRTIO_PCI_ISR_STATUS);
   (VIRTIO_MMIO_GUEST_PAGE_SIZE, 0xFFFF);
   (VIRTIO_MMIO_QUEUE_NUM_MAX, 0xFFFF);
   (VIRTIO_MMIO_QUEUE_ALIGN, 0xFFFF)].

Fixpoint translate (map : list (Z * Z)) (mmio_offset : Z) : Z :=
  match map with
  | [] => mmio_offset
  | (a, b) :: map => if mmio_offset =? a then b else translate map mmio_offset
  end.

Section virtio_rng.
  Context {W P : Type} `{Arch} `{Bus W} `{DeviceProgress W} `{CtxMem P virtio_rng W}.

Definition virtio_translate_offset (t : transport) (mmio_offset : Z) : Z :=
  if x86 && bool_decide (t = TRANSPORT_PCI) then translate pci_offsets mmio_offset
  else mmio_offset.

Definition virtio_pci_read32 (iobase offset : Z) : St W Z := io_inl (iobase + offset).
Definition virtio_pci_write32 (iobase offset value : Z) : St W unit :=
  io_outl (iobase + offset) value.

(** A read: of width [trunc], by [port] on the PCI transport. *)
Definition virtio_read (trunc : Z -> Z) (port : Z -> Z -> St W Z) (ctx : P) (mmio_offset : Z)
    : St W Z :=
  c ← gets (ctx_get ctx);
  let offset := virtio_translate_offset (rng_transport c) mmio_offset in
  if offset =? 0xFFFF then mret 0 else
  if x86 && bool_decide (rng_transport c = TRANSPORT_PCI)
  then port (u16 (io_base c)) offset
  else v ← mmio_read32 (io_base c + offset); mret (trunc v).
Definition virtio_write (port : Z -> Z -> Z -> St W unit) (ctx : P) (mmio_offset value : Z)
    : St W unit :=
  c ← gets (ctx_get ctx);
  let offset := virtio_translate_offset (rng_transport c) mmio_offset in
  if offset =? 0xFFFF then skip else
  if x86 && bool_decide (rng_transport c = TRANSPORT_PCI)
  then port (u16 (io_base c)) offset value
  else mmio_write32 (io_base c + offset) value.

Definition virtio_read32 : P -> Z -> St W Z :=
  virtio_read (fun v => v) virtio_pci_read32.
Definition virtio_read16 : P -> Z -> St W Z :=
  virtio_read u16 (fun iobase offset => io_inw (iobase + offset)).
Definition virtio_read8 : P -> Z -> St W Z :=
  virtio_read u8 (fun iobase offset => io_inb (iobase + offset)).
Definition virtio_write32 : P -> Z -> Z -> St W unit := virtio_write virtio_pci_write32.
Definition virtio_write16 (ctx : P) (offset value : Z) : St W unit :=
  virtio_write (fun iobase offset => io_outw (iobase + offset)) ctx offset (u16 value).
Definition virtio_write8 (ctx : P) (offset value : Z) : St W unit :=
  virtio_write (fun iobase offset => io_outb (iobase + offset)) ctx offset (u8 value).

(** [write8(STATUS, FAILED); return -1]. *)
Definition fail_device (ctx : P) : St W Z :=
  _ ← virtio_write8 ctx VIRTIO_MMIO_STATUS VIRTIO_STATUS_FAILED; mret (-1).

Definition status_driver : Z := Z.lor VIRTIO_STATUS_ACKNOWLEDGE VIRTIO_STATUS_DRIVER.


(** From "Initialize virtqueue" to the end of virtio_rng_init_context. *)
Definition init_queue (ctx : P) (mmio : bool) (version : Z) : St W Z :=
  _ ← virtio_write16 ctx VIRTIO_MMIO_QUEUE_SEL 0;
  queue_size ← (if mmio then virtio_read32 ctx VIRTIO_MMIO_QUEUE_NUM_MAX
                else virtio_read16 ctx VIRTIO_MMIO_QUEUE_NUM);
  if (queue_size =? 0) || (queue_size <? VIRTIO_RNG_QUEUE_SIZE) then fail_device ctx else
  _ ← (if mmio then virtio_write32 ctx VIRTIO_MMIO_QUEUE_NUM VIRTIO_RNG_QUEUE_SIZE
       else virtio_write16 ctx VIRTIO_MMIO_QUEUE_NUM VIRTIO_RNG_QUEUE_SIZE);
  _ ← ctx_modify ctx (set_queue (vring_zero (Z.to_nat VIRTIO_RNG_QUEUE_SIZE)) 0);
  let queue_addr := ctx_address (W := W) ctx + offsetof_queue in
  if negb (version =? 1) then fail_device ctx else
  _ ← when mmio (virtio_write32 ctx VIRTIO_MMIO_QUEUE_ALIGN 4096);
  let queue_pfn := u32 (Z.shiftr queue_addr 12) in
  _ ← virtio_write32 ctx VIRTIO_MMIO_QUEUE_PFN queue_pfn;
  readback_pfn ← virtio_read32 ctx VIRTIO_MMIO_QUEUE_PFN;
  if negb (readback_pfn =? queue_pfn) then fail_device ctx else
  _ ← virtio_write8 ctx VIRTIO_MMIO_STATUS
        (if mmio then Z.lor (Z.lor status_driver VIRTIO_STATUS_FEATURES_OK) VIRTIO_STATUS_DRIVER_OK
         else Z.lor status_driver VIRTIO_STATUS_DRIVER_OK);
  status ← virtio_read8 ctx VIRTIO_MMIO_STATUS;
  if Z.land status VIRTIO_STATUS_DRIVER_OK =? 0 then mret (-1) else
  _ ← ctx_modify ctx (set_initialized true);
  mret 0.

Definition virtio_rng_init_context (ctx : option P) (dev : option device) : St W Z :=
  match ctx, dev with
  | Some ctx, Some dev =>
      let t := if reg_base dev <? 0x10000 then TRANSPORT_PCI else TRANSPORT_MMIO in
      let mmio := bool_decide (t = TRANSPORT_MMIO) in
      _ ← ctx_modify ctx (set_io (reg_base dev) t);
      version ← virtio_read32 ctx VIRTIO_MMIO_VERSION;
      if mmio && negb (version =? 1) && negb (version =? 2) then mret (-1) else
      let version := if mmio then version else 1 in
      _ ← virtio_write8 ctx VIRTIO_MMIO_STATUS 0;
      _ ← virtio_write8 ctx VIRTIO_MMIO_STATUS VIRTIO_STATUS_ACKNOWLEDGE;
      _ ← virtio_write8 ctx VIRTIO_MMIO_STATUS status_driver;
      _ ← virtio_read32 ctx VIRTIO_MMIO_DEVICE_FEATURES;
      _ ← virtio_write32 ctx VIRTIO_MMIO_DRIVER_FEATURES 0;
      ok ← (if mmio then
              _ ← virtio_write8 ctx VIRTIO_MMIO_STATUS
                    (Z.lor status_driver VIRTIO_STATUS_FEATURES_OK);
              status ← virtio_read8 ctx VIRTIO_MMIO_STATUS;
              mret (negb (Z.land status VIRTIO_STATUS_FEATURES_OK =? 0))
            else mret true);
      if negb ok then fail_device ctx else
      _ ← when ((version =? 1) && mmio) (virtio_write32 ctx VIRTIO_MMIO_GUEST_PAGE_SIZE 4096);
      init_queue ctx mmio version
  | _, _ => mret (-1)
  end.

Definition virtio_rng_deinit_context (ctx : option P) : St W unit :=
  match ctx with
  | None => skip
  | Some ctx =>
      c ← gets (ctx_get ctx);
      if negb (initialized c) then skip else
      _ ← virtio_write8 ctx VIRTIO_MMIO_STATUS 0;
      ctx_modify ctx (set_initialized false)
  end.

Definition virtio_rng_id_table : list device_id_entry :=
  [DeviceId (Some (str "virtio,rng")) VIRTIO_VENDOR_ID VIRTIO_RNG_DEVICE_ID
     (Some (str "VirtIO-RNG (Legacy)"));
   DeviceId None 0 0 None].

Definition virtio_rng_driver (reg : W -> registry) : driver := {|
  drv_name := str "virtio-rng"; drv_version := str "0.1.0"; drv_type := DRIVER_TYPE_RANDOM;
  id_table := Some virtio_rng_id_table;
  init_context := Some (fun ctx i w =>
    d ← slot (reg w) i; virtio_rng_init_context (Some ctx) (Some d) w);
  deinit_context := Some (fun ctx w => '(_, w) ← virtio_rng_deinit_context (Some ctx) w; mret w) |}.

Definition POLL_LIMIT : Z := 100000.

(** The busy wait; the result is [timeout_count] when it ends. *)
Fixpoint poll_used (timeout_count : nat) (ctx : P) (last_used : Z) : St W nat :=
  idx ← volatile_read (fun w => used_idx (rng_queue (ctx_get ctx w)));
  match timeout_count with
  | O => mret O
  | S t => if idx =? last_used then poll_used t ctx last_used else mret timeout_count
  end.

(** The request: descriptor [desc_idx] offered to the device. *)
Definition submit (ctx : P) (desc_idx size : Z) : St W unit :=
  _ ← ctx_update ctx (fun c =>
        l ← wr (desc_in_use c) desc_idx true;
        q ← set_desc (rng_queue c) desc_idx
              (VDesc (ctx_address (W := W) ctx + offsetof_buffer) size VRING_DESC_F_WRITE 0);
        q ← offer VIRTIO_RNG_QUEUE_SIZE desc_idx q;
        mret (set_queue q (last_used_idx c) (set_in_use l c)));
  c ← gets (ctx_get ctx);
  match rng_transport c with
  | TRANSPORT_PCI => virtio_write16 ctx VIRTIO_MMIO_QUEUE_NOTIFY 0
  | TRANSPORT_MMIO => virtio_write32 ctx VIRTIO_MMIO_QUEUE_NOTIFY 0
  end.

(** The used element of the completed request, and the driver's own accounting. *)
Definition complete (ctx : P) (last_used : Z) : St W used_elem :=
  c ← gets (ctx_get ctx);
  e ← lift (rd (used_ring (rng_queue c)) (last_used mod VIRTIO_RNG_QUEUE_SIZE));
  _ ← ctx_update ctx (fun c =>
        l ← (if used_id e <? VIRTIO_RNG_QUEUE_SIZE
             then wr (desc_in_use c) (used_id e) false else mret (desc_in_use c));
        mret (set_in_use l (set_queue (rng_queue c) (u16 (last_used_idx c + 1)) c)));
  mret e.

(** [buffer]: an object and an offset into it, or NULL. *)
Definition virtio_rng_read (ctx : option P) (buffer : option (bytes * Z)) (size : Z)
    : St W (Z * option (bytes * Z)) :=
  match ctx, buffer with
  | Some ctx, Some (b, o) =>
      if size =? 0 then mret (-1, buffer) else
      c ← gets (ctx_get ctx);
      if negb (initialized c) then mret (-1, buffer) else
      let size := if sizeof_buffer <? size then sizeof_buffer else size in
      free ← lift (first_free (desc_in_use c) (Z.to_nat VIRTIO_RNG_QUEUE_SIZE) 0);
      match free with
      | None => mret (-1, buffer)
      | Some desc_idx =>
          _ ← submit ctx desc_idx size;
          last_used ← gets (fun w => last_used_idx (ctx_get ctx w));
          timeout_count ← poll_used (Z.to_nat POLL_LIMIT) ctx last_used;
          match timeout_count with
          | O =>
              _ ← ctx_update ctx (fun c =>
                    l ← wr (desc_in_use c) desc_idx false; mret (set_in_use l c));
              mret (-1, buffer)
          | S _ =>
              e ← complete ctx last_used;
              let bytes_read := if size <? used_len e then size else used_len e in
              c ← gets (ctx_get ctx);
              b ← lift (memcpy b o (rng_buffer c) 0 (Z.to_nat bytes_read));
              mret (bytes_read, Some (b, o))
          end
      end
  | _, _ => mret (-1, buffer)
  end.
End virtio_rng.

(* ------------------------------------------------------------------ *)
(** ** The device *)

(** An entropy device: the bytes it will deliver, how many it gives at most for one
    request, and how long a request takes, counted in the driver's looks at the
    used index. *)
Record machine := Machine {
  m_rng : virtio_rng;
  m_regs : list (Z * Z);          (* register writes, latest first *)
  entropy : list Z;
  last_avail : Z;                 (* the device's position in the available ring *)
  waiting : nat                   (* looks until the oldest request completes *)
}.
Definition with_rng (c : virtio_rng) (m : machine) : machine :=
  Machine c (m_regs m) (entropy m) (last_avail m) (waiting m).

Section device.
  (** The address of the context, the device's chunk and latency, the base of its
      registers, its version, the size of its queue, and the target. *)
  Context (A : Z) (chunk : Z) (latency : nat) (B version qmax : Z) `{Arch}.

(** The device serves the request at its position in the available ring: it writes
    into the buffer of the descriptor at most its length, and puts the descriptor
    and the number of bytes on the used ring. *)
Definition serve (m : machine) : machine :=
  let c := m_rng m in
  let q := rng_queue c in
  match avail_ring q !! Z.to_nat (last_avail m mod 8) with
  | None => m
  | Some id =>
      match vr_desc q !! Z.to_nat id with
      | None => m
      | Some d =>
          if negb (vd_addr d =? A + offsetof_buffer) then m else
          let n := Z.min (vd_len d) (Z.min chunk (len (entropy m))) in
          let k := Z.to_nat n in
          Machine
            (VirtioRng (io_base c) (initialized c) (rng_transport c)
               (VRing (vr_desc q) (avail_idx q) (avail_ring q) (u16 (used_idx q + 1))
                  (<[Z.to_nat (used_idx q mod 8) := UsedElem id n]> (used_ring q)))
               (last_used_idx c) (take k (entropy m) ++ drop k (rng_buffer c)) (desc_in_use c))
            (m_regs m) (drop k (entropy m)) (u16 (last_avail m + 1)) latency
      end
  end.

(** The entries of the queue as the device lays it out: a legacy PCI device goes by its own
    size, on the memory-mapped transport the driver sets it. *)
Definition queue_entries : Z := if B <? 0x10000 then qmax else VIRTIO_RNG_QUEUE_SIZE.

(** With another number of entries than the driver's the device looks for its rings where
    the driver has none (in the padding, or for 256 entries in the used ring, which nobody
    has written), and finds no request. *)
#[local] Instance device_progress : DeviceProgress machine := fun m =>
  if negb (queue_entries =? VIRTIO_RNG_QUEUE_SIZE) then m else
  if avail_idx (rng_queue (m_rng m)) =? last_avail m then m else
  match waiting m with
  | S k => Machine (m_rng m) (m_regs m) (entropy m) (last_avail m) k
  | O => serve m
  end.
#[local] Instance device_ctx : CtxMem unit virtio_rng machine := {
  ctx_get _ := m_rng;
  ctx_put _ := with_rng;
  ctx_address _ := A
}.
(** A register of the device, by offset: the version and the queue size are fixed, the
    others hold what was last written. *)
Definition fixed_register (r : Z) : option Z :=
  if B <? 0x10000 then (if r =? VIRTIO_PCI_QUEUE_NUM then Some qmax else None)
  else if r =? VIRTIO_MMIO_VERSION then Some version
  else if r =? VIRTIO_MMIO_QUEUE_NUM_MAX then Some qmax else None.
Fixpoint last_written (r : Z) (regs : list (Z * Z)) : Z :=
  match regs with
  | [] => 0
  | (r', v) :: regs => if r' =? r then v else last_written r regs
  end.
Definition register (r : Z) (m : machine) : Z :=
  default (last_written r (m_regs m)) (fixed_register r).
Definition written (r v : Z) (m : machine) : machine :=
  Machine (m_rng m) ((r, v) :: m_regs m) (entropy m) (last_avail m) (waiting m).

#[local] Instance device_bus : Bus machine := {
  bus_read a addr m := Ok (register (addr - B) m mod (access_max a + 1), m);
  bus_write _ addr v m := Ok (tt, written (addr - B) v m)
}.

(** No request is outstanding. *)
Record idle (m : machine) : Prop := Idle {
  idle_init : initialized (m_rng m) = true;
  idle_free : desc_in_use (m_rng m) = replicate 8 false;
  idle_buffer : len (rng_buffer (m_rng m)) = sizeof_buffer;
  idle_desc : length (vr_desc (rng_queue (m_rng m))) = 8%nat;
  idle_avail : length (avail_ring (rng_queue (m_rng m))) = 8%nat;
  idle_used : length (used_ring (rng_queue (m_rng m))) = 8%nat;
  idle_range : is_u16 (last_avail m);
  idle_avail_idx : avail_idx (rng_queue (m_rng m)) = last_avail m;
  idle_used_idx : used_idx (rng_queue (m_rng m)) = last_avail m;
  idle_last_used : last_used_idx (m_rng m) = last_avail m;
  idle_waiting : waiting m = latency
}.

(** The request is with the device, which needs [k] more looks. *)
Definition requested (size : Z) (k : nat) (regs : list (Z * Z)) (m : machine) : machine :=
  let c := m_rng m in
  let q := rng_queue c in
  Machine
    (VirtioRng (io_base c) (initialized c) (rng_transport c)
       (VRing (<[O := VDesc (A + offsetof_buffer) size VRING_DESC_F_WRITE 0]> (vr_desc q))
          (u16 (avail_idx q + 1)) (<[Z.to_nat (avail_idx q mod 8) := 0]> (avail_ring q))
          (used_idx q) (used_ring q))
       (last_used_idx c) (rng_buffer c) (true :: replicate 7 false))
    regs (entropy m) (last_avail m) k.

Lemma u16_next_ne x : is_u16 x -> u16 (x + 1) <> x.
Proof using. unfold is_u16, u16. intros. zdm. Qed.

(** The notification only reaches the device's registers. *)
Lemma notify_ok m :
  exists regs, match rng_transport (m_rng m) with
    | TRANSPORT_PCI => virtio_write16 tt VIRTIO_MMIO_QUEUE_NOTIFY 0
    | TRANSPORT_MMIO => virtio_write32 tt VIRTIO_MMIO_QUEUE_NOTIFY 0
    end m = Ok (tt, Machine (m_rng m) regs (entropy m) (last_avail m) (waiting m)).
Proof using.
  destruct (rng_transport (m_rng m)) eqn:E; unfold virtio_write16, virtio_write32, virtio_write;
    erewrite St_bind_ok by reflexivity; cbn [ctx_get device_ctx]; rewrite E;
    unfold virtio_translate_offset; destruct x86; cbn; by eexists.
Qed.

Lemma submit_ok m size : idle m ->
  exists regs, submit tt 0 size m = Ok (tt, requested size latency regs m).
Proof using.
  intros []. unfold submit. erewrite St_bind_ok; cycle 1.
  { apply ctx_update_ok. cbn [ctx_get device_ctx]. rewrite idle_free0.
    change (wr (replicate 8 false) 0 true) with (Ok (true :: replicate 7 false)).
    cbn [mbind res_bind]. rewrite set_desc_ok by (unfold len; lia). cbn [mbind res_bind].
    rewrite offer_ok by (done || (cbn [avail_ring]; unfold len, VIRTIO_RNG_QUEUE_SIZE; lia)).
    reflexivity. }
  erewrite St_bind_ok by reflexivity. cbn [ctx_get ctx_put device_ctx].
  destruct (notify_ok (with_rng (m_rng (requested size latency [] m)) m)) as [regs E].
  exists regs. etransitivity; [exact E|]. unfold requested, with_rng. cbn. by subst.
Qed.

  Hypothesis Hchunk : 0 <= chunk.

(** The bytes the device gives for a request. *)
Definition granted (size : Z) (m : machine) : Z := Z.min size (Z.min chunk (len (entropy m))).

Definition served (size : Z) (regs : list (Z * Z)) (m : machine) : machine :=
  let c := m_rng m in
  let q := rng_queue c in
  let a := last_avail m in
  let n := granted size m in
  let k := Z.to_nat n in
  Machine
    (VirtioRng (io_base c) (initialized c) (rng_transport c)
       (VRing (<[O := VDesc (A + offsetof_buffer) size VRING_DESC_F_WRITE 0]> (vr_desc q))
          (u16 (a + 1)) (<[Z.to_nat (a mod 8) := 0]> (avail_ring q))
          (u16 (a + 1)) (<[Z.to_nat (a mod 8) := UsedElem 0 n]> (used_ring q)))
       a (take k (entropy m) ++ drop k (rng_buffer c)) (true :: replicate 7 false))
    regs (drop k (entropy m)) (u16 (a + 1)) latency.

Lemma serve_requested m size regs : idle m -> serve (requested size O regs m) = served size regs m.
Proof using.
  intros []. unfold serve, requested, served.
  cbn [m_rng rng_queue avail_ring last_avail vr_desc entropy m_regs].
  rewrite idle_avail_idx0, idle_used_idx0, idle_last_used0.
  rewrite list_lookup_insert_eq by (rewrite idle_avail0;
    pose proof (Z.mod_pos_bound (last_avail m) 8); lia).
  rewrite list_lookup_insert_eq by (cbn; lia).
  cbn [vd_addr]. rewrite Z.eqb_refl. cbn. reflexivity.
Qed.

Lemma request_pending m size k regs : idle m ->
  (avail_idx (rng_queue (m_rng (requested size k regs m))) =? last_avail (requested size k regs m))
  = false.
Proof using.
  intros []. cbn. rewrite idle_avail_idx0. apply Z.eqb_neq. by apply u16_next_ne.
Qed.

  Hypothesis Hentries : queue_entries = VIRTIO_RNG_QUEUE_SIZE.

(** A look before and at the time the request completes. *)
Lemma progress_waits m size k regs : idle m ->
  progress (requested size (S k) regs m) = requested size k regs m.
Proof using Hentries.
  intros Hi. unfold progress, device_progress. rewrite Hentries. by rewrite request_pending.
Qed.
Lemma progress_serves m size regs : idle m ->
  progress (requested size O regs m) = served size regs m.
Proof using Hentries.
  intros Hi. unfold progress, device_progress. rewrite Hentries. cbn [Z.eqb Pos.eqb negb].
  rewrite request_pending by done.
  by apply serve_requested.
Qed.

(** The busy wait ends when the request completes, or after its last look. *)
Lemma poll_served m size regs : idle m -> forall k t, (k < t)%nat ->
  poll_used t tt (last_avail m) (requested size k regs m) = Ok ((t - k)%nat, served size regs m).
Proof using Hentries.
  intros Hi. pose proof Hi as []. induction k as [|k IH]; intros [|t] Ht; [lia| |lia|].
  - cbn [poll_used]. erewrite St_bind_ok by (unfold volatile_read; rewrite progress_serves by done;
      reflexivity).
    cbn [ctx_get device_ctx m_rng served rng_queue used_idx].
    destruct (Z.eqb_spec (u16 (last_avail m + 1)) (last_avail m)) as [E|];
      [by apply u16_next_ne in E|]. done.
  - cbn [poll_used]. erewrite St_bind_ok by (unfold volatile_read; rewrite progress_waits by done;
      reflexivity).
    cbn [ctx_get device_ctx m_rng requested rng_queue used_idx].
    rewrite idle_used_idx0, Z.eqb_refl, IH by lia. done.
Qed.

Lemma poll_times_out m size regs : idle m -> forall t k, (t <= k)%nat ->
  poll_used t tt (last_avail m) (requested size k regs m)
  = Ok (O, if (t <? k)%nat then requested size (k - S t) regs m else served size regs m).
Proof using Hentries.
  intros Hi. pose proof Hi as []. induction t as [|t IH]; intros k Ht; cbn [poll_used].
  - destruct k as [|k]; erewrite St_bind_ok by (unfold volatile_read;
      first [rewrite progress_serves by done|rewrite progress_waits by done]; reflexivity).
    + done.
    + cbn. by rewrite Nat.sub_0_r.
  - destruct k as [|k]; [lia|].
    erewrite St_bind_ok by (unfold volatile_read; rewrite progress_waits by done; reflexivity).
    cbn [ctx_get device_ctx m_rng requested rng_queue used_idx].
    rewrite idle_used_idx0, Z.eqb_refl, IH by lia. done.
Qed.

(** The context is attached to the same device. *)
Definition same_device (m m' : machine) : Prop :=
  io_base (m_rng m') = io_base (m_rng m) /\ rng_transport (m_rng m') = rng_transport (m_rng m).

(** After the accounting of a completed request no request is outstanding. *)
Lemma complete_ok m size regs : idle m -> 0 < size <= sizeof_buffer ->
  exists m', complete tt (last_avail m) (served size regs m) = Ok (UsedElem 0 (granted size m), m') /\
    idle m' /\ same_device m m' /\ entropy m' = drop (Z.to_nat (granted size m)) (entropy m) /\
    load (rng_buffer (m_rng m')) 0 (granted size m)
      = Ok (take (Z.to_nat (granted size m)) (entropy m)).
Proof using Hchunk.
  intros Hi Hs. pose proof Hi as []. set (n := granted size m).
  assert (0 <= n <= size /\ n <= len (entropy m)) as [Hn Hne]
    by (unfold n, granted; pose proof (len_nonneg (entropy m)); lia).
  assert (len (take (Z.to_nat n) (entropy m)) = n) as Htake
    by (unfold len in *; rewrite length_take; lia).
  unfold sizeof_buffer in *. pose proof (Z.mod_pos_bound (last_avail m) 8 eq_refl) as Hmod.
  set (c := m_rng (served size regs m)).
  exists (with_rng (set_in_use (replicate 8 false) (set_queue (rng_queue c) (u16 (last_avail m + 1)) c))
            (served size regs m)).
  split.
  { unfold complete. erewrite St_bind_ok by reflexivity. cbn [ctx_get device_ctx]. fold c.
    erewrite St_bind_ok by (apply lift_ok, rd_ok; [apply Hmod|]; cbn [c m_rng served rng_queue used_ring];
      apply list_lookup_insert_eq; unfold VIRTIO_RNG_QUEUE_SIZE; rewrite idle_used0; lia).
    erewrite St_bind_ok by (apply ctx_update_ok; reflexivity). reflexivity. }
  subst c. cbn [with_rng m_rng entropy served last_avail].
  split; [split; cbn [m_rng with_rng initialized desc_in_use rng_buffer rng_queue vr_desc avail_ring used_ring
      last_avail avail_idx used_idx last_used_idx waiting set_in_use set_queue];
      rewrite ?length_insert, ?idle_last_used0; try done|split; [done|split; [done|]]].
  - fold n. rewrite len_app, Htake. unfold len, sizeof_buffer in *. rewrite length_drop. lia.
  - apply u16_range.
  - cbn [m_rng with_rng rng_buffer set_in_use set_queue]. fold n.
    pose proof (load_ok [] (take (Z.to_nat n) (entropy m)) (drop (Z.to_nat n) (rng_buffer (m_rng m)))) as E.
    rewrite Htake in E. exact E.
Qed.

Lemma all_free m : idle m -> first_free (desc_in_use (m_rng m)) (Z.to_nat VIRTIO_RNG_QUEUE_SIZE) 0
  = Ok (Some 0).
Proof using. intros []. by rewrite idle_free0. Qed.

(** The call on an idle device, up to the busy wait. *)
Lemma read_submits m b o size k : idle m -> 0 < size -> k = Z.to_nat POLL_LIMIT ->
  let size' := Z.min size sizeof_buffer in
  exists regs, virtio_rng_read (Some tt) (Some (b, o)) size m =
    (timeout_count ← poll_used k tt (last_avail m);
     match timeout_count with
     | O => _ ← ctx_update tt (fun c => l ← wr (desc_in_use c) 0 false; mret (set_in_use l c));
            mret (-1, Some (b, o))
     | S _ =>
         e ← complete tt (last_avail m);
         let bytes_read := if size' <? used_len e then size' else used_len e in
         c ← gets m_rng;
         b ← lift (memcpy b o (rng_buffer c) 0 (Z.to_nat bytes_read));
         mret (bytes_read, Some (b, o))
     end) (requested size' latency regs m).
Proof using.
  intros Hi Hs -> size'. destruct (submit_ok m size' Hi) as [regs E]. exists regs.
  unfold virtio_rng_read. destruct (Z.eqb_spec size 0); [lia|]. erewrite St_bind_ok by reflexivity.
  cbn [ctx_get device_ctx]. rewrite (idle_init m Hi). cbn [negb].
  replace (if sizeof_buffer <? size then sizeof_buffer else size) with size'
    by (unfold size'; destruct (Z.ltb_spec sizeof_buffer size); lia).
  erewrite St_bind_ok by (apply lift_ok, all_free; done). cbn beta iota.
  rewrite (St_bind_ok _ _ _ _ _ E). erewrite St_bind_ok by reflexivity.
  cbn [ctx_get device_ctx m_rng requested last_used_idx]. by rewrite (idle_last_used m Hi).
Qed.

(** Reading from an idle device.  When the device answers within the polling limit
    the call returns the number of bytes it gave, at most 64 and at most what was
    asked, and these are exactly its next bytes; the device is idle again.
    When it does not, the call returns -1 with the buffer untouched, and the
    descriptor is marked free although, from one look on, the device has not yet
    served the request. *)
Lemma read_outcome m b o size :
  let size' := Z.min size sizeof_buffer in
  let n := granted size' m in
  idle m -> 0 < size -> 0 <= o -> o + size' <= len b ->
  if (latency <? Z.to_nat POLL_LIMIT)%nat
  then exists b' m', virtio_rng_read (Some tt) (Some (b, o)) size m = Ok (n, Some (b', o), m') /\
    store b o (take (Z.to_nat n) (entropy m)) = Ok b' /\
    entropy m' = drop (Z.to_nat n) (entropy m) /\ idle m' /\ same_device m m'
  else exists m', virtio_rng_read (Some tt) (Some (b, o)) size m = Ok (-1, Some (b, o), m') /\
    desc_in_use (m_rng m') = replicate 8 false /\
    ((Z.to_nat POLL_LIMIT < latency)%nat ->
       avail_idx (rng_queue (m_rng m')) <> last_avail m' /\ entropy m' = entropy m).
Proof using Hchunk Hentries.
  intros size' n Hi Hs Ho Hb.
  assert (0 < size' <= sizeof_buffer) as Hs' by (unfold size', sizeof_buffer; lia).
  destruct (read_submits m b o size _ Hi Hs eq_refl) as [regs ->]. fold size'.
  destruct (Nat.ltb_spec latency (Z.to_nat POLL_LIMIT)) as [Hlat|Hlat].
  - rewrite (St_bind_ok _ _ _ _ _ (poll_served m size' regs Hi latency _ Hlat)).
    destruct (Z.to_nat POLL_LIMIT - latency)%nat eqn:Ek; [lia|].
    destruct (complete_ok m size' regs Hi Hs') as (m' & E & Hi' & Hd & He & Hl). fold n in E, He, Hl.
    rewrite (St_bind_ok _ _ _ _ _ E). cbn [used_len].
    assert (0 <= n <= size') by (unfold n, granted; pose proof (len_nonneg (entropy m)); lia).
    destruct (Z.ltb_spec size' n); [lia|]. erewrite St_bind_ok by reflexivity.
    destruct (store_in_range b o (take (Z.to_nat n) (entropy m))) as [b' Hb'];
      [done|rewrite (load_len _ _ _ _ Hl); lia|].
    exists b', m'. erewrite St_bind_ok by (apply lift_ok;
      rewrite (memcpy_store _ _ _ _ _ (take (Z.to_nat n) (entropy m)))
        by (rewrite ?Z2Nat.id by lia; done || lia); exact Hb'). done.
  - rewrite (St_bind_ok _ _ _ _ _ (poll_times_out m size' regs Hi _ latency Hlat)).
    destruct (Nat.ltb_spec (Z.to_nat POLL_LIMIT) latency);
      (erewrite St_bind_ok by (apply ctx_update_ok; reflexivity)); eexists; (split; [reflexivity|]);
      (split; [reflexivity|]); [|lia].
    intros _. split; [|done]. cbn. rewrite (idle_avail_idx m Hi). apply u16_next_ne. apply Hi.
Qed.
End device.
