(* ===== verification/VirtioRngSession.v ===== *)
(** The entropy driver with its device from the first register access on: what
    initialisation tells the device, when it refuses one, and a session of reads as
    draws from the device's stream of bytes. *)

From S2P Require Export VirtioRng.

Open Scope Z_scope.

Section session.
  Context (A : Z) (chunk : Z) (latency : nat) (B version qmax : Z) `{Arch}.
#[local] Instance the_ctx : CtxMem unit virtio_rng machine := device_ctx A.
#[local] Instance the_bus : Bus machine := device_bus B version qmax.
#[local] Instance the_progress : DeviceProgress machine := device_progress A chunk latency B qmax.

(** A base below 0x10000 is a port: the device is on PCI. *)
Definition pci : bool := B <? 0x10000.
Definition the_transport : transport := if pci then TRANSPORT_PCI else TRANSPORT_MMIO.
Definition reg_offset (r : Z) : Z := if pci then translate pci_offsets r else r.

(** The value of the register the driver knows by its memory-mapped offset [r]. *)
Definition device_register (r : Z) (m : machine) : Z := register B version qmax (reg_offset r) m.

  Hypothesis HB : if B <? 0x10000 then x86 = true /\ 0 <= B /\ B + 0x20 <= 0x10000 else B + 0x1000 <= 2 ^ 64.
  Hypothesis HA : 0 <= A /\ A + 0x4000 <= 2 ^ 44 /\ (4096 | A).
  Hypothesis Hver : is_u32 version.
  Hypothesis Hqmax : is_u16 qmax.

(** The context knows its device. *)
Definition attached (m : machine) : Prop :=
  io_base (m_rng m) = B /\ rng_transport (m_rng m) = the_transport.

Definition reachable (r : Z) : bool :=
  (0 <=? reg_offset r) && (reg_offset r <? if pci then 0x20 else 0x1000).

Lemma reachable_spec r : reachable r = true -> 0 <= reg_offset r < if pci then 0x20 else 0x1000.
Proof using. unfold reachable. intros [?%Z.leb_le ?%Z.ltb_lt]%andb_prop. by split. Qed.

Lemma translate_attached m r : attached m ->
  virtio_translate_offset (rng_transport (m_rng m)) r = reg_offset r /\
  x86 && bool_decide (rng_transport (m_rng m) = TRANSPORT_PCI) = pci.
Proof using HB.
  intros [_ ->]. unfold virtio_translate_offset, reg_offset, the_transport.
  revert HB. fold pci. destruct pci; intros HB'; [|by rewrite andb_false_r]. destruct HB' as [-> _]. done.
Qed.

(** Accesses reach the register of their transport. *)
Lemma rng_write_ok port r v m : attached m -> reachable r = true -> is_u32 v ->
  (forall p w, port (u16 B) p v w = Ok (tt, written (u16 (u16 B + p) - B) v w)) ->
  virtio_write port tt r v m = Ok (tt, written (reg_offset r) v m).
Proof using HB.
  intros Hm Hr%reachable_spec Hv Hp. destruct (translate_attached m r Hm) as [Et Ex].
  pose proof Hm as [Eb _]. unfold virtio_write. erewrite St_bind_ok by reflexivity.
  cbn [ctx_get the_ctx device_ctx]. rewrite Et, Ex.
  assert ((reg_offset r =? 0xFFFF) = false) as ->.
  { apply Z.eqb_neq. revert Hr. destruct pci; lia. }
  revert Hr HB. unfold pci. destruct (Z.ltb_spec B 0x10000); intros Hr HB'.
  - rewrite Eb, Hp. rewrite (u16_id B) by (unfold is_u16; lia).
    rewrite u16_id by (unfold is_u16; lia). do 3 f_equal. lia.
  - rewrite Eb. unfold mmio_write32. cbn [bus_write the_bus device_bus].
    rewrite u64_id by (unfold is_u64; lia). rewrite (u32_id v) by done. do 3 f_equal. lia.
Qed.

Lemma rng_read_ok (trunc : Z -> Z) port r m : attached m -> reachable r = true ->
  (forall p w, port (u16 B) p w
     = Ok (trunc (register B version qmax (u16 (u16 B + p) - B) w mod 2 ^ 32), w)) ->
  virtio_read trunc port tt r m = Ok (trunc (device_register r m mod 2 ^ 32), m).
Proof using HB.
  intros Hm Hr%reachable_spec Hp. destruct (translate_attached m r Hm) as [Et Ex].
  pose proof Hm as [Eb _]. unfold virtio_read. erewrite St_bind_ok by reflexivity.
  cbn [ctx_get the_ctx device_ctx]. rewrite Et, Ex.
  assert ((reg_offset r =? 0xFFFF) = false) as ->.
  { apply Z.eqb_neq. revert Hr. destruct pci; lia. }
  unfold device_register.
  revert Hr HB. unfold pci. destruct (Z.ltb_spec B 0x10000); intros Hr HB'.
  - rewrite Eb, Hp. rewrite (u16_id B) by (unfold is_u16; lia).
    rewrite u16_id by (unfold is_u16; lia). do 5 f_equal. lia.
  - rewrite Eb. unfold mmio_read32. erewrite St_bind_ok by reflexivity.
    rewrite u64_id by (unfold is_u64; lia). replace (B + reg_offset r - B) with (reg_offset r) by lia.
    reflexivity.
Qed.

Lemma rng_write32_ok r v m : attached m -> reachable r = true -> is_u32 v ->
  virtio_write32 tt r v m = Ok (tt, written (reg_offset r) v m).
Proof using HB.
  intros. apply rng_write_ok; [done..|]. intros p w. unfold virtio_pci_write32, io_outl.
  cbn. by rewrite u32_id.
Qed.
Lemma rng_write16_ok r v m : attached m -> reachable r = true -> is_u16 v ->
  virtio_write16 tt r v m = Ok (tt, written (reg_offset r) v m).
Proof using HB.
  intros ? ? Hv. unfold virtio_write16. rewrite (u16_id v) by done.
  apply rng_write_ok; [done..|unfold is_u16, is_u32 in *; lia|]. intros p w. unfold io_outw.
  cbn. by rewrite (u16_id v).
Qed.
Lemma rng_write8_ok r v m : attached m -> reachable r = true -> is_u8 v ->
  virtio_write8 tt r v m = Ok (tt, written (reg_offset r) v m).
Proof using HB.
  intros ? ? Hv. unfold virtio_write8. rewrite (u8_id v) by done.
  apply rng_write_ok; [done..|unfold is_u8, is_u32 in *; lia|]. intros p w. unfold io_outb.
  cbn. by rewrite (u8_id v).
Qed.
Lemma rng_read32_ok r m : attached m -> reachable r = true ->
  virtio_read32 tt r m = Ok (device_register r m mod 2 ^ 32, m).
Proof using HB. intros. by apply (rng_read_ok (fun v => v)). Qed.
Lemma rng_read16_ok r m : attached m -> reachable r = true ->
  virtio_read16 tt r m = Ok (u16 (device_register r m), m).
Proof using HB.
  intros. unfold virtio_read16. erewrite rng_read_ok; [|done..|].
  - unfold u16. rewrite Z.mod_mod_divide; [done|by exists (2 ^ 16)].
  - intros p w. cbn. unfold u16. rewrite Z.mod_mod_divide; [done|by exists (2 ^ 16)].
Qed.
Lemma rng_read8_ok r m : attached m -> reachable r = true ->
  virtio_read8 tt r m = Ok (u8 (device_register r m), m).
Proof using HB.
  intros. unfold virtio_read8. erewrite rng_read_ok; [|done..|].
  - unfold u8. rewrite Z.mod_mod_divide; [done|by exists (2 ^ 24)].
  - intros p w. cbn. unfold u8. rewrite Z.mod_mod_divide; [done|by exists (2 ^ 24)].
Qed.

(* ------------------------------------------------------------------ *)
(** ** Initialisation *)

(** A context nobody uses, and its device before its first request. *)
Record blank (m : machine) : Prop := Blank {
  blank_free : desc_in_use (m_rng m) = replicate 8 false;
  blank_buffer : len (rng_buffer (m_rng m)) = sizeof_buffer;
  blank_avail : last_avail m = 0;
  blank_waiting : waiting m = latency
}.

Definition with_regs (regs : list (Z * Z)) (m : machine) : machine :=
  Machine (m_rng m) regs (entropy m) (last_avail m) (waiting m).
Definition located (m : machine) : machine := with_rng (set_io B the_transport (m_rng m)) m.

Lemma located_attached m : attached (located m).
Proof using. done. Qed.
Lemma attached_with_regs regs m : attached m -> attached (with_regs regs m).
Proof using. done. Qed.
Lemma attached_written r v m : attached m -> attached (written r v m).
Proof using. done. Qed.

(** The registers the driver uses exist on the transport. *)
Ltac reach :=
  unfold reachable, reg_offset;
  first [match goal with Hp : pci = _ |- _ => rewrite Hp end|generalize pci; intros []]; reflexivity.
Ltac access lem := erewrite St_bind_ok by (apply lem; [done|reach|done..]).

(** The version the queue set-up goes by. *)
Definition effective_version : Z := if pci then 1 else version.
Definition known_version : bool := pci || (version =? 1) || (version =? 2).

Lemma transport_mmio : bool_decide (the_transport = TRANSPORT_MMIO) = negb pci.
Proof using. unfold the_transport. generalize pci. by intros []. Qed.

Lemma read_version m : device_register VIRTIO_MMIO_VERSION m mod 2 ^ 32 = version \/ pci = true.
Proof using Hver.
  destruct pci eqn:Hp; [by right|left].
  unfold device_register, register, fixed_register, reg_offset. rewrite Hp. unfold pci in Hp.
  rewrite Hp. cbn -[Z.modulo Z.pow]. by apply Z.mod_small.
Qed.

(** An MMIO device of an unknown version is not touched. *)
Lemma init_unknown dev m : known_version = false -> reg_base dev = B ->
  virtio_rng_init_context (Some tt) (Some dev) m = Ok (-1, located m).
Proof using HB Hver.
  intros Hk Hdev. apply orb_false_elim in Hk as [[Hp H1]%orb_false_elim H2].
  unfold virtio_rng_init_context. rewrite Hdev. fold pci. fold the_transport. rewrite transport_mmio.
  erewrite St_bind_ok by reflexivity. change (ctx_put tt _ m) with (located m).
  access rng_read32_ok. destruct (read_version (located m)) as [->|?]; [|congruence].
  by rewrite Hp, H1, H2.
Qed.

(** The registers other than version and queue size hold what was last written. *)
Ltac by_transport := unfold device_register, register, fixed_register, reg_offset, pci;
  destruct (B <? 0x10000); reflexivity.
Lemma status_written v m :
  device_register VIRTIO_MMIO_STATUS (written (reg_offset VIRTIO_MMIO_STATUS) v m) = v.
Proof using. clear HB. by_transport. Qed.
Lemma pfn_written v m :
  device_register VIRTIO_MMIO_QUEUE_PFN (written (reg_offset VIRTIO_MMIO_QUEUE_PFN) v m) = v.
Proof using. clear HB. by_transport. Qed.

(** A sequence of register writes, first one first. *)
Definition performs (t : list (Z * Z)) (m : machine) : machine :=
  foldl (fun m '(r, v) => written (reg_offset r) v m) m t.

(** The handshake: reset, acknowledge, no feature; over memory also the acceptance of
    the features and, on a legacy device, the page size. *)
Definition handshake : list (Z * Z) :=
  [(VIRTIO_MMIO_STATUS, 0); (VIRTIO_MMIO_STATUS, VIRTIO_STATUS_ACKNOWLEDGE);
   (VIRTIO_MMIO_STATUS, status_driver); (VIRTIO_MMIO_DRIVER_FEATURES, 0)] ++
  if pci then []
  else (VIRTIO_MMIO_STATUS, Z.lor status_driver VIRTIO_STATUS_FEATURES_OK) ::
       if version =? 1 then [(VIRTIO_MMIO_GUEST_PAGE_SIZE, 4096)] else [].

(** The handshake: it ends in the set-up of the queue. *)
Lemma rng_handshake_ok dev m : known_version = true -> reg_base dev = B ->
  virtio_rng_init_context (Some tt) (Some dev) m
    = init_queue tt (negb pci) effective_version (performs handshake (located m)).
Proof using HB Hver.
  intros Hk Hdev. unfold virtio_rng_init_context. rewrite Hdev. fold pci. fold the_transport.
  rewrite transport_mmio. erewrite St_bind_ok by reflexivity.
  change (ctx_put tt _ m) with (located m).
  access rng_read32_ok. set (v := device_register _ _ mod 2 ^ 32).
  assert (negb pci && negb (v =? 1) && negb (v =? 2) = false) as ->.
  { destruct (read_version (located m)) as [E| ->]; [|done]. unfold v. rewrite E.
    unfold known_version in Hk. destruct pci, (version =? 1), (version =? 2); done. }
  assert ((if negb pci then v else 1) = effective_version) as ->.
  { unfold effective_version. destruct (read_version (located m)) as [E| ->]; [|done].
    unfold v. rewrite E. by destruct pci. }
  do 3 access rng_write8_ok. access rng_read32_ok. access rng_write32_ok.
  unfold handshake, effective_version. destruct pci eqn:Hp; cbn [negb andb when].
  - erewrite St_bind_ok by reflexivity. cbn [negb]. rewrite andb_false_r.
    by erewrite St_bind_ok by reflexivity.
  - erewrite St_bind_ok; cycle 1.
    { access rng_write8_ok. access rng_read8_ok. reflexivity. }
    rewrite status_written.
    change (Z.land (u8 _) VIRTIO_STATUS_FEATURES_OK =? 0) with false. cbn [negb].
    rewrite andb_true_r. destruct (version =? 1); cbn [when].
    + by access rng_write32_ok.
    + by erewrite St_bind_ok by reflexivity.
Qed.

Lemma queue_size_read m : attached m ->
  (if negb pci then virtio_read32 tt VIRTIO_MMIO_QUEUE_NUM_MAX
   else virtio_read16 tt VIRTIO_MMIO_QUEUE_NUM) m = Ok (qmax, m).
Proof using HB Hqmax.
  intros Hm. assert (device_register
      (if pci then VIRTIO_MMIO_QUEUE_NUM else VIRTIO_MMIO_QUEUE_NUM_MAX) m = qmax) as E.
  { clear HB. by_transport. }
  destruct pci eqn:Hp; cbn [negb].
  - rewrite rng_read16_ok by (done || reach). rewrite E. by rewrite u16_id.
  - rewrite rng_read32_ok by (done || reach). rewrite E. unfold is_u16 in *.
    by rewrite Z.mod_small by lia.
Qed.

(** The queue's page, and the frame number the device is told. *)
Definition queue_page : Z := A + offsetof_queue.
Definition queue_pfn : Z := u32 (Z.shiftr queue_page 12).

Lemma queue_pfn_ok : is_u32 queue_pfn /\ queue_pfn * 4096 = queue_page.
Proof using HA.
  destruct HA as (H0 & H1 & k & Hk). unfold queue_pfn, queue_page, offsetof_queue. rewrite Hk in *.
  rewrite Z.shiftr_div_pow2 by lia. change (2 ^ 12) with 4096.
  replace (k * 4096 + 4096) with ((k + 1) * 4096) by lia. rewrite Z.div_mul by lia.
  rewrite u32_id by (unfold is_u32; lia). unfold is_u32. lia.
Qed.

(** The writes of the queue's set-up, and the status of a running device. *)
Definition running_status : Z :=
  if pci then Z.lor status_driver VIRTIO_STATUS_DRIVER_OK
  else Z.lor (Z.lor status_driver VIRTIO_STATUS_FEATURES_OK) VIRTIO_STATUS_DRIVER_OK.
Definition select_queue : list (Z * Z) := [(VIRTIO_MMIO_QUEUE_SEL, 0)].
Definition size_queue : list (Z * Z) := [(VIRTIO_MMIO_QUEUE_NUM, VIRTIO_RNG_QUEUE_SIZE)].
Definition place_queue : list (Z * Z) :=
  (if pci then [] else [(VIRTIO_MMIO_QUEUE_ALIGN, 4096)]) ++
  [(VIRTIO_MMIO_QUEUE_PFN, queue_pfn); (VIRTIO_MMIO_STATUS, running_status)].
Definition refuse : list (Z * Z) := [(VIRTIO_MMIO_STATUS, VIRTIO_STATUS_FAILED)].

Definition clear_queue (m : machine) : machine :=
  with_rng (set_queue (vring_zero (Z.to_nat VIRTIO_RNG_QUEUE_SIZE)) 0 (m_rng m)) m.
Definition started (m : machine) : machine := with_rng (set_initialized true (m_rng m)) m.

(** What initialisation does: the result, and the machine after it. *)
Definition queue_outcome (m : machine) : Z * machine :=
  if qmax <? VIRTIO_RNG_QUEUE_SIZE then (-1, performs (select_queue ++ refuse) m)
  else if negb (effective_version =? 1) then
    (-1, performs refuse (clear_queue (performs (select_queue ++ size_queue) m)))
  else (0, started (performs place_queue (clear_queue (performs (select_queue ++ size_queue) m)))).
Definition init_outcome (m : machine) : Z * machine :=
  if known_version then queue_outcome (performs handshake (located m)) else (-1, located m).

Lemma fail_ok m : attached m -> fail_device tt m = Ok (-1, performs refuse m).
Proof using HB. intros Hm. unfold fail_device. by access rng_write8_ok. Qed.

Lemma init_queue_ok m : attached m ->
  init_queue tt (negb pci) effective_version m = Ok (queue_outcome m).
Proof using HA HB Hqmax.
  intros Hm. unfold init_queue, queue_outcome.
  access rng_write16_ok. erewrite St_bind_ok by (apply queue_size_read; done).
  assert ((qmax =? 0) || (qmax <? VIRTIO_RNG_QUEUE_SIZE) = (qmax <? VIRTIO_RNG_QUEUE_SIZE)) as ->
    by (destruct (Z.eqb_spec qmax 0) as [-> |]; done).
  destruct (qmax <? _); [by apply fail_ok|].
  set (m1 := written _ _ m).
  rewrite (St_bind_ok _ _ m1 tt (performs size_queue m1))
    by (destruct (negb pci); [apply rng_write32_ok|apply rng_write16_ok]; done || reach).
  erewrite St_bind_ok by reflexivity.
  change (ctx_put tt _ _) with (clear_queue (performs size_queue m1)).
  destruct (effective_version =? 1); cbn [negb]; [|by apply fail_ok].
  set (m2 := clear_queue _). destruct queue_pfn_ok as [Hpfn _].
  change (u32 (Z.shiftr _ 12)) with queue_pfn.
  assert (exists m3, when (negb pci) (virtio_write32 tt VIRTIO_MMIO_QUEUE_ALIGN 4096) m2 = Ok (tt, m3) /\
    attached m3 /\ performs place_queue m2
    = performs [(VIRTIO_MMIO_QUEUE_PFN, queue_pfn); (VIRTIO_MMIO_STATUS, running_status)] m3)
    as (m3 & E3 & Hm3 & Et).
  { unfold place_queue. destruct pci eqn:Hp; eexists; (split; [|split]).
    all: cycle 3. { apply rng_write32_ok; [done|reach|done]. } all: done. }
  rewrite (St_bind_ok _ _ _ _ _ E3). rewrite Et. access rng_write32_ok. access rng_read32_ok.
  rewrite pfn_written, Z.mod_small by exact Hpfn. rewrite Z.eqb_refl. cbn [negb].
  set (m4 := written _ queue_pfn m3).
  rewrite (St_bind_ok _ _ m4 tt (written (reg_offset VIRTIO_MMIO_STATUS) running_status m4))
    by (unfold running_status; generalize pci; intros []; apply rng_write8_ok; done || reach).
  access rng_read8_ok. rewrite status_written.
  assert (Z.land (u8 running_status) VIRTIO_STATUS_DRIVER_OK =? 0 = false) as ->
    by (unfold running_status; clear; by destruct pci).
  by erewrite St_bind_ok by reflexivity.
Qed.

Lemma rng_init_ok dev m : reg_base dev = B ->
  virtio_rng_init_context (Some tt) (Some dev) m = Ok (init_outcome m).
Proof using HA HB Hver Hqmax.
  intros Hdev. unfold init_outcome. destruct known_version eqn:Hk; [|by apply init_unknown].
  rewrite rng_handshake_ok by done. apply init_queue_ok. unfold attached, handshake.
  clear. destruct pci, (version =? 1); done.
Qed.

Definition accepted : bool :=
  known_version && (VIRTIO_RNG_QUEUE_SIZE <=? qmax) && (effective_version =? 1).

(** The device the driver has set up: its status, its queue at the driver's page, and
    the size of the queue it uses, which on PCI is the device's own. *)
Record programmed (m : machine) : Prop := Programmed {
  prog_status : device_register VIRTIO_MMIO_STATUS m = running_status;
  prog_features : device_register VIRTIO_MMIO_DRIVER_FEATURES m = 0;
  prog_select : device_register VIRTIO_MMIO_QUEUE_SEL m = 0;
  prog_page : device_register VIRTIO_MMIO_QUEUE_PFN m * 4096 = queue_page;
  prog_size : device_register VIRTIO_MMIO_QUEUE_NUM m
              = if pci then qmax else VIRTIO_RNG_QUEUE_SIZE
}.

Ltac registers :=
  unfold device_register, register, fixed_register; destruct pci eqn:Hp, (version =? 1);
  unfold performs, select_queue, size_queue, refuse; cbn [foldl app];
  unfold reg_offset; rewrite ?Hp; unfold pci in Hp; rewrite Hp; reflexivity.

Lemma accepted_outcome m : accepted = true ->
  exists m', init_outcome m = (0, m') /\ programmed m' /\ entropy m' = entropy m /\ attached m' /\
    (blank m -> idle latency m').
Proof using HA.
  intros [[Hk Hq%Z.leb_le]%andb_prop Hv]%andb_prop. unfold init_outcome, queue_outcome.
  rewrite Hk, Hv. destruct (Z.ltb_spec qmax VIRTIO_RNG_QUEUE_SIZE); [lia|]. cbn [negb].
  eexists. split; [reflexivity|]. split.
  { destruct queue_pfn_ok as [_ Hp]. split; [| | |etransitivity; [|exact Hp]; f_equal|].
    all: unfold place_queue, running_status, handshake; clear; registers. }
  unfold place_queue, handshake. clear.
  split; [|split]; [by destruct pci, (version =? 1)..|].
  intros [Hf Hb Ha Hw]. split; destruct pci, (version =? 1); cbn; rewrite ?Ha; done.
Qed.

Lemma refused_outcome m : accepted = false ->
  exists m', init_outcome m = (-1, m') /\ initialized (m_rng m') = initialized (m_rng m) /\
    if known_version then device_register VIRTIO_MMIO_STATUS m' = VIRTIO_STATUS_FAILED
    else m_regs m' = m_regs m.
Proof using.
  unfold accepted, init_outcome, queue_outcome. 
  destruct known_version; [|intros _; by eexists].
  destruct (Z.leb_spec VIRTIO_RNG_QUEUE_SIZE qmax), (Z.ltb_spec qmax VIRTIO_RNG_QUEUE_SIZE);
    try lia; cbn [andb negb].
  - intros ->. eexists. split; [reflexivity|]. unfold handshake. clear. split; [|registers].
    by destruct pci, (version =? 1).
  - intros _. eexists. split; [reflexivity|]. unfold handshake. clear. split; [|registers].
    by destruct pci, (version =? 1).
Qed.

(** A device that was not read from stays so. *)
Lemma outcome_blank m : blank m ->
  blank (init_outcome m).2 /\ entropy (init_outcome m).2 = entropy m.
Proof using.
  intros [Hf Hb Ha Hw]. unfold init_outcome, queue_outcome, handshake, place_queue. clear HB.
  destruct known_version; [|by repeat split].
  destruct (qmax <? _); [|destruct (negb _)]; destruct pci, (version =? 1); by repeat split.
Qed.

(* ------------------------------------------------------------------ *)
(** ** Reads *)

(** One call: the size asked for, and the caller's buffer, an object and an offset. *)
Definition call : Type := Z * bytes * Z.
Definition call_size (r : call) : Z := r.1.1.
Definition call_ok (r : call) : Prop :=
  let '(size, b, o) := r in 0 < size /\ 0 <= o /\ o + Z.min size sizeof_buffer <= len b.

(** The calls one after the other, and the bytes each returns in its caller's buffer. *)
Fixpoint reads (rs : list call) : St machine (list bytes) :=
  match rs with
  | [] => mret []
  | (size, b, o) :: rs =>
      '(n, buffer) ← virtio_rng_read (Some tt) (Some (b, o)) size;
      got ← lift (match buffer with Some (b, o) => load b o n | None => UB end);
      out ← reads rs;
      mret (got :: out)
  end.

(** The specification: draws from a stream of bytes.  A draw takes no more than what is
    asked, the driver's buffer, the device's chunk and the stream allow. *)
Fixpoint draws (sizes : list Z) (e : bytes) : list bytes * bytes :=
  match sizes with
  | [] => ([], e)
  | size :: sizes =>
      let n := Z.to_nat (Z.min (Z.min size sizeof_buffer) (Z.min chunk (len e))) in
      let '(out, e') := draws sizes (drop n e) in (take n e :: out, e')
  end.

Lemma draws_stream sizes : forall e, concat (draws sizes e).1 ++ (draws sizes e).2 = e.
Proof using.
  induction sizes as [|size sizes IH]; intros e; [done|]. cbn [draws].
  set (n := Z.to_nat _). specialize (IH (drop n e)). destruct (draws sizes (drop n e)) as [out e'].
  cbn in *. by rewrite <- app_assoc, IH, take_drop.
Qed.

  Hypothesis Hchunk : 0 <= chunk.

Lemma reads_ok rs : queue_entries B qmax = VIRTIO_RNG_QUEUE_SIZE ->
  (latency < Z.to_nat POLL_LIMIT)%nat -> forall m, idle latency m ->
  Forall call_ok rs -> exists m',
  let '(out, e) := draws (call_size <$> rs) (entropy m) in
  reads rs m = Ok (out, m') /\ entropy m' = e /\ idle latency m' /\ same_device m m'.
Proof using Hchunk.
  intros Hent Hlat. induction rs as [|[[size b] o] rs IH]; intros m Hm Hrs; [by exists m|].
  apply Forall_cons in Hrs as [(Hs & Ho & Hb) Hrs].
  pose proof (read_outcome A chunk latency B version qmax Hchunk Hent m b o size Hm Hs Ho Hb) as Hread.
  destruct (Nat.ltb_spec latency (Z.to_nat POLL_LIMIT)); [|lia].
  destruct Hread as (b' & m1 & E & Hst & He & Hm1 & [Hd1 Hd2]).
  destruct (IH m1 Hm1 Hrs) as [m2 IH']. exists m2. cbn [fmap list_fmap call_size fst draws].
  change (Z.min (Z.min size sizeof_buffer) (Z.min chunk (len (entropy m))))
    with (granted chunk (Z.min size sizeof_buffer) m). rewrite <- He.
  destruct (draws _ _) as [out e]. destruct IH' as (E2 & He2 & Hm2 & Hd3 & Hd4).
  split; [|split; [done|split; [done|]]]; [|split; congruence].
  cbn [reads]. rewrite (St_bind_ok _ _ _ _ _ E). cbn beta iota.
  set (n := granted _ _ _) in *. pose proof (load_store_at _ _ _ _ Hst) as Hl.
  replace (len (take _ _)) with n in Hl.
  - erewrite St_bind_ok by (apply lift_ok; exact Hl). by rewrite (St_bind_ok _ _ _ _ _ E2).
  - pose proof (len_nonneg (entropy m)). unfold n, granted, len, sizeof_buffer in *.
    rewrite length_take. lia.
Qed.

Lemma deinit_ok m : attached m -> initialized (m_rng m) = true -> exists m',
  virtio_rng_deinit_context (Some tt) m = Ok (tt, m') /\ initialized (m_rng m') = false /\
  device_register VIRTIO_MMIO_STATUS m' = 0.
Proof using HB.
  intros Hm Hi. unfold virtio_rng_deinit_context. erewrite St_bind_ok by reflexivity.
  cbn [ctx_get the_ctx device_ctx]. rewrite Hi. cbn [negb]. access rng_write8_ok.
  eexists. split; [reflexivity|]. split; [done|]. apply status_written.
Qed.

(* ------------------------------------------------------------------ *)
(** ** Properties *)

(** C30: Initialisation, on every branch, is the sequence of register writes of
    [init_outcome].  It accepts a legacy device with a queue of at least 8 entries,
    which it leaves running with its queue at the driver's page; another it refuses
    with -1 and the status FAILED, and one of an unknown version without a write.
    From an accepted device, when the queue it uses has the driver's 8 entries and it
    answers within the polling limit, any sequence of reads returns consecutive bytes
    of its stream, and [virtio_rng_deinit_context] then resets it.  When the device
    is slower the first read returns -1 with the caller's buffer untouched; the
    descriptor is marked free although the device may still have it. *)
Theorem virtio_rng_session dev m : reg_base dev = B -> blank m ->
  virtio_rng_init_context (Some tt) (Some dev) m = Ok (init_outcome m) /\
  let '(result, m1) := init_outcome m in
  if accepted then
    result = 0 /\ programmed m1 /\ idle latency m1 /\
    (device_register VIRTIO_MMIO_QUEUE_NUM m1 = VIRTIO_RNG_QUEUE_SIZE ->
     if (latency <? Z.to_nat POLL_LIMIT)%nat then
       forall rs, Forall call_ok rs -> exists m2 m3,
         let '(out, e) := draws (call_size <$> rs) (entropy m) in
         reads rs m1 = Ok (out, m2) /\ entropy m2 = e /\ concat out ++ e = entropy m /\
         virtio_rng_deinit_context (Some tt) m2 = Ok (tt, m3) /\
         initialized (m_rng m3) = false /\ device_register VIRTIO_MMIO_STATUS m3 = 0
     else
       forall size b o, call_ok (size, b, o) -> exists m2,
         virtio_rng_read (Some tt) (Some (b, o)) size m1 = Ok (-1, Some (b, o), m2) /\
         desc_in_use (m_rng m2) = replicate 8 false /\
         ((Z.to_nat POLL_LIMIT < latency)%nat ->
            avail_idx (rng_queue (m_rng m2)) <> last_avail m2 /\ entropy m2 = entropy m))
  else
    result = -1 /\ initialized (m_rng m1) = initialized (m_rng m) /\
    if known_version then device_register VIRTIO_MMIO_STATUS m1 = VIRTIO_STATUS_FAILED
    else m_regs m1 = m_regs m.
Proof using HA HB Hver Hqmax Hchunk.
  intros Hdev Hm. split; [by apply rng_init_ok|]. destruct accepted eqn:Hacc.
  - destruct (accepted_outcome m Hacc) as (m1 & -> & Hp & He & Hat & Hi). specialize (Hi Hm).
    split; [done|]. split; [done|]. split; [done|]. intros Hent. rewrite (prog_size m1 Hp) in Hent.
    change (queue_entries B qmax = VIRTIO_RNG_QUEUE_SIZE) in Hent.
    destruct (Nat.ltb_spec latency (Z.to_nat POLL_LIMIT)) as [Hlat|Hlat].
    + intros rs Hrs. destruct (reads_ok rs Hent Hlat m1 Hi Hrs) as [m2 E]. rewrite He in E.
      pose proof (draws_stream (call_size <$> rs) (entropy m)) as Hs.
      destruct (draws _ _) as [out e]. destruct E as (E & He2 & Hi2 & Hd).
      destruct (deinit_ok m2) as (m3 & E3 & Hf & Hs3).
      * destruct Hat, Hd. split; congruence.
      * apply Hi2.
      * by exists m2, m3.
    + intros size b o (Hs & Ho & Hb).
      pose proof (read_outcome A chunk latency B version qmax Hchunk Hent m1 b o size Hi Hs Ho Hb) as Hread.
      destruct (Nat.ltb_spec latency (Z.to_nat POLL_LIMIT)); [lia|]. by rewrite <- He.
  - destruct (refused_outcome m Hacc) as (m1 & -> & Hr). by split.
Qed.
End session.

(** ** A device *)

Module rng_sample.
Definition A : Z := 0x100000.
Definition B : Z := 0x10001000.
Definition context : virtio_rng :=
  VirtioRng 0 false TRANSPORT_PCI (vring_zero 8) 0 (replicate 64 0) (replicate 8 false).
Definition start : machine := Machine context [] [11; 22; 33; 44; 55; 66; 77] 0 3.
Definition dev : device :=
  Device None None B 0x1000 0 4 0 0 0 None DEVICE_STATE_DISCOVERED 0 0 None None None 0 None.
Definition calls : list call := [(3, replicate 8 0, 2); (64, replicate 64 0, 0)].
Lemma start_blank : blank 3 start.
Proof. by split. Qed.
Lemma rng_A_ok : 0 <= A /\ A + 0x4000 <= 2 ^ 44 /\ (4096 | A).
Proof. split; [discriminate|]. split; [discriminate|]. by exists 256. Qed.
Lemma calls_ok : Forall call_ok calls.
Proof. by repeat constructor. Qed.
End rng_sample.

Lemma virtio_rng_session_witness :
  exists m1 m2, @virtio_rng_init_context machine unit RISCV (device_bus rng_sample.B 1 8)
      (device_ctx rng_sample.A) (Some tt) (Some rng_sample.dev) rng_sample.start = Ok (0, m1) /\
    @reads rng_sample.A 4 3 rng_sample.B 1 8 RISCV rng_sample.calls m1
      = Ok ([[11; 22; 33]; [44; 55; 66; 77]], m2).
Proof.
  destruct (@virtio_rng_session rng_sample.A 4 3 rng_sample.B 1 8 RISCV ltac:(discriminate)
    rng_sample.rng_A_ok ltac:(done) ltac:(done) ltac:(discriminate) rng_sample.dev rng_sample.start
    eq_refl rng_sample.start_blank) as (E & _ & _ & _ & Hreads).
  destruct (Hreads eq_refl rng_sample.calls rng_sample.calls_ok) as (m2 & m3 & E2 & _).
  eexists. exists m2. split; [exact E|exact E2].
Defined.
