(* ===== verification/Random.v ===== *)
(** Random numbers (apps/random/random.c): the xorshift64 generator, seeded from
    the device registry, and the round robin over entropy devices with the
    generator as their fallback. *)

From S2P Require Export Driver Devices.

Open Scope Z_scope.

Definition MAX_HARDWARE_RNG_DEVICES : Z := 4.

(** [(int)x] of a size_t. *)
Definition to_int (x : Z) : Z := let y := u32 x in if y <? 2 ^ 31 then y else y - 2 ^ 32.

(** The static variables [random_state] and [prng_state]; the contexts belong to
    the driver. *)
Record random_state := RandomState {
  resources : list (option nat);
  device_count : Z;
  next_device_index : Z;
  random_initialized : bool;
  prng_state : Z
}.
Definition random_state_zero : random_state := RandomState (replicate 4 None) 0 0 false 0.
Definition set_prng (x : Z) (s : random_state) : random_state :=
  RandomState (resources s) (device_count s) (next_device_index s) (random_initialized s) x.
Definition set_next_index (i : Z) (s : random_state) : random_state :=
  RandomState (resources s) (device_count s) i (random_initialized s) (prng_state s).
Definition set_seeded (x : Z) (s : random_state) : random_state :=
  RandomState (resources s) (device_count s) (next_device_index s) true x.

(** The generator: the output is the new state. *)
Definition xorshift64 (x : Z) : Z :=
  let x := Z.lxor x (u64 (Z.shiftl x 13)) in
  let x := Z.lxor x (Z.shiftr x 7) in
  Z.lxor x (u64 (Z.shiftl x 17)).

Definition BASE_SEED : Z := 0x123456789ABCDEF0.

(** One device mixed into the seed. *)
Definition mix_device (seed : Z) (d : device) : Z :=
  let seed := Z.lxor seed (reg_base d) in
  let seed := Z.lxor seed (u64 (Z.shiftl (vendor_id d) 32)) in
  let seed := Z.lxor seed (u64 (Z.shiftl (device_id d) 16)) in
  Z.lor (u64 (Z.shiftl seed 7)) (Z.shiftr seed 57).

(** The loop over the first devices; [n] more are looked at. *)
Fixpoint mix_devices (n : nat) (r : registry) (device : option nat) (seed : Z) : res Z :=
  match n, device with
  | S n, Some i =>
      d ← slot r i;
      next ← devices_get_next r device;
      mix_devices n r next (mix_device seed d)
  | _, _ => Ok seed
  end.

Definition prng_init (r : registry) : res Z :=
  seed ← mix_devices 16 r (devices_get_first r) BASE_SEED;
  mret (if seed =? 0 then BASE_SEED else seed).

(** [buffer[i] = (val >> (i * 8)) & 0xFF] for [i < n]. *)
Definition store_word (b : bytes) (o val : Z) (n : nat) : res bytes :=
  for_n n (fun i b => wr b (o + Z.of_nat i) (Z.land (Z.shiftr val (Z.of_nat i * 8)) 0xFF)) b.

(** [fuel] bounds the number of 8-byte words. *)
Fixpoint prng_fill_bytes (fuel : nat) (b : bytes) (o length state : Z) : res (bytes * Z) :=
  match fuel with
  | O => NoFuel
  | S fuel =>
      if 8 <=? length then
        let state := xorshift64 state in
        b ← store_word b o state 8;
        prng_fill_bytes fuel b (o + 8) (length - 8) state
      else if 0 <? length then
        let state := xorshift64 state in
        b ← store_word b o state (Z.to_nat length);
        mret (b, state)
      else mret (b, state)
  end.
Definition fill_fuel (length : Z) : nat := S (Z.to_nat (length / 8)).

(** What the entropy driver and the resource manager offer; a context is the index
    of an element of [rng_contexts]. *)
Class RngDriver (W : Type) := {
  rng_registry : W -> registry;
  rng_acquire : nat -> St W (option nat);
  rng_read : nat -> bytes -> Z -> Z -> St W (Z * bytes)
}.

Section random.
  Context {W : Type} `{Console W} `{RngDriver W}.

Definition fill (s : random_state) (b : bytes) (o length : Z) : St W (bytes * random_state) :=
  '(b, x) ← lift (prng_fill_bytes (fill_fuel length) b o length (prng_state s));
  mret (b, set_prng x s).

(** [ctx]: a context, or NULL. *)
Definition hardware_read_bytes (s : random_state) (ctx : option nat) (b : bytes) (o length : Z)
    : St W (Z * bytes * random_state) :=
  match ctx with
  | None =>
      _ ← kputs "  virtio-rng: invalid context, falling back to PRNG
";
      '(b, s) ← fill s b o length; mret (to_int length, b, s)
  | Some i =>
      '(result, b) ← rng_read i b o length;
      if result =? to_int length then mret (result, b, s) else
      _ ← kputs "  virtio-rng read failed, falling back to PRNG
";
      '(b, s) ← fill s b o length; mret (to_int length, b, s)
  end.

Definition random_hardware_init (s : random_state) : St W (Z * random_state) :=
  if MAX_HARDWARE_RNG_DEVICES <=? device_count s then
    _ ← kputs "Initializing hardware RNG...
";
    _ ← kputs "  Maximum hardware RNG devices already acquired
";
    mret (-1, s)
  else
    _ ← kputs "Initializing hardware RNG...
";
    let device_idx := device_count s in
    resource ← rng_acquire (Z.to_nat device_idx);
    match resource with
    | Some r =>
        rs ← lift (wr (resources s) device_idx (Some r));
        let s := RandomState rs (device_count s + 1) (next_device_index s) (random_initialized s)
                   (prng_state s) in
        _ ← kputs "  Hardware RNG acquired (virtio-rng)
";
        mret (0, s)
    | None =>
        _ ← kputs "  Hardware RNG unavailable, using software PRNG (xorshift64)
";
        mret (-1, s)
    end.

(** [buffer]: an object and an offset into it, or NULL. *)
Definition random_get_bytes (s : random_state) (buffer : option (bytes * Z)) (length : Z)
    : St W (Z * option (bytes * Z) * random_state) :=
  match buffer with
  | None => mret (-1, buffer, s)
  | Some (b, o) =>
      if length =? 0 then mret (-1, buffer, s) else
      s ← (if random_initialized s then mret s else
             r ← gets rng_registry; seed ← lift (prng_init r); mret (set_seeded seed s));
      if 0 <? device_count s then
        let device_idx := next_device_index s in
        let s := set_next_index ((next_device_index s + 1) mod device_count s) s in
        '(r, b, s) ← hardware_read_bytes s (Some (Z.to_nat device_idx)) b o length;
        mret (r, Some (b, o), s)
      else
        '(b, s) ← fill s b o length;
        mret (to_int length, Some (b, o), s)
  end.
End random.

(* ------------------------------------------------------------------ *)
(** ** The generator *)

Lemma u64_testbit x i : 0 <= i < 64 -> Z.testbit (u64 x) i = Z.testbit x i.
Proof. intros. unfold u64. by rewrite Z.mod_pow2_bits_low by lia. Qed.
Lemma is_u64_testbit x i : is_u64 x -> 64 <= i -> Z.testbit x i = false.
Proof. intros Hx Hi. rewrite <- (u64_id x Hx). unfold u64. by apply Z.mod_pow2_bits_high. Qed.
Lemma bits_is_u64 x : 0 <= x -> (forall i, 64 <= i -> Z.testbit x i = false) -> is_u64 x.
Proof.
  intros H0 Hx. assert (x = u64 x) as ->; [|apply u64_range].
  apply Z.bits_inj'. intros i Hi. destruct (Z.lt_ge_cases i 64).
  - by rewrite u64_testbit by lia.
  - rewrite Hx by lia. unfold u64. by rewrite Z.mod_pow2_bits_high by lia.
Qed.

Lemma lxor_u64 a b : is_u64 a -> is_u64 b -> is_u64 (Z.lxor a b).
Proof.
  intros Ha Hb. apply bits_is_u64; [apply Z.lxor_nonneg; unfold is_u64 in *; lia|].
  intros i Hi. by rewrite Z.lxor_spec, !is_u64_testbit.
Qed.
Lemma shiftr_u64 a k : is_u64 a -> 0 <= k -> is_u64 (Z.shiftr a k).
Proof.
  intros Ha Hk. apply bits_is_u64; [apply Z.shiftr_nonneg; unfold is_u64 in *; lia|].
  intros i Hi. rewrite Z.shiftr_spec by lia. apply is_u64_testbit; [done|lia].
Qed.
Lemma lor_u64 a b : is_u64 a -> is_u64 b -> is_u64 (Z.lor a b).
Proof.
  intros Ha Hb. apply bits_is_u64; [apply Z.lor_nonneg; unfold is_u64 in *; lia|].
  intros i Hi. by rewrite Z.lor_spec, !is_u64_testbit.
Qed.

Lemma bits_zero x : is_u64 x -> (forall i, 0 <= i < 64 -> Z.testbit x i = false) -> x = 0.
Proof.
  intros Hx Hb. apply Z.bits_inj'. intros i Hi. rewrite Z.bits_0.
  destruct (Z.lt_ge_cases i 64); [apply Hb; lia|by apply is_u64_testbit].
Qed.

(** Each of the three steps is injective at zero: the lowest (highest) bit set
    survives. *)
Lemma xor_shiftl_zero x k : 0 < k -> is_u64 x -> Z.lxor x (u64 (Z.shiftl x k)) = 0 -> x = 0.
Proof.
  intros Hk Hx E. apply bits_zero; [done|]. intros i [H0 Hi].
  revert Hi. pattern i. apply Zlt_0_ind; [|done]. clear i H0. intros i IH H0 Hi.
  apply (f_equal (fun z => Z.testbit z i)) in E.
  rewrite Z.lxor_spec, u64_testbit, Z.shiftl_spec, Z.bits_0 in E by lia.
  apply xorb_eq in E. rewrite E. destruct (Z.lt_ge_cases (i - k) 0).
  - by apply Z.testbit_neg_r.
  - apply IH; lia.
Qed.

Lemma xor_shiftr_zero x k : 0 < k -> is_u64 x -> Z.lxor x (Z.shiftr x k) = 0 -> x = 0.
Proof.
  intros Hk Hx E. apply bits_zero; [done|]. intros i [H0 Hi].
  assert (Hall : forall n, 0 <= n -> forall j, 0 <= j -> 64 - j <= n -> Z.testbit x j = false).
  { intros n Hn. pattern n. apply Zlt_0_ind; [|done]. clear n Hn. intros n IH Hn j Hj Hle.
    destruct (Z.lt_ge_cases j 64); [|by apply is_u64_testbit].
    pose proof (f_equal (fun z => Z.testbit z j) E) as Ej. cbn beta in Ej.
    rewrite Z.lxor_spec, Z.shiftr_spec, Z.bits_0 in Ej by lia. apply xorb_eq in Ej. rewrite Ej.
    apply (IH (n - 1)); lia. }
  by apply (Hall (64 - i)); lia.
Qed.

Lemma xorshift64_range x : is_u64 x -> is_u64 (xorshift64 x).
Proof.
  intros Hx. unfold xorshift64.
  repeat first [apply lxor_u64|apply shiftr_u64; [|lia]|apply u64_range|done].
Qed.

Lemma xorshift64_nonzero x : is_u64 x -> x <> 0 -> xorshift64 x <> 0.
Proof.
  intros Hx Hne E. unfold xorshift64 in E.
  apply xor_shiftl_zero in E; [|lia|].
  - apply xor_shiftr_zero in E; [|lia|].
    + apply xor_shiftl_zero in E; [done|lia|done].
    + apply lxor_u64; [done|apply u64_range].
  - repeat first [apply lxor_u64|apply shiftr_u64; [|lia]|apply u64_range|done].
Qed.

(** A state the generator may have. *)
Definition prng_ok (x : Z) : Prop := is_u64 x /\ x <> 0.

Lemma xorshift64_ok x : prng_ok x -> prng_ok (xorshift64 x).
Proof. intros [? ?]. split; [by apply xorshift64_range|by apply xorshift64_nonzero]. Qed.

(** ** The seed *)

Lemma base_seed_ok : prng_ok BASE_SEED.
Proof. split; [split; vm_compute; congruence|vm_compute; congruence]. Qed.

(** What the fields of a registered device hold. *)
Definition device_ok (d : device) : Prop := is_u64 (reg_base d).

Lemma mix_device_ok seed d : is_u64 seed -> device_ok d -> is_u64 (mix_device seed d).
Proof.
  intros Hs Hd. unfold mix_device.
  repeat first [apply lor_u64|apply lxor_u64|apply shiftr_u64; [|lia]|apply u64_range|done].
Qed.

Lemma mix_devices_spec r : registry_wf r -> forall n i seed,
  mix_devices n r (if (i <? length (device_storage r))%nat then Some i else None) seed
  = Ok (foldl mix_device seed (take n (drop i (device_storage r)))).
Proof.
  intros [_ _ Ht] n. induction n as [|n IH]; intros i seed; [done|].
  destruct (Nat.ltb_spec i (length (device_storage r))).
  - destruct (Ht i) as (d & Hd & En); [done|]. cbn [mix_devices devices_get_next].
    rewrite (slot_lookup r i d Hd). cbn [mbind res_bind]. unfold mret, res_ret. cbn [mbind res_bind].
    rewrite En, IH, (drop_S _ d i) by done. done.
  - by rewrite drop_ge by lia.
Qed.

Lemma prng_init_ok r : registry_wf r -> Forall device_ok (device_storage r) ->
  exists seed, prng_init r = Ok seed /\ prng_ok seed /\
    let mixed := foldl mix_device BASE_SEED (take 16 (device_storage r)) in
    seed = if mixed =? 0 then BASE_SEED else mixed.
Proof.
  intros Hr Hd. unfold prng_init, devices_get_first.
  assert (device_list_head r = if (0 <? length (device_storage r))%nat then Some O else None) as ->.
  { rewrite (wf_head r Hr). by destruct (device_storage r). }
  rewrite (mix_devices_spec r Hr), drop_0. cbn [mbind res_bind]. eexists. split; [reflexivity|].
  split; [|done]. destruct (Z.eqb_spec (foldl mix_device BASE_SEED (take 16 (device_storage r))) 0).
  - apply base_seed_ok.
  - split; [|done].
    assert (forall l seed, Forall device_ok l -> is_u64 seed -> is_u64 (foldl mix_device seed l)) as Hfold.
    { induction l as [|d l IH]; intros s Hl Hs; [done|]. apply Forall_cons in Hl as [? ?].
      apply IH; [done|]. by apply mix_device_ok. }
    apply Hfold; [by apply Forall_take|apply base_seed_ok].
Qed.

(** ** The bytes of the generator *)

Definition le64 (x : Z) : bytes := (fun i => u8 (Z.shiftr x (Z.of_nat i * 8))) <$> seq 0 8.

(** The outputs from state [x] on, and the state after [n] of them. *)
Fixpoint prng_words (n : nat) (x : Z) : bytes :=
  match n with O => [] | S n => le64 (xorshift64 x) ++ prng_words n (xorshift64 x) end.
Fixpoint prng_after (n : nat) (x : Z) : Z :=
  match n with O => x | S n => prng_after n (xorshift64 x) end.
(** The outputs that [length] bytes take. *)
Definition words_of (length : Z) : nat := Z.to_nat ((length + 7) / 8).
Definition prng_bytes (length x : Z) : bytes := take (Z.to_nat length) (prng_words (words_of length) x).

Lemma le64_len x : len (le64 x) = 8.
Proof. done. Qed.
Lemma prng_words_len n : forall x, len (prng_words n x) = Z.of_nat n * 8.
Proof. induction n as [|n IH]; intros x; [done|]. cbn [prng_words]. rewrite len_app, le64_len, IH. lia. Qed.

Lemma prng_bytes_len n x : 0 <= n -> len (prng_bytes n x) = n.
Proof.
  intros Hn. unfold prng_bytes. pose proof (prng_words_len (words_of n) x) as Hl.
  unfold len, words_of in *. rewrite length_take. zdm.
Qed.

Lemma store_word_store b o x n : (n <= 8)%nat -> 0 <= o -> o + Z.of_nat n <= len b ->
  store_word b o x n = store b o (take n (le64 x)).
Proof.
  intros Hn Ho Hl. unfold store_word, for_n.
  assert (take n (le64 x) = (fun i => Z.land (Z.shiftr x (Z.of_nat i * 8)) 0xFF) <$> seq 0 n) as ->.
  { unfold le64. rewrite <- fmap_take, take_seq. replace (n `min` 8)%nat with n by lia.
    apply list_fmap_ext. intros i y _. symmetry. apply land_255. }
  clear Hn. induction n as [|n IH].
  - cbn [seq foldl fmap list_fmap]. destruct (split_at b o 0) as (h & mid & t & -> & <- & Hm); [lia..|].
    destruct mid; [|rewrite len_cons in Hm; pose proof (len_nonneg mid); lia].
    by rewrite (store_ok h [] t []).
  - rewrite seq_S, foldl_snoc, fmap_app, IH by lia. cbn [Nat.add fmap list_fmap].
    apply wr_seq. unfold len. rewrite length_fmap, length_seq. lia.
Qed.

Lemma prng_after_ok n : forall x, prng_ok x -> prng_ok (prng_after n x).
Proof. induction n as [|n IH]; intros x Hx; [done|]. by apply IH, xorshift64_ok. Qed.

Lemma prng_fill_spec fuel : forall b o n x,
  0 <= n -> 0 <= o -> o + n <= len b -> (Z.to_nat (n / 8) < fuel)%nat ->
  prng_fill_bytes fuel b o n x
  = (b' ← store b o (prng_bytes n x); Ok (b', prng_after (words_of n) x)).
Proof.
  induction fuel as [|fuel IH]; intros b o n x Hn Ho Hl Hf; [lia|]. cbn [prng_fill_bytes].
  destruct (Z.leb_spec 8 n).
  - rewrite store_word_store by lia. change (take 8 (le64 (xorshift64 x))) with (le64 (xorshift64 x)).
    assert (words_of n = S (words_of (n - 8))) as Hw by (unfold words_of; zdm).
    assert (prng_bytes n x = le64 (xorshift64 x) ++ prng_bytes (n - 8) (xorshift64 x)) as ->.
    { unfold prng_bytes. rewrite Hw. cbn [prng_words].
      rewrite take_app_ge by (change (length (le64 (xorshift64 x))) with 8%nat; lia).
      do 2 f_equal. change (length (le64 (xorshift64 x))) with 8%nat. lia. }
    rewrite <- (store_seq b o (le64 (xorshift64 x)) _ (o + 8)) by done.
    destruct (store b o (le64 (xorshift64 x))) as [b1| |] eqn:E; [|done..]. cbn [mbind res_bind].
    apply store_len in E. rewrite IH by (try lia; zdm). by rewrite Hw.
  - destruct (Z.ltb_spec 0 n).
    + rewrite store_word_store by lia.
      assert (words_of n = 1%nat) as Hw by (unfold words_of; zdm).
      unfold prng_bytes. rewrite Hw. cbn [prng_words prng_after]. by rewrite app_nil_r.
    + replace n with 0 by lia. change (prng_bytes 0 x) with (@nil Z). change (words_of 0) with O.
      destruct (split_at b o 0) as (h & mid & t & -> & <- & Hm); [lia..|].
      destruct mid; [|rewrite len_cons in Hm; pose proof (len_nonneg mid); lia].
      by rewrite (store_ok h [] t []).
Qed.

Lemma fill_fuel_enough n : 0 <= n -> (Z.to_nat (n / 8) < fill_fuel n)%nat.
Proof. unfold fill_fuel. lia. Qed.

(** ** The module against the driver's contract *)

(** What the entropy driver and the resource manager promise, as long as the contexts
    are acquired in order: a read from an acquired context returns, writes nothing but
    the [n] bytes it was given, and keeps all contexts ready. *)
Class RngLaws (W : Type) `{Console W} `{RngDriver W} := {
  rng_inv : W -> Prop;
  rng_ready : nat -> W -> Prop;
  rng_inv_write : forall s w, rng_inv w -> rng_inv (con_write s w);
  rng_ready_write : forall i s w, rng_ready i w -> rng_ready i (con_write s w);
  rng_registry_write : forall s w, rng_registry (con_write s w) = rng_registry w;
  rng_read_ok : forall i b o n w,
    rng_inv w -> rng_ready i w -> 0 <= o -> 0 < n -> o + n <= len b ->
    exists r xs b' w', rng_read i b o n w = Ok (r, b', w') /\
      len xs = n /\ store b o xs = Ok b' /\ rng_inv w' /\ forall j, rng_ready j w -> rng_ready j w';
  rng_acquire_ok : forall i w, rng_inv w -> (forall j, (j < i)%nat -> rng_ready j w) ->
    exists r w', rng_acquire i w = Ok (r, w') /\ rng_inv w' /\
    (forall j, rng_ready j w -> rng_ready j w') /\ (r <> None -> rng_ready i w') /\
    rng_registry w' = rng_registry w
}.

Section module.
  Context {W : Type} `{RngLaws W}.

(** The invariant of the module's state. *)
Record random_ok (s : random_state) (w : W) : Prop := RandomOk {
  ok_resources : length (resources s) = 4%nat;
  ok_count : 0 <= device_count s <= MAX_HARDWARE_RNG_DEVICES;
  ok_next : 0 <= next_device_index s /\
    (next_device_index s < device_count s \/ next_device_index s = 0);
  ok_inv : rng_inv w;
  ok_ready : forall i, (i < Z.to_nat (device_count s))%nat -> rng_ready i w;
  ok_seed : if random_initialized s then prng_ok (prng_state s)
            else registry_wf (rng_registry w) /\ Forall device_ok (device_storage (rng_registry w))
}.

(** The generator's state at the first use: the seed. *)
Definition seeded (s : random_state) (w : W) (x : Z) : Prop :=
  if random_initialized s then x = prng_state s else prng_init (rng_registry w) = Ok x.

Lemma seed_step s (w : W) x : seeded s w x ->
  (if random_initialized s then mret s else
     r ← gets rng_registry; seed ← lift (prng_init r); mret (set_seeded seed s)) w
  = Ok (set_seeded x s, w).
Proof.
  unfold seeded. destruct s as [rs c nx init st]. cbn. destruct init; [by intros ->|]. intros E.
  erewrite St_bind_ok by reflexivity. by erewrite St_bind_ok by (by apply lift_ok).
Qed.

Lemma seeding s (w : W) : random_ok s w -> exists x, seeded s w x /\ prng_ok x.
Proof.
  intros [_ _ _ _ _ Hs]. unfold seeded. destruct (random_initialized s); [by exists (prng_state s)|].
  destruct Hs as [Hr Hd]. destruct (prng_init_ok _ Hr Hd) as (x & E & Hx & _). by exists x.
Qed.

Lemma fill_ok s b o n (w : W) : 0 < n -> 0 <= o -> o + n <= len b ->
  exists b', fill s b o n w = Ok (b', set_prng (prng_after (words_of n) (prng_state s)) s, w) /\
    store b o (prng_bytes n (prng_state s)) = Ok b'.
Proof.
  intros Hn Ho Hl. destruct (store_in_range b o (prng_bytes n (prng_state s))) as [b' E];
    [done|rewrite prng_bytes_len; lia|].
  exists b'. split; [|done]. unfold fill.
  rewrite (St_bind_ok _ _ w (b', prng_after (words_of n) (prng_state s)) w); [done|].
  apply lift_ok. rewrite prng_fill_spec by (done || lia || (apply fill_fuel_enough; lia)).
  by rewrite E.
Qed.

(** What the module's operations do to its invariant through output. *)
Lemma kputs_ok str (w : W) : kputs str w = Ok (tt, con_write (Prelude.str str) w).
Proof. done. Qed.

Lemma random_ok_write s str (w : W) : random_ok s w -> random_ok s (con_write str w).
Proof.
  intros []. split; [done..|by apply rng_inv_write| |].
  - intros i Hi. by apply rng_ready_write, ok_ready0.
  - by rewrite rng_registry_write.
Qed.

Lemma to_int_id n : 0 <= n < 2 ^ 31 -> to_int n = n.
Proof.
  intros Hn. unfold to_int. rewrite u32_id by (unfold is_u32; lia). cbv zeta.
  destruct (Z.ltb_spec n (2 ^ 31)); lia.
Qed.

(** The read from a device, with its fallback. *)
Lemma hardware_read_ok s i b o n (w : W) : 0 < n < 2 ^ 31 -> 0 <= o -> o + n <= len b -> rng_inv w -> rng_ready i w ->
  exists xs b' s' w', hardware_read_bytes s (Some i) b o n w = Ok (n, b', s', w') /\
    len xs = n /\ store b o xs = Ok b' /\ rng_inv w' /\ (forall j, rng_ready j w -> rng_ready j w') /\
    ((exists w1, rng_read i b o n w = Ok (n, b', w1) /\ s' = s) \/
     (exists r b1 w1, rng_read i b o n w = Ok (r, b1, w1) /\ r <> n /\
        xs = prng_bytes n (prng_state s) /\
        s' = set_prng (prng_after (words_of n) (prng_state s)) s)).
Proof.
  intros Hn Ho Hl Hinv Hr. unfold hardware_read_bytes.
  destruct (rng_read_ok i b o n w Hinv Hr Ho (proj1 Hn) Hl) as (r & xs & b1 & w1 & E & Hxs & Hst & Hinv1 & Hk).
  rewrite (St_bind_ok _ _ _ _ _ E). rewrite to_int_id by lia. destruct (Z.eqb_spec r n) as [->|Hne].
  { exists xs, b1, s, w1. split; [done|]. split; [done|]. split; [done|]. split; [done|]. split; [done|].
    left. by exists w1. }
  rewrite (St_bind_ok _ _ _ _ _ (kputs_ok _ w1)).
  pose proof (store_len _ _ _ _ Hst) as Hbl.
  destruct (fill_ok s b1 o n (con_write (Prelude.str "  virtio-rng read failed, falling back to PRNG
") w1)) as (b' & Ef & Hb'); [lia|done|lia|].
  rewrite (St_bind_ok _ _ _ _ _ Ef).
  exists (prng_bytes n (prng_state s)), b'. eexists _, _. split; [reflexivity|].
  rewrite prng_bytes_len by lia. split; [done|]. split.
  - apply store_inv in Hst as (h & m & t & -> & Hh & Hm & ->).
    apply store_inv in Hb' as (h' & m' & t' & E' & Hh' & Hm' & ->).
    rewrite prng_bytes_len in Hm' by lia.
    destruct (app_inj_1 h h' (xs ++ t) (m' ++ t') ltac:(unfold len in *; lia) E') as [-> E2].
    destruct (app_inj_1 xs m' t t' ltac:(unfold len in *; lia) E2) as [-> ->].
    rewrite <- Hh'. apply store_ok. rewrite prng_bytes_len by lia. lia.
  - split; [by apply rng_inv_write|]. split; [intros j Hj; by apply rng_ready_write, Hk|]. right. by exists r, b1, w1.
Qed.

(** Acquiring one more device keeps the invariant. *)
Lemma random_hardware_init_ok s (w : W) : random_ok s w ->
  exists r s' w', random_hardware_init s w = Ok (r, s', w') /\ random_ok s' w' /\
    ((r = 0 /\ device_count s' = device_count s + 1) \/ (r = -1 /\ s' = s)).
Proof.
  intros Hs. unfold random_hardware_init.
  destruct (Z.leb_spec MAX_HARDWARE_RNG_DEVICES (device_count s)).
  - rewrite (St_bind_ok _ _ _ _ _ (kputs_ok _ w)), (St_bind_ok _ _ _ _ _ (kputs_ok _ _)).
    eexists _, s, _. split; [reflexivity|]. split; [by do 2 apply random_ok_write|by right].
  - rewrite (St_bind_ok _ _ _ _ _ (kputs_ok _ w)). set (w0 := con_write _ w).
    assert (random_ok s w0) as Hs0 by (by apply random_ok_write).
    pose proof Hs0 as [].
    destruct (rng_acquire_ok (Z.to_nat (device_count s)) w0) as (r & w1 & E & Hinv & Hk & Hi & Hreg);
      [done..|]. rewrite (St_bind_ok _ _ _ _ _ E).
    destruct r as [r|].
    + erewrite St_bind_ok; cycle 1.
      { apply lift_ok, wr_insert. unfold len. rewrite ok_resources0.
        unfold MAX_HARDWARE_RNG_DEVICES in *. lia. }
      rewrite (St_bind_ok _ _ _ _ _ (kputs_ok _ w1)). eexists _, _, _. split; [reflexivity|].
      split; [apply random_ok_write|by left].
      split; cbn; rewrite ?length_insert, ?Hreg; [done|unfold MAX_HARDWARE_RNG_DEVICES in *; lia|lia|done| |done].
      intros i Hlt. destruct (decide (i = Z.to_nat (device_count s))) as [->|].
      * by apply Hi.
      * apply Hk, ok_ready0. lia.
    + rewrite (St_bind_ok _ _ _ _ _ (kputs_ok _ w1)). eexists _, s, _. split; [reflexivity|].
      split; [apply random_ok_write|by right].
      split; rewrite ?Hreg; [done..| |done]. intros i Hlt. by apply Hk, ok_ready0.
Qed.
End module.

(* ------------------------------------------------------------------ *)
(** ** Properties *)

(** C32: The generator never gets stuck: xorshift64 maps the nonzero 64-bit words to
    nonzero 64-bit words, and the seed made from any well-formed registry is one of
    them, so every state it reaches is. *)
Theorem prng_never_stuck r n : registry_wf r -> Forall device_ok (device_storage r) ->
  exists seed, prng_init r = Ok seed /\
    is_u64 (prng_after n seed) /\ prng_after n seed <> 0 /\
    (forall x, is_u64 x -> x <> 0 -> is_u64 (xorshift64 x) /\ xorshift64 x <> 0).
Proof.
  intros Hr Hd. destruct (prng_init_ok r Hr Hd) as (seed & E & Hs & _). exists seed.
  split; [done|]. destruct (prng_after_ok n seed Hs) as [? ?]. split_and!; [done..|].
  intros x Hx Hne. by apply (xorshift64_ok x).
Qed.

(** C31: random_get_bytes always delivers: for 1 to 2^31-1 bytes it returns their number,
    writes exactly them, and keeps the module's invariant.  With devices acquired
    they are asked in turn, and the bytes are the device's when it gave them all;
    in every other case they are the next outputs of the generator, little-endian,
    seeded at the first use. *)
Theorem random_get_bytes_correct {W} `{RngLaws W} s b o n (w : W) :
  random_ok s w -> 0 < n < 2 ^ 31 -> 0 <= o -> o + n <= len b ->
  exists x xs b' s' w', seeded s w x /\
    random_get_bytes s (Some (b, o)) n w = Ok (n, Some (b', o), s', w') /\
    len xs = n /\ store b o xs = Ok b' /\ random_ok s' w' /\ random_initialized s' = true /\
    (if 0 <? device_count s then
       let i := Z.to_nat (next_device_index s) in
       next_device_index s' = (next_device_index s + 1) mod device_count s /\
       ((exists w1, rng_read i b o n w = Ok (n, b', w1) /\ prng_state s' = x) \/
        (exists r b1 w1, rng_read i b o n w = Ok (r, b1, w1) /\ r <> n /\
           xs = prng_bytes n x /\ prng_state s' = prng_after (words_of n) x))
     else xs = prng_bytes n x /\ prng_state s' = prng_after (words_of n) x).
Proof.
  intros Hs Hn Ho Hl. destruct (seeding s w Hs) as (x & Hx & Hxo). pose proof (seed_step s w x Hx) as E. exists x.
  pose proof Hs as [Hr [Hc0 Hc4] [Hnx0 Hnx] Hinv Hready _].
  unfold random_get_bytes. destruct (Z.eqb_spec n 0); [lia|].
  rewrite (St_bind_ok _ _ _ _ _ E). cbn [device_count next_device_index set_seeded].
  destruct (Z.ltb_spec 0 (device_count s)) as [Hc|Hc].
  - pose proof (Z.mod_pos_bound (next_device_index s + 1) (device_count s) Hc) as Hmod.
    destruct (hardware_read_ok (set_next_index ((next_device_index s + 1) mod device_count s)
      (set_seeded x s)) (Z.to_nat (next_device_index s)) b o n w) as
      (xs & b' & s' & w' & Eh & Hxs & Hst & Hinv' & Hk & Hcase); [done..|apply Hready; lia|].
    rewrite (St_bind_ok _ _ _ _ _ Eh). exists xs, b', s', w'. split; [done|]. split; [done|].
    split; [done|]. split; [done|].
    assert (resources s' = resources s /\ device_count s' = device_count s /\
      next_device_index s' = (next_device_index s + 1) mod device_count s /\
      random_initialized s' = true /\ prng_ok (prng_state s')) as (R1 & R2 & R3 & R4 & R5).
    { destruct Hcase as [(w1 & _ & ->)|(r & b1 & w1 & _ & _ & _ & ->)]; cbn; split_and!; try done.
      by apply prng_after_ok. }
    split.
    { split; rewrite ?R1, ?R2, ?R3, ?R4; [done|lia|lia|done|by intros i Hi; apply Hk, Hready|done]. }
    split; [done|]. split; [done|].
    destruct Hcase as [(w1 & ? & ->)|(r & b1 & w1 & ? & ? & ? & ->)]; [left|right].
    + by exists w1.
    + by exists r, b1, w1.
  - destruct (fill_ok (set_seeded x s) b o n w) as (b' & Ef & Hst); [lia|done..|].
    rewrite (St_bind_ok _ _ _ _ _ Ef). rewrite to_int_id by lia.
    exists (prng_bytes n x), b'. eexists _, w. split; [done|]. split; [reflexivity|].
    split; [apply prng_bytes_len; lia|]. split; [done|]. split; [|done].
    split; cbn; [done|lia|lia|done|done|]. by apply prng_after_ok.
Qed.

(** ** A world with one device that never gives more than 4 bytes *)

Module random_sample.
#[local] Instance ops : RngDriver console := {
  rng_registry _ := registry_empty;
  rng_acquire _ := mret (Some O);
  rng_read _ b o n := lift (
    if n <=? 4 then b ← store b o (replicate (Z.to_nat n) 0xAA); mret (n, b) else mret (-1, b))
}.
Definition laws : RngLaws console.
Proof.
  refine {| rng_inv _ := True; rng_ready _ _ := True |}; try done.
  - intros i b o n w _ _ Ho Hn Hl. unfold rng_read, ops. destruct (n <=? 4).
    + destruct (store_in_range b o (replicate (Z.to_nat n) 0xAA)) as [b' E];
        [done|unfold len in *; rewrite length_replicate; lia|].
      exists n, (replicate (Z.to_nat n) 0xAA), b', w. split; [by rewrite E|].
      split; [unfold len; rewrite length_replicate; lia|done].
    + destruct (split_at b o n) as (h & m & t & -> & <- & <-); [lia..|].
      exists (-1), m, (h ++ m ++ t), w. split; [done|]. split; [done|]. split; [by apply store_ok|done].
  - intros i w. by exists (Some O), w.
Defined.
Definition state : random_state := RandomState [Some O; None; None; None] 1 0 false 0.
Definition world : console := ConsoleState [] log_empty.
Lemma state_ok : @random_ok console _ ops laws state world.
Proof.
  split; cbn; [done|unfold MAX_HARDWARE_RNG_DEVICES; lia|lia|done|done|]. split; [|constructor].
  split; cbn; [lia|done|]. intros i Hi. lia.
Qed.
End random_sample.

Lemma prng_never_stuck_witness :
  exists seed, prng_init sample_registry = Ok seed /\ prng_after 1000 seed <> 0.
Proof.
  destruct (prng_never_stuck sample_registry 1000) as (seed & E & _ & Hne & _).
  - split; cbn; [unfold Devices.MAX_DEVICES; lia|done|].
    intros [|[|[|[|i]]]] Hi; [by eexists..|lia].
  - repeat (apply Forall_cons; split; [by split|]). apply Forall_nil_2.
  - exists seed. exact (conj E Hne).
Defined.

Lemma random_get_bytes_correct_witness :
  exists b' s' w', @random_get_bytes console _ random_sample.ops random_sample.state
    (Some (replicate 16 0, 4)) 8 random_sample.world = Ok (8, Some (b', 4), s', w') /\
    random_initialized s' = true.
Proof.
  destruct (@random_get_bytes_correct console _ random_sample.ops random_sample.laws
    random_sample.state (replicate 16 0) 4 8 random_sample.world random_sample.state_ok)
    as (x & xs & b' & s' & w' & _ & E & _ & _ & _ & Hi & _);
    [split; reflexivity|discriminate|discriminate|].
  exists b', s', w'. split; [exact E|exact Hi].
Defined.
