(* ===== verification/RngStack.v ===== *)
(** The random numbers of apps/random over the resource manager, the entropy driver and
    its device: from the unallocated device to the bytes random_get_bytes delivers.

    The memory holds one driver context, the first of [rng_contexts]; the registry has
    one entropy device. *)

From S2P Require Export Random VirtioRngSession.

Open Scope Z_scope.

(** A store over a whole object. *)
Lemma store_all (b xs : bytes) : len b = len xs -> store b 0 xs = Ok xs.
Proof.
  intros Hl. pose proof (store_ok [] b [] xs (eq_sym Hl)) as E. by rewrite !app_nil_r in E.
Qed.

(** A store of some bytes is one of more bytes, the others as they were. *)
Lemma store_widen (b g b' : bytes) o size : store b o g = Ok b' -> len g <= size -> 0 <= o ->
  o + size <= len b -> exists xs, len xs = size /\ store b o xs = Ok b'.
Proof.
  intros (h & m & t & -> & Hh & Hm & ->)%store_inv Hg Ho Hl. rewrite !len_app in Hl.
  exists (g ++ take (Z.to_nat (size - len g)) t).
  assert (len (take (Z.to_nat (size - len g)) t) = size - len g) as Ht
    by (unfold len in *; rewrite length_take; lia).
  split; [rewrite len_app; lia|].
  rewrite <- (take_drop (Z.to_nat (size - len g)) t) at 1. rewrite (app_assoc m), <- Hh.
  rewrite store_ok by (rewrite !len_app; lia). by rewrite <- !app_assoc, take_drop.
Qed.

Section rng_stack.
  (** The context's address and the device, as in VirtioRng.v; the registry, its [n]
      devices, and the entropy device among them. *)
  Context (A : Z) (chunk : Z) (latency : nat) (B version qmax : Z) `{Arch}.
  Context (mem : memory) (devices : registry) (n device : nat).

(** The device with the driver's context, the resource manager, and the console. *)
Record world := World {
  w_machine : machine;
  w_manager : manager (W := machine) (C := nat);
  w_console : console
}.

(** The driver's record; it has the memory of its first context only. *)
Definition rng_drv : driver (W := machine) (C := nat) :=
  let drv := @virtio_rng_driver machine unit _ (device_bus B version qmax) (device_ctx A)
               (fun _ => devices) in
  Driver (drv_name drv) (drv_version drv) (drv_type drv) (id_table drv)
    ((fun init ctx i m => if decide (ctx = O) then init tt i m else UB) <$> init_context drv) None.

#[export] Instance rng_console : Console world := {
  con_write s w := World (w_machine w) (w_manager w) (con_write s (w_console w));
  con_log w := con_log (w_console w);
  con_set_log l w := World (w_machine w) (w_manager w) (con_set_log l (w_console w))
}.
#[export] Instance rng_console_laws : ConsoleLaws world.
Proof using.
  split; [done|..].
  - intros [m g [o l]]. unfold con_write. cbn. by rewrite app_nil_r.
  - intros s u [m g [o l]]. unfold con_write. cbn. by rewrite app_assoc.
Qed.

(** resource_acquire_available and virtio_rng_read on [rng_contexts[i]]. *)
#[export] Instance rng_ops : RngDriver world := {
  rng_registry _ := devices;
  rng_acquire i w :=
    '(h, g, m) ← resource_acquire_available mem (fun _ => devices) (Some rng_drv) (Some i)
                   (w_manager w) (w_machine w);
    Ok (h, World m g (w_console w));
  rng_read i b o size w :=
    if decide (i = O) then
      '(r, buffer, m) ← @virtio_rng_read machine unit _ (device_bus B version qmax)
                          (device_progress A chunk latency B qmax) (device_ctx A)
                          (Some tt) (Some (b, o)) size (w_machine w);
      match buffer with
      | Some (b, _) => Ok (r, b, World m (w_manager w) (w_console w))
      | None => UB
      end
    else UB
}.

(** One of the devices is for the driver, at [B]. *)
Record one_rng : Prop := OneRng {
  or_threaded : threaded (device_storage devices) n;
  or_count : (n <= Devices.MAX_DEVICES)%nat;
  or_device : (device < n)%nat;
  or_matches : forall i d, slot devices i = Ok d -> exists b,
    device_matches_driver mem d rng_drv = Ok b /\ (b = true <-> i = device);
  or_base : forall d, slot devices device = Ok d -> reg_base d = B
}.

  Hypothesis HB : if B <? 0x10000 then x86 = true /\ 0 <= B /\ B + 0x20 <= 0x10000 else B + 0x1000 <= 2 ^ 64.
  Hypothesis HA : 0 <= A /\ A + 0x4000 <= 2 ^ 44 /\ (4096 | A).
  Hypothesis Hver : is_u32 version.
  Hypothesis Hqmax : is_u16 qmax.
  Hypothesis Hone : one_rng.

(* ------------------------------------------------------------------ *)
(** ** Acquisition *)

(** Initialisation as the manager runs it. *)
Lemma run_init_ok m d : slot devices device = Ok d ->
  run_init rng_drv O device m = Ok (init_outcome A B version qmax m).
Proof using HA HB Hver Hqmax Hone.
  intros Hd. unfold run_init, rng_drv. cbn [init_context virtio_rng_driver fmap option_fmap option_map].
  rewrite decide_True by done. rewrite Hd. cbn [mbind res_bind].
  apply rng_init_ok; try done. by apply (or_base Hone).
Qed.

(** What holds while no device was granted. *)
Definition trying (e : bytes) (m : machine) : Prop :=
  blank latency m /\ entropy m = e /\
  (accepted B version qmax = true \/ initialized (m_rng m) = false).

Lemma drv_behaves e : well_behaved mem (fun _ => devices) rng_drv O n (trying e).
Proof using HA HB Hver Hqmax Hone.
  split.
  - intros m _. apply Hone.
  - intros m i d _ _ Hd. destruct (or_matches Hone i d Hd) as (b & Hb & _). by exists b.
  - intros init i d m Ei (Hb & He & Ht) Hi Hd Hm.
    destruct (or_matches Hone i d Hd) as (b & Hb' & Hbi). rewrite Hm in Hb'. injection Hb' as <-.
    assert (i = device) as -> by by apply Hbi.
    pose proof (run_init_ok m d Hd) as E. unfold run_init in E. rewrite Ei in E.
    destruct (outcome_blank A latency B version qmax m Hb) as [Hb1 He1].
    destruct (init_outcome A B version qmax m) as [z m1] eqn:Eo. exists z, m1. split; [done|].
    split; [exact Hb1|]. split; [cbn in He1; congruence|]. destruct Ht as [|Hi0]; [by left|].
    destruct (accepted B version qmax) eqn:Ea; [by left|right].
    destruct (refused_outcome A B version qmax m Ea) as (m2 & E2 & Hi2 & _). rewrite Eo in E2.
    injection E2 as -> ->. by rewrite Hi2.
Qed.

(** The states of manager and device: nothing granted yet, or the device granted to the
    first context and ready. *)
Definition boot_state (w : world) : Prop :=
  manager_wf (w_manager w) [] /\ blank latency (w_machine w) /\
  initialized (m_rng (w_machine w)) = false.
Definition granted_state (w : world) : Prop :=
  exists h, manager_wf (w_manager w) [h] /\ device_of (w_manager w) h = Some device /\
    idle latency (w_machine w).
Definition searches (w : world) : Prop := mgr_devices (w_manager w) = Some O.

Lemma search_list w : searches w -> mgr_devices (w_manager w) = (if (0 <? n)%nat then Some O else None).
Proof using Hone.
  intros ->. pose proof (or_device Hone). by destruct (Nat.ltb_spec 0 n); [|lia].
Qed.

Lemma acquire_again i w : searches w -> granted_state w -> rng_acquire i w = Ok (None, w).
Proof using Hone.
  intros Hs (h & Hwf & Hd & _). cbn [rng_acquire rng_ops].
  rewrite (acquire_taken mem (fun _ => devices) rng_drv i (w_manager w) [h] n (w_machine w));
    [by destruct w|done|apply Hone|by apply search_list|apply Hone|].
  intros j d _ Hj. destruct (or_matches Hone j d Hj) as (b & Hb & Hbj). exists b. split; [done|].
  intros Hbt. rewrite (proj1 Hbj Hbt). cbn. rewrite Hd. by apply list_elem_of_singleton.
Qed.

(** A device that is accepted is found; one that is refused is not. *)
Lemma pick_ok m o m' e : trying e m -> acquire_ref mem (fun _ => devices) rng_drv O [] (seq 0 n) m = Ok (o, m') ->
  if accepted B version qmax then o = Some device /\ entropy m' = e /\ idle latency m'
  else o = None /\ trying e m'.
Proof using HA HB Hver Hqmax Hone.
  intros Ht E. assert (Forall (fun j => j < n)%nat (seq 0 n)) as Hseq by (apply Forall_seq; lia).
  pose proof (drv_behaves e) as Hwb.
  destruct (acquire_ref_picks mem _ rng_drv O n _ [] Hwb _ _ _ _ Ht Hseq E) as [Ht' Hp].
  assert (forall i m1 z m2, trying e m1 -> (exists d, slot devices i = Ok d /\
      device_matches_driver mem d rng_drv = Ok true) -> run_init rng_drv O i m1 = Ok (z, m2) ->
    i = device /\ init_outcome A B version qmax m1 = (z, m2)) as Hrun.
  { intros i m1 z m2 _ (d & Hd & Hm) Er. destruct (or_matches Hone i d Hd) as (b & Hb & Hbi).
    rewrite Hm in Hb. injection Hb as <-. assert (i = device) as -> by by apply Hbi.
    rewrite (run_init_ok m1 d Hd) in Er. split; [done|]. by injection Er. }
  destruct (accepted B version qmax) eqn:Ha.
  - destruct o as [i|].
    + destruct Hp as (_ & m1 & d & Hm1 & Hd & Hm & Er).
      destruct (Hrun i m1 0 m' Hm1 (ex_intro _ d (conj Hd Hm)) Er) as [-> Eo].
      destruct (accepted_outcome A latency B version qmax HA m1 Ha) as (m2 & E2 & _ & He & _ & Hid).
      rewrite Eo in E2. injection E2 as <-. split; [done|]. destruct Hm1 as (Hb1 & <- & _).
      split; [done|by apply Hid].
    + exfalso. destruct (acquire_ref_succeeds mem _ rng_drv O n _ [] device Hwb) with
        (devs := seq 0 n) (w := m) as (j & m2 & E2); try done.
      * intros j d m1 z m2 Hm1 Hd Hm Er. destruct (Hrun j m1 z m2 Hm1 (ex_intro _ d (conj Hd Hm)) Er) as [_ Eo].
        destruct (accepted_outcome A latency B version qmax HA m1 Ha) as (m3 & E3 & _). congruence.
      * intros m1 d _ Hd. destruct (or_matches Hone device d Hd) as (b & Hb & Hbi).
        rewrite Hb. by rewrite (proj2 Hbi eq_refl).
      * apply not_elem_of_nil.
      * apply elem_of_seq. pose proof (or_device Hone). lia.
      * congruence.
  - destruct o as [i|]; [exfalso|done].
    destruct Hp as (_ & m1 & d & Hm1 & Hd & Hm & Er).
    destruct (Hrun i m1 0 m' Hm1 (ex_intro _ d (conj Hd Hm)) Er) as [-> Eo].
    destruct (refused_outcome A B version qmax m1 Ha) as (m2 & E2 & _). congruence.
Qed.

Lemma acquire_first w : searches w -> boot_state w ->
  exists r w', rng_acquire O w = Ok (r, w') /\ searches w' /\
    entropy (w_machine w') = entropy (w_machine w) /\ w_console w' = w_console w /\
    if accepted B version qmax then (exists h, r = Some h) /\ granted_state w'
    else r = None /\ boot_state w'.
Proof using HA HB Hver Hqmax Hone.
  intros Hs (Hwf & Hb & Hi). set (e := entropy (w_machine w)).
  assert (trying e (w_machine w)) as Ht by (split; [done|]; split; [done|by right]).
  destruct (acquire_available_spec mem (fun _ => devices) rng_drv O (w_manager w) (w_machine w) [] n
    (trying e) Hwf) as (o & m' & E & Ho);
    [cbn; unfold MAX_RESOURCE_ALLOCATIONS; lia|apply drv_behaves|done|apply Hone|by apply search_list|].
  pose proof (pick_ok _ _ _ e Ht E) as Hp. cbn [rng_acquire rng_ops].
  destruct (accepted B version qmax) eqn:Ea.
  - destruct Hp as (-> & He & Hid). destruct Ho as (_ & h & Hh & Hlt & ->).
    eexists (Some h), _. split; [reflexivity|]. split; [exact Hs|]. split; [done|]. split; [done|].
    split; [by exists h|]. exists h. split; [|split; [|done]]; cbn [w_manager].
    + apply granted_wf; [done..|apply not_elem_of_nil].
    + unfold device_of. cbn. by rewrite list_lookup_insert_eq.
  - destruct Hp as (-> & Hb' & He & [Ha|Hi']); [congruence|]. rewrite Ho.
    eexists None, _. split; [reflexivity|]. split; [exact Hs|]. split; [exact He|]. split; [done|]. split; [done|].
    split; [exact Hwf|]. by split.
Qed.

(* ------------------------------------------------------------------ *)
(** ** The contract *)

  Hypothesis Hchunk : 0 <= chunk.
  Hypothesis Hlatency : (latency < Z.to_nat POLL_LIMIT)%nat.
  Hypothesis Hentries : queue_entries B qmax = VIRTIO_RNG_QUEUE_SIZE.

(** A read takes what the device gives for it. *)
Definition taken (size : Z) (e : bytes) : nat :=
  Z.to_nat (Z.min (Z.min size sizeof_buffer) (Z.min chunk (len e))).

Lemma rng_read_spec b o size w : granted_state w -> 0 < size -> 0 <= o -> o + size <= len b ->
  let e := entropy (w_machine w) in
  exists b' m', rng_read O b o size w = Ok (Z.of_nat (taken size e), b', World m' (w_manager w) (w_console w)) /\
    store b o (take (taken size e) e) = Ok b' /\ entropy m' = drop (taken size e) e /\ idle latency m'.
Proof using Hchunk Hlatency Hentries.
  intros (h & _ & _ & Hid) Hs Ho Hb e.
  pose proof (read_outcome A chunk latency B version qmax Hchunk Hentries (w_machine w) b o size Hid Hs Ho) as Hr.
  destruct (Nat.ltb_spec latency (Z.to_nat POLL_LIMIT)); [|lia].
  destruct Hr as (b' & m' & E & Hst & He & Hid' & _); [unfold sizeof_buffer; lia|].
  exists b', m'. cbn [rng_read rng_ops]. rewrite decide_True by done. rewrite E. cbn [mbind res_bind].
  unfold granted in *. fold e in Hst, He |- *. split; [|done].
  do 3 f_equal. unfold taken, sizeof_buffer. pose proof (len_nonneg e). lia.
Qed.

(** Nothing granted, or the first context granted and ready. *)
Definition stack_inv (w : world) : Prop := searches w /\ (boot_state w \/ granted_state w).
Definition stack_ready (i : nat) (w : world) : Prop := i = O /\ granted_state w.

#[export] Instance rng_stack_laws : RngLaws world.
Proof using HA HB Hver Hqmax Hone Hchunk Hlatency Hentries.
  refine {| rng_inv := stack_inv; rng_ready := stack_ready |}; try done.
  - intros i b o size w [Hs _] [-> Hg] Ho Hn Hl.
    destruct (rng_read_spec b o size w Hg Hn Ho Hl) as (b' & m' & E & Hst & _ & Hid).
    destruct (store_widen _ _ _ o size Hst) as (xs & Hxs & Hst');
      [|done|done|].
    { unfold taken, len, sizeof_buffer. rewrite length_take.
      pose proof (len_nonneg (entropy (w_machine w))). lia. }
    eexists _, xs, b', _. split; [exact E|]. split; [done|]. split; [done|].
    destruct Hg as (h & Hwf & Hd & _).
    assert (granted_state (World m' (w_manager w) (w_console w))) by by exists h.
    split; [split; [done|by right]|]. by intros j [-> _].
  - intros i w [Hs [Hboot|Hg]] Hj.
    + destruct i as [|i].
      2:{ destruct (Hj O) as (_ & h & _ & _ & Hid); [lia|]. exfalso.
          pose proof (idle_init _ _ Hid). destruct Hboot as (_ & _ & ?). congruence. }
      destruct (acquire_first w Hs Hboot) as (r & w' & E & Hs' & _ & _ & Hr).
      exists r, w'. split; [done|].
      assert (forall j, stack_ready j w -> stack_ready j w') as Hk.
      { intros j (_ & h & _ & _ & Hid). exfalso.
        pose proof (idle_init _ _ Hid). destruct Hboot as (_ & _ & ?). congruence. }
      destruct (accepted B version qmax); destruct Hr as [Hr Hst].
      * split; [split; [done|by right]|]. split; [done|]. by split.
      * split; [split; [done|by left]|]. split; [done|]. split; [|done]. intros Hne. by subst.
    + exists None, w. split; [by apply acquire_again|]. split; [split; [done|by right]|]. by split.
Qed.

(* ------------------------------------------------------------------ *)
(** ** The calls of the application *)

(** random_hardware_init, and random_get_bytes into a zeroed buffer of [size] bytes. *)
Inductive request := Acquire | Get (size : Z).
Definition request_ok (q : request) : Prop :=
  match q with Acquire => True | Get size => 0 < size < 2 ^ 31 end.

Definition serve (q : request) (s : random_state) : St world (Z * bytes * random_state) :=
  match q with
  | Acquire => '(r, s) ← random_hardware_init s; mret (r, [], s)
  | Get size =>
      '(r, buffer, s) ← random_get_bytes s (Some (replicate (Z.to_nat size) 0, 0)) size;
      mret (r, match buffer with Some (b, _) => b | None => [] end, s)
  end.
Fixpoint serves (qs : list request) (s : random_state) : St world (list (Z * bytes) * random_state) :=
  match qs with
  | [] => mret ([], s)
  | q :: qs =>
      '(r, b, s) ← serve q s;
      '(out, s) ← serves qs s;
      mret ((r, b) :: out, s)
  end.

(** What they promise, with a device that works or not ([works]): whether the device is
    acquired, the bytes it has left, and the state of the generator. *)
Record supply := Supply { s_acquired : bool; s_entropy : bytes; s_state : Z }.

Definition answer (works : bool) (q : request) (u : supply) : Z * bytes * supply :=
  let '(Supply acquired e x) := u in
  match q with
  | Acquire =>
      if works && negb acquired then (0, [], Supply true e x) else (-1, [], Supply acquired e x)
  | Get size =>
      let k := if acquired then taken size e else O in
      if Z.of_nat k =? size then (size, take k e, Supply acquired (drop k e) x)
      else (size, prng_bytes size x, Supply acquired (drop k e) (prng_after (words_of size) x))
  end.
Fixpoint answers (works : bool) (qs : list request) (u : supply) : list (Z * bytes) * supply :=
  match qs with
  | [] => ([], u)
  | q :: qs =>
      let '(r, b, u) := answer works q u in
      let '(out, u) := answers works qs u in ((r, b) :: out, u)
  end.

(** The application's and the stack's state, and what it stands for. *)
Record supplies (s : random_state) (w : world) (u : supply) : Prop := Supplies {
  su_searches : searches w;
  su_resources : length (resources s) = 4%nat;
  su_count : device_count s = if s_acquired u then 1 else 0;
  su_next : next_device_index s = 0;
  su_state : if s_acquired u then granted_state w else boot_state w;
  su_entropy : entropy (w_machine w) = s_entropy u;
  su_seed : seeded s w (s_state u)
}.

Lemma acquire_answer s w u : supplies s w u -> exists s' w',
  let '(r, b, u') := answer (accepted B version qmax) Acquire u in
  random_hardware_init s w = Ok (r, s', w') /\ b = [] /\ supplies s' w' u'.
Proof using HA HB Hver Hqmax Hone Hlatency.
  destruct u as [acquired e x]. intros [Hs Hr Hc Hn Hst He Hx].
  cbn [answer s_acquired s_entropy s_state] in *. unfold random_hardware_init. rewrite Hc.
  destruct (Z.leb_spec MAX_HARDWARE_RNG_DEVICES (if acquired then 1 else 0)) as [Hbad|_];
    [by destruct acquired|].
  rewrite (St_bind_ok _ _ _ _ _ (kputs_ok _ w)). set (w0 := con_write _ w).
  destruct acquired.
  - rewrite andb_false_r. rewrite (St_bind_ok _ _ _ _ _ (acquire_again _ w0 Hs Hst)).
    exists s. eexists. split; [reflexivity|]. by split.
  - destruct (acquire_first w0 Hs Hst) as (r & w1 & E & Hs1 & He1 & _ & Hr1).
    change (Z.to_nat (if false then 1 else 0)) with O.
    rewrite (St_bind_ok _ _ _ _ _ E). destruct (accepted B version qmax); destruct Hr1 as [Hr1 Hst1].
    + destruct Hr1 as [h ->]. cbn [andb negb].
      erewrite St_bind_ok; cycle 1.
      { apply lift_ok, wr_insert. unfold len. rewrite Hr. lia. }
      eexists _, _. split; [reflexivity|]. split; [done|]. split; cbn; rewrite ?length_insert; first [done|by rewrite He1].
    + subst r. cbn [andb]. eexists s, _. split; [reflexivity|]. split; [done|]. split; cbn; first [done|by rewrite He1].
Qed.

Lemma zeroed_len size : 0 <= size -> len (replicate (Z.to_nat size) 0) = size.
Proof using. clear. intros. unfold len. rewrite length_replicate. lia. Qed.

(** A read through the application: the device's bytes, or the generator's. *)
Lemma hardware_answer s w size : granted_state w -> 0 < size < 2 ^ 31 ->
  let e := entropy (w_machine w) in
  let '(b, s') := if Z.of_nat (taken size e) =? size then (take (taken size e) e, s)
                  else (prng_bytes size (prng_state s), set_prng (prng_after (words_of size) (prng_state s)) s) in
  exists w', hardware_read_bytes s (Some O) (replicate (Z.to_nat size) 0) 0 size w = Ok (size, b, s', w') /\
    granted_state w' /\ w_manager w' = w_manager w /\ entropy (w_machine w') = drop (taken size e) e.
Proof using Hchunk Hlatency Hentries.
  intros Hg Hn e. pose proof (zeroed_len size ltac:(lia)) as Hl. unfold hardware_read_bytes.
  destruct (rng_read_spec (replicate (Z.to_nat size) 0) 0 size w Hg) as (b1 & m1 & E & Hb1 & He1 & Hid); [lia..|].
  fold e in E, Hb1, He1. set (w1 := World m1 (w_manager w) (w_console w)) in *.
  assert (granted_state w1) as Hg1 by (destruct Hg as (h & Hm & Hh & _); exists h; exact (conj Hm (conj Hh Hid))).
  rewrite (St_bind_ok _ _ _ _ _ E), to_int_id by lia.
  destruct (Z.eqb_spec (Z.of_nat (taken size e)) size) as [Hk|Hk].
  - exists w1. split; [|done]. rewrite store_all in Hb1; [injection Hb1 as Hb1; by rewrite Hk, Hb1|].
    rewrite Hl. unfold taken, len in *. rewrite length_take. lia.
  - rewrite (St_bind_ok _ _ _ _ _ (kputs_ok _ w1)). set (w2 := con_write _ w1).
    pose proof (store_len _ _ _ _ Hb1) as Hl1.
    destruct (fill_ok s b1 0 size w2) as (b2 & Ef & Hb2); [lia..|]. rewrite (St_bind_ok _ _ _ _ _ Ef).
    rewrite store_all in Hb2 by (rewrite prng_bytes_len; lia). injection Hb2 as <-.
    by exists w2.
Qed.

Lemma get_answer s w u size : 0 < size < 2 ^ 31 -> supplies s w u -> exists s' w',
  let '(r, b, u') := answer (accepted B version qmax) (Get size) u in
  random_get_bytes s (Some (replicate (Z.to_nat size) 0, 0)) size w = Ok (r, Some (b, 0), s', w') /\
  supplies s' w' u'.
Proof using Hchunk Hlatency Hentries.
  intros Hn0. destruct u as [acquired e x]. intros [Hs Hr Hc Hn Hst He Hx].
  cbn [answer s_acquired s_entropy s_state] in *. unfold random_get_bytes.
  destruct (Z.eqb_spec size 0); [lia|]. rewrite (St_bind_ok _ _ _ _ _ (seed_step s w x Hx)).
  cbn [device_count next_device_index set_seeded]. rewrite Hc, Hn.
  destruct acquired; cbn [Z.ltb Z.compare].
  - change (Z.to_nat 0) with O. change ((0 + 1) mod 1) with 0.
    pose proof (hardware_answer (set_next_index 0 (set_seeded x s)) w size Hst Hn0) as Ha.
    cbv zeta in Ha. rewrite He in Ha. cbn [prng_state set_next_index set_seeded] in Ha.
    destruct (Z.eqb_spec (Z.of_nat (taken size e)) size) as [Hk|Hk]; destruct Ha as (w' & E & Hg & Em & Ee);
      rewrite (St_bind_ok _ _ _ _ _ E); eexists _, _; (split; [reflexivity|]);
      split; try done; unfold searches; by rewrite Em.
  - destruct (Z.eqb_spec (Z.of_nat 0) size); [lia|].
    destruct (fill_ok (set_seeded x s) (replicate (Z.to_nat size) 0) 0 size w) as (b & Ef & Hb);
      [lia..|by rewrite zeroed_len; lia|].
    rewrite (St_bind_ok _ _ _ _ _ Ef), to_int_id by lia.
    rewrite store_all in Hb by (rewrite prng_bytes_len, zeroed_len; lia). injection Hb as <-.
    eexists _, _. split; [reflexivity|]. by split.
Qed.

Lemma serve_answer s w u q : request_ok q -> supplies s w u -> exists s' w',
  let '(r, b, u') := answer (accepted B version qmax) q u in
  serve q s w = Ok (r, b, s', w') /\ supplies s' w' u'.
Proof using HA HB Hver Hqmax Hone Hchunk Hlatency Hentries.
  intros Hq Hsu. destruct q as [|size].
  - destruct (acquire_answer s w u Hsu) as (s' & w' & E). exists s', w'.
    destruct (answer _ Acquire u) as [[r b] u']. destruct E as (E & -> & Hsu'). split; [|done].
    cbn [serve]. by rewrite (St_bind_ok _ _ _ _ _ E).
  - destruct (get_answer s w u size Hq Hsu) as (s' & w' & E). exists s', w'.
    destruct (answer _ (Get size) u) as [[r b] u']. destruct E as [E Hsu']. split; [|done].
    cbn [serve]. by rewrite (St_bind_ok _ _ _ _ _ E).
Qed.

Lemma serves_answers qs : Forall request_ok qs -> forall s w u, supplies s w u -> exists s' w',
  let '(out, u') := answers (accepted B version qmax) qs u in
  serves qs s w = Ok (out, s', w') /\ supplies s' w' u'.
Proof using HA HB Hver Hqmax Hone Hchunk Hlatency Hentries.
  induction 1 as [|q qs Hq _ IH]; intros s w u Hsu; [by exists s, w|].
  destruct (serve_answer s w u q Hq Hsu) as (s1 & w1 & E). cbn [answers serves].
  destruct (answer _ q u) as [[r b] u1]. destruct E as [E Hsu1]. rewrite (St_bind_ok _ _ _ _ _ E).
  destruct (IH s1 w1 u1 Hsu1) as (s2 & w2 & E2). exists s2, w2.
  destruct (answers _ qs u1) as [out u2]. destruct E2 as [E2 Hsu2].
  by rewrite (St_bind_ok _ _ _ _ _ E2).
Qed.

(** C5: Random numbers end to end, from the unallocated device to the caller's bytes, with a
    device that answers within the driver's polling limit and whose queue, once set up, has
    the driver's 8 entries: for any sequence of calls of random_hardware_init and of
    random_get_bytes for 1 to 2^31-1 bytes, random_hardware_init acquires the registry's
    entropy device through the resource manager the first time, if the device is one the
    driver accepts, and returns -1 otherwise; random_get_bytes always returns the number
    of bytes asked for, which are the device's next bytes when the device is acquired and
    gives them all at once (at most 64, the driver's buffer), and else the next outputs of
    the generator, seeded from the registry; bytes of a short read are lost. *)
Theorem random_supply w qs :
  mgr_devices (w_manager w) = Some O -> manager_wf (w_manager w) [] ->
  blank latency (w_machine w) -> initialized (m_rng (w_machine w)) = false ->
  registry_wf devices -> Forall device_ok (device_storage devices) -> Forall request_ok qs ->
  exists seed s' w', prng_init devices = Ok seed /\
    let '(out, u) := answers (accepted B version qmax) qs (Supply false (entropy (w_machine w)) seed) in
    serves qs random_state_zero w = Ok (out, s', w') /\ supplies s' w' u.
Proof using HA HB Hver Hqmax Hone Hchunk Hlatency Hentries.
  intros Hs Hwf Hb Hi Hr Hd Hq. destruct (prng_init_ok devices Hr Hd) as (seed & E & _). exists seed.
  destruct (serves_answers qs Hq random_state_zero w (Supply false (entropy (w_machine w)) seed))
    as (s' & w' & E'); [by split|]. by exists s', w'.
Qed.
End rng_stack.

(** ** A board with a network card and an entropy device *)

Module supply_sample.
Definition devices : registry :=
  match add_all [set_ids (sample_device 0 1) 0x1AF4 0x1000;
                 set_reg (set_ids (sample_device 0 2) VIRTIO_VENDOR_ID VIRTIO_RNG_DEVICE_ID) rng_sample.B 0x1000]
          registry_empty with Ok r => r | _ => registry_empty end.
Definition start : world :=
  World rng_sample.start (resources_set_devices manager_empty (Some O)) (ConsoleState [] log_empty).
Definition requests : list request := [Get 2; Acquire; Get 3; Get 5; Acquire; Get 65].

Lemma slot_cases i d : slot devices i = Ok d ->
  (i = O /\ slot devices 0 = Ok d) \/ (i = 1%nat /\ slot devices 1 = Ok d).
Proof. destruct i as [|[|i]]; [by left|by right|done]. Qed.

Lemma devices_wf : registry_wf devices.
Proof. split; cbn; [unfold Devices.MAX_DEVICES; lia|done|]. intros [|[|i]] Hi; [by eexists..|lia]. Qed.

Lemma devices_one : one_rng rng_sample.A rng_sample.B 1 8 (H := RISCV) (fun _ => None) devices 2 1.
Proof.
  split.
  - apply devices_wf.
  - unfold Devices.MAX_DEVICES. lia.
  - lia.
  - intros i d [[-> Hd]|[-> Hd]]%slot_cases; vm_compute in Hd; injection Hd as <-; eexists; by split.
  - intros d [[? _]|[_ Hd]]%slot_cases; [done|]. by injection Hd as <-.
Qed.
End supply_sample.

Lemma random_supply_witness :
  let _ : Arch := RISCV in
  exists seed s' w', prng_init supply_sample.devices = Ok seed /\
    serves rng_sample.A 4 3 rng_sample.B 1 8 (fun _ => None) supply_sample.devices
      supply_sample.requests random_state_zero supply_sample.start
    = Ok ([(2, prng_bytes 2 seed); (0, []); (3, [11; 22; 33]); (5, prng_bytes 5 (prng_after 1 seed));
           (-1, []); (65, prng_bytes 65 (prng_after 1 (prng_after 1 seed)))], s', w').
Proof.
  intros arch.
  destruct (@random_supply rng_sample.A 4 3 rng_sample.B 1 8 RISCV (fun _ => None) supply_sample.devices 2 1
    ltac:(discriminate) rng_sample.rng_A_ok ltac:(done) ltac:(done) supply_sample.devices_one
    ltac:(discriminate) ltac:(apply Nat.ltb_lt; reflexivity) eq_refl supply_sample.start supply_sample.requests)
    as (seed & s' & w' & Es & E).
  - reflexivity.
  - apply fresh_wf.
  - apply rng_sample.start_blank.
  - reflexivity.
  - apply supply_sample.devices_wf.
  - by repeat constructor.
  - by repeat constructor.
  - exists seed, s', w'. split; [exact Es|].
    change (accepted rng_sample.B 1 8) with true in E.
    change (entropy (w_machine supply_sample.start)) with [11; 22; 33; 44; 55; 66; 77] in E.
    destruct (answers _ _ _ _) as [out u] eqn:Ea. apply proj1 in E.
    cbv -[prng_bytes prng_after words_of] in Ea.
    change (words_of 2) with 1%nat in Ea. change (words_of 5) with 1%nat in Ea.
    apply (f_equal fst) in Ea. cbn [fst] in Ea.
    rewrite <- Ea in E. exact E.
Defined.
