(* ===== verification/InitApps.v ===== *)
(** Starting the applications the kernel command line names (kernel/init_apps.c). *)

From S2P Require Export Random PacketPrint ArpBroadcast.

Open Scope Z_scope.

(* ------------------------------------------------------------------ *)
(** ** Parameters of the command line *)

(** Each round passes a character, so the length is enough fuel. *)
Fixpoint find_param_loop (fuel : nat) (pos param : cstr) : res (option cstr) :=
  match fuel with
  | O => NoFuel
  | S fuel =>
      if deref pos =? 0 then Ok None else
      let pos := skip_ws pos in
      let param_len := strlen param in
      let next := ch pos param_len in
      if (strncmp pos param param_len =? 0)
         && ((next =? 61) || (next =? 0) || (next =? 32) || (next =? 9))
      then Ok (Some pos)
      else find_param_loop fuel (skip_token pos) param
  end.
Definition find_param (cmdline : option cstr) (param : cstr) : res (option cstr) :=
  match cmdline with
  | None => Ok None
  | Some pos => find_param_loop (S (length pos)) pos param
  end.

Definition find_next_param (start : option cstr) (param : cstr) : res (option cstr) :=
  match start with
  | None => Ok None
  | Some pos => find_param (Some (skip_token pos)) param
  end.

(** The scan for '=' is the one over names in log.c. *)
Definition param_has_value (param_pos : option cstr) (value : cstr) : bool :=
  match param_pos with
  | None => false
  | Some pos =>
      let pos := drop (name_scan pos) pos in
      if negb (deref pos =? 61) then false else
      let pos := drop 1 pos in
      let next_char := ch pos (strlen value) in
      (strncmp pos value (strlen value) =? 0)
      && ((next_char =? 0) || (next_char =? 32) || (next_char =? 9))
  end.

(* ------------------------------------------------------------------ *)
(** ** The applications *)

Inductive application :=
  | ILLEGAL_INSTRUCTION | RANDOM_SOFTWARE | RANDOM_HARDWARE
  | MAC_VIRTIO_NET | MAC_E1000 | MAC_RTL8139 | MAC_ALL
  | ARP_BROADCAST | PACKET_PRINT | HTTP_HELLO.

#[export] Instance application_eq_dec : EqDecision application.
Proof. solve_decision. Defined.

Definition app_name (a : application) : cstr := str
  match a with
  | ILLEGAL_INSTRUCTION => "illegal-instruction"
  | RANDOM_SOFTWARE => "random-software"
  | RANDOM_HARDWARE => "random-hardware"
  | MAC_VIRTIO_NET => "mac-virtio-net"
  | MAC_E1000 => "mac-e1000"
  | MAC_RTL8139 => "mac-rtl8139"
  | MAC_ALL => "mac-all"
  | ARP_BROADCAST => "arp-broadcast"
  | PACKET_PRINT => "packet-print"
  | HTTP_HELLO => "http-hello"
  end.

(** The order of the checks. *)
Definition all_apps : list application :=
  [ILLEGAL_INSTRUCTION; RANDOM_SOFTWARE; RANDOM_HARDWARE; MAC_VIRTIO_NET; MAC_E1000; MAC_RTL8139;
   MAC_ALL; ARP_BROADCAST; PACKET_PRINT; HTTP_HELLO].

(** The static variables of the applications. *)
Record app_statics := AppStatics {
  as_random : random_state;
  as_net : net_statics;
  as_mac : mac_statics;
  as_isn : Z
}.
Definition app_statics_zero (isn : Z) : app_statics :=
  AppStatics random_state_zero net_statics_zero mac_statics_zero isn.
Definition set_random (r : random_state) (s : app_statics) : app_statics :=
  AppStatics r (as_net s) (as_mac s) (as_isn s).
Definition set_net (n : net_statics) (s : app_statics) : app_statics :=
  AppStatics (as_random s) n (as_mac s) (as_isn s).
Definition set_mac_counts (m : mac_statics) (s : app_statics) : app_statics :=
  AppStatics (as_random s) (as_net s) m (as_isn s).

(** What executing an undefined instruction does: the processor enters the platform's
    exception handler, which is followed for [n] rounds of the loop it ends in. *)
Class IllegalInstruction (W : Type) := app_illegal_instruction : nat -> St W unit.

Section init_apps.
  Context {W : Type} `{Arch} `{Console W} `{NetDriver W} `{RngDriver W} `{IllegalInstruction W}.
  (** The iterations the network applications are followed for. *)
  Context (n : nat).

(** The bytes of the random buffer, printed when there are any. *)
Definition print_random (init_log : tag_ptr) (title : string) (result : Z)
    (buffer : option (bytes * Z)) : St W unit :=
  let b := match buffer with Some (b, _) => b | None => [] end in
  when (0 <? result)
    (info ← klog_enabled init_log LOG_INFO;
     when info
       (_ ← klog_prefix init_log LOG_INFO;
        kput (puts (str title)
              +++ for_n (Z.to_nat result) (fun i acc =>
                    v ← rd b (Z.of_nat i); mret (acc ++ put_hex8 v ++ str " ")) []
              +++ puts nl)%out)).

(** One application; [false] when it has not returned: it halted the machine or is
    still running. *)
Definition run_app (init_log : tag_ptr) (a : application) (s : app_statics) : St W (bool * app_statics) :=
  match a with
  | ILLEGAL_INSTRUCTION => _ ← app_illegal_instruction n; mret (false, s)
  | RANDOM_SOFTWARE =>
      '(result, buffer, r) ← random_get_bytes (as_random s) (Some (replicate 8 0, 0)) 8;
      _ ← print_random init_log "Random (software): " result buffer;
      mret (true, set_random r s)
  | RANDOM_HARDWARE =>
      '(hw_result, r) ← random_hardware_init (as_random s);
      '(result, buffer, r) ← random_get_bytes r (Some (replicate 8 0, 0)) 8;
      _ ← print_random init_log
            (if hw_result =? 0 then "Random (hardware): " else "Random (software): ") result buffer;
      mret (true, set_random r s)
  | MAC_VIRTIO_NET => m ← app_mac_virtio_net (as_mac s); mret (true, set_mac_counts m s)
  | MAC_E1000 => m ← app_mac_e1000 (as_mac s); mret (true, set_mac_counts m s)
  | MAC_RTL8139 => m ← app_mac_rtl8139 (as_mac s); mret (true, set_mac_counts m s)
  | MAC_ALL => st ← app_mac_all (as_net s); mret (true, set_net st s)
  | ARP_BROADCAST => st ← app_arp_broadcast (as_net s); mret (true, set_net st s)
  | PACKET_PRINT => '(returned, st) ← app_packet_print n (as_net s); mret (returned, set_net st s)
  | HTTP_HELLO =>
      '(running, st) ← app_http_hello n (as_net s) (as_isn s);
      mret (bool_decide (running = None), set_net st s)
  end.

(** The checks of one parameter, each followed by its application. *)
Fixpoint run_checks (init_log : tag_ptr) (apps : list application) (app_param : option cstr)
    (s : app_statics) : St W (bool * app_statics) :=
  match apps with
  | [] => mret (true, s)
  | a :: apps =>
      if param_has_value app_param (app_name a) then
        '(returned, s) ← run_app init_log a s;
        if (returned : bool) then run_checks init_log apps app_param s else mret (false, s)
      else run_checks init_log apps app_param s
  end.

Fixpoint app_loop (fuel : nat) (init_log : tag_ptr) (app_param : option cstr) (s : app_statics)
    : St W (bool * app_statics) :=
  match app_param with
  | None => mret (true, s)
  | Some _ =>
      match fuel with
      | O => lift NoFuel
      | S fuel =>
          '(returned, s) ← run_checks init_log all_apps app_param s;
          if (returned : bool) then
            next ← lift (find_next_param app_param (str "app"));
            app_loop fuel init_log next s
          else mret (false, s)
      end
  end.

Definition init_apps (cmdline : option cstr) (s : app_statics) : St W (bool * app_statics) :=
  init_log ← klog_register "init" LOG_INFO;
  match cmdline with
  | None => mret (true, s)
  | Some c =>
      app_param ← lift (find_param cmdline (str "app"));
      app_loop (S (length c)) init_log app_param s
  end.
End init_apps.

(* ------------------------------------------------------------------ *)
(** ** Specification *)

(** The application a token of the command line names. *)
Definition app_of (tok : cstr) : option application :=
  snd <$> list_find (fun a => tok = str "app=" ++ app_name a) all_apps.
Definition apps_named (cmdline : cstr) : list application := omap app_of (tokens cmdline).

(* ------------------------------------------------------------------ *)
(** ** Lemmas: scanning *)

(** Tokens that find_param stops at. *)
Definition is_param (param tok : cstr) : Prop :=
  exists t, tok = param ++ t /\ (t = [] \/ exists v, t = 61 :: v).

#[local] Instance is_param_dec param tok : Decision (is_param param tok).
Proof.
  refine (cast_if (decide (tok = param ++ drop (length param) tok /\
    (drop (length param) tok = [] \/ head (drop (length param) tok) = Some 61)))).
  - destruct a as [E Ht]. exists (drop (length param) tok). split; [done|].
    destruct Ht as [->|Ht]; [by left|right]. destruct (drop (length param) tok) as [|c v]; [done|].
    injection Ht as ->. by exists v.
  - intros (t & -> & Ht). destruct n. rewrite drop_app_length. split; [done|].
    destruct Ht as [->|[v ->]]; auto.
Defined.

Lemma plain_app a b : plain (a ++ b) <-> plain a /\ plain b.
Proof. apply Forall_app. Qed.

(** What follows a token's prefix. *)
Lemma ch_app_r (a b : cstr) : ch (a ++ b) (length a) = deref b.
Proof. unfold ch. rewrite lookup_app_r, Nat.sub_diag by lia. by destruct b. Qed.

Lemma deref_break s : at_break s -> deref s = 0 \/ deref s = 32 \/ deref s = 9.
Proof.
  intros [?|Hw]%at_break_deref; [by left|]. unfold is_ws in Hw. apply orb_true_iff in Hw. lia.
Qed.

(** The test of find_param at the start of a token. *)
Lemma param_test param tok rest : plain param -> plain tok -> at_break rest -> no_nul rest ->
  let next := ch (tok ++ rest) (strlen param) in
  ((strncmp (tok ++ rest) param (strlen param) =? 0)
   && ((next =? 61) || (next =? 0) || (next =? 32) || (next =? 9)))
  = bool_decide (is_param param tok).
Proof.
  intros Hp Ht Hr Hn next. subst next. rewrite strlen_no_nul by by apply plain_no_nul.
  rewrite strncmp_lit by done. case_bool_decide as Htake; cbn [andb].
  2:{ rewrite bool_decide_false; [done|]. intros (t & -> & _). apply Htake. apply take_app_length. }
  rewrite <- (take_drop (length param) tok), Htake in Ht |- *.
  set (t := drop (length param) tok) in *. rewrite <- app_assoc, ch_app_r.
  apply plain_app in Ht as [_ Ht]. destruct t as [|c t]; cbn [app].
  - rewrite bool_decide_true by (exists []; auto).
    destruct (deref_break rest Hr) as [->|[->| ->]]; done.
  - cbn [deref]. inversion_clear Ht as [|? ? [Hc Hw] _]. apply orb_false_iff in Hw as [H1 H2].
    rewrite H1, H2. destruct (Z.eqb_spec c 0); [done|]. cbn [orb]. rewrite !orb_false_r.
    destruct (Z.eqb_spec c 61) as [->|Hne].
    + rewrite bool_decide_true; [done|]. exists (61 :: t). eauto.
    + rewrite bool_decide_false; [done|]. intros (u & E & Hu). apply app_inv_head in E as <-.
      destruct Hu as [[=]|[v [= ? ?]]]. done.
Qed.

(** What find_param returns: the first such token, in what is left of the line. *)
Inductive found (param s : cstr) : option cstr -> Prop :=
  | found_none : Forall (fun tok => ~ is_param param tok) (tokens s) -> found param s None
  | found_at pre tok rest :
      tokens s = pre ++ tok :: tokens rest -> Forall (fun tok => ~ is_param param tok) pre ->
      is_param param tok -> plain tok -> at_break rest -> no_nul rest ->
      (length rest < length s)%nat -> found param s (Some (tok ++ rest)).

Lemma find_param_loop_spec param fuel : forall s, no_nul s -> plain param -> param <> [] ->
  (length s < fuel)%nat -> exists o, find_param_loop fuel s param = Ok o /\ found param s o.
Proof.
  induction fuel as [|fuel IH]; intros s Hs Hp Hne Hf; [lia|]. cbn [find_param_loop].
  destruct s as [|c0 s0]; [exists None; split; [done|]; by constructor|].
  assert (deref (c0 :: s0) =? 0 = false) as -> by (inversion_clear Hs; by apply Z.eqb_neq).
  set (s := c0 :: s0) in *. destruct (skip_ws_props s Hs) as (Hs' & Hlen & Htok & Hhead).
  destruct (split_token (skip_ws s) Hs') as (tok & rest & E & Ht & Hr & Hn). rewrite E in *.
  rewrite param_test by done. destruct tok as [|c tok].
  - assert (rest = []) as -> by (destruct rest as [|c rest]; [done|]; cbn in Hr, Hhead; congruence).
    rewrite bool_decide_false by (intros (t & Et & _); destruct param; done). cbn [app skip_token].
    destruct fuel as [|fuel]; [cbn in Hf; lia|]. exists None. split; [done|]. constructor.
    rewrite Htok. constructor.
  - assert (tokens s = (c :: tok) :: tokens rest) as Hts.
    { rewrite Htok. apply (tokens_from_app (c :: tok) [] rest); [done|done|by left]. }
    assert (length rest < length s)%nat as Hlr by (rewrite length_app in Hlen; cbn [length] in *; lia).
    case_bool_decide as Hd.
    + eexists. split; [done|]. by apply (found_at param s [] (c :: tok) rest).
    + rewrite skip_token_app by done. destruct (IH rest Hn Hp Hne) as (o & E2 & Ho); [lia|].
      exists o. split; [done|]. destruct Ho as [Hno|pre tok' rest' Hts' Hpre Hpar Ht' Hr' Hn' Hl'].
      * constructor. rewrite Hts. by constructor.
      * apply (found_at param s ((c :: tok) :: pre) tok' rest'); try done; [|by constructor|lia].
        by rewrite Hts, Hts'.
Qed.

(** The value of a parameter. *)
Lemma param_value tok rest param v :
  plain tok -> at_break rest -> no_nul rest -> plain v -> Forall (fun c => c <> 61) param ->
  is_param param tok ->
  param_has_value (Some (tok ++ rest)) v = bool_decide (tok = param ++ 61 :: v).
Proof.
  intros Ht Hr Hn Hv Hp (t & -> & Hshape). unfold param_has_value.
  assert (Hcut : forall x, cut_eq (param ++ 61 :: x) = Some (param, x)).
  { clear -Hp. intros x. induction Hp as [|c param Hc _ IH]; [done|]. cbn [app cut_eq].
    destruct (Z.eqb_spec c 61); [done|]. by rewrite IH. }
  assert (Hnone : cut_eq param = None).
  { clear -Hp. induction Hp as [|c param Hc _ IH]; [done|]. cbn [cut_eq].
    destruct (Z.eqb_spec c 61); [done|]. by rewrite IH. }
  pose proof (name_scan_cut _ rest Ht Hr) as Hscan.
  destruct Hshape as [->|[x ->]].
  { rewrite app_nil_r in *. rewrite Hnone in Hscan. destruct (Z.eqb_spec
      (deref (drop (name_scan (param ++ rest)) (param ++ rest))) 61); [done|].
    rewrite bool_decide_false; [done|]. intros E. apply (f_equal length) in E.
    rewrite length_app in E. cbn in E. lia. }
  rewrite Hcut in Hscan. destruct Hscan as [_ ->]. rewrite <- app_assoc, drop_app_length.
  cbn [app deref drop]. rewrite Z.eqb_refl, drop_0. cbn [negb]. apply plain_app in Ht as [_ Ht].
  inversion_clear Ht as [|? ? _ Hx]. rewrite strlen_no_nul by by apply plain_no_nul.
  rewrite strncmp_lit by done. case_bool_decide as Htake; cbn [andb].
  2:{ rewrite bool_decide_false; [done|]. intros [= ->]%app_inv_head. apply Htake. by rewrite firstn_all. }
  rewrite <- (take_drop (length v) x), Htake in Hx |- *. set (y := drop (length v) x) in *.
  rewrite <- app_assoc, ch_app_r. apply plain_app in Hx as [_ Hy]. destruct y as [|c y]; cbn [app].
  - rewrite app_nil_r, bool_decide_true by done.
    destruct (deref_break rest Hr) as [->|[->| ->]]; done.
  - cbn [deref]. inversion_clear Hy as [|? ? [Hc Hw] _]. apply orb_false_iff in Hw as [H1 H2].
    rewrite H1, H2. destruct (Z.eqb_spec c 0); [done|]. cbn [orb]. rewrite bool_decide_false; [done|].
    intros [= E]%app_inv_head. apply (f_equal length) in E. rewrite length_app in E. cbn in E. lia.
Qed.

(* ------------------------------------------------------------------ *)
(** ** Lemmas: dispatching *)

Lemma app_name_plain a : plain (app_name a).
Proof. by destruct a; apply str_plain; vm_compute. Qed.

Lemma app_name_inj a b : app_name a = app_name b -> a = b.
Proof. destruct a, b; try done; intros E; vm_compute in E; discriminate. Qed.

(** Tokens that are no parameter name no application. *)
Lemma app_of_is_param tok a : app_of tok = Some a -> is_param (str "app") tok.
Proof.
  unfold app_of. destruct (list_find _ all_apps) as [[i b]|] eqn:E; [|done]. intros _.
  apply list_find_Some in E as (_ & -> & _). exists (61 :: app_name b). eauto.
Qed.

Lemma omap_option_list {A B} (f : A -> option B) x l : omap f (x :: l) = option_list (f x) ++ omap f l.
Proof. cbn. by destruct (f x). Qed.

Section dispatch.
  Context {W : Type} `{Arch} `{Console W} `{NetDriver W} `{RngDriver W} `{IllegalInstruction W}.
  Context (n : nat) (init_log : tag_ptr).

(** The applications one after the other, until one does not return. *)
Fixpoint run_all (apps : list application) (s : app_statics) : St W (bool * app_statics) :=
  match apps with
  | [] => mret (true, s)
  | a :: apps =>
      '(returned, s) ← run_app n init_log a s;
      if (returned : bool) then run_all apps s else mret (false, s)
  end.

(** Among distinct applications at most one check holds. *)
Lemma run_checks_spec pos tok apps : forall s w,
  (forall a, param_has_value pos (app_name a) = bool_decide (tok = str "app=" ++ app_name a)) ->
  NoDup apps ->
  run_checks n init_log apps pos s w =
  match list_find (fun a => tok = str "app=" ++ app_name a) apps with
  | Some (_, a) => run_app n init_log a s w
  | None => Ok (true, s, w)
  end.
Proof using.
  induction apps as [|a apps IH]; intros s w Hv Hnd; [done|].
  apply NoDup_cons in Hnd as [Ha Hnd]. cbn [run_checks list_find]. rewrite Hv.
  case_bool_decide as Ht.
  - rewrite decide_True by done.
    transitivity ((x ← run_app n init_log a s; mret x) w); [|by rewrite St_bind_ret].
    apply St_bind_ext. intros [[] s'] w' _; [|done]. rewrite IH by done.
    destruct (list_find _ apps) as [[i b]|] eqn:E; [|done].
    apply list_find_Some in E as (Hb & Heq & _). rewrite Ht in Heq. apply app_inv_head in Heq.
    apply app_name_inj in Heq as <-. destruct Ha. by eapply list_elem_of_lookup_2.
  - rewrite decide_False by done. rewrite IH by done. by destruct (list_find _ apps) as [[i b]|].
Qed.

Lemma run_checks_token tok rest s w : plain tok -> at_break rest -> no_nul rest ->
  is_param (str "app") tok ->
  run_checks n init_log all_apps (Some (tok ++ rest)) s w = run_all (option_list (app_of tok)) s w.
Proof using.
  intros Ht Hr Hn Hp. rewrite (run_checks_spec _ tok); [|intros a|].
  - unfold app_of. destruct (list_find _ all_apps) as [[i a]|]; [|done]. cbn [fmap option_fmap option_map snd option_list run_all].
    transitivity ((x ← run_app n init_log a s; mret x) w); [by rewrite St_bind_ret|].
    apply St_bind_ext. by intros [[] s'] w' _.
  - rewrite (param_value tok rest (str "app")); [by apply bool_decide_ext|done..| | |done].
    + apply app_name_plain.
    + repeat constructor; discriminate.
  - apply NoDup_ListNoDup. repeat (constructor; [cbn; intuition discriminate|]). constructor.
Qed.

Lemma run_all_app l1 : forall l2 s w,
  run_all (l1 ++ l2) s w =
  ('(returned, s) ← run_all l1 s;
   if (returned : bool) then run_all l2 s else mret (false, s)) w.
Proof using.
  induction l1 as [|a l1 IH]; intros l2 s w; [done|]. cbn [app run_all]. rewrite St_bind_assoc.
  apply St_bind_ext. intros [[] s'] w' _; [apply IH|done].
Qed.

Lemma omap_no_params l : Forall (fun tok => ~ is_param (str "app") tok) l -> omap app_of l = [].
Proof using.
  induction 1 as [|tok l Hn _ IH]; [done|]. rewrite omap_option_list, IH.
  destruct (app_of tok) as [a|] eqn:E; [by apply app_of_is_param in E|done].
Qed.

(** The loop from a parameter that was found. *)
Lemma app_loop_spec fuel : forall s o st w, no_nul s -> (length s < fuel)%nat ->
  found (str "app") s o ->
  app_loop n fuel init_log o st w = run_all (omap app_of (tokens s)) st w.
Proof using.
  induction fuel as [|fuel IH]; intros s o st w Hs Hf Ho; [lia|].
  destruct Ho as [Hno|pre tok rest Hts Hpre Hp Ht Hr Hn Hl].
  { by rewrite omap_no_params. }
  rewrite Hts, omap_app, omap_no_params by done. cbn [app_loop app].
  rewrite omap_option_list, run_all_app.
  rewrite (St_bind_eq_l _ _ _ _ (run_checks_token tok rest st w Ht Hr Hn Hp)).
  apply St_bind_ext. intros [[] st'] w' _; [|done].
  unfold find_next_param. rewrite skip_token_app by done. unfold find_param.
  destruct (find_param_loop_spec (str "app") (S (length rest)) rest Hn) as (o & E & Ho);
    [by apply str_plain; vm_compute|done|lia|].
  erewrite St_bind_ok by (apply lift_ok; exact E). apply IH; [done|lia|done].
Qed.
End dispatch.

(** The whole function, with and without a command line. *)
Lemma init_apps_run {W} `{Arch} `{Console W} `{NetDriver W} `{RngDriver W}
    `{IllegalInstruction W} n cmdline s (w : W) : no_nul (default [] cmdline) ->
  init_apps n cmdline s w =
  (init_log ← klog_register "init" LOG_INFO;
   run_all n init_log (apps_named (default [] cmdline)) s) w.
Proof.
  intros Hc. unfold init_apps. apply St_bind_ext. intros p w1 _.
  destruct cmdline as [c|]; [|done]. change (no_nul c) in Hc. change (default [] (Some c)) with c.
  unfold find_param.
  destruct (find_param_loop_spec (str "app") (S (length c)) c Hc) as (o & E & Ho);
    [by apply str_plain; vm_compute|done|lia|].
  erewrite St_bind_ok by (apply lift_ok; exact E). apply app_loop_spec; [done|lia|done].
Qed.

(* ------------------------------------------------------------------ *)
(** ** Properties *)

(** C34: For every command line, init_apps runs exactly the applications that its tokens
    "app=<name>" name, in their order, until one does not return; every other token,
    and every parameter with an unknown value or without one, is skipped.  The scans
    of the line always end. *)
Theorem init_apps_correct {W} `{Arch} `{Console W} `{NetDriver W} `{RngDriver W}
    `{IllegalInstruction W} n c s (w : W) : no_nul c ->
  init_apps n (Some c) s w =
  (init_log ← klog_register "init" LOG_INFO; run_all n init_log (apps_named c) s) w.
Proof. intros Hc. by rewrite init_apps_run. Qed.

(** ** A sample machine: two network cards and no entropy device *)

Module sample_init.
#[local] Existing Instance sample_mac.world_console.
#[local] Existing Instance sample_mac.world_net.
Definition rng : RngDriver sample_mac.world := {|
  rng_registry _ := registry_empty;
  rng_acquire _ := mret None;
  rng_read _ b _ _ := mret (-1, b) |}.
#[local] Existing Instance rng.
Definition trap : IllegalInstruction sample_mac.world := fun _ => kputs "[EXCEPTION]".
#[local] Existing Instance trap.
#[local] Instance arch : Arch := RISCV.
Definition line : cstr := str "log=debug app=mac-e1000 apple app app=mac app=mac-all".
Lemma line_apps : apps_named line = [MAC_E1000; MAC_ALL].
Proof. vm_compute. reflexivity. Qed.
Definition run : res (bool * app_statics * sample_mac.world) :=
  init_apps 1 (Some line) (app_statics_zero 1000) sample_mac.start.
Definition direct : res (bool * app_statics * sample_mac.world) :=
  run_all 1 (Some O) [MAC_E1000; MAC_ALL] (app_statics_zero 1000) sample_mac.start.
End sample_init.

Lemma init_apps_correct_witness : sample_init.run = sample_init.direct /\
  exists s w, sample_init.run = Ok (true, s, w) /\
    sample_mac.shown w = str "[00:03|e1000@0.1.0] Initializing...
[00:03|e1000@0.1.0] MAC: 52:54:00:00:00:00
[00:03|e1000@0.1.0] Initializing...
[00:03|e1000@0.1.0] MAC: 52:54:00:00:00:00
".
Proof.
  split; [|eexists _, _; split; vm_compute; reflexivity].
  unfold sample_init.run. rewrite (@init_apps_correct _ RISCV sample_mac.world_console
    sample_mac.world_net sample_init.rng sample_init.trap)
    by (apply (bool_decide_eq_true_1 (no_nul _)); vm_compute; reflexivity).
  rewrite sample_init.line_apps. reflexivity.
Defined.
