(* ===== verification/PlatformAmd64.v ===== *)
(** The AMD64 platform (kernel/platform/amd64/platform.c): the serial port COM1, the
    boot protocols' command line, and the interrupt descriptor table.  The processor's
    IDTR and the UART are parameters, with their documented behaviour. *)

From S2P Require Export Io Fdt.

Open Scope Z_scope.

(** [multiboot_info_t] and [hvm_start_info_t]; both are packed. *)
Record multiboot_info := MultibootInfo {
  mb_flags : Z; mem_lower : Z; mem_upper : Z; boot_device : Z; mb_cmdline : Z }.
Record hvm_start_info := HvmStartInfo {
  hvm_magic : Z; hvm_version : Z; hvm_flags : Z; nr_modules : Z; modlist_paddr : Z;
  cmdline_paddr : Z; rsdp_paddr : Z; memmap_paddr : Z; memmap_entries : Z; hvm_reserved : Z }.

Definition MULTIBOOT_FLAG_CMDLINE : Z := Z.shiftl 1 2.
Definition PVH_MAGIC : Z := 0x336ec578.
Definition COM1_BASE : Z := 0x3F8.
Definition COM1_DATA : Z := COM1_BASE.
Definition COM1_LSR : Z := COM1_BASE + 5.
Definition LSR_THRE : Z := 0x20.

(** [idt_entry_t] and [idt_ptr_t]; the entry is packed. *)
Record idt_entry := IdtEntry {
  offset_low : Z; selector : Z; ist : Z; type_attr : Z; offset_mid : Z; offset_high : Z;
  idt_reserved : Z }.
Record idt_ptr_t := IdtPtr { idt_limit : Z; idt_base : Z }.
Definition sizeof_idt_entry : Z := 16.

(** The static variables; before boot they are zero. *)
Record statics := Statics { idt : list idt_entry; idt_ptr : idt_ptr_t }.
Definition idt_entry_zero : idt_entry := IdtEntry 0 0 0 0 0 0 0.
Definition statics_zero : statics := Statics (replicate 256 idt_entry_zero) (IdtPtr 0 0).

(** The register that LIDT loads: limit and base of the table in use. *)
Class IdtRegister (W : Type) `{Console W} := {
  lidt : Z -> Z -> W -> W;
  idtr : W -> option (Z * Z);
  idtr_lidt : forall limit base w, idtr (lidt limit base w) = Some (limit, base);
  idtr_write : forall s w, idtr (con_write s w) = idtr w
}.

(** The instruction HLT. *)
Class Hlt (W : Type) := hlt : St W unit.

(** [handler]: a 64-bit address; [vector] indexes the table. *)
Definition idt_set_entry (idt : list idt_entry) (vector handler selector type_attr : Z)
    : res (list idt_entry) :=
  wr idt vector
    (IdtEntry (Z.land handler 0xFFFF) selector 0 type_attr
       (Z.land (Z.shiftr handler 16) 0xFFFF) (Z.land (Z.shiftr handler 32) 0xFFFFFFFF) 0).

(** A uint64_t of the host. *)
Definition ldq (mem : memory) (a : Z) : res Z :=
  lo ← ldw mem a; hi ← ldw mem (a + 4); mret (lo + hi * 2 ^ 32).

(** The result is the address of the command line, or NULL. *)
Definition platform_get_cmdline (mem : memory) (boot_param : Z) : res (option Z) :=
  let cmdline_fixed := 0x200000 in
  first_byte ← ldb mem 0x200000;
  if (32 <=? first_byte) && (first_byte <=? 126) then Ok (Some cmdline_fixed) else
  if boot_param =? 0 then Ok None else
  magic ← ldw mem boot_param;
  if magic =? PVH_MAGIC then
    cmdline_paddr ← ldq mem (boot_param + 24);
    if cmdline_paddr =? 0 then Ok None else Ok (Some cmdline_paddr)
  else
    flags ← ldw mem boot_param;
    if negb (Z.land flags MULTIBOOT_FLAG_CMDLINE =? 0) then
      cmdline ← ldw mem (boot_param + 16);
      if cmdline =? 0 then Ok None else Ok (Some cmdline)
    else Ok None.

Section platform.
  Context {W : Type} `{Bus W}.

Definition outb (port value : Z) : St W unit := bus_write Port8 (u16 port) (u8 value).
Definition inb (port : Z) : St W Z := bus_read Port8 (u16 port).

(** [while ((inb(COM1_LSR) & LSR_THRE) == 0);] *)
Fixpoint wait_thre (fuel : nat) : St W unit :=
  match fuel with
  | O => lift NoFuel
  | S fuel =>
      lsr ← inb COM1_LSR;
      if Z.land lsr LSR_THRE =? 0 then wait_thre fuel else skip
  end.

Definition platform_putchar (fuel : nat) (c : Z) : St W unit :=
  _ ← wait_thre fuel; outb COM1_DATA c.

Definition platform_puts (fuel : nat) : cstr -> St W unit := send_string (platform_putchar fuel).

(** The write to the exit device, and [n] rounds of the loop after it. *)
Definition platform_halt `{Hlt W} (n : nat) : St W control := _ ← outb 0xf4 0x10; forever n hlt.

Definition init_com1 : St W unit :=
  _ ← outb (COM1_BASE + 1) 0x00;
  _ ← outb (COM1_BASE + 3) 0x80;
  _ ← outb (COM1_BASE + 0) 0x03;
  _ ← outb (COM1_BASE + 1) 0x00;
  _ ← outb (COM1_BASE + 3) 0x03;
  _ ← outb (COM1_BASE + 2) 0xC7;
  outb (COM1_BASE + 4) 0x0B.

  Context `{Console W} `{!IdtRegister W}.

(** [exception_stub_ud] and [idt_addr]: the addresses of the assembly stub and of the
    table. *)
Definition platform_setup_exception_handlers (exception_stub_ud idt_addr : Z) (s : statics)
    : St W statics :=
  idt ← lift (for_n 256 (fun i idt => wr idt (Z.of_nat i) idt_entry_zero) (idt s));
  idt ← lift (idt_set_entry idt 6 (u64 exception_stub_ud) 0x18 0x8E);
  let idt_ptr := IdtPtr (u16 (len idt * sizeof_idt_entry - 1)) (u64 idt_addr) in
  _ ← modify (lidt (idt_limit idt_ptr) (idt_base idt_ptr));
  _ ← kput (puts (str "[AMD64] Exception handlers installed" ++ nl));
  mret (Statics idt idt_ptr).

Definition platform_init (exception_stub_ud idt_addr : Z) (s : statics) : St W statics :=
  _ ← init_com1; platform_setup_exception_handlers exception_stub_ud idt_addr s.

Definition exception_invalid_opcode_handler `{Hlt W} (n : nat) : St W control :=
  _ ← kput (puts (nl ++ str "[EXCEPTION] Unknown/Illegal Instruction" ++ nl));
  _ ← kput (puts (str "The CPU encountered an instruction it does not recognize." ++ nl));
  _ ← kput (puts (str "System halted." ++ nl));
  platform_halt n.
End platform.

(* ------------------------------------------------------------------ *)
(** ** The processor's gates *)

(** Testing a single bit with a mask. *)
Lemma land_bit_zero v k : 0 <= k -> (Z.land v (2 ^ k) =? 0) = negb (Z.testbit v k).
Proof.
  intros Hk. destruct (Z.testbit v k) eqn:E; apply eq_true_iff_eq; rewrite ?Z.eqb_eq; split; try done.
  - intros Hz. apply (f_equal (fun x => Z.testbit x k)) in Hz.
    rewrite Z.land_spec, E, Z.pow2_bits_true in Hz by lia. by rewrite Z.bits_0 in Hz.
  - intros _. apply Z.bits_inj'. intros i Hi. rewrite Z.land_spec, Z.bits_0.
    destruct (Z.eq_dec i k) as [->|]; [by rewrite E|].
    rewrite Z.pow2_bits_false by lia. apply andb_false_r.
Qed.

(** A structure in memory, its fields in little-endian order without padding. *)
Definition entry_bytes (e : idt_entry) : bytes :=
  le16 (offset_low e) ++ le16 (selector e) ++ [u8 (ist e); u8 (type_attr e)]
  ++ le16 (offset_mid e) ++ le32 (offset_high e) ++ le32 (idt_reserved e).
Definition table_bytes (idt : list idt_entry) : bytes := mjoin (entry_bytes <$> idt).

(** A present gate as the processor reads it (Intel SDM, 64-bit mode IDT gate
    descriptors); [None]: beyond the limit, or not present. *)
Record gate := Gate {
  gate_handler : Z; gate_selector : Z; gate_ist : Z; gate_type : Z; gate_dpl : Z }.
Definition gate_of (table : bytes) (limit vector : Z) : option gate :=
  if limit <? 16 * vector + 15 then None else
  let b i := default 0 (table !! (Z.to_nat vector * 16 + i)%nat) in
  if Z.testbit (b 5%nat) 7 then
    Some (Gate (b 0%nat + b 1%nat * 2 ^ 8 + b 6%nat * 2 ^ 16 + b 7%nat * 2 ^ 24
                + b 8%nat * 2 ^ 32 + b 9%nat * 2 ^ 40 + b 10%nat * 2 ^ 48 + b 11%nat * 2 ^ 56)
            (b 2%nat + b 3%nat * 2 ^ 8) (Z.land (b 4%nat) 7) (Z.land (b 5%nat) 15)
            (Z.land (Z.shiftr (b 5%nat) 5) 3))
  else None.

(** The gate an entry describes. *)
Definition entry_gate (e : idt_entry) : option gate :=
  if Z.testbit (type_attr e) 7 then
    Some (Gate (offset_low e + offset_mid e * 2 ^ 16 + offset_high e * 2 ^ 32) (selector e)
            (Z.land (ist e) 7) (Z.land (type_attr e) 15) (Z.land (Z.shiftr (type_attr e) 5) 3))
  else None.

(** What the undefined instruction does: the processor reads gate 6 of the table that
    its IDTR designates and enters the handler, here the stub that calls the C
    function; without such a gate it shuts down. *)
Definition undefined_instruction {W} `{Bus W} `{Console W} `{!IdtRegister W} `{Hlt W} (n : nat)
    (exception_stub_ud idt_addr : Z) (s : statics) : St W control := fun w =>
  match idtr w with
  | Some (limit, base) =>
      match gate_of (table_bytes (idt s)) limit 6 with
      | Some g =>
          if (base =? idt_addr) && (gate_handler g =? exception_stub_ud)
             && (gate_selector g =? 0x18)
          then exception_invalid_opcode_handler n w else UB
      | None => UB
      end
  | None => UB
  end.

Definition entry_wf (e : idt_entry) : Prop :=
  is_u16 (offset_low e) /\ is_u16 (selector e) /\ is_u8 (ist e) /\ is_u8 (type_attr e) /\
  is_u16 (offset_mid e) /\ is_u32 (offset_high e).

Lemma le16_value v : is_u16 v -> u8 v + u8 (Z.shiftr v 8) * 2 ^ 8 = v.
Proof. unfold_ints. intros. rewrite Z.shiftr_div_pow2 by lia. zdm. Qed.
Lemma le32_value v : is_u32 v ->
  u8 v + u8 (Z.shiftr v 8) * 2 ^ 8 + u8 (Z.shiftr v 16) * 2 ^ 16 + u8 (Z.shiftr v 24) * 2 ^ 24 = v.
Proof. unfold_ints. intros. rewrite !Z.shiftr_div_pow2 by lia. zdm. Qed.

Lemma entries_length l : Forall (fun b => length b = 16%nat) (entry_bytes <$> l).
Proof. apply Forall_fmap, Forall_forall. intros e _. reflexivity. Qed.

(** Reading a gate back. *)
Lemma gate_of_entry l v e : l !! Z.to_nat v = Some e -> 0 <= v -> entry_wf e ->
  gate_of (table_bytes l) (16 * len l - 1) v = entry_gate e.
Proof.
  intros Hl Hv (H0 & H1 & H2 & H3 & H4 & H5). unfold gate_of.
  assert (Z.to_nat v < length l)%nat by (by eapply lookup_lt_Some).
  destruct (Z.ltb_spec (16 * len l - 1) (16 * v + 15)); [llia|].
  assert (forall i, (i < 16)%nat ->
    table_bytes l !! (Z.to_nat v * 16 + i)%nat = entry_bytes e !! i) as Hb.
  { intros i Hi. apply option_eq. intros x. unfold table_bytes.
    rewrite (join_lookup_Some_same_length' 16) by (exact Hi || apply entries_length).
    rewrite list_lookup_fmap, Hl. split; [intros (b & [= <-] & Hx); exact Hx|].
    intros Hx. exists (entry_bytes e). exact (conj eq_refl Hx). }
  rewrite !Hb by lia. cbn [entry_bytes le16 le32 app lookup list_lookup default]. unfold id.
  unfold entry_gate. rewrite (u8_id (type_attr e)), (u8_id (ist e)) by done.
  destruct (Z.testbit (type_attr e) 7); [|done]. f_equal.
  pose proof (le16_value _ H0). pose proof (le16_value _ H4). pose proof (le32_value _ H5).
  f_equal; [lia|by apply le16_value].
Qed.

Lemma gate_of_beyond table limit v : limit < 16 * v + 15 -> gate_of table limit v = None.
Proof. intros. unfold gate_of. destruct (Z.ltb_spec limit (16 * v + 15)); [done|lia]. Qed.

(** The loop clears the table. *)
Lemma clear_table l : length l = 256%nat ->
  for_n 256 (fun i idt => wr idt (Z.of_nat i) idt_entry_zero) l = Ok (replicate 256 idt_entry_zero).
Proof.
  intros Hl.
  enough (forall n, (n <= 256)%nat ->
    for_n n (fun i idt => wr idt (Z.of_nat i) idt_entry_zero) l
    = Ok (replicate n idt_entry_zero ++ drop n l)) as H.
  { rewrite (H 256%nat) by done. rewrite drop_ge by lia. by rewrite app_nil_r. }
  induction n as [|n IH]; intros Hn; [done|].
  unfold for_n in *. rewrite seq_S, foldl_app. cbn [foldl]. rewrite IH by lia. cbn [mbind res_bind].
  rewrite Nat.add_0_l, wr_insert by (unfold len; rewrite length_app, length_replicate, length_drop; lia).
  rewrite Nat2Z.id, insert_app_r_alt by (rewrite length_replicate; lia).
  rewrite length_replicate, Nat.sub_diag.
  destruct (drop n l) as [|x t] eqn:E; [apply (f_equal length) in E; rewrite length_drop in E; cbn in E; lia|].
  cbn [insert list_insert]. f_equal.
  rewrite replicate_S_end, <- app_assoc. cbn [app]. f_equal. f_equal.
  replace (S n) with (n + 1)%nat by lia. by rewrite <- drop_drop, E.
Qed.

(** ** The serial port *)

(** The registers of a 16550 UART that the code writes, and what it has sent. *)
Record uart := Uart {
  ier : Z; lcr : Z; dll : Z; dlm : Z; fcr : Z; mcr : Z; sent : bytes }.
Definition dlab (u : uart) : bool := Z.testbit (lcr u) 7.

(** A write to the register at offset [o]; the divisor latches are behind DLAB. *)
Definition uart_write (u : uart) (o v : Z) : uart :=
  let '(Uart ier lcr dll dlm fcr mcr sent) := u in
  match o with
  | 0 => if dlab u then Uart ier lcr v dlm fcr mcr sent else Uart ier lcr dll dlm fcr mcr (sent ++ [v])
  | 1 => if dlab u then Uart ier lcr dll v fcr mcr sent else Uart v lcr dll dlm fcr mcr sent
  | 2 => Uart ier lcr dll dlm v mcr sent
  | 3 => Uart ier v dll dlm fcr mcr sent
  | 4 => Uart ier lcr dll dlm fcr v sent
  | _ => u
  end.

(** A UART at COM1.  After a character its transmitter is busy for at most [com_delay]
    readings of the line status; a character written earlier would be lost. *)
Class Com1 (W : Type) `{Bus W} := {
  com1 : W -> uart;
  com_busy : W -> nat;
  com_delay : nat;
  com_busy_le : forall w, (com_busy w <= com_delay)%nat;
  com_write : forall o v w, 0 <= o <= 4 -> is_u8 v ->
    o <> 0 \/ dlab (com1 w) = true \/ com_busy w = 0%nat ->
    exists w', bus_write Port8 (0x3F8 + o) v w = Ok (tt, w') /\
      com1 w' = uart_write (com1 w) o v;
  com_status : forall w, exists v w', bus_read Port8 0x3FD w = Ok (v, w') /\
    com1 w' = com1 w /\ com_busy w' = pred (com_busy w) /\
    (Z.testbit v 5 = true <-> com_busy w = 0%nat)
}.

Section serial.
  Context {W : Type} `{Com1 W}.

Lemma wait_thre_ok fuel : forall w, (com_busy w < fuel)%nat ->
  exists w', wait_thre fuel w = Ok (tt, w') /\ com1 w' = com1 w /\ com_busy w' = 0%nat.
Proof using.
  induction fuel as [|fuel IH]; intros w Hf; [lia|].
  destruct (com_status w) as (v & w1 & E & Hu & Hb & Hv). cbn [wait_thre].
  rewrite (St_bind_ok _ _ w v w1) by exact E. change LSR_THRE with (2 ^ 5).
  rewrite (land_bit_zero v 5) by lia.
  destruct (Z.testbit v 5).
  - exists w1. split; [done|]. split; [done|]. rewrite Hb, (proj1 Hv eq_refl). done.
  - assert (com_busy w <> 0%nat) as Hne by (intros E0; by apply Hv in E0).
    destruct (IH w1) as (w2 & E2 & Hu2 & Hb2); [lia|]. exists w2. cbn [negb].
    rewrite E2, Hu2. done.
Qed.

Lemma outb_ok o v w : 0 <= o <= 4 -> is_u8 v ->
  o <> 0 \/ dlab (com1 w) = true \/ com_busy w = 0%nat ->
  exists w', outb (COM1_BASE + o) v w = Ok (tt, w') /\ com1 w' = uart_write (com1 w) o v.
Proof using.
  intros Ho Hv Hr. unfold outb, COM1_BASE. rewrite (u8_id v), u16_id by (done || unfold is_u16; lia).
  by apply com_write.
Qed.

(** The registers after sending [s]. *)
Definition with_sent (u : uart) (s : bytes) : uart :=
  Uart (ier u) (lcr u) (dll u) (dlm u) (fcr u) (mcr u) (sent u ++ s).

Lemma putchar_ok fuel c w : (com_delay < fuel)%nat -> is_u8 c -> dlab (com1 w) = false ->
  exists w', platform_putchar fuel c w = Ok (tt, w') /\ com1 w' = with_sent (com1 w) [c].
Proof using.
  intros Hf Hc Hd. unfold platform_putchar.
  destruct (wait_thre_ok fuel w) as (w1 & E1 & Hu1 & Hb1); [pose proof (com_busy_le w); lia|].
  rewrite (St_bind_ok _ _ _ _ _ E1). unfold COM1_DATA. rewrite <- (Z.add_0_r COM1_BASE).
  destruct (outb_ok 0 c w1) as (w2 & E2 & Hu2); [lia|done|by right; right|].
  exists w2. split; [done|]. rewrite Hu2, Hu1. unfold uart_write, with_sent.
  destruct (com1 w) as [i l dl dm f m s]. by rewrite Hd.
Qed.
End serial.

(** ** The boot protocols *)

Definition le64 (v : Z) : bytes := le32 v ++ le32 (Z.shiftr v 32).

(** The boot loader's structures as it leaves them in memory. *)
Definition hvm_bytes (i : hvm_start_info) : bytes :=
  le32 (hvm_magic i) ++ le32 (hvm_version i) ++ le32 (hvm_flags i) ++ le32 (nr_modules i)
  ++ le64 (modlist_paddr i) ++ le64 (cmdline_paddr i) ++ le64 (rsdp_paddr i)
  ++ le64 (memmap_paddr i) ++ le32 (memmap_entries i) ++ le32 (hvm_reserved i).
Definition mb_bytes (i : multiboot_info) : bytes :=
  le32 (mb_flags i) ++ le32 (mem_lower i) ++ le32 (mem_upper i) ++ le32 (boot_device i)
  ++ le32 (mb_cmdline i).

Lemma ldw_le32 mem a v : is_u32 v -> bytes_at mem a (le32 v) -> ldw mem a = Ok v.
Proof.
  intros Hv (E0 & E1 & E2 & E3)%read4_at. unfold ldw. rewrite E0, E1, E2, E3.
  cbn [mbind res_bind mret res_ret]. by rewrite le32_value.
Qed.

Lemma le32_u32 v : le32 (u32 v) = le32 v.
Proof.
  unfold le32, u8, u32. rewrite !Z.shiftr_div_pow2 by lia. f_equal; [zdm|].
  f_equal; [zdm|]. f_equal; [zdm|]. f_equal. zdm.
Qed.

Lemma ldq_le64 mem a v : is_u64 v -> bytes_at mem a (le64 v) -> ldq mem a = Ok v.
Proof.
  intros Hv [Hl Hh]%bytes_at_app. unfold ldq. rewrite <- le32_u32 in Hl.
  rewrite (ldw_le32 mem a (u32 v)) by (done || apply u32_range). cbn [mbind res_bind].
  unfold is_u64 in Hv. rewrite Z.shiftr_div_pow2 in Hh by lia.
  rewrite (ldw_le32 mem (a + 4) (v / 2 ^ 32)) by (done || unfold is_u32; zdm).
  cbn [mbind res_bind mret res_ret]. f_equal. unfold u32. zdm.
Qed.

(* ------------------------------------------------------------------ *)
(** ** Properties *)

(** Every byte of a string is sent, once and in order, and nothing is lost while the
    transmitter is busy: each wait ends within the UART's delay. *)
Theorem platform_puts_correct `{Com1 W} fuel s w :
  (com_delay < fuel)%nat -> is_bytes s -> no_nul s -> dlab (com1 w) = false ->
  exists w', platform_puts fuel s w = Ok (tt, w') /\ com1 w' = with_sent (com1 w) s.
Proof.
  intros Hf Hb Hs Hd.
  destruct (send_string_ok (platform_putchar fuel) (fun w => sent (com1 w))
    (fun w1 => exists t, com1 w1 = with_sent (com1 w) t) s)
    with (w := w) as (w' & E & H' & t & Ht); try done.
  - intros c w1 Hc [t Ht].
    destruct (putchar_ok fuel c w1 Hf Hc) as (w2 & E2 & H2); [by rewrite Ht|].
    exists w2. split; [done|]. rewrite H2, Ht. split; [done|]. exists (t ++ [c]).
    unfold with_sent. cbn. by rewrite <- app_assoc.
  - exists []. unfold with_sent. rewrite app_nil_r. by destruct (com1 w).
  - exists w'. split; [done|]. rewrite Ht in H' |- *. by apply app_inv_head in H' as ->.
Qed.

(** Whatever the firmware left in the UART, platform_init programs 38400 baud, eight
    bits without parity and the FIFO, and leaves the data register, not the divisor
    latch, addressed; when the latch was not addressed before, the interrupts are off
    and nothing is sent. *)
Theorem init_com1_correct `{Com1 W} w :
  exists w', init_com1 w = Ok (tt, w') /\ let u := com1 w' in
    dll u + dlm u * 2 ^ 8 = 115200 / 38400 /\ lcr u = 3 /\ dlab u = false /\
    fcr u = 0xC7 /\ mcr u = 0x0B /\ sent u = sent (com1 w) /\
    (dlab (com1 w) = false -> ier u = 0).
Proof.
  unfold init_com1.
  destruct (outb_ok 1 0 w) as (w1 & E1 & U1); [lia|done|by left|].
  rewrite (St_bind_ok _ _ _ _ _ E1).
  destruct (outb_ok 3 0x80 w1) as (w2 & E2 & U2); [lia|done|by left|].
  rewrite (St_bind_ok _ _ _ _ _ E2).
  assert (dlab (com1 w2) = true) as D2 by (rewrite U2; by destruct (com1 w1)).
  destruct (outb_ok 0 3 w2) as (w3 & E3 & U3); [lia|done|by right; left|].
  rewrite (St_bind_ok _ _ _ _ _ E3).
  destruct (outb_ok 1 0 w3) as (w4 & E4 & U4); [lia|done|by left|].
  rewrite (St_bind_ok _ _ _ _ _ E4).
  destruct (outb_ok 3 3 w4) as (w5 & E5 & U5); [lia|done|by left|].
  rewrite (St_bind_ok _ _ _ _ _ E5).
  destruct (outb_ok 2 0xC7 w5) as (w6 & E6 & U6); [lia|done|by left|].
  rewrite (St_bind_ok _ _ _ _ _ E6).
  destruct (outb_ok 4 0x0B w6) as (w7 & E7 & U7); [lia|done|by left|].
  exists w7. split; [done|]. rewrite U7, U6, U5, U4, U3, U2, U1.
  destruct (com1 w) as [i l dl dm f m s]. cbn [uart_write].
  destruct (dlab (Uart i l dl dm f m s)); repeat split; (reflexivity || discriminate).
Qed.

(** The handlers' table: after platform_setup_exception_handlers the processor's IDTR
    designates the 256 entries of the table, in which gate 6 is a present 64-bit
    interrupt gate to the stub, for any 64-bit address of it, and no other vector has a
    gate; so the undefined instruction reaches the C handler. *)
Theorem exception_handlers_correct {W} `{Bus W} `{Console W} `{!IdtRegister W} `{Hlt W}
    stub base s w :
  length (idt s) = 256%nat -> is_u64 stub -> is_u64 base ->
  exists s' w', platform_setup_exception_handlers stub base s w = Ok (s', w') /\
    idtr w' = Some (len (table_bytes (idt s')) - 1, base) /\
    (forall v, 0 <= v -> gate_of (table_bytes (idt s')) (len (table_bytes (idt s')) - 1) v
       = if v =? 6 then Some (Gate stub 0x18 0 0xE 0) else None) /\
    forall n w2, idtr w2 = idtr w' ->
      undefined_instruction n stub base s' w2 = exception_invalid_opcode_handler n w2.
Proof.
  intros Hl Hs Hb. unfold platform_setup_exception_handlers.
  rewrite clear_table by done. erewrite St_bind_ok by reflexivity.
  unfold idt_set_entry. rewrite wr_insert by (unfold len; rewrite length_replicate; lia). erewrite St_bind_ok by reflexivity.
  change (Z.to_nat 6) with 6%nat. rewrite (u64_id stub), (u64_id base) by done.
  set (e := IdtEntry _ 0x18 0 0x8E _ _ 0).
  assert (entry_wf e) as He.
  { unfold e, entry_wf. cbn [offset_low selector ist type_attr offset_mid offset_high].
    rewrite !land_ffff, land_ffffffff. split_and!; try done; (apply u16_range || apply u32_range). }
  assert (entry_gate e = Some (Gate stub 0x18 0 0xE 0)) as Hg.
  { unfold entry_gate, e. cbn [offset_low selector ist type_attr offset_mid offset_high].
    rewrite !land_ffff, land_ffffffff, !Z.shiftr_div_pow2 by lia. cbn. f_equal. f_equal.
    revert Hs. unfold_ints. intros. zdm. }
  set (l := <[6%nat := e]> (replicate 256 idt_entry_zero)).
  assert (len l = 256) as Hlen by (unfold len, l; by rewrite length_insert, length_replicate).
  assert (len (table_bytes l) - 1 = 16 * len l - 1) as Hlim by (by vm_compute).
  do 2 (erewrite St_bind_ok by reflexivity). eexists _, _. split; [reflexivity|].
  cbn [idt idt_limit idt_base]. rewrite idtr_write, idtr_lidt.
  assert (forall v, 0 <= v -> gate_of (table_bytes l) (len (table_bytes l) - 1) v
       = if v =? 6 then Some (Gate stub 0x18 0 0xE 0) else None) as Hgates.
  { intros v Hv. rewrite Hlim. destruct (Z.lt_ge_cases v 256) as [Hlt|Hge].
    - destruct (Z.eqb_spec v 6) as [->|Hne].
      + rewrite (gate_of_entry l 6 e) by done. done.
      + rewrite (gate_of_entry l v idt_entry_zero); [done| |done|by repeat split].
        unfold l. rewrite list_lookup_insert_ne by lia. apply lookup_replicate. split; [done|lia].
    - rewrite gate_of_beyond by (rewrite Hlen; lia). destruct (Z.eqb_spec v 6); [lia|done]. }
  assert (u16 (256 * sizeof_idt_entry - 1) = len (table_bytes l) - 1) as Hu by done.
  rewrite Hlen, Hu. split; [done|]. split; [done|].
  intros n w2 Hw2. unfold undefined_instruction. rewrite Hw2. cbn [idt].
  rewrite (Hgates 6) by lia. cbn [Z.eqb Pos.eqb gate_handler gate_selector]. by rewrite !Z.eqb_refl.
Qed.

(** The command line's address: a printable byte at 2 MB wins over the boot loader;
    otherwise it is the one in the PVH start info or, when its flag is set, in the
    Multiboot info that the boot parameter points to; NULL without a boot parameter or
    without a line. *)
Theorem platform_get_cmdline_correct mem first p :
  mem 0x200000 = Some first ->
  (32 <= first <= 126 -> platform_get_cmdline mem p = Ok (Some 0x200000)) /\
  (~ 32 <= first <= 126 ->
   (p = 0 -> platform_get_cmdline mem p = Ok None) /\
   (forall i, p <> 0 -> bytes_at mem p (hvm_bytes i) -> hvm_magic i = PVH_MAGIC ->
      is_u64 (cmdline_paddr i) ->
      platform_get_cmdline mem p
      = Ok (if cmdline_paddr i =? 0 then None else Some (cmdline_paddr i))) /\
   (forall i, p <> 0 -> bytes_at mem p (mb_bytes i) -> mb_flags i <> PVH_MAGIC ->
      is_u32 (mb_flags i) -> is_u32 (mb_cmdline i) ->
      platform_get_cmdline mem p
      = Ok (if Z.testbit (mb_flags i) 2 && negb (mb_cmdline i =? 0)
            then Some (mb_cmdline i) else None))).
Proof.
  intros Hf. unfold platform_get_cmdline, ldb. rewrite Hf. cbn [mbind res_bind].
  split; intros Hp.
  { destruct (Z.leb_spec 32 first), (Z.leb_spec first 126); (done || lia). }
  assert ((32 <=? first) && (first <=? 126) = false) as ->
    by (destruct (Z.leb_spec 32 first), (Z.leb_spec first 126); (done || lia)).
  split_and!; [intros ->; done|..]; intros i Hne Hb; destruct (Z.eqb_spec p 0); try done.
  - intros Hm Hc. unfold hvm_bytes in Hb. pose proof Hb as [H0 _]%bytes_at_app. rewrite Hm in H0.
    rewrite (ldw_le32 mem p PVH_MAGIC) by done. cbn [mbind res_bind].
    rewrite (Z.eqb_refl PVH_MAGIC).
    assert (bytes_at mem (p + 24) (le64 (cmdline_paddr i))) as Hq.
    { do 5 (apply bytes_at_app in Hb as [_ Hb]). apply bytes_at_app in Hb as [Hb _].
      rewrite <- !Z.add_assoc in Hb. exact Hb. }
    rewrite (ldq_le64 mem _ _ Hc Hq). cbn [mbind res_bind]. by case_match.
  - intros Hm Hfl Hc. unfold mb_bytes in Hb. pose proof Hb as [H0 _]%bytes_at_app.
    rewrite (ldw_le32 mem p (mb_flags i)) by done. cbn [mbind res_bind].
    destruct (Z.eqb_spec (mb_flags i) PVH_MAGIC); [done|].
    change MULTIBOOT_FLAG_CMDLINE with (2 ^ 2). rewrite land_bit_zero, negb_involutive by lia.
    destruct (Z.testbit (mb_flags i) 2); [|done]. cbn [andb].
    assert (bytes_at mem (p + 16) (le32 (mb_cmdline i))) as Hq.
    { do 4 (apply bytes_at_app in Hb as [_ Hb]). rewrite <- !Z.add_assoc in Hb. exact Hb. }
    rewrite (ldw_le32 mem _ _ Hc Hq). cbn [mbind res_bind]. by case_match.
Qed.

(** ** A sample machine: a UART that is busy for two readings after a character *)

Module pc.
Record world := World { port : uart; busy : nat; table : option (Z * Z); screen : console }.

Definition bus : Bus world := {|
  bus_read a addr w :=
    if addr =? 0x3FD then
      Ok (if (busy w =? 0)%nat then 0x60 else 0x40,
          World (port w) (pred (busy w `min` 2)%nat) (table w) (screen w))
    else Ok (0, w);
  bus_write a addr v w :=
    if (0x3F8 <=? addr) && (addr <=? 0x3FC) then
      Ok (tt, World (uart_write (port w) (addr - 0x3F8) v)
                (if (addr =? 0x3F8) && negb (dlab (port w)) then 2%nat else (busy w `min` 2)%nat)
                (table w) (screen w))
    else Ok (tt, w) |}.

Definition con : Console world := {|
  con_write s w := World (port w) (busy w) (table w) (con_write s (screen w));
  con_log w := con_log (screen w);
  con_set_log l w := World (port w) (busy w) (table w) (con_set_log l (screen w)) |}.

Definition idt_register : @IdtRegister world con.
Proof.
  refine (@Build_IdtRegister world con
    (fun limit base w => World (port w) (busy w) (Some (limit, base)) (screen w)) table _ _);
    reflexivity.
Defined.

(** With the interrupts off the processor stays halted. *)
Definition hlt : Hlt world := skip.

Definition serial : @Com1 world bus.
Proof.
  refine {| com1 := port; com_busy w := (busy w `min` 2)%nat; com_delay := 2 |}.
  - intros w. lia.
  - intros o v w Ho Hv _. cbn [bus_write bus].
    destruct (Z.leb_spec 0x3F8 (0x3F8 + o)); [|lia].
    destruct (Z.leb_spec (0x3F8 + o) 0x3FC); [|lia]. cbn [andb].
    eexists. split; [reflexivity|]. cbn [port]. f_equal. lia.
  - intros w. eexists _, _. split; [reflexivity|]. split; [reflexivity|]. cbn [busy].
    split; [lia|]. destruct (Nat.eqb_spec (busy w) 0) as [->|]; [done|].
    split; [done|intros ?; lia].
Defined.

(** As the firmware might leave it: the divisor latch addressed. *)
Definition start : world := World (Uart 5 0x83 12 0 0 0 []) 1 None (ConsoleState [] log_empty).
Definition running : world := World (Uart 0 3 3 0 0xC7 0x0B []) 1 None (ConsoleState [] log_empty).

(** A Multiboot information structure at 0x9000, and zeros elsewhere. *)
Definition info : multiboot_info := MultibootInfo 0x4F 640 65535 0 0x9100.
Definition mem : memory := fun a =>
  if 0x9000 <=? a then Some (default 0 (mb_bytes info !! Z.to_nat (a - 0x9000))) else Some 0.
End pc.

Lemma platform_puts_correct_witness : exists w',
  platform_puts (H := pc.bus) 3 (str "Yasou") pc.running = Ok (tt, w') /\
  sent (pc.port w') = str "Yasou".
Proof.
  destruct (@platform_puts_correct pc.world pc.bus pc.serial 3 (str "Yasou") pc.running)
    as (w' & E & Hw').
  - cbn. lia.
  - apply is_bytes_str_check. vm_compute. reflexivity.
  - repeat constructor; vm_compute; discriminate.
  - reflexivity.
  - exists w'. split; [exact E|]. change (pc.port w') with (@com1 _ pc.bus pc.serial w').
    rewrite Hw'. reflexivity.
Defined.

Lemma init_com1_correct_witness : exists w', init_com1 (H := pc.bus) pc.start = Ok (tt, w') /\
  dll (pc.port w') = 3 /\ dlab (pc.port w') = false.
Proof.
  destruct (@init_com1_correct pc.world pc.bus pc.serial pc.start)
    as (w' & E & Hd & Hl & Hn & Hf & Hm & Hs & Hi).
  exists w'. split; [exact E|]. split; [|exact Hn].
  vm_compute in E. injection E as <-. reflexivity.
Defined.

Lemma exception_handlers_correct_witness : exists s' w',
  platform_setup_exception_handlers (H0 := pc.con) (IdtRegister0 := pc.idt_register)
    0xFFFF800012345670 0x8000 statics_zero pc.start = Ok (s', w') /\
  gate_of (table_bytes (idt s')) 4095 6 = Some (Gate 0xFFFF800012345670 0x18 0 0xE 0).
Proof.
  destruct (@exception_handlers_correct pc.world pc.bus pc.con pc.idt_register pc.hlt
    0xFFFF800012345670 0x8000 statics_zero pc.start) as (s' & w' & E & _ & _ & _).
  - reflexivity.
  - split; [discriminate|reflexivity].
  - split; [discriminate|reflexivity].
  - exists s', w'. split; [exact E|]. vm_compute in E. injection E as <- <-.
    vm_compute. reflexivity.
Defined.

Lemma platform_get_cmdline_correct_witness :
  platform_get_cmdline pc.mem 0x9000 = Ok (Some 0x9100).
Proof.
  destruct (platform_get_cmdline_correct pc.mem 0 0x9000) as (_ & H).
  - reflexivity.
  - destruct H as (_ & _ & H); [lia|].
    apply (H pc.info); [discriminate| |discriminate|split; [discriminate|reflexivity]|
      split; [discriminate|reflexivity]].
    apply ldb_u8_check. vm_compute. reflexivity.
Defined.
