(* ===== verification/TrapAmd64.v ===== *)
(** The undefined instruction on AMD64: app_illegal_instruction
    (apps/illegal-instruction), the processor's gate, and the assembly stub of
    kernel/platform/amd64/platform.c around the C handler. *)

From S2P Require Export PlatformAmd64.

Open Scope Z_scope.

(* ------------------------------------------------------------------ *)
(** ** The processor *)

Inductive reg := RAX | RBX | RCX | RDX | RSI | RDI | RBP
  | R8 | R9 | R10 | R11 | R12 | R13 | R14 | R15.
#[export] Instance reg_eq_dec : EqDecision reg.
Proof. solve_decision. Defined.

(** The registers, and the memory as the quadwords at aligned addresses. *)
Record cpu := Cpu {
  gpr : reg -> Z; rsp : Z; rip : Z; rflags : Z; cs : Z; ss : Z; qmem : Z -> Z }.

Definition set_gpr (r : reg) (v : Z) (c : cpu) : cpu :=
  Cpu (fun r' => if decide (r' = r) then v else gpr c r') (rsp c) (rip c) (rflags c) (cs c) (ss c)
    (qmem c).
Definition set_rsp (a : Z) (c : cpu) : cpu :=
  Cpu (gpr c) a (rip c) (rflags c) (cs c) (ss c) (qmem c).
Definition store_qword (a v : Z) (c : cpu) : cpu :=
  Cpu (gpr c) (rsp c) (rip c) (rflags c) (cs c) (ss c)
    (fun x => if decide (x = a) then v else qmem c x).

(** Accesses to the stack; a misaligned one, or one outside the address space, is
    not modelled. *)
Definition push (v : Z) (c : cpu) : res cpu :=
  let a := rsp c - 8 in
  if (0 <=? a) && (a mod 8 =? 0) then Ok (set_rsp a (store_qword a v c)) else UB.
Definition pop (c : cpu) : res (Z * cpu) :=
  if (0 <=? rsp c) && (rsp c mod 8 =? 0) then Ok (qmem c (rsp c), set_rsp (rsp c + 8) c) else UB.

(** Entering a handler through an interrupt gate without a stack switch (Intel SDM,
    volume 3, 6.14): the stack pointer is aligned to 16 bytes and SS, RSP, RFLAGS, CS
    and RIP are pushed; the interrupt flag (bit 9) is cleared. *)
Definition deliver (g : gate) (c : cpu) : res cpu :=
  c1 ← push (ss c) (set_rsp (rsp c / 16 * 16) c);
  c1 ← push (rsp c) c1;
  c1 ← push (rflags c) c1;
  c1 ← push (cs c) c1;
  c1 ← push (rip c) c1;
  mret (Cpu (gpr c1) (rsp c1) (gate_handler g) (Z.ldiff (rflags c1) (2 ^ 9)) (gate_selector g) (ss c1)
          (qmem c1)).

(** The return from it. *)
Definition iretq (c : cpu) : res cpu :=
  '(ip, c) ← pop c;
  '(code, c) ← pop c;
  '(flags, c) ← pop c;
  '(sp, c) ← pop c;
  '(stack, c) ← pop c;
  mret (Cpu (gpr c) sp ip flags code stack (qmem c)).

(* ------------------------------------------------------------------ *)
(** ** The stub *)

Inductive instr :=
| Pushq (r : reg) | Popq (r : reg) | Iretq
| Call_exception_invalid_opcode_handler.

Definition exception_stub_ud : list instr :=
  [Pushq RAX; Pushq RBX; Pushq RCX; Pushq RDX; Pushq RSI; Pushq RDI; Pushq RBP;
   Pushq R8; Pushq R9; Pushq R10; Pushq R11; Pushq R12; Pushq R13; Pushq R14; Pushq R15;
   Call_exception_invalid_opcode_handler;
   Popq R15; Popq R14; Popq R13; Popq R12; Popq R11; Popq R10; Popq R9; Popq R8;
   Popq RBP; Popq RDI; Popq RSI; Popq RDX; Popq RCX; Popq RBX; Popq RAX;
   Iretq].

(** The instruction of app_illegal_instruction: ud2. *)
Definition app_illegal_instruction : bytes := [0x0F; 0x0B].

Section stub.
  Context {W : Type} `{Bus W} `{Console W} `{!IdtRegister W}.
  (** The C function that the stub calls: exception_invalid_opcode_handler in [execute]
      below. *)
  Context (handler : St W control).
  (** What a compiled function leaves in the processor: by the System V ABI the stack
      pointer and what lies on the caller's stack, if it was called with the stack
      aligned to 16 bytes. *)
  Context (called : cpu -> cpu).
  Hypothesis called_rsp : forall c, rsp (called c) = rsp c.
  Hypothesis called_stack : forall c a, rsp c <= a -> qmem (called c) a = qmem c a.

(** [Looping]: the call does not return; the processor is the one that entered it. *)
Definition exec (i : instr) (c : cpu) : St W (cpu * control) :=
  match i with
  | Pushq r => c ← lift (push (gpr c r) c); mret (c, Returned)
  | Popq r => '(v, c) ← lift (pop c); mret (set_gpr r v c, Returned)
  | Iretq => c ← lift (iretq c); mret (c, Returned)
  | Call_exception_invalid_opcode_handler =>
      if (rsp c mod 16 =? 0) && (8 <=? rsp c) then
        k ← handler;
        match k with Returned => mret (called c, Returned) | Looping => mret (c, Looping) end
      else lift UB
  end.
Fixpoint run (code : list instr) (c : cpu) : St W (cpu * control) :=
  match code with
  | [] => mret (c, Returned)
  | i :: code =>
      '(c, k) ← exec i c;
      match k with Returned => run code c | Looping => mret (c, Looping) end
  end.

(** The instruction at [rip c] is undefined: vector 6, a fault.  The stub is at
    [stub], the table at [idt_addr]. *)
Definition fault_ud (stub idt_addr : Z) (s : statics) (c : cpu) : St W (cpu * control) := fun w =>
  match idtr w with
  | Some (limit, base) =>
      match gate_of (table_bytes (idt s)) limit 6 with
      | Some g =>
          if (base =? idt_addr) && (gate_handler g =? stub) && (gate_selector g =? 0x18)
          then (c ← lift (deliver g c); run exception_stub_ud c) w
          else UB
      | None => UB
      end
  | None => UB
  end.

Lemma run_app code1 : forall code2 c w,
  run (code1 ++ code2) c w
  = ('(c, k) ← run code1 c;
     match k with Returned => run code2 c | Looping => mret (c, Looping) end) w.
Proof using.
  induction code1 as [|i code1 IH]; intros code2 c w; [done|]. cbn [app run].
  unfold mbind, St_bind. destruct (exec i c w) as [[[c1 []] w1]| |]; [|done..]. apply IH.
Qed.

(** Code that leaves the stack as it found it. *)
Record framed (c d : cpu) : Prop := Framed {
  framed_rsp : rsp d = rsp c;
  framed_mem : forall a, rsp c <= a -> qmem d a = qmem c a
}.

Lemma push_ok v c : 8 <= rsp c -> rsp c mod 8 = 0 ->
  push v c = Ok (set_rsp (rsp c - 8) (store_qword (rsp c - 8) v c)).
Proof using.
  intros Ha Hm. unfold push. destruct (Z.leb_spec 0 (rsp c - 8)); [|lia].
  destruct (Z.eqb_spec ((rsp c - 8) mod 8) 0); [done|zdm].
Qed.
Lemma pop_ok c : 0 <= rsp c -> rsp c mod 8 = 0 ->
  pop c = Ok (qmem c (rsp c), set_rsp (rsp c + 8) c).
Proof using.
  intros Ha Hm. unfold pop. destruct (Z.leb_spec 0 (rsp c)); [|lia]. by rewrite Hm.
Qed.

(** A register pushed. *)
Lemma exec_push r code c w : 8 <= rsp c -> rsp c mod 8 = 0 ->
  run (Pushq r :: code) c w = run code (set_rsp (rsp c - 8) (store_qword (rsp c - 8) (gpr c r) c)) w.
Proof using.
  intros Ha Hm. cbn [run]. erewrite St_bind_ok; cycle 1.
  { cbn [exec]. erewrite St_bind_ok by (apply lift_ok, push_ok; done). reflexivity. }
  reflexivity.
Qed.

(** Registers pushed before such code and popped after it in the reverse order get
    their values back. *)
Lemma bracket rs code w w' (P : Z -> Prop) :
  (forall c, P (rsp c) -> exists d, run code c w = Ok (d, Returned, w') /\ framed c d) ->
  forall c, P (rsp c - 8 * len rs) -> 8 * len rs <= rsp c -> rsp c mod 8 = 0 ->
  exists d, run ((Pushq <$> rs) ++ code ++ (Popq <$> reverse rs)) c w = Ok (d, Returned, w') /\
    framed c d /\ forall r, r ∈ rs -> gpr d r = gpr c r.
Proof using.
  intros Hcode. induction rs as [|r rs IH]; intros c HP Hl Hm.
  { cbn in HP. rewrite Z.mul_0_r, Z.sub_0_r in HP. destruct (Hcode c HP) as (d & E & Hf).
    exists d. cbn [fmap list_fmap app]. rewrite app_nil_r. split; [done|]. split; [done|].
    intros r Hr. by apply elem_of_nil in Hr. }
  rewrite len_cons in HP, Hl. pose proof (len_nonneg rs).
  set (c1 := set_rsp (rsp c - 8) (store_qword (rsp c - 8) (gpr c r) c)).
  destruct (IH c1) as (d1 & E & [Fr Fm] & Hg).
  { cbn [c1 rsp set_rsp]. replace (rsp c - 8 - 8 * len rs) with (rsp c - 8 * (1 + len rs)) by lia.
    exact HP. }
  { cbn [c1 rsp set_rsp]. lia. }
  { cbn [c1 rsp set_rsp]. zdm. }
  cbn [c1 rsp set_rsp] in Fr. cbn [fmap list_fmap app]. rewrite reverse_cons, fmap_app.
  rewrite !app_assoc. cbn [app]. rewrite exec_push by (lia || done). fold c1. rewrite app_assoc in E. rewrite run_app, (St_bind_ok _ _ _ _ _ E). cbn [fmap list_fmap run].
  assert (rsp d1 mod 8 = 0) by (rewrite Fr; zdm).
  cbn beta iota. erewrite St_bind_ok; cycle 1.
  { cbn [exec]. erewrite St_bind_ok by (apply lift_ok, pop_ok; [lia|done]). reflexivity. }
  eexists. split; [reflexivity|]. cbn [c1 rsp set_rsp qmem store_qword] in Fm.
  assert (qmem d1 (rsp d1) = gpr c r) as Hr.
  { rewrite Fm by (cbn; lia). rewrite Fr. by rewrite decide_True. }
  split.
  - split; cbn [rsp set_gpr set_rsp qmem]; [lia|]. intros a Ha. rewrite Fm by lia.
    by rewrite decide_False by lia.
  - intros r' Hin. cbn [gpr set_gpr set_rsp]. destruct (decide (r' = r)) as [->|Hne]; [done|].
    apply elem_of_cons in Hin as [->|Hin]; [done|]. by rewrite Hg.
Qed.

(** The processor's frame. *)
Lemma deliver_ok g c (a := rsp c / 16 * 16 - 40) : 0x100 <= rsp c ->
  exists d, deliver g c = Ok d /\ gpr d = gpr c /\ rsp d = a /\ rip d = gate_handler g /\
    cs d = gate_selector g /\ Z.testbit (rflags d) 9 = false /\
    (forall x, rsp c <= x -> qmem d x = qmem c x) /\
    [qmem d a; qmem d (a + 8); qmem d (a + 16); qmem d (a + 24); qmem d (a + 32)]
    = [rip c; cs c; rflags c; rsp c; ss c].
Proof using.
  intros Hr. assert (exists k, rsp c / 16 * 16 = 16 * k /\ 16 * k <= rsp c /\ 10 <= k)
    as (k & Hk & Hle & Hk10) by (exists (rsp c / 16); zdm).
  unfold deliver. rewrite Hk.
  do 5 (rewrite push_ok by (cbn [rsp set_rsp]; first [lia|zdm]); cbn [mbind res_bind rsp set_rsp]).
  eexists. split; [reflexivity|]. cbn [gpr rsp rip rflags cs set_rsp qmem store_qword].
  split; [done|]. split; [unfold a; lia|]. split; [done|]. split; [done|].
  split; [by rewrite Z.ldiff_spec, andb_false_r|]. split.
  - intros x Hx. by rewrite !decide_False by lia.
  - unfold a. rewrite Hk. by repeat (case_decide; try lia).
Qed.

(** The interrupted program: its registers, and its stack. *)
Record same_program (c d : cpu) : Prop := SameProgram {
  same_gpr : forall r, gpr d r = gpr c r;
  same_rsp : rsp d = rsp c;
  same_rip : rip d = rip c;
  same_rflags : rflags d = rflags c;
  same_segments : cs d = cs c /\ ss d = ss c;
  same_stack : forall a, rsp c <= a -> qmem d a = qmem c a
}.

Lemma iretq_ok c a : rsp c = a -> 0 <= a -> a mod 8 = 0 ->
  iretq c = Ok (Cpu (gpr c) (qmem c (a + 24)) (qmem c a) (qmem c (a + 16)) (qmem c (a + 8))
                  (qmem c (a + 32)) (qmem c)).
Proof using.
  intros <- Ha Hm. unfold iretq.
  do 5 (rewrite pop_ok by (cbn [rsp set_rsp]; first [lia|zdm]); cbn [mbind res_bind rsp set_rsp]).
  cbn [qmem set_rsp gpr]. rewrite <- !Z.add_assoc. reflexivity.
Qed.

Definition undefined_report : bytes :=
  nl ++ str "[EXCEPTION] Unknown/Illegal Instruction" ++ nl
  ++ str "The CPU encountered an instruction it does not recognize." ++ nl
  ++ str "System halted." ++ nl.

Definition saved : list reg :=
  [RAX; RBX; RCX; RDX; RSI; RDI; RBP; R8; R9; R10; R11; R12; R13; R14; R15].
Lemma all_saved r : r ∈ saved.
Proof using. clear. destruct r; unfold saved; set_solver. Qed.
Lemma stub_shape : exception_stub_ud
  = (Pushq <$> saved) ++ [Call_exception_invalid_opcode_handler] ++ (Popq <$> reverse saved) ++ [Iretq].
Proof using. reflexivity. Qed.

Lemma exec_call c w : rsp c mod 16 = 0 -> 8 <= rsp c ->
  run [Call_exception_invalid_opcode_handler] c w
  = (k ← handler; mret (match k with Returned => called c | Looping => c end, k)) w.
Proof using.
  intros Hm Hl. cbn [run exec]. rewrite Hm. destruct (Z.leb_spec 8 (rsp c)); [|lia].
  cbn [Z.eqb andb]. unfold mbind, St_bind. by destruct (handler w) as [[[] w1]| |].
Qed.

(** The stub around a handler that returns: the interrupted program goes on where it
    was.  The handler of platform.c does not return. *)
Lemma stub_returns g c w w' : 0x100 <= rsp c -> handler w = Ok (Returned, w') ->
  exists d, (c ← lift (deliver g c); run exception_stub_ud c) w = Ok (d, Returned, w') /\
    same_program c d.
Proof using called_rsp called_stack.
  intros Hr Hh. destruct (deliver_ok g c Hr) as (c1 & E1 & Hg & Hsp & _ & _ & _ & Habove & Hframe).
  set (a := rsp c / 16 * 16 - 40) in *.
  assert (200 <= a /\ (a - 8 * len saved) mod 16 = 0) as [Ha Hal]
    by (unfold a; change (len saved) with 15; split; zdm).
  erewrite St_bind_ok by (apply lift_ok; exact E1).
  rewrite stub_shape, !app_assoc, run_app, <- !app_assoc.
  destruct (bracket saved [Call_exception_invalid_opcode_handler] w w'
    (fun p => p mod 16 = 0 /\ 8 <= p)) with (c := c1) as (d1 & E & [Fr Fm] & Hsaved).
  - intros c2 [Hm2 Hl2]. exists (called c2). split; [|split; [done|by apply called_stack]].
    rewrite exec_call by done. erewrite St_bind_ok by exact Hh. reflexivity.
  - rewrite Hsp. change (len saved) with 15 in *. lia.
  - rewrite Hsp. change (len saved) with 15. lia.
  - rewrite Hsp. unfold a. zdm.
  - rewrite (St_bind_ok _ _ _ _ _ E). cbn [run exec].
    rewrite Hsp in Fr, Fm. rewrite (iretq_ok d1 a Fr) by (unfold a; first [lia|zdm]).
    eexists. split; [reflexivity|]. injection Hframe as F0 F1 F2 F3 F4.
    split; cbn [gpr rsp rip rflags cs ss qmem]; rewrite ?Fm by lia; try done.
    + intros r. rewrite Hsaved by apply all_saved. by rewrite Hg.
    + intros x Hx. rewrite Fm; [by apply Habove|]. unfold a. zdm.
Qed.

(** The processor [d] that entered the C function for the program [c]: interrupts off,
    the stack aligned, on it the registers, the processor's frame above them, and above
    that the program's stack. *)
Record in_handler (c d : cpu) : Prop := InHandler {
  handler_aligned : rsp d mod 16 = 0;
  handler_cs : cs d = 0x18;
  handler_interrupts : Z.testbit (rflags d) 9 = false;
  handler_saved : forall i r, saved !! i = Some r -> qmem d (rsp d + 8 * (14 - Z.of_nat i)) = gpr c r;
  handler_frame : (fun i => qmem d (rsp d + 8 * (15 + i))) <$> [0; 1; 2; 3; 4]
    = [rip c; cs c; rflags c; rsp c; ss c];
  handler_stack : rsp d < rsp c /\ forall a, rsp c <= a -> qmem d a = qmem c a
}.

(** Registers pushed one after the other. *)
Fixpoint push_all (rs : list reg) (c : cpu) : res cpu :=
  match rs with [] => Ok c | r :: rs => c ← push (gpr c r) c; push_all rs c end.
Lemma push_all_ok rs : forall c, 8 * len rs <= rsp c -> rsp c mod 8 = 0 ->
  exists d, push_all rs c = Ok d /\
    rsp d = rsp c - 8 * len rs /\ cs d = cs c /\ rflags d = rflags c /\
    (forall a, rsp c <= a -> qmem d a = qmem c a) /\
    forall i r, rs !! i = Some r -> qmem d (rsp c - 8 * (Z.of_nat i + 1)) = gpr c r.
Proof using.
  clear. induction rs as [|r rs IH]; intros c Hl Hm.
  { exists c. rewrite Z.mul_0_r, Z.sub_0_r. by split_and!. }
  rewrite len_cons in Hl. pose proof (len_nonneg rs).
  destruct (IH (set_rsp (rsp c - 8) (store_qword (rsp c - 8) (gpr c r) c)))
    as (d & E & Hr & Hc & Hf & Hm' & Hs); [cbn; lia|cbn; zdm|].
  cbn [rsp cs rflags gpr qmem set_rsp store_qword] in *. exists d. split_and!; try done.
  - cbn [push_all]. rewrite push_ok by (lia || done). exact E.
  - rewrite len_cons. lia.
  - intros a Ha. rewrite Hm' by lia. by rewrite decide_False by lia.
  - intros [|i] r' Hi.
    + injection Hi as <-. rewrite Hm' by lia. by rewrite decide_True by lia.
    + rewrite <- (Hs i r' Hi). f_equal. lia.
Qed.

(** The processor that enters the C function. *)
Definition entered (g : gate) (c : cpu) : res cpu := c ← deliver g c; push_all saved c.
Lemma entered_ok g c : 0x100 <= rsp c -> gate_selector g = 0x18 ->
  exists d, entered g c = Ok d /\ 8 <= rsp d /\ in_handler c d.
Proof using.
  clear. intros Hr Hsel.
  destruct (deliver_ok g c Hr) as (c1 & E1 & Hg & Hsp & _ & Hcs & Hif & Habove & Hframe).
  set (a := rsp c / 16 * 16 - 40) in *.
  assert (200 <= a /\ (a - 120) mod 16 = 0 /\ a < rsp c) as (Ha & Hal & Hlt)
    by (unfold a; split_and!; zdm).
  assert (a mod 8 = 0) as Ha8 by (unfold a; zdm).
  destruct (push_all_ok saved c1) as (d & E & Dr & Dc & Df & Dm & Ds);
    [rewrite Hsp; change (len saved) with 15; clearbody a; lia|by rewrite Hsp|].
  change (len saved) with 15 in Dr. rewrite Hsp in Dr, Dm, Ds.
  exists d. unfold entered. rewrite E1. split; [exact E|]. split; [lia|].
  split; rewrite ?Dc, ?Df; try done; try congruence.
  - rewrite Dr. by replace (a - 8 * 15) with (a - 120) by lia.
  - intros i r Hi. rewrite <- Hg, <- (Ds i r Hi). f_equal. lia.
  - assert (forall i, 0 <= i -> qmem d (rsp d + 8 * (15 + i)) = qmem c1 (a + 8 * i)) as Hi.
    { intros i Hi. rewrite Dm by lia. f_equal. lia. }
    cbn [fmap list_fmap]. rewrite !Hi, Z.mul_0_r, Z.add_0_r by lia. exact Hframe.
  - split; [lia|]. intros x Hx. rewrite Dm by lia. by apply Habove.
Qed.

Lemma run_pushes rs code w : forall c d, push_all rs c = Ok d ->
  run ((Pushq <$> rs) ++ code) c w = run code d w.
Proof using.
  induction rs as [|r rs IH]; intros c d E; [by injection E as ->|]. cbn [push_all] in E.
  apply res_bind_inv in E as (c1 & E1 & E2). rewrite <- (IH c1 d E2). cbn [fmap list_fmap app run].
  rewrite (St_bind_ok _ _ w (c1, Returned) w); [done|].
  cbn [exec]. by erewrite St_bind_ok by (apply lift_ok; exact E1).
Qed.

(** The stub around a handler that does [m] and does not return. *)
Lemma stub_loops {A} g c d (m : St W A) w w0 : entered g c = Ok d -> 8 <= rsp d -> rsp d mod 16 = 0 ->
  handler w = (_ ← m; mret Looping) w0 ->
  (c ← lift (deliver g c); run exception_stub_ud c) w = (_ ← m; mret (d, Looping)) w0.
Proof using.
  intros (c1 & E1 & E2)%res_bind_inv Hd2 Hd1 Hh.
  erewrite St_bind_ok by (apply lift_ok; exact E1). rewrite stub_shape, (run_pushes _ _ _ _ _ E2), run_app.
  rewrite (St_bind_eq_l _ _ _ _ (exec_call d w Hd1 Hd2)).
  revert Hh. unfold mbind, St_bind. intros ->. by destruct (m w0) as [[x w1]| |].
Qed.
End stub.

Section ud.
  Context {W : Type} `{Bus W} `{Console W} `{!IdtRegister W} `{Hlt W}.
  Context (called : cpu -> cpu).

(** The processor at the instruction of the application; others are not modelled. *)
Definition execute (n : nat) (mem : memory) (stub idt_addr : Z) (s : statics) (c : cpu)
    : St W (cpu * control) :=
  match mem (rip c), mem (rip c + 1) with
  | Some b0, Some b1 =>
      if (b0 =? 0x0F) && (b1 =? 0x0B)
      then fault_ud (exception_invalid_opcode_handler n) called stub idt_addr s c else lift UB
  | _, _ => lift UB
  end.

Lemma handler_ok `{!ConsoleLaws W} n w :
  exception_invalid_opcode_handler n w
  = (_ ← bus_write Port8 0xf4 0x10; forever n hlt) (con_write undefined_report w).
Proof using.
  unfold exception_invalid_opcode_handler. do 3 (erewrite St_bind_ok by reflexivity).
  rewrite !con_write_app. unfold undefined_report. by rewrite <- !app_assoc.
Qed.

(** ** Properties *)

(** C38: After platform_setup_exception_handlers, for any 64-bit addresses of stub and
    table, the processor finds a gate for vector 6 only, the 64-bit interrupt gate to
    the stub.  The instruction of app_illegal_instruction then enters the stub, which
    calls the C handler with the interrupts off and the stack aligned as the ABI wants
    it; the fifteen registers of the program, its frame and its stack are all in memory.
    The handler prints its report, writes to the exit device and, where that write
    returns, halts the processor over and over: whatever the number [n] of rounds, the
    call has not returned, and nothing else has been written. *)
Theorem amd64_illegal_instruction `{!ConsoleLaws W} mem stub base s w :
  length (idt s) = 256%nat -> is_u64 stub -> is_u64 base ->
  exists s' w', platform_setup_exception_handlers stub base s w = Ok (s', w') /\
    (forall v, 0 <= v -> gate_of (table_bytes (idt s')) (len (table_bytes (idt s')) - 1) v
       = if v =? 6 then Some (Gate stub 0x18 0 0xE 0) else None) /\
    forall c w2, idtr w2 = idtr w' -> bytes_at mem (rip c) app_illegal_instruction ->
      0x100 <= rsp c ->
      exists d, in_handler c d /\
        forall n, execute n mem stub base s' c w2
          = (_ ← bus_write Port8 0xF4 0x10; _ ← forever n hlt; mret (d, Looping))
              (con_write undefined_report w2).
Proof using.
  intros Hl Hs Hb. destruct (exception_handlers_correct stub base s w Hl Hs Hb)
    as (s' & w' & E & Hidtr & Hgates & _).
  exists s', w'. split; [done|]. split; [done|]. intros c w2 Hw2 Hmem Hr.
  assert (mem (rip c) = Some 0x0F /\ mem (rip c + 1) = Some 0x0B) as [M0 M1].
  { split; [rewrite <- (Z.add_0_r (rip c))|]; [apply (Hmem 0%nat)|apply (Hmem 1%nat)]; done. }
  destruct (entered_ok (Gate stub 0x18 0 0xE 0) c Hr eq_refl) as (d & Ed & Hl8 & Hd).
  exists d. split; [done|]. intros n.
  unfold execute. rewrite M0, M1. cbn [Z.eqb Pos.eqb andb].
  unfold fault_ud. rewrite Hw2, Hidtr, Hgates by lia. cbn [Z.eqb Pos.eqb gate_handler gate_selector].
  rewrite !Z.eqb_refl. cbn [andb].
  rewrite (stub_loops _ called _ c d (_ ← bus_write Port8 0xF4 0x10; forever n hlt) w2
    (con_write undefined_report w2)); [by rewrite St_bind_assoc|done..|apply Hd|].
  rewrite handler_ok, St_bind_assoc. apply St_bind_ext. intros ? w3 _. apply forever_loops.
Qed.
End ud.

(** ** A processor *)

Module ud_sample.
#[export] Instance laws : @ConsoleLaws pc.world pc.con.
Proof.
  split; [done|..].
  - intros [p b t [o l]]. unfold con_write. cbn. by rewrite app_nil_r.
  - intros s u [p b t [o l]]. unfold con_write. cbn. by rewrite app_assoc.
Qed.

(** A compiled function that destroys every register and the stack below its own. *)
Definition called (c : cpu) : cpu :=
  Cpu (fun _ => 0xDEAD) (rsp c) (rip c) 0 (cs c) (ss c)
    (fun a => if a <? rsp c then 0xBAD else qmem c a).

(** The application at 0x1000. *)
Definition mem : memory := fun a =>
  if a =? 0x1000 then Some 0x0F else if a =? 0x1001 then Some 0x0B else None.
Definition before : cpu :=
  Cpu (fun r => if decide (r = RAX) then 17 else 42) 0x9FF8 0x1000 0x202 0x18 0x10 (fun a => a).
End ud_sample.

Lemma amd64_illegal_instruction_witness : exists s' w' w3 d,
  platform_setup_exception_handlers (H0 := pc.con) (IdtRegister0 := pc.idt_register)
    0x7000 0x8000 statics_zero pc.running = Ok (s', w') /\
  @execute pc.world pc.bus pc.con pc.idt_register pc.hlt ud_sample.called 20 ud_sample.mem 0x7000 0x8000
    s' ud_sample.before w' = Ok (d, Looping, w3) /\
  rsp d mod 16 = 0 /\ qmem d (rsp d + 8 * 14) = 17 /\ qmem d (rsp d + 8 * 0) = 42.
Proof.
  destruct (@amd64_illegal_instruction pc.world pc.bus pc.con pc.idt_register pc.hlt ud_sample.called
    ud_sample.laws ud_sample.mem 0x7000 0x8000 statics_zero pc.running) as (s' & w' & E & _ & H);
    [reflexivity|split; [discriminate|reflexivity]..|].
  destruct (H ud_sample.before w') as (d & Hd & Ed).
  - reflexivity.
  - intros [|[|[|i]]] v; intros [= <-]; reflexivity.
  - discriminate.
  - exists s', w', (@con_write _ pc.con undefined_report w'), d. split; [exact E|].
    split; [rewrite (Ed 20%nat); reflexivity|]. split; [apply Hd|].
    split; [exact (handler_saved _ _ Hd 0 RAX eq_refl)|exact (handler_saved _ _ Hd 14 R15 eq_refl)].
Defined.
