(* ===== verification/PlatformArm64.v ===== *)
(** The ARM64 platform (kernel/platform/arm64/platform.c): the PL011 UART, the command
    line from the device tree, and the report of an exception.  The exception registers
    and the hypervisor call are parameters. *)

From S2P Require Export Io Fdt.

Open Scope Z_scope.

Definition UART0 : Z := 0x09000000.
Definition PSCI_SYSTEM_OFF : Z := 0x84000008.

Definition platform_get_cmdline (mem : memory) (boot_param : Z) : res (option Z) :=
  fdt_get_bootargs mem boot_param.

(** The exception link, syndrome and vector base registers of EL1, HVC #0 and WFE. *)
Class Arm64Cpu (W : Type) := {
  elr_el1 : W -> Z;
  esr_el1 : W -> Z;
  msr_vbar_el1 : Z -> W -> W;
  hvc : Z -> St W unit;
  wfe : St W unit
}.

Section platform.
  Context {W : Type} `{Bus W}.

(** [char] is unsigned on ARM64. *)
Definition platform_putchar (c : Z) : St W unit := bus_write Mmio32 UART0 (u8 c).
Definition platform_puts : cstr -> St W unit := send_string platform_putchar.

  Context `{Console W} `{Arm64Cpu W}.

(** The call, and [n] rounds of the loop after it. *)
Definition platform_halt (n : nat) : St W control := _ ← hvc PSCI_SYSTEM_OFF; forever n wfe.

Definition platform_setup_exception_handlers (exception_vector_base : Z) : St W unit :=
  _ ← modify (msr_vbar_el1 exception_vector_base);
  kput (puts (str "[ARM64] Exception handlers installed" ++ nl)).

Definition platform_init (exception_vector_base : Z) : St W unit :=
  platform_setup_exception_handlers exception_vector_base.

(** The name of an exception class. *)
Definition class_message (ec : Z) : string :=
  if ec =? 0x00 then "Unknown/Illegal Instruction"
  else if ec =? 0x0E then "Illegal Instruction"
  else if (ec =? 0x24) || (ec =? 0x25) then "Data Abort"
  else if (ec =? 0x20) || (ec =? 0x21) then "Instruction Abort"
  else "Unknown Exception".

Definition exception_unknown_instruction (n : nat) (mem : memory) : St W control :=
  elr ← gets elr_el1;
  esr ← gets esr_el1;
  instruction ← lift (ldw mem elr);
  let ec := u32 (Z.land (Z.shiftr esr 26) 0x3F) in
  let iss := u32 (Z.land esr 0x1FFFFFF) in
  _ ← kput (puts (nl ++ str "[EXCEPTION] "));
  _ ← kput (puts (str (class_message ec) ++ nl));
  _ ← kputs "EC=0x";
  _ ← kput (puts (put_hex8 (u8 ec)));
  _ ← kputs " ISS=0x";
  _ ← kput (puts (put_hex32 iss));
  _ ← kput (puts (nl ++ str "Address: 0x"));
  _ ← kput (puts (put_hex32 (u32 (Z.shiftr elr 32))));
  _ ← kput (puts (put_hex32 (u32 elr)));
  _ ← kput (puts (nl ++ str "Instruction: 0x"));
  _ ← kput (puts (put_hex32 instruction));
  _ ← kput (puts (nl ++ str "System halted." ++ nl));
  platform_halt n.
End platform.

(* ------------------------------------------------------------------ *)
(** ** Specification *)

(** A UART that takes every character at once: the virtual PL011. *)
Class Pl011 (W : Type) `{Bus W} := {
  uart_sent : W -> bytes;
  uart_write_ok : forall c w, is_u8 c ->
    exists w', bus_write Mmio32 UART0 c w = Ok (tt, w') /\ uart_sent w' = uart_sent w ++ [c]
}.

(** ESR_EL1: the exception class, the instruction length bit and the syndrome (the
    bits above them are zero). *)
Definition syndrome (ec il iss : Z) : Z := ec * 2 ^ 26 + il * 2 ^ 25 + iss.

(** The report of an exception, with its four numbers in hexadecimal. *)
Definition report (ec_digits iss_digits elr_digits instr_digits : bytes) (ec : Z) : bytes :=
  nl ++ str "[EXCEPTION] " ++ str (class_message ec) ++ nl
  ++ str "EC=0x" ++ ec_digits ++ str " ISS=0x" ++ iss_digits
  ++ nl ++ str "Address: 0x" ++ elr_digits
  ++ nl ++ str "Instruction: 0x" ++ instr_digits
  ++ nl ++ str "System halted." ++ nl.

Lemma syndrome_fields ec il iss : 0 <= ec < 64 -> 0 <= il < 2 -> 0 <= iss < 2 ^ 25 ->
  Z.land (Z.shiftr (syndrome ec il iss) 26) 0x3F = ec /\
  Z.land (syndrome ec il iss) 0x1FFFFFF = iss.
Proof.
  intros. unfold syndrome. change 0x3F with (Z.ones 6). change 0x1FFFFFF with (Z.ones 25).
  rewrite !Z.land_ones, Z.shiftr_div_pow2 by lia. split; zdm.
Qed.

(** ** Properties *)

Theorem arm64_puts_correct `{Pl011 W} s w : is_bytes s -> no_nul s ->
  exists w', platform_puts s w = Ok (tt, w') /\ uart_sent w' = uart_sent w ++ s.
Proof.
  intros Hb Hs.
  destruct (send_string_ok platform_putchar uart_sent (fun _ => True) s) with (w := w)
    as (w' & E & H' & _); [|done..|by exists w'].
  intros c w1 Hc _. unfold platform_putchar. rewrite u8_id by done.
  destruct (uart_write_ok c w1 Hc) as (w2 & E2 & H2). by exists w2.
Qed.

(** An exception of any class is reported with its class, its syndrome, the address and
    the word of the instruction, each in hexadecimal digits of that value; then the machine
    is switched off, and the call never returns. *)
Theorem exception_report_correct {W} `{Bus W} `{ConsoleLaws W} `{Arm64Cpu W} mem ec il iss instr w :
  0 <= ec < 64 -> 0 <= il < 2 -> 0 <= iss < 2 ^ 25 -> is_u64 (elr_el1 w) -> is_u32 instr ->
  esr_el1 w = syndrome ec il iss -> ldw mem (elr_el1 w) = Ok instr ->
  exists d1 d2 d3 d4,
    parse_hex d1 = ec /\ parse_hex d2 = iss /\ parse_hex d3 = elr_el1 w /\ parse_hex d4 = instr /\
    forall n, exception_unknown_instruction n mem w
      = (_ ← hvc 0x84000008; forever n wfe) (con_write (report d1 d2 d3 d4 ec) w).
Proof.
  intros Hec Hil Hiss Helr Hin Hesr Hld.
  destruct (syndrome_fields ec il iss) as [Fe Fi]; [done..|].
  exists (put_hex8 ec), (put_hex32 iss),
    (put_hex32 (u32 (Z.shiftr (elr_el1 w) 32)) ++ put_hex32 (u32 (elr_el1 w))), (put_hex32 instr).
  split; [by apply put_hex8_spec; unfold is_u8; lia|].
  split; [by apply put_hex32_spec; unfold is_u32; lia|].
  split; [by apply put_hex_halves|]. split; [by apply put_hex32_spec|].
  intros n. unfold exception_unknown_instruction. do 2 (erewrite St_bind_ok by reflexivity).
  erewrite St_bind_ok by (apply lift_ok; exact Hld). rewrite Hesr, Fe, Fi.
  rewrite (u32_id ec), (u32_id iss), (u8_id ec) by (unfold is_u32, is_u8; lia).
  do 12 (erewrite St_bind_ok by reflexivity). rewrite !con_write_app.
  unfold report, platform_halt, PSCI_SYSTEM_OFF. by rewrite <- !app_assoc.
Qed.
