(* ===== verification/TrapArm64.v ===== *)
(** Exceptions on ARM64: the vector table of kernel/platform/arm64/platform.c as the
    assembler lays it out, the processor's entry into it, and the instruction of
    app_illegal_instruction (apps/illegal-instruction). *)

From S2P Require Export PlatformArm64.

Open Scope Z_scope.

(* ------------------------------------------------------------------ *)
(** ** The vector table *)

(** Lines of the assembly text: [.align n] is to 2^n bytes; an instruction takes 4. *)
Inductive item :=
| Align (n : Z) | Label (l : string) | B (l : string) | Bl (l : string) | B_self.

#[export] Instance item_eq_dec : EqDecision item.
Proof. solve_decision. Defined.

Definition vector_table : list item :=
  [Align 11; Label "exception_vector_base"; Align 7; B "exception_sync_el1t";
   Align 7; B "exception_irq_el1t"; Align 7; B "exception_fiq_el1t";
   Align 7; B "exception_serror_el1t"; Align 7; B "exception_sync_el1h";
   Align 7; B "exception_irq_el1h"; Align 7; B "exception_fiq_el1h";
   Align 7; B "exception_serror_el1h"; Align 7; B "exception_sync_el0_64";
   Align 7; B "exception_irq_el0_64"; Align 7; B "exception_fiq_el0_64";
   Align 7; B "exception_serror_el0_64"; Align 7; B "exception_sync_el0_32";
   Align 7; B "exception_irq_el0_32"; Align 7; B "exception_fiq_el0_32";
   Align 7; B "exception_serror_el0_32"].
Definition vector_stubs : list item :=
  [Label "exception_sync_el1t"; Bl "exception_unknown_instruction"; B_self;
   Label "exception_irq_el1t"; Bl "exception_unknown_instruction"; B_self;
   Label "exception_fiq_el1t"; Bl "exception_unknown_instruction"; B_self;
   Label "exception_serror_el1t"; Bl "exception_unknown_instruction"; B_self;
   Label "exception_sync_el1h"; Bl "exception_unknown_instruction"; B_self;
   Label "exception_irq_el1h"; Bl "exception_unknown_instruction"; B_self;
   Label "exception_fiq_el1h"; Bl "exception_unknown_instruction"; B_self;
   Label "exception_serror_el1h"; Bl "exception_unknown_instruction"; B_self;
   Label "exception_sync_el0_64"; Bl "exception_unknown_instruction"; B_self;
   Label "exception_irq_el0_64"; Bl "exception_unknown_instruction"; B_self;
   Label "exception_fiq_el0_64"; Bl "exception_unknown_instruction"; B_self;
   Label "exception_serror_el0_64"; Bl "exception_unknown_instruction"; B_self;
   Label "exception_sync_el0_32"; Bl "exception_unknown_instruction"; B_self;
   Label "exception_irq_el0_32"; Bl "exception_unknown_instruction"; B_self;
   Label "exception_fiq_el0_32"; Bl "exception_unknown_instruction"; B_self;
   Label "exception_serror_el0_32"; Bl "exception_unknown_instruction"; B_self].

(** Labels and instructions with their offsets in the section, which itself is aligned
    as its strongest [.align] asks. *)
Fixpoint place (offset : Z) (items : list item) : list (Z * item) :=
  match items with
  | [] => []
  | Align n :: items => place ((offset + 2 ^ n - 1) / 2 ^ n * 2 ^ n) items
  | Label l :: items => (offset, Label l) :: place offset items
  | i :: items => (offset, i) :: place (offset + 4) items
  end.
Definition section : list (Z * item) := place 0 (vector_table ++ vector_stubs).

Fixpoint label_offset (l : string) (s : list (Z * item)) : option Z :=
  match s with
  | [] => None
  | (o, Label l') :: s => if String.eqb l l' then Some o else label_offset l s
  | _ :: s => label_offset l s
  end.
Fixpoint instruction_at (offset : Z) (s : list (Z * item)) : option item :=
  match s with
  | [] => None
  | (_, Label _) :: s => instruction_at offset s
  | (o, i) :: s => if o =? offset then Some i else instruction_at offset s
  end.

(** The instruction of app_illegal_instruction: the word 0, undefined. *)
Definition app_illegal_instruction : bytes := [0; 0; 0; 0].

Lemma illegal_word mem a : bytes_at mem a app_illegal_instruction -> ldw mem a = Ok 0.
Proof. intros (E0 & E1 & E2 & E3)%read4_at. unfold ldw. by rewrite E0, E1, E2, E3. Qed.

(* ------------------------------------------------------------------ *)
(** ** The processor *)

(** The vector base register, whose low 11 bits are reserved and zero, and the entry
    into an exception, which records the return address and the syndrome. *)
Class Arm64Exceptions (W : Type) `{Console W} `{Arm64Cpu W} := {
  vbar_el1 : W -> Z;
  record_exception : Z -> Z -> W -> W;
  vbar_msr : forall v w, vbar_el1 (msr_vbar_el1 v w) = v / 2 ^ 11 * 2 ^ 11;
  vbar_write : forall s w, vbar_el1 (con_write s w) = vbar_el1 w;
  recorded_elr : forall elr esr w, elr_el1 (record_exception elr esr w) = elr;
  recorded_esr : forall elr esr w, esr_el1 (record_exception elr esr w) = esr;
  recorded_vbar : forall elr esr w, vbar_el1 (record_exception elr esr w) = vbar_el1 w
}.

Section vectors.
  Context {W : Type} `{bus : Bus W} `{Console W} `{Arm64Cpu W} `{!Arm64Exceptions W}.
  (** The address of the section, and the memory the handler reads. *)
  Context (base : Z) (mem : memory).

(** One instruction at [pc], a loop without end in the C function being followed for
    [rounds]; the result is the next [pc], or where the call was made that has not
    returned. *)
Definition step (rounds : nat) (pc : Z) : St W (Z * control) :=
  match instruction_at (pc - base) section with
  | Some (B l) =>
      match label_offset l section with Some o => mret (base + o, Returned) | None => lift UB end
  | Some (Bl l) =>
      if String.eqb l "exception_unknown_instruction" then
        k ← exception_unknown_instruction rounds mem;
        match k with Returned => mret (pc + 4, Returned) | Looping => mret (pc, Looping) end
      else lift UB
  | Some B_self => mret (pc, Returned)
  | _ => lift UB
  end.
Fixpoint steps (rounds n : nat) (pc : Z) : St W (Z * control) :=
  match n with
  | O => mret (pc, Returned)
  | S n =>
      '(pc, k) ← step rounds pc;
      match k with Returned => steps rounds n pc | Looping => mret (pc, Looping) end
  end.

(** The exceptions in the order of the table: from the current level with SP_EL0, with
    SP_ELx, from a lower level in AArch64, in AArch32; each synchronous, IRQ, FIQ and
    SError (Arm ARM, D1.3.1). *)
Definition vector_offset (kind : Z) : Z := 0x80 * kind.

(** The processor takes an exception with return address [elr] and syndrome [esr], and
    executes [n] instructions. *)
Definition exception (kind elr esr : Z) (rounds n : nat) : St W (Z * control) :=
  _ ← modify (record_exception elr esr);
  vbar ← gets vbar_el1;
  steps rounds n (vbar + vector_offset kind).

(** Every vector branches to a stub that calls the handler and then loops. *)
Definition vector_leads (kind : Z) : bool :=
  match instruction_at (vector_offset kind) section with
  | Some (B l) =>
      match label_offset l section with
      | Some o =>
          bool_decide (instruction_at o section = Some (Bl "exception_unknown_instruction")
            /\ instruction_at (o + 4) section = Some B_self)
      | None => false
      end
  | _ => false
  end.
Lemma vector_ok kind : 0 <= kind < 16 -> exists l o,
  instruction_at (vector_offset kind) section = Some (B l) /\
  label_offset l section = Some o /\
  instruction_at o section = Some (Bl "exception_unknown_instruction") /\
  instruction_at (o + 4) section = Some B_self.
Proof using.
  clear. intros Hk. assert (vector_leads kind = true) as Hv.
  { assert (forallb vector_leads (Z.of_nat <$> seq 0 16) = true) as Hall by (vm_compute; reflexivity).
    rewrite forallb_forall in Hall. apply Hall, list_elem_of_In, list_elem_of_fmap.
    exists (Z.to_nat kind). rewrite elem_of_seq. lia. }
  unfold vector_leads in Hv. destruct (instruction_at _ section) as [[| |l| |]|]; try discriminate Hv.
  exists l. destruct (label_offset l section) as [o|]; [|discriminate Hv].
  apply bool_decide_eq_true in Hv as [H1 H2]. by exists o.
Qed.

(** ** Properties *)

(** C39: After platform_setup_exception_handlers, on a vector table at a 2 KB boundary, an
    exception of any of the sixteen kinds, with any syndrome and any readable return
    address, reaches the `bl` of its vector's stub to exception_unknown_instruction: the
    class, the syndrome, the address and the instruction's word are printed in
    hexadecimal, and the machine is switched off.  Where the call to the firmware
    returns, the processor waits for events over and over: whatever the number of rounds,
    the call has not returned, and nothing else has been done.  The instruction of
    app_illegal_instruction is the case of the class 0. *)
Theorem arm64_exception_halts `{!ConsoleLaws W} w : (2 ^ 11 | base) ->
  exists w1, platform_setup_exception_handlers base w = Ok (tt, w1) /\
  forall w2 kind ec il iss elr instr, vbar_el1 w2 = vbar_el1 w1 ->
    0 <= kind < 16 -> 0 <= ec < 64 -> 0 <= il < 2 -> 0 <= iss < 2 ^ 25 ->
    is_u64 elr -> is_u32 instr -> ldw mem elr = Ok instr ->
    exists d1 d2 d3 d4 o,
      parse_hex d1 = ec /\ parse_hex d2 = iss /\ parse_hex d3 = elr /\ parse_hex d4 = instr /\
      instruction_at o section = Some (Bl "exception_unknown_instruction") /\
      forall rounds n, exception kind elr (syndrome ec il iss) rounds (S (S n)) w2
        = (_ ← hvc PSCI_SYSTEM_OFF; _ ← forever rounds wfe; mret (base + o, Looping))
            (con_write (report d1 d2 d3 d4 ec) (record_exception elr (syndrome ec il iss) w2)).
Proof using bus.
  intros [b Hb]. eexists. split; [reflexivity|].
  intros w2 kind ec il iss elr instr Hv Hk Hec Hil Hiss Helr Hin Hld.
  rewrite vbar_write, vbar_msr in Hv.
  assert (vbar_el1 w2 = base) as Hbase by (rewrite Hv, Hb, Z.div_mul; lia). clear Hv Hb b.
  set (w0 := record_exception elr (syndrome ec il iss) w2).
  assert (elr_el1 w0 = elr) as Hw1 by apply recorded_elr.
  destruct (exception_report_correct mem ec il iss instr w0)
    as (d1 & d2 & d3 & d4 & P1 & P2 & P3 & P4 & E); rewrite ?Hw1; try done; [apply recorded_esr|].
  rewrite Hw1 in P3. destruct (vector_ok kind Hk) as (l & o & I1 & I2 & I3 & _).
  exists d1, d2, d3, d4, o. do 5 (split; [done|]). intros rounds n.
  unfold exception. erewrite St_bind_ok by reflexivity. fold w0. erewrite St_bind_ok by reflexivity.
  unfold w0 at 1. rewrite recorded_vbar, Hbase. fold w0. cbn [steps].
  rewrite (St_bind_ok _ _ w0 (base + o, Returned) w0)
    by (unfold step; rewrite Z.add_simpl_l, I1, I2; reflexivity).
  cbn beta iota. unfold step. rewrite Z.add_simpl_l, I3. cbn [String.eqb Ascii.eqb eqb].
  rewrite !St_bind_assoc, (St_bind_move _ _ _ _ _ (E rounds)), St_bind_assoc.
  apply St_bind_ext. intros ? w3 _. rewrite (St_bind_eq_l _ _ _ w3 (forever_loops rounds wfe w3)), St_bind_assoc.
  apply St_bind_ext. intros ? w4 _. reflexivity.
Qed.
End vectors.

(** ** A processor *)

Module vector_sample.
Record world := World {
  elr : Z; esr : Z; vbar : Z; powered : bool; screen : console }.
Definition bus : Bus world := {| bus_read _ _ w := Ok (0, w); bus_write _ _ _ w := Ok (tt, w) |}.
#[export] Instance con : Console world := {|
  con_write s w := World (elr w) (esr w) (vbar w) (powered w) (con_write s (screen w));
  con_log w := con_log (screen w);
  con_set_log l w := World (elr w) (esr w) (vbar w) (powered w) (con_set_log l (screen w)) |}.
#[export] Instance laws : ConsoleLaws world.
Proof.
  split; [done|..].
  - intros [e f v p [o l]]. unfold con_write. cbn. by rewrite app_nil_r.
  - intros s u [e f v p [o l]]. unfold con_write. cbn. by rewrite app_assoc.
Qed.
#[export] Instance processor : Arm64Cpu world := {|
  elr_el1 := elr; esr_el1 := esr;
  msr_vbar_el1 v w := World (elr w) (esr w) (v / 2 ^ 11 * 2 ^ 11) (powered w) (screen w);
  hvc call w := Ok (tt, World (elr w) (esr w) (vbar w) (negb (call =? 0x84000008)) (screen w));
  wfe := skip |}.
#[export] Instance exceptions : Arm64Exceptions world.
Proof.
  refine {| vbar_el1 := vbar;
    record_exception a b w := World a b (vbar w) (powered w) (screen w) |}; reflexivity.
Defined.
Definition start : world := World 0 0 0 true (ConsoleState [] log_empty).

(** The application's instruction at 0x40001000. *)
Definition mem : memory := fun a =>
  if (0x40001000 <=? a) && (a <? 0x40001004) then Some 0 else None.
End vector_sample.

Lemma arm64_exception_halts_witness : exists w1 pc w3,
  @platform_setup_exception_handlers vector_sample.world vector_sample.con vector_sample.processor
    0x40080000 vector_sample.start = Ok (tt, w1) /\
  @exception _ _ _ vector_sample.exceptions 0x40080000 vector_sample.mem 4 0x40001000
    (syndrome 0 1 0) 50 100 w1 = Ok (pc, Looping, w3) /\ vector_sample.powered w3 = false.
Proof.
  destruct (@arm64_exception_halts _ vector_sample.bus vector_sample.con vector_sample.processor
    vector_sample.exceptions 0x40080000 vector_sample.mem vector_sample.laws vector_sample.start)
    as (w1 & E1 & H); [by exists 0x80100|].
  destruct (H w1 4 0 1 0 0x40001000 0) as (d1 & d2 & d3 & d4 & o & _ & _ & _ & _ & _ & E);
    [reflexivity|split; [discriminate|reflexivity]..| |].
  { apply illegal_word. intros [|[|[|[|i]]]] v; intros [= <-]; reflexivity. }
  eexists _, (0x40080000 + o), _. split; [exact E1|].
  split; [rewrite (E 50%nat 98%nat); reflexivity|reflexivity].
Defined.
