(* ===== verification/PlatformRiscv.v ===== *)
(** The RISC-V platform (kernel/platform/riscv/platform.c): the UART, the command line
    from the device tree, and the trap handler.  The trap registers are parameters. *)

From S2P Require Export Io Fdt.

Open Scope Z_scope.

Definition UART0 : Z := 0x10000000.
Definition TEST_DEVICE : Z := 0x100000.

Definition platform_get_cmdline (mem : memory) (boot_param : Z) : res (option Z) :=
  fdt_get_bootargs mem boot_param.

(** The supervisor's trap cause and trap vector registers. *)
Class RiscvCpu (W : Type) := { scause : W -> Z; csrw_stvec : Z -> W -> W }.

Section platform.
  Context {W : Type} `{Bus W}.

Definition platform_putchar (c : Z) : St W unit := bus_write Mmio8 UART0 (u8 c).
Definition platform_puts : cstr -> St W unit := send_string platform_putchar.

Definition platform_halt : St W unit := bus_write Mmio32 TEST_DEVICE 0x5555.

  Context `{Console W} `{RiscvCpu W}.

Definition platform_setup_exception_handlers (trap_vector : Z) : St W unit :=
  _ ← modify (csrw_stvec trap_vector);
  kput (puts (str "[RISC-V] Exception handlers installed" ++ nl)).

Definition platform_init (trap_vector : Z) : St W unit :=
  platform_setup_exception_handlers trap_vector.

Definition trap_illegal_instruction_handler : St W unit :=
  _ ← kput (puts (nl ++ str "[EXCEPTION] Unknown/Illegal Instruction" ++ nl));
  _ ← kput (puts (str "The CPU encountered an instruction it does not recognize." ++ nl));
  _ ← kput (puts (str "System halted." ++ nl));
  platform_halt.

Definition trap_handler : St W unit :=
  scause ← gets scause;
  let exception_code := Z.land scause 0x7FFFFFFFFFFFFFFF in
  if exception_code =? 2 then trap_illegal_instruction_handler else
  _ ← kput (puts (nl ++ str "[TRAP] Unexpected trap" ++ nl));
  _ ← kputs "SCAUSE: 0x";
  _ ← kput (puts (put_hex32 (u32 (Z.shiftr scause 32))));
  _ ← kput (puts (put_hex32 (u32 scause)));
  _ ← kput (puts (nl ++ str "System halted." ++ nl));
  platform_halt.
End platform.

(* ------------------------------------------------------------------ *)
(** ** Specification *)

(** The 16550 of the virtual machine, which takes every character at once. *)
Class Ns16550 (W : Type) `{Bus W} := {
  uart_sent : W -> bytes;
  uart_write_ok : forall c w, is_u8 c ->
    exists w', bus_write Mmio8 UART0 c w = Ok (tt, w') /\ uart_sent w' = uart_sent w ++ [c]
}.

Definition illegal_report : bytes :=
  nl ++ str "[EXCEPTION] Unknown/Illegal Instruction" ++ nl
  ++ str "The CPU encountered an instruction it does not recognize." ++ nl
  ++ str "System halted." ++ nl.
Definition trap_report (digits : bytes) : bytes :=
  nl ++ str "[TRAP] Unexpected trap" ++ nl ++ str "SCAUSE: 0x" ++ digits
  ++ nl ++ str "System halted." ++ nl.

(** ** Properties *)

Theorem riscv_puts_correct `{Ns16550 W} s w : is_bytes s -> no_nul s ->
  exists w', platform_puts s w = Ok (tt, w') /\ uart_sent w' = uart_sent w ++ s.
Proof.
  intros Hb Hs.
  destruct (send_string_ok platform_putchar uart_sent (fun _ => True) s) with (w := w)
    as (w' & E & H' & _); [|done..|by exists w'].
  intros c w1 Hc _. unfold platform_putchar. rewrite u8_id by done.
  destruct (uart_write_ok c w1 Hc) as (w2 & E2 & H2). by exists w2.
Qed.

(** A trap with code 2 is reported as an illegal instruction, even when it is an
    interrupt; any other is reported with its cause in hexadecimal; then the machine is
    switched off through the test device. *)
Theorem trap_handler_correct {W} `{Bus W} `{ConsoleLaws W} `{RiscvCpu W} interrupt code w :
  0 <= code < 2 ^ 63 -> scause w = (if (interrupt : bool) then 2 ^ 63 else 0) + code ->
  exists digits, parse_hex digits = scause w /\
    trap_handler w = bus_write Mmio32 0x100000 0x5555
      (con_write (if code =? 2 then illegal_report else trap_report digits) w).
Proof.
  intros Hc Hs. assert (is_u64 (scause w)) as Hu by (unfold is_u64; destruct interrupt; lia).
  exists (put_hex32 (u32 (Z.shiftr (scause w) 32)) ++ put_hex32 (u32 (scause w))).
  split; [by apply put_hex_halves|]. unfold trap_handler. erewrite St_bind_ok by reflexivity.
  change 0x7FFFFFFFFFFFFFFF with (Z.ones 63). rewrite Z.land_ones by lia.
  replace (scause w mod 2 ^ 63) with code by (rewrite Hs; destruct interrupt; zdm).
  destruct (code =? 2).
  - unfold trap_illegal_instruction_handler. do 3 (erewrite St_bind_ok by reflexivity).
    rewrite !con_write_app. unfold illegal_report. by rewrite <- !app_assoc.
  - do 5 (erewrite St_bind_ok by reflexivity). rewrite !con_write_app.
    unfold trap_report. by rewrite <- !app_assoc.
Qed.
