(* ===== verification/TrapRiscv.v ===== *)
(** Traps on RISC-V: the assembly trap vector of kernel/platform/riscv/platform.c around
    the C handler, and the instruction of app_illegal_instruction
    (apps/illegal-instruction). *)

From S2P Require Export PlatformRiscv.

Open Scope Z_scope.

(* ------------------------------------------------------------------ *)
(** ** The trap vector *)

Inductive reg := RA | A0 | Other (x : nat).
#[export] Instance reg_eq_dec : EqDecision reg.
Proof. solve_decision. Defined.

Inductive instr :=
| Addi_sp (n : Z) | Sd (r : reg) (offset : Z) | Ld (r : reg) (offset : Z)
| Call_trap_handler | J_self.

Definition trap_vector : list instr :=
  [Addi_sp (-16); Sd RA 0; Sd A0 8; Call_trap_handler; Ld A0 8; Ld RA 0; Addi_sp 16; J_self].

(** The instruction of app_illegal_instruction: the word 0. *)
Definition app_illegal_instruction : bytes := [0; 0; 0; 0].

(** The registers but sp, the program counter as the position in [trap_vector], and the
    memory as the doublewords at aligned addresses. *)
Record hart := Hart { gpr : reg -> Z; sp : Z; pos : nat; dmem : Z -> Z }.

Definition set_gpr (r : reg) (v : Z) (c : hart) : hart :=
  Hart (fun r' => if decide (r' = r) then v else gpr c r') (sp c) (pos c) (dmem c).
Definition set_sp (a : Z) (c : hart) : hart := Hart (gpr c) a (pos c) (dmem c).
Definition next (c : hart) : hart := Hart (gpr c) (sp c) (S (pos c)) (dmem c).
Definition store_double (a v : Z) (c : hart) : hart :=
  Hart (gpr c) (sp c) (pos c) (fun x => if decide (x = a) then v else dmem c x).

(** stvec as the processor reads it, with its mode in the two low bits (0: direct), and
    the entry into a trap, which records the cause. *)
Class RiscvTraps (W : Type) `{Console W} `{RiscvCpu W} := {
  stvec : W -> Z;
  record_trap : Z -> W -> W;
  stvec_csrw : forall v w, stvec (csrw_stvec v w) = v;
  stvec_write : forall s w, stvec (con_write s w) = stvec w;
  recorded_scause : forall cause w, scause (record_trap cause w) = cause;
  recorded_stvec : forall cause w, stvec (record_trap cause w) = stvec w
}.

Section vector.
  Context {W : Type} `{bus : Bus W} `{Console W} `{RiscvCpu W} `{!RiscvTraps W}.
  (** The vector's address, and what the C function leaves in the registers: by the
      calling convention sp and what lies on the caller's stack, if it was called with sp
      aligned to 16 bytes. *)
  Context (address : Z) (called : hart -> hart).
  Hypothesis called_sp : forall c, sp (called c) = sp c /\ pos (called c) = pos c.
  Hypothesis called_stack : forall c a, sp c <= a -> dmem (called c) a = dmem c a.

Definition aligned (a : Z) : bool := (0 <=? a) && (a mod 8 =? 0).

Definition exec (i : instr) (c : hart) : St W hart :=
  match i with
  | Addi_sp n => mret (next (set_sp (sp c + n) c))
  | Sd r o =>
      if aligned (sp c + o) then mret (next (store_double (sp c + o) (gpr c r) c)) else lift UB
  | Ld r o =>
      if aligned (sp c + o) then mret (next (set_gpr r (dmem c (sp c + o)) c)) else lift UB
  | Call_trap_handler =>
      if sp c mod 16 =? 0 then _ ← trap_handler; mret (next (called c)) else lift UB
  | J_self => mret c
  end.
Fixpoint steps (n : nat) (c : hart) : St W hart :=
  match n with
  | O => mret c
  | S n =>
      match trap_vector !! pos c with
      | Some i => c ← exec i c; steps n c
      | None => lift UB
      end
  end.

(** The processor takes a trap and executes [n] instructions. *)
Definition trap (cause : Z) (c : hart) (n : nat) : St W hart :=
  _ ← modify (record_trap cause);
  v ← gets stvec;
  if (v mod 4 =? 0) && (v =? address) then steps n (Hart (gpr c) (sp c) 0 (dmem c)) else lift UB.

Lemma trap_steps_stuck c w n : pos c = 7%nat -> steps n c w = Ok (c, w).
Proof using.
  intros E. induction n as [|n IH]; [done|]. cbn [steps]. rewrite E. cbn [trap_vector lookup list_lookup].
  erewrite St_bind_ok by reflexivity. apply IH.
Qed.

Lemma steps_next c i n w c' w' : trap_vector !! pos c = Some i -> exec i c w = Ok (c', w') ->
  steps (S n) c w = steps n c' w'.
Proof using. intros Hi E. cbn [steps]. rewrite Hi. by rewrite (St_bind_ok _ _ _ _ _ E). Qed.

(** The vector: the handler runs with an aligned stack; if it returns, ra, a0 and sp are
    restored and the processor loops. *)
Lemma trap_vector_ok c w w' : sp c mod 16 = 0 -> 16 <= sp c -> trap_handler w = Ok (tt, w') ->
  exists d, (forall n, steps (7 + n) (Hart (gpr c) (sp c) 0 (dmem c)) w = Ok (d, w')) /\
    gpr d RA = gpr c RA /\ gpr d A0 = gpr c A0 /\ sp d = sp c /\
    forall a, sp c <= a -> dmem d a = dmem c a.
Proof using called_sp called_stack.
  intros Hm Hl Hh. set (c0 := Hart (gpr c) (sp c) 0 (dmem c)).
  assert (forall o, o = 0 \/ o = 8 -> aligned (sp c + -16 + o) = true) as Hal.
  { intros o Ho. unfold aligned. destruct (Z.leb_spec 0 (sp c + -16 + o)); [|lia].
    apply Z.eqb_eq. zdm. }
  assert ((sp c + -16) mod 16 = 0) as Hm2 by zdm.
  set (c3 := next (store_double (sp c + -16 + 8) (gpr c A0)
    (next (store_double (sp c + -16 + 0) (gpr c RA) (next (set_sp (sp c + -16) c0)))))).
  destruct (called_sp c3) as [Es Ep]. cbn in Es, Ep.
  assert (forall a, sp c + -16 <= a -> dmem (called c3) a = dmem c3 a) as Hmem
    by (intros a Ha; by apply called_stack).
  eexists. split; [intros n|].
  - cbn [Nat.add]. erewrite (steps_next _ (Addi_sp (-16))) by reflexivity.
    erewrite (steps_next _ (Sd RA 0)); [|reflexivity|cbn [exec sp next set_sp c0]; by rewrite Hal by tauto].
    erewrite (steps_next _ (Sd A0 8));
      [|reflexivity|cbn [exec sp next set_sp store_double c0]; by rewrite Hal by tauto].
    erewrite (steps_next _ Call_trap_handler); [|reflexivity|].
    2: { cbn [exec sp next set_sp store_double c0]. rewrite Hm2. cbn [Z.eqb].
      erewrite St_bind_ok by exact Hh. reflexivity. }
    change (next (called _)) with (next (called c3)).
    erewrite (steps_next _ (Ld A0 8)); [|cbn; by rewrite Ep|cbn [exec sp next]; by rewrite Es, Hal by tauto].
    erewrite (steps_next _ (Ld RA 0));
      [|cbn; by rewrite Ep|cbn [exec sp next set_gpr]; by rewrite Es, Hal by tauto].
    erewrite (steps_next _ (Addi_sp 16)); [|cbn; by rewrite Ep|reflexivity].
    apply trap_steps_stuck. cbn [pos next set_gpr set_sp]. by rewrite Ep.
  - cbn [gpr next set_sp set_gpr sp dmem]. rewrite Es, !Hmem by lia.
    cbn [c3 dmem next store_double set_sp c0]. split_and!.
    + by rewrite decide_True, decide_False, decide_True by (done || lia).
    + by rewrite decide_False, decide_True, decide_True by (done || lia).
    + lia.
    + intros a Ha. rewrite Hmem by lia. cbn. by rewrite !decide_False by lia.
Qed.

(** ** Properties *)

(** After platform_setup_exception_handlers with a vector aligned to 16 bytes (as its
    [.align 4] asks), so that stvec is in direct mode, a trap with any cause reaches
    trap_handler with an aligned stack: an illegal instruction, and any interrupt of code
    2, is reported as such, every other trap with its cause in hexadecimal, and the
    machine is switched off.  Where that write returns, ra, a0, sp and the stack are
    restored, and the processor loops for ever.  The instruction of
    app_illegal_instruction is the case of the exception 2. *)
Theorem riscv_trap_halts `{!ConsoleLaws W} w : (16 | address) ->
  exists w1, platform_setup_exception_handlers address w = Ok (tt, w1) /\
  forall w2 c (interrupt : bool) code (cause := (if interrupt then 2 ^ 63 else 0) + code),
    stvec w2 = stvec w1 -> 0 <= code < 2 ^ 63 -> sp c mod 16 = 0 -> 16 <= sp c ->
    exists digits, parse_hex digits = cause /\
      forall w3, bus_write Mmio32 TEST_DEVICE 0x5555
          (con_write (if code =? 2 then illegal_report else trap_report digits) (record_trap cause w2))
          = Ok (tt, w3) ->
        exists d, (forall n, trap cause c (7 + n) w2 = Ok (d, w3)) /\
          gpr d RA = gpr c RA /\ gpr d A0 = gpr c A0 /\ sp d = sp c /\
          forall a, sp c <= a -> dmem d a = dmem c a.
Proof using called_sp called_stack bus.
  intros [k Hk]. eexists. split; [reflexivity|]. intros w2 c interrupt code cause Hv Hc Hm Hl.
  rewrite stvec_write, stvec_csrw in Hv. set (w0 := record_trap cause w2).
  destruct (trap_handler_correct interrupt code w0 Hc) as (digits & Hd & E); [apply recorded_scause|].
  unfold w0 in Hd. rewrite recorded_scause in Hd. exists digits. split; [done|]. intros w3 Hoff.
  destruct (trap_vector_ok c w0 w3 Hm Hl) as (d & Hrun & Hd'); [by rewrite E|].
  exists d. split; [|done]. intros n. unfold trap. erewrite St_bind_ok by reflexivity. fold w0.
  erewrite St_bind_ok by reflexivity. unfold w0 at 1 2. rewrite recorded_stvec, Hv, Z.eqb_refl.
  assert ((address mod 4 =? 0) = true) as -> by (apply Z.eqb_eq; rewrite Hk; zdm). apply Hrun.
Qed.
End vector.

(** ** A processor *)

Module trap_sample.
Record world := World { cause : Z; base : Z; powered : bool; screen : console }.
Definition device : Bus world := {|
  bus_read _ _ w := Ok (0, w);
  bus_write _ addr v w :=
    Ok (tt, World (cause w) (base w) (negb ((addr =? 0x100000) && (v =? 0x5555)) && powered w) (screen w)) |}.
#[export] Instance con : Console world := {|
  con_write s w := World (cause w) (base w) (powered w) (con_write s (screen w));
  con_log w := con_log (screen w);
  con_set_log l w := World (cause w) (base w) (powered w) (con_set_log l (screen w)) |}.
#[export] Instance laws : ConsoleLaws world.
Proof.
  split; [done|..].
  - intros [c b p [o l]]. unfold con_write. cbn. by rewrite app_nil_r.
  - intros s u [c b p [o l]]. unfold con_write. cbn. by rewrite app_assoc.
Qed.
#[export] Instance processor : RiscvCpu world := {|
  scause := cause; csrw_stvec v w := World (cause w) v (powered w) (screen w) |}.
#[export] Instance traps : RiscvTraps world.
Proof.
  refine {| stvec := base; record_trap c w := World c (base w) (powered w) (screen w) |}; reflexivity.
Defined.
Definition start : world := World 0 0 true (ConsoleState [] log_empty).

(** A compiled function that destroys every register and the stack below its own. *)
Definition called (c : hart) : hart :=
  Hart (fun _ => 0xDEAD) (sp c) (pos c) (fun a => if a <? sp c then 0xBAD else dmem c a).
Lemma called_keeps c a : sp c <= a -> dmem (called c) a = dmem c a.
Proof. intros Ha. cbn. destruct (Z.ltb_spec a (sp c)); [lia|done]. Qed.
Definition before : hart :=
  Hart (fun r => if decide (r = RA) then 0x80200100 else 42) 0x80300000 0 (fun a => a).
End trap_sample.

Lemma riscv_trap_halts_witness : exists w1 d w3,
  @platform_setup_exception_handlers _ trap_sample.con trap_sample.processor 0x80200040
    trap_sample.start = Ok (tt, w1) /\
  @trap _ trap_sample.device _ _ trap_sample.traps 0x80200040 trap_sample.called 2 trap_sample.before
    50 w1 = Ok (d, w3) /\
  gpr d RA = 0x80200100 /\ sp d = 0x80300000 /\ trap_sample.powered w3 = false.
Proof.
  destruct (@riscv_trap_halts _ trap_sample.device _ _ trap_sample.traps 0x80200040 trap_sample.called
    (fun _ => conj eq_refl eq_refl) trap_sample.called_keeps trap_sample.laws trap_sample.start)
    as (w1 & E1 & H); [by exists 0x8020004|].
  destruct (H w1 trap_sample.before false 2) as (digits & _ & Hoff);
    [reflexivity|split; [discriminate|reflexivity]|reflexivity|discriminate|].
  edestruct Hoff as (d & Hd & Hra & _ & Hsp & _); [reflexivity|].
  eexists w1, d, _. split; [exact E1|]. split; [exact (Hd 43%nat)|].
  rewrite Hra, Hsp. repeat split.
Defined.
