(* ===== verification/Kernel.v ===== *)
(** The kernel's entry point (kernel/kernel.c): the order in which the parts are brought
    up, and the hand-over to the applications.  The architecture's platform functions and
    the resource manager's list are interfaces; DevicesAmd64.v, PlatformAmd64.v and their
    siblings are behind them. *)

From S2P Require Export DeviceScan InitApps.

Open Scope Z_scope.

(** platform.h, and the architecture's name (a macro of the build). *)
Class Platform (W : Type) := {
  platform_init : St W unit;
  platform_halt : nat -> St W control;
  platform_get_cmdline : memory -> Z -> res (option Z);
  ARCH_NAME : string
}.

(** The static [device_list] of resources.c. *)
Class ResourceList (W : Type) := {
  rs_devices : W -> option nat;
  resources_set_devices : option nat -> W -> W
}.

Class ResourceListLaws (W : Type) `{Console W} `{DeviceStore W} `{ResourceList W} := {
  rs_devices_set : forall d w, rs_devices (resources_set_devices d w) = d;
  rs_devices_write : forall s w, rs_devices (con_write s w) = rs_devices w;
  rs_log_set : forall d w, con_log (resources_set_devices d w) = con_log w;
  rs_registry_set : forall d w, ds_registry (resources_set_devices d w) = ds_registry w
}.

Section kernel.
  Context {W : Type} `{Arch} `{Console W} `{DeviceStore W} `{!Enumerator W} `{Platform W}
    `{ResourceList W} `{NetDriver W} `{RngDriver W} `{IllegalInstruction W}.
  Context (mem : memory) (strmax : nat) (driver_name : Z -> cstr).

(** The string a [const char *] of the boot loader designates. *)
Definition read_string (p : option Z) : res (option cstr) :=
  match p with None => Ok None | Some a => s ← cstr_at mem a strmax; Ok (Some s) end.

Definition print_banner : St W unit :=
  _ ← kput (puts (nl ++ nl));
  _ ← kput (puts (str "==================================" ++ nl));
  _ ← kput (puts (str "       YasouOS v0.1.0" ++ nl));
  kput (puts (str "==================================" ++ nl ++ nl)).

(** The messages once logging is up. *)
Definition print_welcome (kernel_log : tag_ptr) (cmdline : option cstr) : St W unit :=
  _ ← klog_msg kernel_log LOG_INFO "Hello World from YasouOS!
";
  _ ← (fun w => kput (log_msg (klog_tag kernel_log w) LOG_INFO
                        (str "Architecture: " ++ str ARCH_NAME ++ nl)) w);
  info ← klog_enabled kernel_log LOG_INFO;
  _ ← when info
        (_ ← klog_prefix kernel_log LOG_INFO;
         _ ← kputs "Kernel command line: ";
         _ ← kput (puts (match cmdline with Some c => c | None => str "(none)" end));
         kput (puts nl));
  kput (puts nl).

(** The boot up to the welcome messages: the command line and the tag "kernel". *)
Definition start_logging (boot_param : Z) : St W (option cstr * tag_ptr) :=
  _ ← print_banner;
  cmdline ← lift (p ← platform_get_cmdline mem boot_param; read_string p);
  log ← gets con_log;
  log ← lift (log_init log cmdline);
  _ ← modify (con_set_log log);
  kernel_log ← klog_register "kernel" LOG_INFO;
  _ ← print_welcome kernel_log cmdline;
  mret (cmdline, kernel_log).

(** The scan, the printing of the tree, and the resource manager's list. *)
Definition start_devices (boot_param : Z) : St W unit :=
  _ ← modify (fun w => ds_set_registry (device_set_fdt (ds_registry w) boot_param) w);
  '(_, devices_log) ← devices_scan devices_enumerate None;
  _ ← kput (puts (nl ++ nl));
  _ ← device_tree_print mem strmax driver_name devices_log;
  _ ← modify (fun w => resources_set_devices (devices_get_first (ds_registry w)) w);
  kput (puts nl).

(** The end of kernel_main: [for (;;) nop] after a platform_halt that returns. *)
Definition halt_kernel (n : nat) : St W control :=
  k ← platform_halt n;
  match k with Returned => forever n skip | Looping => mret Looping end.

(** Every loop that does not end is followed for [n] rounds: those of the network
    applications, and the final one, in which kernel_main stays with [true]; [false]
    when an application has not returned. *)
Definition kernel_main (n : nat) (boot_param : Z) (s : app_statics) : St W (bool * app_statics) :=
  _ ← platform_init;
  '(cmdline, kernel_log) ← start_logging boot_param;
  _ ← start_devices boot_param;
  '(returned, s) ← init_apps n cmdline s;
  if (returned : bool) then
    _ ← klog_msg kernel_log LOG_INFO "System halted.
";
    _ ← halt_kernel n;
    mret (true, s)
  else mret (false, s).
End kernel.

(* ------------------------------------------------------------------ *)
(** ** Lemmas *)

(** What runs after the boot: the named applications in order, then the halt. *)
Definition run_and_halt {W} `{Arch} `{Console W} `{NetDriver W} `{RngDriver W}
    `{IllegalInstruction W} `{Platform W} (n : nat) (kernel_log : tag_ptr)
    (apps : list application) (s : app_statics) : St W (bool * app_statics) :=
  init_log ← klog_register "init" LOG_INFO;
  '(returned, s) ← run_all n init_log apps s;
  if (returned : bool) then
    _ ← klog_msg kernel_log LOG_INFO "System halted.
";
    _ ← halt_kernel n;
    mret (true, s)
  else mret (false, s).

(** The command line the boot loader left. *)
Definition boot_line {W} `{Platform W} (mem : memory) (strmax : nat) (boot_param : Z)
    (cmdline : option cstr) : Prop :=
  match cmdline with
  | None => platform_get_cmdline mem boot_param = Ok None
  | Some c => exists a, platform_get_cmdline mem boot_param = Ok (Some a) /\
      string_at mem a c /\ (length c < strmax)%nat
  end.

Lemma string_at_no_nul mem s : forall a, string_at mem a s -> no_nul s.
Proof.
  induction s as [|c s IH]; intros a; [constructor|]. intros (_ & Hc & Hs).
  constructor; [done|by eapply IH].
Qed.

Section boot.
  Context {W : Type} `{Arch} `{Console W} `{!ConsoleLaws W} `{DeviceStore W} `{!DeviceStoreLaws W}
    `{!Enumerator W} `{Platform W} `{ResourceList W} `{!ResourceListLaws W} `{NetDriver W}
    `{RngDriver W} `{IllegalInstruction W}.
  Context (mem : memory) (strmax : nat) (driver_name : Z -> cstr).

Lemma boot_line_read boot_param cmdline : boot_line mem strmax boot_param cmdline ->
  (p ← platform_get_cmdline mem boot_param; read_string mem strmax p) = Ok cmdline /\
  no_nul (default [] cmdline).
Proof using.
  unfold boot_line. destruct cmdline as [c|].
  - intros (a & -> & Hs & Hl). cbn [mbind res_bind read_string].
    rewrite (cstr_at_string mem c a strmax) by done. split; [done|]. by eapply string_at_no_nul.
  - intros ->. split; [done|constructor].
Qed.

Lemma print_banner_ok w : exists w', print_banner w = Ok (tt, w') /\ prints w w'.
Proof using.
  unfold print_banner. do 3 (erewrite St_bind_ok by reflexivity). eexists. split; [reflexivity|].
  do 4 (eapply rtc_l; [by eexists|]). done.
Qed.

Lemma print_welcome_ok p cmdline w : exists w', print_welcome p cmdline w = Ok (tt, w') /\ prints w w'.
Proof using.
  unfold print_welcome.
  destruct (prints_msg w w p LOG_INFO "Hello World from YasouOS!
") as (w1 & E1 & P1); [done..|]. rewrite (St_bind_ok _ _ _ _ _ E1).
  destruct (log_msg_ok (klog_tag p w1) LOG_INFO (str "Architecture: " ++ str ARCH_NAME ++ nl))
    as [t Et]; [done|].
  destruct (prints_kput w w1 _ _ P1 Et) as (w2 & E2 & P2). rewrite (St_bind_ok _ _ w1 tt w2) by exact E2.
  erewrite St_bind_ok by reflexivity.
  assert (exists w3, when (log_enabled (klog_tag p w2) LOG_INFO)
    (_ ← klog_prefix p LOG_INFO; _ ← kputs "Kernel command line: ";
     _ ← kput (puts (match cmdline with Some c => c | None => str "(none)" end));
     kput (puts nl)) w2 = Ok (tt, w3) /\ prints w w3) as (w3 & E3 & P3).
  { destruct (log_enabled _ _); [|by exists w2]. unfold when.
    destruct (prints_prefix w w2 p LOG_INFO P2) as (w3 & E3 & P3); [done|].
    rewrite (St_bind_ok _ _ _ _ _ E3). do 2 (erewrite St_bind_ok by reflexivity).
    eexists. split; [reflexivity|]. do 3 (eapply rtc_r; [|by eexists]). done. }
  rewrite (St_bind_ok _ _ _ _ _ E3). eexists. split; [reflexivity|].
  eapply rtc_r; [done|by eexists].
Qed.

(** Logging follows the command line; the hardware and the registry are as they were. *)
Lemma start_logging_ok boot_param cmdline w : con_log w = log_empty ->
  boot_line mem strmax boot_param cmdline ->
  exists kernel_log w', start_logging mem strmax boot_param w = Ok (cmdline, kernel_log, w') /\
    log_follows (directives (default [] cmdline)) (con_log w') /\
    ds_registry w' = ds_registry w /\
    (hw_ready boot_param w -> hw_ready boot_param w' /\ hw_found boot_param w' = hw_found boot_param w).
Proof using ConsoleLaws0 DeviceStoreLaws0.
  intros Hlog Hline. destruct (boot_line_read _ _ Hline) as [Hc Hn].
  set (c := default [] cmdline) in *. unfold start_logging.
  destruct (print_banner_ok w) as (w1 & E1 & P1). rewrite (St_bind_ok _ _ _ _ _ E1).
  erewrite St_bind_ok by (apply lift_ok; exact Hc). erewrite St_bind_ok by reflexivity.
  pose proof (logs_only_prints boot_param [] _ _ P1) as (_ & Lr1 & Lh1).
  rewrite (prints_log _ _ P1), Hlog.
  destruct (log_init_follows cmdline Hn) as (st & Est & _ & Hst). fold c in Hst.
  erewrite St_bind_ok by (apply lift_ok; exact Est). erewrite St_bind_ok by reflexivity.
  destruct (klog_register_ok boot_param (directives c) "kernel" LOG_INFO (con_set_log st w1))
    as (kl & w3 & E3 & L3). rewrite (St_bind_ok _ _ _ _ _ E3).
  destruct (print_welcome_ok kl cmdline w3) as (w4 & E4 & P4). rewrite (St_bind_ok _ _ _ _ _ E4).
  pose proof (transitivity L3 (logs_only_prints boot_param (directives c) _ _ P4)) as (Lf & Lr & Lh).
  exists kl, w4. split; [done|]. split; [apply Lf; by rewrite con_log_set_log|].
  split; [by rewrite Lr, ds_registry_log|]. intros Hr. destruct (Lh1 Hr) as (Hr1 & Hf1 & _).
  destruct (hw_set_log boot_param st w1 Hr1) as (Hr2 & Hf2 & _). destruct (Lh Hr2) as (Hr4 & Hf4 & _).
  split; [done|congruence].
Qed.

(** The devices of the hardware end up in the registry, the tree and the resource
    manager's list. *)
Lemma start_devices_ok boot_param ds w : ds_registry w = registry_empty ->
  hw_ready boot_param w -> log_follows ds (con_log w) ->
  Forall (readable mem strmax driver_name)
    (new_slot <$> take Devices.MAX_DEVICES (hw_found boot_param w)) ->
  exists w' r, start_devices mem strmax driver_name boot_param w = Ok (tt, w') /\
    scanned (hw_found boot_param w) (device_set_fdt registry_empty boot_param) r /\
    build_tree_hierarchy r = Ok (ds_registry w') /\
    rs_devices w' = devices_get_first (ds_registry w') /\ log_follows ds (con_log w').
Proof using ConsoleLaws0 DeviceStoreLaws0 ResourceListLaws0.
  intros Hreg Hready Hlog Hread. unfold start_devices.
  erewrite St_bind_ok by reflexivity. rewrite Hreg.
  set (r0 := device_set_fdt registry_empty boot_param).
  destruct (hw_set_registry boot_param r0 w Hready) as (Hr1 & Hf1 & _). set (w1 := ds_set_registry r0 w) in *.
  assert (ds_registry w1 = r0) as Hreg1 by apply ds_get_set.
  destruct (devices_scan_ok boot_param ds None w1) as (p2 & w2 & r & E2 & Hsc & Hb & Hl2 & Hr2);
    rewrite ?Hreg1; [done|unfold w1; by rewrite ds_log_set|done|apply boot_registry_wf|done|].
  rewrite (St_bind_ok _ _ _ _ _ E2). cbn beta iota. erewrite St_bind_ok by reflexivity.
  rewrite Hreg1, Hf1 in Hsc.
  destruct (device_tree_print_ok mem strmax driver_name (device_line mem strmax driver_name)
    (hw_found boot_param w) r0 r boot_param ds p2 (con_write (nl ++ nl) w2))
    as (p3 & w3 & E3 & Lf3 & Lr3 & _);
    [done|done|by rewrite ds_registry_write|by eapply registered_readable, Hread; apply Hsc|].
  rewrite (St_bind_ok _ _ _ _ _ E3). erewrite St_bind_ok by reflexivity. eexists _, r.
  split; [reflexivity|]. rewrite ds_registry_write, rs_registry_set, Lr3, ds_registry_write.
  split; [done|]. split; [done|]. rewrite rs_devices_write, rs_devices_set, con_log_write, rs_log_set.
  split; [done|]. apply Lf3. by rewrite con_log_write.
Qed.
End boot.

(* ------------------------------------------------------------------ *)
(** ** Properties *)

(** C4: On an initialised platform kernel_main always reaches the applications, whatever the
    command line.  By then the logger applies the line's directives to every tag
    registered later, the registry holds the first 128 devices of the hardware, in
    order, with the tree built over them, and the resource manager searches exactly
    that list; then the applications that the line names run, in order, and the machine
    is halted when they have all returned. *)
Theorem kernel_main_correct {W} `{Arch} `{Console W} `{!ConsoleLaws W} `{DeviceStore W}
    `{!DeviceStoreLaws W} `{!Enumerator W} `{Platform W} `{ResourceList W} `{!ResourceListLaws W}
    `{NetDriver W} `{RngDriver W} `{IllegalInstruction W}
    mem strmax driver_name n boot_param s cmdline (w w0 : W) :
  platform_init w = Ok (tt, w0) -> con_log w0 = log_empty -> ds_registry w0 = registry_empty ->
  hw_ready boot_param w0 -> boot_line mem strmax boot_param cmdline ->
  Forall (readable mem strmax driver_name)
    (new_slot <$> take Devices.MAX_DEVICES (hw_found boot_param w0)) ->
  exists w1 r kernel_log,
    kernel_main mem strmax driver_name n boot_param s w
    = run_and_halt n kernel_log (apps_named (default [] cmdline)) s w1 /\
    scanned (hw_found boot_param w0) (device_set_fdt registry_empty boot_param) r /\
    build_tree_hierarchy r = Ok (ds_registry w1) /\
    rs_devices w1 = devices_get_first (ds_registry w1) /\
    log_follows (directives (default [] cmdline)) (con_log w1).
Proof.
  intros Ei Hlog Hreg Hready Hline Hread. unfold kernel_main. rewrite (St_bind_ok _ _ _ _ _ Ei).
  destruct (start_logging_ok mem strmax boot_param cmdline w0 Hlog Hline)
    as (kl & w1 & E1 & Hl1 & Hr1 & Hh1). rewrite (St_bind_ok _ _ _ _ _ E1). cbn beta iota.
  destruct (Hh1 Hready) as [Hready1 Hf1]. rewrite Hreg in Hr1. rewrite <- Hf1 in Hread |- *.
  destruct (start_devices_ok mem strmax driver_name boot_param (directives (default [] cmdline)) w1)
    as (w2 & r & E2 & Hfacts); [done..|]. rewrite (St_bind_ok _ _ _ _ _ E2).
  exists w2, r, kl. split; [|done].
  pose proof (proj2 (boot_line_read mem strmax boot_param cmdline Hline)) as Hn.
  by rewrite (St_bind_eq_l _ _ _ _ (init_apps_run n cmdline s w2 Hn)), St_bind_assoc.
Qed.
