(* ===== verification/BootAmd64.v ===== *)
(** The boot of the AMD64 kernel: the PCI scan and the platform of AMD64 behind the
    interfaces that kernel_main is written against, and a machine it boots on. *)

From S2P Require Export Kernel DevicesAmd64 PlatformAmd64.

Open Scope Z_scope.

(** The hardware's state is not the kernel's: output, the logger and the registry leave
    the configuration space alone, and no access to the hardware changes them. *)
Class SeparatePorts (W : Type) `{ConfigPorts W} `{Console W} `{DeviceStore W} := {
  sp_write : forall s w, port_live w ->
    port_live (con_write s w) /\ forall a, port_cfg (con_write s w) a = port_cfg w a;
  sp_log : forall l w, port_live w ->
    port_live (con_set_log l w) /\ forall a, port_cfg (con_set_log l w) a = port_cfg w a;
  sp_registry : forall r w, port_live w ->
    port_live (ds_set_registry r w) /\ forall a, port_cfg (ds_set_registry r w) a = port_cfg w a;
  sp_bus : forall P : registry -> log_state -> Prop,
    bus_keeps (fun w => P (ds_registry w) (con_log w))
}.

Lemma slot_device_ext c c' mask s : (forall a, c a = c' a) ->
  slot_device c mask s = slot_device c' mask s.
Proof. intros E. destruct s as [b d]. unfold slot_device. by rewrite !E. Qed.

Lemma on_buses_ext c c' mask : (forall a, c a = c' a) -> on_buses c mask = on_buses c' mask.
Proof.
  intros E. apply list_omap_ext, Forall_Forall2_diag, Forall_forall. intros s _.
  by apply slot_device_ext.
Qed.

Section enumerator.
  Context {W : Type} `{ConfigPorts W} `{Console W} `{!ConsoleLaws W} `{DeviceStore W}
    `{!DeviceStoreLaws W} `{!SeparatePorts W}.

(** The static tag is NULL at boot, when the function is called. *)
Definition enumerate_amd64 (fdt : Z) (callback : option (device -> St W unit)) : St W Z :=
  '(device_count, _) ← DevicesAmd64.devices_enumerate None callback; mret device_count.

(** The devices [l] were registered, and the logger is [st]. *)
Definition registered_so_far (r0 : registry) (st : log_state) (l : list device) (w : W) : Prop :=
  add_all l r0 = Ok (ds_registry w) /\ con_log w = st.

Lemma register_device_ok r0 st d l w : registry_wf r0 -> port_live w ->
  registered_so_far r0 st l w ->
  exists w', register_device d w = Ok (tt, w') /\ port_live w' /\
    registered_so_far r0 st (l ++ [d]) w' /\ forall a, port_cfg w' a = port_cfg w a.
Proof using DeviceStoreLaws0 SeparatePorts0.
  intros Hr0 Hl [Ha Hs]. destruct (register_device_adds r0 l d w Hr0 Ha) as (r' & E & Ha').
  exists (ds_set_registry r' w). split; [done|].
  destruct (sp_registry r' w Hl) as [Hl' Hc']. split; [done|]. split; [|done].
  split; [by rewrite ds_get_set|by rewrite ds_log_set].
Qed.

Lemma print_access_ok p w : exists w', print_access p pci_detect_ecam w = Ok (tt, w') /\ prints w w'.
Proof using.
  unfold print_access. erewrite St_bind_ok by reflexivity.
  destruct (log_enabled _ _); [|by exists w].
  unfold when, pci_detect_ecam. destruct (prints_prefix w w p LOG_DEBUG) as (w1 & E1 & P1); [done..|].
  rewrite (St_bind_ok _ _ _ _ _ E1). eexists. split; [reflexivity|]. eapply rtc_r; [done|by eexists].
Qed.

(** Output keeps the hardware as it is. *)
Lemma prints_hw w w' : prints w w' -> port_live w ->
  port_live w' /\ (forall a, port_cfg w' a = port_cfg w a) /\
  ds_registry w' = ds_registry w /\ con_log w' = con_log w.
Proof using ConsoleLaws0 DeviceStoreLaws0 SeparatePorts0.
  induction 1 as [w|w w1 w' [s ->] _ IH]; [done|]. intros Hl.
  destruct (sp_write s w Hl) as [Hl1 Hc1]. destruct (IH Hl1) as (Hl' & Hc' & Hr' & Hs').
  split; [done|]. split; [intros a; by rewrite Hc', Hc1|].
  by rewrite Hr', Hs', ds_registry_write, con_log_write.
Qed.

Lemma enumerate_amd64_ok fdt ds w : port_live w -> registry_wf (ds_registry w) ->
  log_follows ds (con_log w) ->
  exists w' r, enumerate_amd64 fdt (Some register_device) w
      = Ok (len (on_buses (port_cfg w) port_mask), w') /\
    add_all (on_buses (port_cfg w) port_mask) (ds_registry w) = Ok r /\ ds_registry w' = r /\
    log_follows ds (con_log w') /\ port_live w'.
Proof using ConsoleLaws0 DeviceStoreLaws0 SeparatePorts0.
  intros Hl Hwf Hlog. unfold enumerate_amd64, DevicesAmd64.devices_enumerate.
  unfold klog_register.
  destruct (log_register (con_log w) (str "pci") LOG_INFO) as [p st] eqn:Ereg.
  assert (log_follows ds st) as Hst.
  { pose proof (log_register_follows ds _ (str "pci") LOG_INFO Hlog) as Hf. by rewrite Ereg in Hf. }
  destruct (sp_log st w Hl) as [Hl1 Hc1]. set (w1 := con_set_log st w) in *.
  rewrite St_bind_assoc. rewrite (St_bind_ok _ _ w p w1) by (by rewrite Ereg). cbv zeta.
  rewrite St_bind_assoc. destruct (print_access_ok p w1) as (w2 & E2 & P2).
  rewrite (St_bind_ok _ _ _ _ _ E2), St_bind_assoc.
  destruct (prints_hw _ _ P2 Hl1) as (Hl2 & Hc2 & Hr2 & Hs2).
  assert (ds_registry w2 = ds_registry w) as Hreg by (rewrite Hr2; apply ds_registry_log).
  assert (con_log w2 = st) as Hcl by (rewrite Hs2; apply con_log_set_log).
  destruct (scan_buses_ok (registered_so_far (ds_registry w) st) register_device w2
    (on_buses (port_cfg w) port_mask)) as (w3 & E3 & Hl3 & (Ha3 & Hs3) & _).
  - apply on_buses_ext. intros a. by rewrite Hc2, Hc1.
  - intros l. apply (sp_bus (fun r s => add_all l (ds_registry w) = Ok r /\ s = st)).
  - intros d l w' Hl' Hp'. by apply register_device_ok.
  - done.
  - split; [by rewrite Hreg|done].
  - unfold pci_detect_ecam. rewrite (St_bind_ok _ _ _ _ _ E3).
    eexists _, (ds_registry w3). split; [reflexivity|]. rewrite Hs3.
    exact (conj Ha3 (conj eq_refl (conj Hst Hl3))).
Qed.

#[export] Instance amd64_enumerator : Enumerator W.
Proof using ConsoleLaws0 DeviceStoreLaws0 SeparatePorts0.
  refine {| DeviceScan.devices_enumerate := enumerate_amd64;
            hw_ready _ w := port_live w;
            hw_found _ w := on_buses (port_cfg w) port_mask;
            hw_count _ w := len (on_buses (port_cfg w) port_mask) |}.
  - intros _ s w Hl. destruct (sp_write s w Hl) as [Hl' Hc]. by rewrite (on_buses_ext _ _ _ Hc).
  - intros _ l w Hl. destruct (sp_log l w Hl) as [Hl' Hc]. by rewrite (on_buses_ext _ _ _ Hc).
  - intros _ r w Hl. destruct (sp_registry r w Hl) as [Hl' Hc]. by rewrite (on_buses_ext _ _ _ Hc).
  - apply enumerate_amd64_ok.
Defined.
End enumerator.

(** The devices of the PCI scan have no names: they are always printed. *)
Lemma on_buses_readable mem strmax driver_name c mask n :
  Forall (readable mem strmax driver_name) (new_slot <$> take n (on_buses c mask)).
Proof.
  apply Forall_fmap, Forall_take, Forall_forall. intros d Hd.
  apply list_elem_of_omap in Hd as ([b k] & _ & E). apply readable_unnamed;
    unfold slot_device in E; (destruct (_ =? _); [discriminate|by injection E as <-]).
Qed.

(* ------------------------------------------------------------------ *)
(** ** A machine *)

(** A PC with the host bridge and the card of [bridge], a UART, and nothing else: no
    driver accepts a device. *)
Module machine.
Record world := World {
  pci : bridge.world; com : uart; table : option (Z * Z); screen : console;
  store : registry; searched : option nat; off : bool }.
Definition set_pci (p : bridge.world) (w : world) : world :=
  World p (com w) (table w) (screen w) (store w) (searched w) (off w).

Definition bus : Bus world := {|
  bus_read a addr w :=
    match @bus_read _ bridge.bus a addr (pci w) with
    | Ok (v, p) => Ok (v, set_pci p w) | UB => UB | NoFuel => NoFuel
    end;
  bus_write a addr v w :=
    match a with
    | Port8 =>
        Ok (tt, World (pci w)
                  (if (0x3F8 <=? addr) && (addr <=? 0x3FC) then uart_write (com w) (addr - 0x3F8) v
                   else com w)
                  (table w) (screen w) (store w) (searched w) (off w || (addr =? 0xf4)))
    | _ =>
        match @bus_write _ bridge.bus a addr v (pci w) with
        | Ok (_, p) => Ok (tt, set_pci p w) | UB => UB | NoFuel => NoFuel
        end
    end |}.

Definition ports : @ConfigPorts world bus.
Proof.
  refine {| port_cfg w := @port_cfg _ _ bridge.ports (pci w); port_mask := pci_sample.mask;
            port_live w := @port_live _ _ bridge.ports (pci w);
            port_selected w := @port_selected _ _ bridge.ports (pci w) |}.
  - intros w. apply (@port_u32 _ _ bridge.ports).
  - apply pci_sample.mask_u32.
  - intros w a Hl Ha. destruct (@port_select _ _ bridge.ports (pci w) a Hl Ha) as (p & E & Hp).
    exists (set_pci p w). split; [|exact Hp]. unfold bus_write, bus. by rewrite E.
  - intros w a Hl Ha. destruct (@port_data_read _ _ bridge.ports (pci w) a Hl Ha) as (p & E & Hp).
    exists (set_pci p w). split; [|exact Hp]. unfold bus_read at 1, bus. by rewrite E.
  - intros w a v Hl Ha Hv.
    destruct (@port_data_write _ _ bridge.ports (pci w) a v Hl Ha Hv) as (p & E & Hp).
    exists (set_pci p w). split; [|exact Hp]. unfold bus_write, bus. by rewrite E.
Defined.

Definition con : Console world := {|
  con_write s w := World (pci w) (com w) (table w) (con_write s (screen w)) (store w) (searched w) (off w);
  con_log w := con_log (screen w);
  con_set_log l w :=
    World (pci w) (com w) (table w) (con_set_log l (screen w)) (store w) (searched w) (off w) |}.
Definition con_laws : @ConsoleLaws world con.
Proof.
  split; [done|..].
  - intros [p c t [o l] r d f]. unfold con_write, con. cbn. by rewrite app_nil_r.
  - intros s t w. unfold con_write, con. cbn. by rewrite app_assoc.
Defined.

Definition devices : DeviceStore world := {|
  ds_registry := store;
  ds_set_registry r w := World (pci w) (com w) (table w) (screen w) r (searched w) (off w) |}.
Definition devices_laws : @DeviceStoreLaws world con devices.
Proof. by split. Defined.

Definition resources : ResourceList world := {|
  rs_devices := searched;
  resources_set_devices d w :=
    World (pci w) (com w) (table w) (screen w) (store w) d (off w) |}.
Definition resources_laws : @ResourceListLaws world con devices resources.
Proof. by split. Defined.

Definition separate : @SeparatePorts world bus ports con devices.
Proof.
  split; [done..|]. intros P. split.
  - intros a addr w v w' Hw. unfold bus_read, bus.
    destruct (@bus_read _ bridge.bus a addr (pci w)) as [[? p]| |]; [|done..].
    by intros [= <- <-].
  - intros a addr v w [] w' Hw. unfold bus_write, bus.
    destruct a; try (by intros [= <-]);
      (destruct (@bus_write _ bridge.bus _ addr v (pci w)) as [[? p]| |]; [|done..]; by intros [= <-]).
Defined.

Definition idt_register : @IdtRegister world con.
Proof.
  refine (@Build_IdtRegister world con
    (fun limit base w =>
       World (pci w) (com w) (Some (limit, base)) (screen w) (store w) (searched w) (off w))
    table _ _); reflexivity.
Defined.

(** With the interrupts off the processor stays halted. *)
Definition hlt : Hlt world := skip.

(** The platform of PlatformAmd64.v, with the stub and the table at some addresses. *)
Definition platform : Platform world := {|
  Kernel.platform_init :=
    _ ← @PlatformAmd64.platform_init _ bus con idt_register 0x8000 0x9000 statics_zero; skip;
  Kernel.platform_halt := @PlatformAmd64.platform_halt _ bus hlt;
  Kernel.platform_get_cmdline := PlatformAmd64.platform_get_cmdline;
  ARCH_NAME := "AMD64/x86-64" |}.

Definition net : NetDriver world := {|
  drv_get_mac _ _ m := mret (-1, m);
  drv_transmit _ _ _ _ _ := mret (-1);
  drv_receive _ _ b _ _ l := mret (-1, b, l);
  net_acquire _ _ := mret None;
  net_print_tag _ _ := Ok [] |}.
Definition rng : RngDriver world := {|
  rng_registry := store;
  rng_acquire _ := mret None;
  rng_read _ b _ _ := mret (-1, b) |}.
Definition trap : @IllegalInstruction world := fun n =>
  _ ← @exception_invalid_opcode_handler _ bus con hlt n; skip.

(** The command line at 2 MB. *)
Definition line : cstr := str "log.pci=debug app=mac-all".
Definition mem : memory := fun a =>
  if 0x200000 <=? a then Some (default 0 (line !! Z.to_nat (a - 0x200000))) else Some 0.

Definition start : world :=
  World bridge.start (Uart 0 0 0 0 0 0 []) None (ConsoleState [] log_empty) registry_empty None false.
Definition initialised : world :=
  World bridge.start (Uart 0 3 3 0 0xC7 0x0B []) (Some (4095, 0x9000))
    (ConsoleState (str "[AMD64] Exception handlers installed" ++ nl) log_empty)
    registry_empty None false.
Definition enumerator : @Enumerator world con devices :=
  @amd64_enumerator world bus ports con con_laws devices devices_laws separate.
End machine.

Lemma kernel_main_correct_witness : exists w1 r kernel_log,
  @kernel_main machine.world AMD64 machine.con machine.devices machine.enumerator machine.platform
    machine.resources machine.net machine.rng machine.trap machine.mem 64 (fun _ => []) 1 0
    (app_statics_zero 1000) machine.start
  = @run_and_halt machine.world AMD64 machine.con machine.net machine.rng machine.trap
      machine.platform 1 kernel_log (apps_named machine.line) (app_statics_zero 1000) w1 /\
  scanned (@hw_found _ _ _ machine.enumerator 0 machine.initialised)
    (device_set_fdt registry_empty 0) r /\
  machine.searched w1 = device_list_head (machine.store w1).
Proof.
  destruct (@kernel_main_correct machine.world AMD64 machine.con machine.con_laws machine.devices
    machine.devices_laws machine.enumerator machine.platform machine.resources
    machine.resources_laws machine.net machine.rng machine.trap machine.mem 64 (fun _ => []) 1 0
    (app_statics_zero 1000) (Some machine.line) machine.start machine.initialised)
    as (w1 & r & kl & E & Hs & _ & Hd & _).
  - vm_compute. reflexivity.
  - reflexivity.
  - reflexivity.
  - exact pci_sample.initial_u32.
  - exists 0x200000. split; [reflexivity|]. split; [|cbn; lia].
    vm_compute. repeat split; discriminate.
  - apply on_buses_readable.
  - exists w1, r, kl. split; [exact E|]. split; [exact Hs|exact Hd].
Defined.
