(* ===== verification/BootEcam.v ===== *)
(** The enumerators of ARM64 and RISC-V behind the interface that kernel_main is written
    against. *)

From S2P Require Export Kernel DevicesArm64 DevicesRiscv.

Open Scope Z_scope.

(** The hardware's state is not the kernel's: output, the logger and the registry leave
    the configuration space alone, and no access to the hardware changes them. *)
Class SeparateEcam (W : Type) `{Bus W} (base : Z) `{!EcamHost W base} `{Console W}
    `{DeviceStore W} := {
  se_write : forall s w, ecam_live w -> ecam_live (con_write s w) /\
    ecam_cfg (con_write s w) = ecam_cfg w;
  se_log : forall l w, ecam_live w -> ecam_live (con_set_log l w) /\
    ecam_cfg (con_set_log l w) = ecam_cfg w;
  se_registry : forall r w, ecam_live w -> ecam_live (ds_set_registry r w) /\
    ecam_cfg (ds_set_registry r w) = ecam_cfg w;
  se_bus : forall P : registry -> log_state -> Prop,
    bus_keeps (fun w => P (ds_registry w) (con_log w))
}.

(** The device tree of the machine: the nodes of each blob, and the identification
    registers of the virtio,mmio nodes, which are constants. *)
Class VirtioSlots (W : Type) `{Bus W} (mem : memory) := {
  slot_regs : Z -> Z;
  nodes_of : Z -> list device;
  slots_read : forall fdt w, slots_answer mem slot_regs (nodes_of fdt) w
}.

Section registering.
  Context {W : Type} `{Bus W} (base : Z) `{!EcamHost W base} `{Console W} `{!ConsoleLaws W}
    `{DeviceStore W} `{!DeviceStoreLaws W} `{!SeparateEcam W base}.

(** The devices [l] were registered, and the logger follows the directives [ds]. *)
Definition registered_in (r0 : registry) (ds : list directive) (l : list device) (w : W) : Prop :=
  add_all l r0 = Ok (ds_registry w) /\ log_follows ds (con_log w).

Lemma registering_records r0 ds : registry_wf r0 ->
  records base (registered_in r0 ds) register_device.
Proof using DeviceStoreLaws0 SeparateEcam0.
  intros Hr0. split.
  - intros l. apply (se_bus (fun r s => add_all l r0 = Ok r /\ log_follows ds s)).
  - intros d l w Hl [Ha Hs]. destruct (register_device_adds r0 l d w Hr0 Ha) as (r' & E & Ha').
    destruct (se_registry r' w Hl) as [Hl' Hc]. exists (ds_set_registry r' w). rewrite Hc.
    split; [done|]. split; [done|]. split; [|done].
    split; [by rewrite ds_get_set|by rewrite ds_log_set].
Qed.

Lemma registering_silent r0 ds : silent base (registered_in r0 ds).
Proof using ConsoleLaws0 DeviceStoreLaws0 SeparateEcam0.
  split.
  - intros s w Hl. destruct (se_write s w Hl) as [Hl' Hc]. split; [done|by rewrite Hc|].
    intros l [Ha Hs]. split; [by rewrite ds_registry_write|by rewrite con_log_write].
  - intros name level w Hl. unfold klog_register.
    destruct (log_register (con_log w) (str name) level) as [p st] eqn:E.
    destruct (se_log st w Hl) as [Hl' Hc]. exists p, (con_set_log st w). split; [done|].
    split; [done|by rewrite Hc|]. intros l [Ha Hs]. split; [by rewrite ds_registry_log|].
    rewrite con_log_set_log. pose proof (log_register_follows ds _ (str name) level Hs) as Hf.
    by rewrite E in Hf.
Qed.
End registering.

Section enumerators.
  Context {W : Type} `{Bus W} `{Console W} `{!ConsoleLaws W} `{DeviceStore W}
    `{!DeviceStoreLaws W} (mem : memory) `{!VirtioSlots W mem}.

(** The blob at [fdt], if there is one, is well-formed. *)
Definition tree_ok (fdt : Z) : Prop :=
  fdt_nodes mem fdt (nodes_of fdt) /\ Forall (node_ok mem) (nodes_of fdt).

Section arm64.
  Context `{!EcamHost W DevicesArm64.PCIE_ECAM_BASE}
    `{!SeparateEcam W DevicesArm64.PCIE_ECAM_BASE}.

(** The static variables have their initial values at boot, when the function is called. *)
Definition enumerate_arm64 (fdt : Z) (callback : option (device -> St W unit)) : St W Z :=
  '(device_count, _) ←
    DevicesArm64.devices_enumerate mem fdt DevicesArm64.statics_zero callback;
  mret device_count.

Definition arm64_pci (w : W) : list device :=
  (pci_ref (arm64_device ecam_mask) (ecam_cfg w) DevicesArm64.PCI_MMIO_BASE).1.1.

#[export] Instance arm64_enumerator : Enumerator W.
Proof using ConsoleLaws0 DeviceStoreLaws0 SeparateEcam0 VirtioSlots0 mem.
  refine {| DeviceScan.devices_enumerate := enumerate_arm64;
            hw_ready fdt w := ecam_live w /\ tree_ok fdt;
            hw_found fdt w := arm64_pci w ++ omap (node_device mem slot_regs) (nodes_of fdt);
            hw_count fdt w := len (arm64_pci w) + len (nodes_of fdt) |}.
  - intros fdt s w [Hl Ht]. unfold arm64_pci. by destruct (se_write s w Hl) as [Hl' ->].
  - intros fdt l w [Hl Ht]. unfold arm64_pci. by destruct (se_log l w Hl) as [Hl' ->].
  - intros fdt r w [Hl Ht]. unfold arm64_pci. by destruct (se_registry r w Hl) as [Hl' ->].
  - intros fdt ds w [Hl [Hf Hok]] Hwf Hlog. unfold arm64_pci, enumerate_arm64.
    pose proof (arm64_enumerates _ _ (registering_records _ (ds_registry w) ds Hwf) mem slot_regs fdt
      (nodes_of fdt) DevicesArm64.statics_zero (ecam_cfg w) (registering_silent _ _ ds) Hf Hok) as He.
    change (DevicesArm64.next_mmio DevicesArm64.statics_zero) with DevicesArm64.PCI_MMIO_BASE in He.
    destruct (pci_ref _ _ _) as [[found c] last].
    destruct (He (fun l w _ => slots_read fdt w) w) as (tag & w' & E & [Hl' _ [Ha Hs]]); [by split|].
    exists w', (ds_registry w'). rewrite (St_bind_ok _ _ _ _ _ E). by split.
Defined.
End arm64.

Section riscv.
  Context `{!EcamHost W DevicesRiscv.PCIE_ECAM_BASE}
    `{!SeparateEcam W DevicesRiscv.PCIE_ECAM_BASE}.

Definition enumerate_riscv (fdt : Z) (callback : option (device -> St W unit)) : St W Z :=
  '(device_count, _) ←
    DevicesRiscv.devices_enumerate mem fdt DevicesRiscv.statics_zero callback;
  mret device_count.

Definition riscv_pci (w : W) : list device :=
  (pci_ref (riscv_device ecam_mask) (ecam_cfg w) DevicesRiscv.PCI_MMIO_BASE).1.1.

#[export] Instance riscv_enumerator : Enumerator W.
Proof using ConsoleLaws0 DeviceStoreLaws0 SeparateEcam0 VirtioSlots0 mem.
  refine {| DeviceScan.devices_enumerate := enumerate_riscv;
            hw_ready fdt w := ecam_live w /\ tree_ok fdt;
            hw_found fdt w := riscv_pci w ++ (numbered mem slot_regs (nodes_of fdt) 1).1;
            hw_count fdt w := len (riscv_pci w) + len (nodes_of fdt) |}.
  - intros fdt s w [Hl Ht]. unfold riscv_pci. by destruct (se_write s w Hl) as [Hl' ->].
  - intros fdt l w [Hl Ht]. unfold riscv_pci. by destruct (se_log l w Hl) as [Hl' ->].
  - intros fdt r w [Hl Ht]. unfold riscv_pci. by destruct (se_registry r w Hl) as [Hl' ->].
  - intros fdt ds w [Hl [Hf Hok]] Hwf Hlog. unfold riscv_pci, enumerate_riscv.
    pose proof (riscv_enumerates _ _ (registering_records _ (ds_registry w) ds Hwf)
      (registering_silent _ _ ds) mem slot_regs fdt (nodes_of fdt) DevicesRiscv.statics_zero
      (ecam_cfg w) Hf Hok) as He.
    change (DevicesRiscv.next_mmio DevicesRiscv.statics_zero) with DevicesRiscv.PCI_MMIO_BASE in He.
    change (next_mmio_num DevicesRiscv.statics_zero) with 1 in He.
    destruct (pci_ref _ _ _) as [[found c] last]. destruct (numbered _ _ _ 1) as [slots num].
    destruct (He (fun l w _ => slots_read fdt w) w) as (tag & w' & E & [Hl' _ [Ha Hs]]); [by split|].
    exists w', (ds_registry w'). rewrite (St_bind_ok _ _ _ _ _ E). by split.
Defined.
End riscv.
End enumerators.
