(* ===== verification/BootBoards.v ===== *)
(** Machines of ARM64 and RISC-V that boot: a board with a host bridge and a card behind
    its ECAM window, an entropy device and the device tree of Fdt.v, under the
    enumerators of BootEcam.v and the platforms of PlatformArm64.v and PlatformRiscv.v. *)

From S2P Require Export BootEcam.
From S2P Require PlatformArm64 PlatformRiscv.

Open Scope Z_scope.

(** The board: the configuration space, the exception vector's register, the logger and
    what was printed, the kernel's variables, and the power. *)
Module board.
Record world := World {
  space : pci_sample.space; vector : Z; screen : console; store : registry;
  searched : option nat; off : bool }.

Section board.
  (** The ECAM window, above the other devices. *)
  Context (base : Z) (Hbase : base mod 2 ^ 28 = 0 /\ 0 <= base /\ base + 2 ^ 28 <= 2 ^ 64)
    (Hlow : 0x10001008 < base).

(** Outside of the window the identification registers of the entropy device are read;
    a write to the test device switches the board off. *)
Definition bus : Bus world := {|
  bus_read a addr w :=
    match a with
    | Mmio32 =>
        if (base <=? addr) && (addr <? base + 2 ^ 28)
        then Ok (space w (ecam_sample.decode (addr - base)), w) else Ok (mmio_sample.regs addr, w)
    | _ => Ok (0, w)
    end;
  bus_write a addr v w :=
    match a with
    | Mmio32 =>
        if (base <=? addr) && (addr <? base + 2 ^ 28) then
          let a := ecam_sample.decode (addr - base) in
          Ok (tt, World (pci_sample.update (space w) a
                           (cfg_written (pci_sample.mask a) (space w a) v))
                    (vector w) (screen w) (store w) (searched w) (off w))
        else
          Ok (tt, World (space w) (vector w) (screen w) (store w) (searched w)
                    (off w || (addr =? 0x100000) && (v =? 0x5555)))
    | _ => Ok (tt, w)
    end |}.

Definition host : @EcamHost world bus base.
Proof using Hbase.
  refine (@Build_EcamHost world bus base Hbase space pci_sample.mask
    (fun w => forall a, is_u32 (space w a)) _ _ _ _).
  - intros w a Hl. apply Hl.
  - apply pci_sample.mask_u32.
  - intros w a Hl Ha. exists w. cbn [bus_read bus]. rewrite ecam_bridge.in_window by done.
    by rewrite ecam_sample.decode_of.
  - intros w a v Hl Ha Hv. cbn [bus_write bus]. rewrite ecam_bridge.in_window by done.
    rewrite ecam_sample.decode_of by done.
    eexists. split; [reflexivity|]. split; [|done].
    intros a'. cbn. unfold pci_sample.update. case_decide; [|done].
    apply pci_sample.written_u32; [apply pci_sample.mask_u32|apply Hl].
Defined.

Definition con : Console world := {|
  con_write s w := World (space w) (vector w) (con_write s (screen w)) (store w) (searched w) (off w);
  con_log w := con_log (screen w);
  con_set_log l w :=
    World (space w) (vector w) (con_set_log l (screen w)) (store w) (searched w) (off w) |}.
Definition con_laws : @ConsoleLaws world con.
Proof using.
  split; [done|..].
  - intros [p v [o l] r d f]. unfold con_write, con. cbn. by rewrite app_nil_r.
  - intros s t w. unfold con_write, con. cbn. by rewrite app_assoc.
Defined.

Definition devices : DeviceStore world := {|
  ds_registry := store;
  ds_set_registry r w := World (space w) (vector w) (screen w) r (searched w) (off w) |}.
Definition devices_laws : @DeviceStoreLaws world con devices.
Proof using. by split. Defined.

Definition resources : ResourceList world := {|
  rs_devices := searched;
  resources_set_devices d w := World (space w) (vector w) (screen w) (store w) d (off w) |}.
Definition resources_laws : @ResourceListLaws world con devices resources.
Proof using. by split. Defined.

Definition separate : @SeparateEcam world bus base host con devices.
Proof using.
  split; [done..|]. intros P. split.
  - intros a addr w v w' Hw. cbn. destruct a; try (by intros [= _ <-]).
    destruct (_ && _); by intros [= _ <-].
  - intros a addr v w [] w' Hw. cbn. destruct a; try (by intros [= <-]).
    destruct (_ && _); by intros [= <-].
Defined.

(** The blob at 4096 is the sample of Fdt.v. *)
Definition slots : @VirtioSlots world bus sample_mem.
Proof using Hlow.
  refine (@Build_VirtioSlots world bus sample_mem mmio_sample.regs
    (fun fdt => if fdt =? 4096 then sample_nodes else []) _).
  intros fdt w. destruct (fdt =? 4096); [|apply Forall_nil_2].
  assert (forall d, reg_base d = 0x10001000 ->
    @id_registers world bus mmio_sample.regs (reg_base d) w) as Hid.
  { intros d -> o Ho. assert (0 <= o <= 8)
      by (revert Ho; rewrite !elem_of_cons; intros [->|[->|[->|[]%not_elem_of_nil]]]; lia).
    split; [|apply mmio_sample.regs_stable with (w := [])]. cbn [bus_read bus].
    by destruct (Z.leb_spec base (0x10001000 + o)); [lia|]. }
  repeat (apply Forall_cons; split); auto.
Defined.

Definition net : NetDriver world := {|
  drv_get_mac _ _ m := mret (-1, m);
  drv_transmit _ _ _ _ _ := mret (-1);
  drv_receive _ _ b _ _ l := mret (-1, b, l);
  net_acquire _ _ := mret None;
  net_print_tag _ _ := Ok [] |}.
Definition rng : RngDriver world := {|
  rng_registry := store;
  rng_acquire _ := mret None;
  rng_read _ b _ _ := mret (-1, b) |}.
End board.

Definition start : world :=
  World ecam_bridge.initial 0 (ConsoleState [] log_empty) registry_empty None false.
End board.

(* ------------------------------------------------------------------ *)
(** ** ARM64 *)

Module arm64_board.
Definition base : Z := DevicesArm64.PCIE_ECAM_BASE.
Definition bus : Bus board.world := board.bus base.
Lemma low : 0x10001008 < base.
Proof. reflexivity. Qed.
Definition cpu : PlatformArm64.Arm64Cpu board.world := {|
  PlatformArm64.elr_el1 _ := 4096;
  PlatformArm64.esr_el1 _ := 0;
  PlatformArm64.msr_vbar_el1 v w :=
    board.World (board.space w) v (board.screen w) (board.store w) (board.searched w) (board.off w);
  PlatformArm64.hvc call w :=
    Ok (tt, board.World (board.space w) (board.vector w) (board.screen w) (board.store w)
              (board.searched w) (call =? 0x84000008));
  PlatformArm64.wfe := skip |}.
Definition platform : Platform board.world := {|
  platform_init := @PlatformArm64.platform_init _ board.con cpu 0x40080000;
  platform_halt := @PlatformArm64.platform_halt _ cpu;
  platform_get_cmdline := PlatformArm64.platform_get_cmdline;
  ARCH_NAME := "ARM64/AArch64" |}.
Definition trap : @IllegalInstruction board.world :=
  fun n => _ ← @PlatformArm64.exception_unknown_instruction _ board.con cpu n sample_mem; skip.
Definition enumerator : @Enumerator board.world board.con board.devices :=
  @arm64_enumerator _ bus board.con board.con_laws board.devices board.devices_laws sample_mem
    (board.slots base low) (board.host base arm64_base_ok) (board.separate base arm64_base_ok).
Definition boot : St board.world (bool * app_statics) :=
  @kernel_main board.world ARM64 board.con board.devices enumerator platform board.resources
    board.net board.rng trap sample_mem 64 (fun _ => []) 1 4096 (app_statics_zero 1000).
End arm64_board.

(* ------------------------------------------------------------------ *)
(** ** RISC-V *)

Module riscv_board.
Definition base : Z := DevicesRiscv.PCIE_ECAM_BASE.
Definition bus : Bus board.world := board.bus base.
Lemma riscv_low : 0x10001008 < base.
Proof. reflexivity. Qed.
Definition cpu : PlatformRiscv.RiscvCpu board.world := {|
  PlatformRiscv.scause _ := 2;
  PlatformRiscv.csrw_stvec v w :=
    board.World (board.space w) v (board.screen w) (board.store w) (board.searched w) (board.off w) |}.
Definition platform : Platform board.world := {|
  platform_init := @PlatformRiscv.platform_init _ board.con cpu 0x80200040;
  platform_halt _ := _ ← @PlatformRiscv.platform_halt _ bus; mret Returned;
  platform_get_cmdline := PlatformRiscv.platform_get_cmdline;
  ARCH_NAME := "RISC-V 64-bit" |}.
Definition trap : @IllegalInstruction board.world :=
  fun _ => @PlatformRiscv.trap_handler _ bus board.con cpu.
Definition enumerator : @Enumerator board.world board.con board.devices :=
  @riscv_enumerator _ bus board.con board.con_laws board.devices board.devices_laws sample_mem
    (board.slots base riscv_low) (board.host base riscv_base_ok) (board.separate base riscv_base_ok).
Definition boot : St board.world (bool * app_statics) :=
  @kernel_main board.world RISCV board.con board.devices enumerator platform board.resources
    board.net board.rng trap sample_mem 64 (fun _ => []) 1 4096 (app_statics_zero 1000).
End riscv_board.

(* ------------------------------------------------------------------ *)
(** ** The boots *)

(** Whether the applications returned, whether the board is off, and the registered
    devices: identifiers and register base. *)
Definition summary (r : res (bool * app_statics * board.world))
    : option (bool * bool * list (Z * Z * Z)) :=
  match r with
  | Ok (returned, _, w) =>
      Some (returned, board.off w,
        (fun d => (vendor_id d, device_id d, reg_base d)) <$> device_storage (board.store w))
  | _ => None
  end.

(** Both boards find the bridge, the card (whose BAR 0 the RISC-V enumerator moves into
    its own range) and the entropy device, twice (see [fdt_duplicate_report]); the
    command line of the blob names no application, and the board is switched off. *)
Lemma arm64_boots : summary (arm64_board.boot board.start) =
  Some (true, true, [(0x1B36, 8, 0); (0x8086, 0x100E, 0xFEBC0000);
                     (0x1AF4, 0x1005, 0x10001000); (0x1AF4, 0x1005, 0x10001000)]).
Proof. vm_compute. reflexivity. Qed.
Lemma riscv_boots : summary (riscv_board.boot board.start) =
  Some (true, true, [(0x1B36, 8, 0); (0x8086, 0x100E, 0x40000000);
                     (0x1AF4, 0x1005, 0x10001000); (0x1AF4, 0x1005, 0x10001000)]).
Proof. vm_compute. reflexivity. Qed.
