(* ===== verification/VirtioNet.v ===== *)
(** The virtio network driver (drivers/virtio_net): the transport over ports or
    memory, initialisation, and the two virtqueues of packets. *)

From S2P Require Export Virtqueue Resources Netdev.

Open Scope Z_scope.

Definition VIRTIO_NET_QUEUE_SIZE : Z := 16.
Definition VIRTIO_NET_MAX_QUEUE_SIZE : Z := 256.
Definition VIRTIO_NET_MAX_PACKET_SIZE : Z := 2048.
Definition VIRTIO_NET_RX_BUFFER_OFFSET `{Arch} : Z :=
  if bool_decide (the_arch = ARM64) then 2 else 0.
Definition VIRTIO_NET_SUBSYSTEM_DEVICE_ID : Z := 0x0001.
Definition VIRTIO_NET_DEVICE_ID_TRANSITIONAL : Z := 0x1000.
Definition VIRTIO_NET_DEVICE_ID_MODERN : Z := 0x1041.
Definition VIRTIO_MMIO_CONFIG : Z := 0x100.
Definition VIRTIO_PCI_CONFIG : Z := 0x14.

(** sizeof(virtio_net_hdr_t). *)
Definition sizeof_hdr : Z := 10.

(** [virtio_net_t].  A queue is a union of two layouts, of 16 entries for the MMIO
    transport and of 256 for PCI; the transport, which is fixed before a queue is
    touched, says which is in use. *)
Record virtio_net := VirtioNet {
  io_base : Z;
  initialized : bool;
  net_transport : transport;
  mac_addr : bytes;
  rx_queue : vring;
  tx_queue : vring;
  rx_buffers : list bytes;
  tx_buffers : list bytes;
  rx_desc_in_use : list bool;
  tx_desc_in_use : list bool;
  rx_last_used_idx : Z;
  tx_last_used_idx : Z
}.
Definition ring_len (t : transport) : Z :=
  match t with
  | TRANSPORT_PCI => VIRTIO_NET_MAX_QUEUE_SIZE
  | TRANSPORT_MMIO => VIRTIO_NET_QUEUE_SIZE
  end.
(** Offsets in [virtio_net_t]: the unions are page-aligned and three pages long. *)
Definition offsetof_rx_queue : Z := 4096.
Definition offsetof_tx_queue : Z := offsetof_rx_queue + 12288.
Definition offsetof_rx_buffers : Z := offsetof_tx_queue + 12288.
Definition offsetof_tx_buffers : Z :=
  offsetof_rx_buffers + VIRTIO_NET_QUEUE_SIZE * VIRTIO_NET_MAX_PACKET_SIZE.

(** The context after memset, with its base and transport set. *)
Definition net_zero (base : Z) (t : transport) : virtio_net :=
  let queue := vring_zero (Z.to_nat (ring_len t)) in
  let buffers := replicate 16 (replicate 2048 0) in
  VirtioNet base false t (replicate 6 0) queue queue buffers buffers
    (replicate 16 false) (replicate 16 false) 0 0.
Definition set_initialized (b : bool) (c : virtio_net) : virtio_net :=
  VirtioNet (io_base c) b (net_transport c) (mac_addr c) (rx_queue c) (tx_queue c) (rx_buffers c)
    (tx_buffers c) (rx_desc_in_use c) (tx_desc_in_use c) (rx_last_used_idx c) (tx_last_used_idx c).
Definition set_mac (mac : bytes) (c : virtio_net) : virtio_net :=
  VirtioNet (io_base c) (initialized c) (net_transport c) mac (rx_queue c) (tx_queue c)
    (rx_buffers c) (tx_buffers c) (rx_desc_in_use c) (tx_desc_in_use c) (rx_last_used_idx c)
    (tx_last_used_idx c).
Definition set_rx (q : vring) (in_use : list bool) (last : Z) (c : virtio_net) : virtio_net :=
  VirtioNet (io_base c) (initialized c) (net_transport c) (mac_addr c) q (tx_queue c)
    (rx_buffers c) (tx_buffers c) in_use (tx_desc_in_use c) last (tx_last_used_idx c).
Definition set_tx (q : vring) (buffers : list bytes) (in_use : list bool) (last : Z)
    (c : virtio_net) : virtio_net :=
  VirtioNet (io_base c) (initialized c) (net_transport c) (mac_addr c) (rx_queue c) q
    (rx_buffers c) buffers (rx_desc_in_use c) in_use (rx_last_used_idx c) last.
(** [ctx->rx_last_used_idx++]. *)
Definition next_rx (c : virtio_net) : virtio_net :=
  set_rx (rx_queue c) (rx_desc_in_use c) (u16 (rx_last_used_idx c + 1)) c.

(** memset of the queue with the given index; on other targets than x86 it clears
    the 16-entry layout even for PCI, when the whole context is still zero. *)
Definition clear_queue (queue_index : Z) (c : virtio_net) : virtio_net :=
  let queue := vring_zero (Z.to_nat (ring_len (net_transport c))) in
  if queue_index =? 0 then set_rx queue (rx_desc_in_use c) (rx_last_used_idx c) c
  else set_tx queue (tx_buffers c) (tx_desc_in_use c) (tx_last_used_idx c) c.

(** The function-local static [debug_count] of virtio_net_receive. *)
Class DebugCount (W : Type) := {
  debug_count : W -> Z;
  set_debug_count : Z -> W -> W
}.

Section virtio_net.
  Context {W P : Type} `{Arch} `{Console W} `{TagVars W} `{DebugCount W} `{Bus W}
    `{CtxMem P virtio_net W}.

(** [#if x86: if (ctx->transport == PCI)]. *)
Definition on_pci (t : transport) : bool := x86 && bool_decide (t = TRANSPORT_PCI).

(** A read: of width [trunc], by [port] on the PCI transport. *)
Definition virtio_read (trunc : Z -> Z) (port : Z -> St W Z) (ctx : P) (offset : Z) : St W Z :=
  c ← gets (ctx_get ctx);
  if on_pci (net_transport c) then port (u16 (io_base c) + offset)
  else v ← mmio_read32 (io_base c + offset); mret (trunc v).
Definition virtio_write (port : Z -> Z -> St W unit) (ctx : P) (offset value : Z) : St W unit :=
  c ← gets (ctx_get ctx);
  if on_pci (net_transport c) then port (u16 (io_base c) + offset) value
  else mmio_write32 (io_base c + offset) value.

Definition virtio_read32 : P -> Z -> St W Z := virtio_read (fun v => v) io_inl.
Definition virtio_read16 : P -> Z -> St W Z := virtio_read u16 io_inw.
Definition virtio_read8 : P -> Z -> St W Z := virtio_read u8 io_inb.
Definition virtio_write32 : P -> Z -> Z -> St W unit := virtio_write io_outl.
Definition virtio_write16 (ctx : P) (offset value : Z) : St W unit :=
  virtio_write io_outw ctx offset (u16 value).
Definition virtio_write8 (ctx : P) (offset value : Z) : St W unit :=
  virtio_write io_outb ctx offset (u8 value).

(** Messages of the driver's tag. *)
Definition vnet_debug (msg : string) : St W unit :=
  p ← gets (tag_var "vnet_log"); klog_debug p msg.
Definition vnet_error (msg : string) : St W unit :=
  p ← gets (tag_var "vnet_log"); klog_error p msg.
(** [if (log_enabled(vnet_log, level)) { log_prefix(vnet_log, level); ... }] around
    printing [msg]. *)
Definition vnet_print (level : Z) (msg : out) : St W unit :=
  p ← gets (tag_var "vnet_log");
  enabled ← klog_enabled p level;
  when enabled (_ ← klog_prefix p level; kput msg).

Definition queue_message (queue_addr queue_pfn : Z) : out :=
  (puts (str "Queue addr: 0x") +++ puts (put_hex64 queue_addr) +++ puts (str " PFN: 0x")
   +++ puts (put_hex32 queue_pfn) +++ puts nl)%out.
Definition mismatch_message (queue_pfn readback_pfn : Z) : out :=
  (puts (str "PFN mismatch! Expected: 0x") +++ puts (put_hex32 queue_pfn) +++ puts (str " Got: 0x")
   +++ puts (put_hex32 readback_pfn) +++ puts nl)%out.

(** From the address of the queue to the end: both transports do this, each with its
    own register. *)
Definition program_queue (ctx : P) (pfn_register queue_addr : Z) : St W Z :=
  let queue_pfn := u32 (Z.shiftr queue_addr 12) in
  _ ← vnet_print LOG_DEBUG (queue_message queue_addr queue_pfn);
  _ ← virtio_write32 ctx pfn_register queue_pfn;
  readback_pfn ← virtio_read32 ctx pfn_register;
  if negb (readback_pfn =? queue_pfn) then
    _ ← vnet_print LOG_ERROR (mismatch_message queue_pfn readback_pfn);
    mret (-1)
  else mret 0.

Definition virtio_net_init_virtqueue (ctx : P) (queue_index : Z) : St W Z :=
  c ← gets (ctx_get ctx);
  let queue_addr := ctx_address (W := W) ctx
    + (if queue_index =? 0 then offsetof_rx_queue else offsetof_tx_queue) in
  if on_pci (net_transport c) then
    _ ← virtio_write16 ctx VIRTIO_PCI_QUEUE_SEL queue_index;
    max_queue_size ← virtio_read16 ctx VIRTIO_PCI_QUEUE_NUM;
    if (max_queue_size =? 0) || (max_queue_size <? VIRTIO_NET_QUEUE_SIZE) then mret (-1) else
    _ ← ctx_modify ctx (clear_queue queue_index);
    program_queue ctx VIRTIO_PCI_QUEUE_PFN queue_addr
  else
    _ ← ctx_modify ctx (clear_queue queue_index);
    _ ← virtio_write16 ctx VIRTIO_MMIO_QUEUE_SEL queue_index;
    queue_size ← virtio_read32 ctx VIRTIO_MMIO_QUEUE_NUM_MAX;
    if (queue_size =? 0) || (queue_size <? VIRTIO_NET_QUEUE_SIZE) then mret (-1) else
    _ ← virtio_write32 ctx VIRTIO_MMIO_QUEUE_NUM VIRTIO_NET_QUEUE_SIZE;
    _ ← virtio_write32 ctx VIRTIO_MMIO_QUEUE_ALIGN 4096;
    program_queue ctx VIRTIO_MMIO_QUEUE_PFN queue_addr.

Definition status_driver : Z := Z.lor VIRTIO_STATUS_ACKNOWLEDGE VIRTIO_STATUS_DRIVER.

(** Reset, acknowledgement and feature negotiation, with the registers of one
    transport; [false] when the device refuses. *)
Definition handshake (ctx : P) (status device_features driver_features : Z) : St W bool :=
  _ ← virtio_write8 ctx status 0;
  _ ← virtio_write8 ctx status VIRTIO_STATUS_ACKNOWLEDGE;
  _ ← virtio_write8 ctx status status_driver;
  _ ← virtio_read32 ctx device_features;
  _ ← virtio_write32 ctx driver_features 0;
  _ ← virtio_write8 ctx status (Z.lor status_driver VIRTIO_STATUS_FEATURES_OK);
  s ← virtio_read8 ctx status;
  if Z.land s VIRTIO_STATUS_FEATURES_OK =? 0 then
    _ ← virtio_write8 ctx status VIRTIO_STATUS_FAILED; mret false
  else mret true.

(** A queue could not be initialised. *)
Definition queue_failed (ctx : P) (msg : string) : St W Z :=
  _ ← vnet_error msg;
  c ← gets (ctx_get ctx);
  _ ← virtio_write8 ctx (if on_pci (net_transport c) then VIRTIO_PCI_STATUS else VIRTIO_MMIO_STATUS)
        VIRTIO_STATUS_FAILED;
  mret (-1).

(** One receive buffer offered to the device. *)
Definition populate (addr : Z) (i : Z) (c : virtio_net) : res virtio_net :=
  q ← set_desc (rx_queue c) i
        (VDesc (u64 (addr + offsetof_rx_buffers + i * VIRTIO_NET_MAX_PACKET_SIZE
                     + VIRTIO_NET_RX_BUFFER_OFFSET))
           (VIRTIO_NET_MAX_PACKET_SIZE - VIRTIO_NET_RX_BUFFER_OFFSET) VRING_DESC_F_WRITE 0);
  q ← offer (ring_len (net_transport c)) i q;
  u ← wr (rx_desc_in_use c) i true;
  mret (set_rx q u (rx_last_used_idx c) c).
Definition populate_rx (ctx : P) : St W unit :=
  for_n (Z.to_nat VIRTIO_NET_QUEUE_SIZE) (fun i _ =>
    ctx_update ctx (populate (ctx_address (W := W) ctx) (Z.of_nat i))) tt.

(** A byte of the device's configuration. *)
Definition config_byte (ctx : P) (i : Z) : St W Z :=
  c ← gets (ctx_get ctx);
  let mac_offset := match net_transport c with
                    | TRANSPORT_PCI => VIRTIO_PCI_CONFIG | TRANSPORT_MMIO => VIRTIO_MMIO_CONFIG
                    end in
  if on_pci (net_transport c) then io_inb (u16 (io_base c) + mac_offset + i)
  else bus_read Mmio8 (u64 (io_base c + mac_offset + i)).
Definition read_mac (ctx : P) : St W unit :=
  for_n 6 (fun i _ =>
    v ← config_byte ctx (Z.of_nat i);
    ctx_update ctx (fun c => mac ← wr (mac_addr c) (Z.of_nat i) v; mret (set_mac mac c))) tt.

(** DRIVER_OK and the first notification; [false] when the device refuses. *)
Definition driver_ok (ctx : P) : St W bool :=
  c ← gets (ctx_get ctx);
  if on_pci (net_transport c) then
    _ ← virtio_write8 ctx VIRTIO_PCI_STATUS (Z.lor status_driver VIRTIO_STATUS_DRIVER_OK);
    s ← virtio_read8 ctx VIRTIO_PCI_STATUS;
    mret (negb (Z.land s VIRTIO_STATUS_DRIVER_OK =? 0))
  else
    _ ← virtio_write8 ctx VIRTIO_MMIO_STATUS
          (Z.lor (Z.lor status_driver VIRTIO_STATUS_FEATURES_OK) VIRTIO_STATUS_DRIVER_OK);
    s ← virtio_read8 ctx VIRTIO_MMIO_STATUS;
    if Z.land s VIRTIO_STATUS_DRIVER_OK =? 0 then mret false else
    _ ← virtio_write32 ctx VIRTIO_MMIO_QUEUE_NOTIFY 0;
    mret true.

Definition virtio_net_init_context (ctx : option P) (dev : option device) : St W Z :=
  match ctx, dev with
  | Some ctx, Some dev =>
      _ ← register_once "vnet_log" "virtio-net" LOG_INFO;
      let t := if reg_base dev <? 0x10000 then TRANSPORT_PCI else TRANSPORT_MMIO in
      _ ← ctx_modify ctx (fun _ => net_zero (reg_base dev) t);
      accepted ← (if on_pci t
        then handshake ctx VIRTIO_PCI_STATUS VIRTIO_PCI_DEVICE_FEATURES VIRTIO_PCI_DRIVER_FEATURES
        else handshake ctx VIRTIO_MMIO_STATUS VIRTIO_MMIO_DEVICE_FEATURES
               VIRTIO_MMIO_DRIVER_FEATURES);
      if negb accepted then mret (-1) else
      _ ← when (negb (on_pci t)) (virtio_write32 ctx VIRTIO_MMIO_GUEST_PAGE_SIZE 4096);
      _ ← vnet_debug "Initializing RX queue...
";
      r ← virtio_net_init_virtqueue ctx 0;
      if negb (r =? 0) then queue_failed ctx "RX queue init failed
" else
      _ ← vnet_debug "RX queue initialized
";
      _ ← vnet_debug "Initializing TX queue...
";
      r ← virtio_net_init_virtqueue ctx 1;
      if negb (r =? 0) then queue_failed ctx "TX queue init failed
" else
      _ ← vnet_debug "TX queue initialized
";
      _ ← populate_rx ctx;
      rx_avail_idx ← gets (fun w => avail_idx (rx_queue (ctx_get ctx w)));
      _ ← vnet_print LOG_DEBUG (puts (str "RX buffers populated, avail.idx=")
            +++ puts (put_hex16 rx_avail_idx) +++ puts nl)%out;
      ok ← driver_ok ctx;
      if negb ok then mret (-1) else
      _ ← read_mac ctx;
      _ ← ctx_modify ctx (set_initialized true);
      _ ← tag_info "vnet_log" "Driver initialized successfully
";
      mret 0
  | _, _ => mret (-1)
  end.

Definition virtio_net_deinit_context (ctx : option P) : St W unit :=
  match ctx with
  | None => skip
  | Some ctx =>
      c ← gets (ctx_get ctx);
      if negb (initialized c) then skip else
      _ ← virtio_write8 ctx
            (if on_pci (net_transport c) then VIRTIO_PCI_STATUS else VIRTIO_MMIO_STATUS) 0;
      ctx_modify ctx (set_initialized false)
  end.

Definition virtio_net_id_table : list device_id_entry :=
  let entry c id name := DeviceId c VIRTIO_VENDOR_ID id (Some (str name)) in
  let compatible := Some (str "virtio,net") in
  [entry compatible VIRTIO_NET_DEVICE_ID_MODERN "VirtIO-Net (1.0+)";
   entry None VIRTIO_NET_DEVICE_ID_MODERN "VirtIO-Net (1.0+ PCI)";
   entry compatible VIRTIO_NET_DEVICE_ID_TRANSITIONAL "VirtIO-Net (Transitional)";
   entry None VIRTIO_NET_DEVICE_ID_TRANSITIONAL "VirtIO-Net (Transitional PCI)";
   entry compatible VIRTIO_NET_SUBSYSTEM_DEVICE_ID "VirtIO-Net (Legacy)";
   entry None VIRTIO_NET_SUBSYSTEM_DEVICE_ID "VirtIO-Net (Legacy PCI)";
   DeviceId None 0 0 None].

(** [reg]: the device registry in the world. *)
Definition virtio_net_driver (reg : W -> registry) : driver := {|
  drv_name := str "virtio-net"; drv_version := str "0.1.0"; drv_type := DRIVER_TYPE_NETWORK;
  id_table := Some virtio_net_id_table;
  init_context := Some (fun ctx i w =>
    d ← slot (reg w) i; virtio_net_init_context (Some ctx) (Some d) w);
  deinit_context := Some (fun ctx w => '(_, w) ← virtio_net_deinit_context (Some ctx) w; mret w) |}.

Definition virtio_net_get_mac (ctx : option P) (mac : option bytes) : St W (Z * option bytes) :=
  match ctx, mac with
  | Some ctx, Some mac =>
      c ← gets (ctx_get ctx);
      if negb (initialized c) then mret (-1, Some mac) else
      mac ← lift (memcpy mac 0 (mac_addr c) 0 6);
      mret (0, Some mac)
  | _, _ => mret (-1, mac)
  end.

(** The kick of a queue. *)
Definition notify (ctx : P) (queue_index : Z) : St W unit :=
  c ← gets (ctx_get ctx);
  if on_pci (net_transport c) then
    _ ← virtio_write16 ctx VIRTIO_PCI_QUEUE_SEL queue_index;
    virtio_write16 ctx VIRTIO_PCI_QUEUE_NOTIFY queue_index
  else virtio_write32 ctx VIRTIO_MMIO_QUEUE_NOTIFY queue_index.

(** The first five looks at the used ring are logged. *)
Definition log_rx_check (last_used used_ring_idx : Z) : St W unit :=
  n ← gets debug_count;
  if n <? 5 then
    _ ← vnet_print LOG_DEBUG (puts (str "RX check: last_used=") +++ puts (put_hex16 last_used)
          +++ puts (str " used_idx=") +++ puts (put_hex16 used_ring_idx) +++ puts nl)%out;
    modify (set_debug_count (n + 1))
  else skip.

(** [buffer]: an object and an offset into it, or NULL; [received_length]: what
    the pointed-to variable holds, or NULL.  Both are returned as left. *)
Definition virtio_net_receive (ctx : option P) (buffer : option (bytes * Z)) (buffer_size : Z)
    (received_length : option Z) : St W (Z * option (bytes * Z) * option Z) :=
  let fail := (-1, buffer, received_length) in
  match ctx, buffer, received_length with
  | Some ctx, Some (b, o), Some _ =>
      c ← gets (ctx_get ctx);
      if negb (initialized c) then mret fail else
      let last_used := rx_last_used_idx c in
      let used_ring_idx := used_idx (rx_queue c) in
      let drop_packet := (_ ← ctx_modify ctx next_rx; mret fail) in
      _ ← log_rx_check last_used used_ring_idx;
      if used_ring_idx =? last_used then mret fail else
      e ← lift (rd (used_ring (rx_queue c)) (last_used mod ring_len (net_transport c)));
      let desc_id := used_id e in
      let packet_len := used_len e in
      if VIRTIO_NET_QUEUE_SIZE <=? desc_id then drop_packet else
      if (packet_len =? 0) || (VIRTIO_NET_MAX_PACKET_SIZE <? packet_len) then drop_packet else
      if packet_len <? sizeof_hdr then drop_packet else
      let data_len := packet_len - sizeof_hdr in
      if buffer_size <? data_len then drop_packet else
      b ← lift (rx ← rd (rx_buffers c) desc_id;
                memcpy b o rx (VIRTIO_NET_RX_BUFFER_OFFSET + sizeof_hdr) (Z.to_nat data_len));
      _ ← ctx_modify ctx next_rx;
      _ ← ctx_update ctx (fun c =>
            q ← offer (ring_len (net_transport c)) (u16 desc_id) (rx_queue c);
            mret (set_rx q (rx_desc_in_use c) (rx_last_used_idx c) c));
      _ ← notify ctx 0;
      mret (0, Some (b, o), Some data_len)
  | _, _, _ => mret fail
  end.

(** The loop of virtio_net_reclaim_tx: the indices are 16 bits wide. *)
Fixpoint reclaim_loop (fuel : nat) (used : Z) (c : virtio_net) : res virtio_net :=
  if tx_last_used_idx c =? used then Ok c else
  match fuel with
  | O => NoFuel
  | S fuel =>
      e ← rd (used_ring (tx_queue c)) (tx_last_used_idx c mod ring_len (net_transport c));
      u ← (if used_id e <? VIRTIO_NET_QUEUE_SIZE
           then wr (tx_desc_in_use c) (used_id e) false else mret (tx_desc_in_use c));
      reclaim_loop fuel used
        (set_tx (tx_queue c) (tx_buffers c) u (u16 (tx_last_used_idx c + 1)) c)
  end.
Definition virtio_net_reclaim_tx (ctx : P) : St W unit :=
  ctx_update ctx (fun c => reclaim_loop (Z.to_nat (2 ^ 16)) (used_idx (tx_queue c)) c).

(** The packet behind a zero header in buffer [desc_idx], and its descriptor. *)
Definition send_buffer (addr : Z) (b : bytes) (o length desc_idx : Z) (c : virtio_net)
    : res virtio_net :=
  u ← wr (tx_desc_in_use c) desc_idx true;
  tx ← rd (tx_buffers c) desc_idx;
  tx ← memset tx VIRTIO_NET_RX_BUFFER_OFFSET 0 (Z.to_nat sizeof_hdr);
  tx ← memcpy tx (VIRTIO_NET_RX_BUFFER_OFFSET + sizeof_hdr) b o (Z.to_nat length);
  bs ← wr (tx_buffers c) desc_idx tx;
  q ← set_desc (tx_queue c) desc_idx
        (VDesc (u64 (addr + offsetof_tx_buffers + desc_idx * VIRTIO_NET_MAX_PACKET_SIZE
                     + VIRTIO_NET_RX_BUFFER_OFFSET)) (u32 (sizeof_hdr + length)) 0 0);
  q ← offer (ring_len (net_transport c)) desc_idx q;
  mret (set_tx q bs u (tx_last_used_idx c) c).

Definition virtio_net_transmit (ctx : option P) (packet : option (bytes * Z)) (length : Z)
    : St W Z :=
  match ctx, packet with
  | Some ctx, Some (b, o) =>
      if (length =? 0) || (VIRTIO_NET_MAX_PACKET_SIZE <? length) then mret (-1) else
      c ← gets (ctx_get ctx);
      if negb (initialized c) then mret (-1) else
      _ ← virtio_net_reclaim_tx ctx;
      c ← gets (ctx_get ctx);
      free ← lift (first_free (tx_desc_in_use c) (Z.to_nat VIRTIO_NET_QUEUE_SIZE) 0);
      match free with
      | None => mret (-1)
      | Some desc_idx =>
          _ ← ctx_update ctx (send_buffer (ctx_address (W := W) ctx) b o length desc_idx);
          _ ← notify ctx 1;
          mret 0
      end
  | _, _ => mret (-1)
  end.
End virtio_net.
