(* ===== verification/WebServer.v ===== *)
(** The web server on an Intel 82540EM: app_http_hello over the network device layer,
    the resource manager, the e1000 driver and the card, from the unallocated device to
    the frames on the wire.

    The machine is that of E1000.v: its memory holds one driver context, the first of
    the e1000 pool.  The registry has one card and no device of the other drivers, whose
    initialisation is an argument of the model that is never used. *)

From S2P Require Export E1000 NetStack HttpHello.
From S2P Require Rtl8139 VirtioNet.

Open Scope Z_scope.

(** What the server does for the frames that arrive, in the abstract. *)
Definition next_isn (isn : Z) (g : segment) : Z :=
  if has_flag g TCP_FLAG_SYN then u32 (isn + 1) else isn.
Definition replies (mac : bytes) (isn : Z) (g : segment) : list bytes :=
  answer_frame mac g <$> answers isn g.
Fixpoint server_frames (mac : bytes) (isn : Z) (gs : list segment) : list bytes :=
  match gs with
  | [] => []
  | g :: gs => replies mac isn g ++ server_frames mac (next_isn isn g) gs
  end.

Section web_server.
  Context `{Arch} (A B : Z) (mem : memory) (devices : registry) (n : nat).
  Context (other_init : net_driver -> net_ctx -> nat -> machine -> res (Z * machine)).

Definition first_context : net_ctx := NetCtx E1000 NETDEV_POOL 0.

(** The drivers' records: the e1000 driver has the memory of its first context only. *)
Definition net_drv (k : net_driver) : driver (W := machine) (C := net_ctx) :=
  let other name table := Driver (str name) (str "0.1.0") DRIVER_TYPE_NETWORK (Some table)
                            (Some (other_init k)) None in
  match k with
  | RTL8139 => other "rtl8139" Rtl8139.rtl8139_id_table
  | VIRTIO_NET => other "virtio-net" VirtioNet.virtio_net_id_table
  | E1000 =>
      let drv := @e1000_driver machine unit _ _ (card_bus B) (card_ctx A) (fun _ => devices) in
      Driver (drv_name drv) (drv_version drv) (drv_type drv) (id_table drv)
        ((fun init ctx i m => if decide (ctx = first_context) then init tt i m else UB)
           <$> init_context drv) None
  end.

#[local] Instance server_net : NetDriver stack :=
  @stack_net machine mem (fun _ => devices) net_drv (machine_net A B).

(** The registry: a card whose registers are at [B], and nothing for the other drivers. *)
Record one_card : Prop := OneCard {
  oc_threaded : threaded (device_storage devices) n;
  oc_count : (n <= Devices.MAX_DEVICES)%nat;
  oc_card : exists i d, (i < n)%nat /\ slot devices i = Ok d /\
    vendor_id d = PCI_VENDOR_ID_INTEL /\ device_id d = E1000_DEVICE_ID_82540EM;
  oc_base : forall i d, slot devices i = Ok d -> vendor_id d = PCI_VENDOR_ID_INTEL ->
    device_id d = E1000_DEVICE_ID_82540EM -> reg_base d = B;
  oc_others : forall i d, slot devices i = Ok d -> dev_compatible d = None /\
    vendor_id d <> Rtl8139.PCI_VENDOR_ID_REALTEK /\ vendor_id d <> Virtqueue.VIRTIO_VENDOR_ID
}.

  Hypothesis HB : 0 < B /\ B + 0x6000 <= 2 ^ 64.
  Hypothesis HA : 0 <= A /\ A + 0x9000 <= 2 ^ 64.

(* ------------------------------------------------------------------ *)
(** ** The card is acquired *)

Lemma e1000_matches d : device_matches_driver mem d (net_drv E1000)
  = Ok ((vendor_id d =? PCI_VENDOR_ID_INTEL) && (device_id d =? E1000_DEVICE_ID_82540EM)).
Proof using.
  unfold device_matches_driver, net_drv, e1000_driver, e1000_id_table.
  cbn [id_table match_table id_compatible id_vendor id_device].
  rewrite bool_decide_eq_false_2 by congruence. cbn.
  by destruct (_ =? PCI_VENDOR_ID_INTEL), (_ =? E1000_DEVICE_ID_82540EM).
Qed.

Lemma others_do_not_match k i d : one_card -> slot devices i = Ok d -> k <> E1000 ->
  device_matches_driver mem d (net_drv k) = Ok false.
Proof using.
  intros Hoc Hd Hk. destruct (oc_others Hoc i d Hd) as (Hc & Hr & Hv).
  unfold device_matches_driver, net_drv.
  destruct k; [| |done]; apply match_table_other; try done.
  - repeat constructor; done.
  - do 1 right. by left.
  - repeat constructor; done.
  - do 6 right. by left.
Qed.
(** The manager at boot, and what the card's memory keeps while drivers are tried. *)
Definition boot_manager : manager (W := machine) (C := net_ctx) := resources_set_devices manager_empty (Some O).
Definition uninitialised (m0 m : machine) : Prop :=
  sized (m_ctx m) /\ m_wire m = m_wire m0 /\ forall p t, has_tag p t m0 -> has_tag p t m.

Lemma run_init_card m0 m i d : one_card -> uninitialised m0 m -> slot devices i = Ok d ->
  device_matches_driver mem d (net_drv E1000) = Ok true ->
  exists m1, run_init (net_drv E1000) first_context i m = Ok (0, m1) /\
    programmed A B m1 /\ uninitialised m0 m1.
Proof using HA HB.
  intros Hoc (Hs & Hw & Ht) Hd Hm. rewrite e1000_matches in Hm. injection Hm as Hm.
  apply andb_prop in Hm as [Hv%Z.eqb_eq Hi%Z.eqb_eq].
  destruct (init_programs A B HB HA m d Hs (oc_base Hoc i d Hd Hv Hi)) as (m1 & E & Hp & Hw1).
  exists m1. split; [|split; [done|]].
  - unfold run_init, net_drv. cbn [init_context e1000_driver fmap option_fmap option_map].
    rewrite decide_True by done. rewrite Hd. exact E.
  - split; [apply Hp|]. split; [congruence|]. intros p t Hpt.
    exact (init_keeps_tag A B p t d m 0 m1 (Ht p t Hpt) E).
Qed.

Lemma card_behaves m0 : one_card ->
  well_behaved mem (fun _ => devices) (net_drv E1000) first_context n (uninitialised m0).
Proof using HA HB.
  intros Hoc. split.
  - intros m _. apply Hoc.
  - intros m i d _ _ _. rewrite e1000_matches. by eexists.
  - intros init i d m Ei Hm Hi Hd Hmt.
    destruct (run_init_card m0 m i d Hoc Hm Hd Hmt) as (m1 & E & _ & Hm1).
    unfold run_init in E. rewrite Ei in E. by exists 0, m1.
Qed.

Lemma card_acquired m : one_card -> sized (m_ctx m) ->
  exists h m1 mgr, net_acquire E1000 first_context (Stack m boot_manager)
      = Ok (Some h, Stack m1 mgr) /\
    programmed A B m1 /\ m_wire m1 = m_wire m /\ (forall p t, has_tag p t m -> has_tag p t m1).
Proof using HA HB.
  intros Hoc Hs. pose proof (card_behaves m Hoc) as Hwb.
  assert (uninitialised m m) as Hm by by split.
  destruct (oc_card Hoc) as (i & d & Hi & Hd & Hv & Hid).
  assert (Forall (fun j => j < n)%nat (seq 0 n)) as Hseq by (apply Forall_seq; lia).
  assert (mgr_devices boot_manager = if (0 <? n)%nat then Some O else None) as Hdev
    by (destruct (Nat.ltb_spec 0 n); [done|lia]).
  destruct (acquire_ref_succeeds mem _ (net_drv E1000) first_context n _ [] i Hwb) with
    (devs := seq 0 n) (w := m) as (j & m' & E); try done.
  { intros j d' m1 z m2 Hm1 Hd' Hmt Ez.
    destruct (run_init_card m m1 j d' Hoc Hm1 Hd' Hmt) as (m3 & E & _). congruence. }
  { intros m1 d' _ E. rewrite Hd in E. injection E as <-. rewrite e1000_matches, Hv, Hid. done. }
  { apply not_elem_of_nil. }
  { apply elem_of_seq. lia. }
  destruct (acquire_available_spec mem (fun _ => devices) (net_drv E1000) first_context
    boot_manager m [] n (uninitialised m) (fresh_wf _)) as (o & m'' & E' & Ho);
    [cbn; unfold MAX_RESOURCE_ALLOCATIONS; lia|done|done|apply Hoc|done|].
  change (device_of boot_manager <$> []) with ([] : list (option nat)) in E'.
  rewrite E in E'. injection E' as <- <-.
  destruct (acquire_ref_picks mem _ _ _ _ _ _ Hwb _ _ _ _ Hm Hseq E) as [(_ & Hw & Ht) Hp].
  destruct Hp as (_ & m0 & d0 & Hm0 & Hd0 & Hmt & Er).
  destruct (run_init_card m m0 j d0 Hoc Hm0 Hd0 Hmt) as (m1 & Er' & Hp & _).
  rewrite Er in Er'. injection Er' as <-.
  destruct Ho as (_ & k & _ & _ & Ea). eexists k, m', _.
  split; [|by split_and!]. cbn [net_acquire server_net stack_net st_manager st_world].
  rewrite Ea. reflexivity.
Qed.
Lemma nothing_else k m : one_card -> k <> E1000 ->
  net_acquire k (NetCtx k NETDEV_POOL 0) (Stack m boot_manager)
  = Ok (None, Stack m boot_manager).
Proof using.
  intros Hoc Hk. cbn [net_acquire server_net stack_net st_manager st_world].
  rewrite (acquire_nothing mem (fun _ => devices) (net_drv k) _ boot_manager m [] n); try apply Hoc.
  - done.
  - apply fresh_wf.
  - destruct (oc_card Hoc) as (i & _ & Hi & _). by destruct (Nat.ltb_spec 0 n); [|lia].
  - intros i d _ Hd. by apply (others_do_not_match k i).
Qed.

Lemma server_acquires m : one_card -> sized (m_ctx m) ->
  exists h m1 mgr st, netdev_acquire_all [device_entry_zero] 1 net_statics_zero (Stack m boot_manager)
      = Ok (1, [DeviceEntry (Some h) (Some E1000) (Some first_context)], st, Stack m1 mgr) /\
    programmed A B m1 /\ m_wire m1 = m_wire m /\ (forall p t, has_tag p t m -> has_tag p t m1).
Proof using HA HB.
  intros Hoc Hs. destruct (card_acquired m Hoc Hs) as (h & m1 & mgr & E & Hm1).
  assert (forall k (X : Type) (f : bool * list device_entry * net_statics -> St stack X),
    k <> E1000 -> (try_driver k [device_entry_zero] 0 net_statics_zero ≫= f) (Stack m boot_manager)
      = f (false, [device_entry_zero], net_statics_zero) (Stack m boot_manager)) as Hskip.
  { intros k X f Hk. apply St_bind_ok. unfold try_driver.
    replace (index_of net_statics_zero k) with 0%nat by by destruct k.
    exact (St_bind_ok _ _ _ _ _ (nothing_else k m Hoc Hk)). }
  exists h, m1, mgr, (bump net_statics_zero E1000). split; [|done].
  unfold netdev_acquire_all. change (S (Z.to_nat 1)) with 2%nat. cbn [acquire_all_loop Z.ltb].
  change (Z.of_nat 0 <? 1) with true. cbv iota.
  rewrite (Hskip RTL8139) by done. cbv beta iota. rewrite (Hskip VIRTIO_NET) by done.
  cbv beta iota. erewrite St_bind_ok.
  2:{ unfold try_driver. cbn [index_of net_statics_zero e1000_index]. change (0 <? _)%nat with true.
      cbv iota zeta. rewrite (St_bind_ok _ _ _ _ _ E). reflexivity. }
  cbv beta iota. reflexivity.
Qed.
(* ------------------------------------------------------------------ *)
(** ** The server starts *)

(** What holds between two turns of the loop: the frames [t] are with the card, the frames
    [r] have arrived and wait, no more than seven of the former, and no descriptor of the
    receive ring is lost. *)
Record serving (dev : device_entry) (mac : bytes) (log : tag_ptr) (s : http_state)
    (t r wire : list bytes) (w : stack) : Prop := Serving {
  sv_card : represents A B (st_world w) (Queues t ((fun f => (f, true)) <$> r) wire);
  sv_few : (length t <= 7)%nat;
  sv_room : (m_regs (st_world w) E1000_RDT - m_regs (st_world w) E1000_RDH) mod 8 + len r = 7;
  sv_dev : exists h, dev = DeviceEntry (Some h) (Some E1000) (Some first_context);
  sv_mac : len mac = 6 /\ is_bytes mac;
  sv_quiet : quiet log w;
  sv_tx : len (tx_storage s) = 2050;
  sv_rx : len (rx_storage s) = 2050 /\ is_bytes (rx_storage s)
}.

(** Printing between initialisation and the loop. *)
Definition ready_card (log : tag_ptr) (t : log_tag) (m : machine) (w : stack (V := machine)) : Prop :=
  programmed A B (st_world w) /\ m_ctx (st_world w) = m_ctx m /\ m_wire (st_world w) = m_wire m /\
  has_tag log t w.

Lemma ready_write log t m w txt : ready_card log t m w -> ready_card log t m (con_write txt w).
Proof using. destruct w as [v mgr]. intros ([] & Hc & Hw & Ht). by split_and!. Qed.

Lemma ready_when log t m w (b : bool) (o : out) : ready_card log t m w -> (exists txt, o = Ok txt) ->
  exists w', ready_card log t m w' /\ when b (_ ← klog_prefix log LOG_INFO; kput o) w = Ok (tt, w').
Proof using.
  intros Hw [txt ->]. destruct b; [|by exists w].
  destruct (klog_prefix_ok log LOG_INFO w ltac:(discriminate)) as [s E].
  eexists. split; [|cbn [when]; rewrite (St_bind_ok _ _ _ _ _ E); reflexivity].
  by do 2 apply ready_write.
Qed.

Lemma get_mac_ok m mgr h : programmed A B m ->
  netdev_get_mac (Some (DeviceEntry (Some h) (Some E1000) (Some first_context)))
    (Some (replicate 6 0)) (Stack m mgr)
  = Ok (0, Some (mac_addr (m_ctx m)), Stack m mgr).
Proof using.
  intros Hp. destruct (pr_mac A B m Hp) as [Hl _]. cbn [netdev_get_mac entry_driver entry_context].
  rewrite (St_bind_ok _ _ _ (0, mac_addr (m_ctx m)) (Stack m mgr)); [done|]. cbn [drv_get_mac server_net stack_net].
  apply below_ok. cbn [drv_get_mac machine_net fmap option_fmap option_map].
  rewrite (St_bind_ok _ _ _ (0, Some (mac_addr (m_ctx m))) m); [done|]. unfold e1000_get_mac.
  erewrite St_bind_ok by reflexivity. cbn [ctx_get card_ctx]. rewrite (pr_init A B m Hp). cbn [negb].
  destruct (mac_addr (m_ctx m)) as [|a0 [|a1 [|a2 [|a3 [|a4 [|a5 [|]]]]]]]; try discriminate.
  { reflexivity. }
  unfold len in Hl. cbn [length] in Hl. lia.
Qed.

(** The server's log tag, which the command line's directives [ds] give its level. *)
Definition server_tag (ds : list directive) : log_tag :=
  LogTag (str "http-hello") (level_for ds (str "http-hello") LOG_INFO).

Lemma server_registers ds m : log_follows ds (con_log m) ->
  (length (tag_registry (con_log m)) < MAX_LOG_TAGS)%nat ->
  exists m1 log, klog_register "http-hello" LOG_INFO (Stack m boot_manager)
      = Ok (log, Stack m1 boot_manager) /\
    has_tag log (server_tag ds) m1 /\ m_ctx m1 = m_ctx m /\ m_wire m1 = m_wire m.
Proof using.
  intros Hf Hlt. eexists _, _. split.
  - unfold klog_register. cbn [con_log stack_console st_world].
    rewrite (log_register_level ds) by (done || by repeat constructor). reflexivity.
  - split; [|done]. unfold has_tag, get_tag. cbn. by apply list_lookup_middle.
Qed.

Lemma ready_quiet ds log m w : level_for ds (str "http-hello") LOG_INFO < LOG_DEBUG ->
  ready_card log (server_tag ds) m w -> quiet log w.
Proof using.
  intros Hlv (_ & _ & _ & Htw). unfold quiet, klog_tag. unfold has_tag in Htw. rewrite Htw.
  by apply Z.leb_gt.
Qed.

Lemma setup_serves ds m : one_card -> sized (m_ctx m) -> log_follows ds (con_log m) ->
  (length (tag_registry (con_log m)) < MAX_LOG_TAGS)%nat ->
  level_for ds (str "http-hello") LOG_INFO < LOG_DEBUG ->
  exists dev mac log st w1, http_setup net_statics_zero (Stack m boot_manager)
      = Ok (Some (dev, mac, log), st, w1) /\
    forall isn, serving dev mac log (http_start isn) [] [] (m_wire m) w1.
Proof using HA HB.
  intros Hoc Hs Hf Hlt Hlv. destruct (server_registers ds m Hf Hlt) as (m1 & log & E1 & Ht1 & Hc1 & Hw1).
  unfold http_setup. rewrite (St_bind_ok _ _ _ _ _ E1).
  destruct (klog_msg_ok log LOG_INFO "Starting HTTP Hello World application...
" (Stack m1 boot_manager) ltac:(discriminate)) as [s2 E2].
  rewrite (St_bind_ok _ _ _ _ _ E2). set (m2 := con_write s2 m1).
  destruct (server_acquires m2 Hoc) as (h & m3 & mgr & st & E3 & Hp & Hw3 & Ht3); [by rewrite <- Hc1 in Hs|].
  change (con_write s2 (Stack m1 boot_manager)) with (Stack m2 boot_manager).
  rewrite (St_bind_ok _ _ _ _ _ E3). cbv beta iota. change (1 <? 1) with false. cbv iota.
  set (t := server_tag ds) in *.
  assert (ready_card log t m3 (Stack m3 mgr)) as Hr by (split_and!; try done; by apply Ht3).
  rewrite debug_bind by by apply (ready_quiet ds log m3).
  set (dev := DeviceEntry _ _ _). erewrite St_bind_ok by reflexivity.
  destruct (pr_mac A B m3 Hp) as [Hml Hmb]. set (mac := mac_addr (m_ctx m3)) in *.
  rewrite (St_bind_ok _ _ _ _ _ (get_mac_ok m3 mgr h Hp)). cbv beta iota.
  destruct (net_print_mac_safe mac 0) as [pm Epm]; [lia|lia|].
  set (info (w : stack (V := machine)) := log_enabled (klog_tag log w) LOG_INFO).
  destruct (ready_when log t m3 (Stack m3 mgr) ((0 =? 0) && info (Stack m3 mgr))
    (puts (str "MAC: ") +++ net_print_mac mac 0 +++ puts nl)%out Hr) as (w4 & Hr4 & E4);
    [rewrite Epm; by eexists|].
  destruct (ready_when log t m3 w4 (info w4)
    (puts (str "Listening on port ") +++ net_print_decimal_u16 HTTP_HELLO_PORT
     +++ puts (str "..." ++ nl))%out Hr4) as (w5 & Hr5 & E5); [by eexists|].
  unfold klog_enabled at 1. erewrite St_bind_ok by reflexivity. cbn [default]. fold mac.
  rewrite (St_bind_ok _ _ _ _ _ E4).
  unfold klog_enabled. erewrite St_bind_ok by reflexivity. rewrite (St_bind_ok _ _ _ _ _ E5).
  exists dev, mac, log, st, w5. split; [reflexivity|]. intros isn.
  pose proof (ready_quiet ds log m3 w5 Hlv Hr5). destruct Hr5 as (Hp5 & _ & Hw5 & _).
  assert (m_wire (st_world w5) = m_wire m) as <- by (rewrite Hw5, Hw3; exact Hw1).
  split; try done.
  - by apply programmed_represents.
  - cbn; lia.
  - destruct (pr_rx A B _ Hp5) as [-> ->]. done.
  - by exists h.
  - split; [done|]. by apply Forall_replicate.
Qed.

(* ------------------------------------------------------------------ *)
(** ** One frame *)

(** The frame [f] holds the TCP segment [g] for the server, wherever it is stored. *)
Definition request (f : bytes) (g : segment) : Prop :=
  54 <= len f <= 2048 /\ forall h t, len h = 2 -> segment_at (h ++ f ++ t) g.

(** The answers are queued behind the frames to send, and nothing else of the receive
    side changes. *)
Lemma transmit_answers_queued dev mac g l : forall reply w q,
  (exists h, dev = DeviceEntry (Some h) (Some E1000) (Some first_context)) ->
  len mac = 6 -> segment_ok g -> Forall answer_ok l -> len reply = 2050 ->
  represents A B (st_world w) q -> (length (to_send q) + length l <= 8)%nat ->
  exists r w', transmit_answers dev mac g reply l w = Ok (r, w') /\
    represents A B (st_world w')
      (Queues (to_send q ++ (answer_frame mac g <$> l)) (arrived q) (sent q)) /\
    (forall x, x <> E1000_TDT -> m_regs (st_world w') x = m_regs (st_world w) x).
Proof using HB.
  induction l as [|a l IH]; intros reply w q Hdev Hm Hg Hl Hr R Hq.
  { exists reply, w. rewrite app_nil_r. by destruct q. }
  apply Forall_cons in Hl as [[_ Ha] Hl]. cbn [transmit_answers length] in *. cbv zeta.
  pose proof (answer_frame_len mac g a Hm Hg) as Hf. set (f := answer_frame mac g a) in *.
  pose proof (len_nonneg (an_payload a)).
  destruct (split_at reply 2 (len f)) as (hd & md & tl & -> & Hhd & Hmd); [lia..|].
  rewrite (put_frame_split hd md tl f) by done.
  pose proof (load_ok hd f tl) as Hload. rewrite Hhd in Hload.
  destruct (transmit_accept A B HB (st_world w) q (hd ++ f ++ tl) 2 (len f) f R Hload) as
    (m' & E & R' & Hregs); [unfold E1000_TX_BUFFER_SIZE; lia|lia|].
  destruct w as [v mgr]. cbn [st_world] in *.
  destruct (IH (hd ++ f ++ tl) (Stack m' mgr) _ Hdev Hm Hg Hl ltac:(rewrite !len_app in *; lia) R')
    as (r & w' & E' & R'' & Hregs'); [cbn [to_send]; rewrite length_app; cbn; lia|].
  exists r, w'. split; [|split].
  - rewrite (St_bind_ok _ _ _ 0 (Stack m' mgr)); [done|]. destruct Hdev as [h ->].
    cbn [netdev_transmit entry_driver entry_context]. destruct (Z.eqb_spec (len f) 0); [lia|].
    by apply below_ok.
  - cbn [to_send arrived sent] in R''. by rewrite <- app_assoc in R''.
  - intros x Hx. rewrite Hregs' by done. by apply Hregs.
Qed.
(** The world after the card took a step. *)
Definition put_card (m : machine) (w : stack (V := machine)) : stack := Stack m (st_manager w).

(** The loop's receive hands the oldest frame that arrived to the server's buffer. *)
Lemma receive_request dev mac log s t f r wire w :
  serving dev mac log s t (f :: r) wire w -> len f <= 2048 ->
  exists b' m2 hd tl,
    netdev_receive (Some dev) (Some (rx_storage s, buffer)) HTTP_HELLO_BUFFER_SIZE (Some 0) w
      = Ok (0, Some (b', buffer), Some (len f), put_card m2 w) /\
    b' = hd ++ f ++ tl /\ len hd = 2 /\ len b' = 2050 /\ is_bytes b' /\
    represents A B m2 (Queues t ((fun f => (f, true)) <$> r) wire) /\
    (m_regs m2 E1000_RDT - m_regs m2 E1000_RDH) mod 8 + len r = 7 /\
    con_log m2 = con_log (st_world w).
Proof using HA HB.
  intros [R1 _ _ [h ->] _ _ _ [Hl Hb]] Hfl. cbn [fmap list_fmap] in R1.
  pose proof (oldest_is_bytes A B _ _ _ _ _ _ R1) as Hfb.
  destruct (receive_frame A B HB _ t f true _ wire (rx_storage s) 2 2048 0 R1) as (d & regs & R2 & E);
    [lia|lia|lia|]. cbn [andb] in E. destruct (Z.leb_spec (len f) 2048); [|lia].
  destruct E as (b' & Hst & E & Hregs). pose proof (store_len _ _ _ _ Hst) as Hbl.
  pose proof (store_inv _ _ _ _ Hst) as (hd & md & tl & Erx & Hhd & _ & Eb).
  exists b', (taken d regs (st_world w)), hd, tl. split_and!; [|done|done|lia| |done| |reflexivity].
  - cbn [netdev_receive entry_driver entry_context]. unfold buffer, ETH_ALIGNMENT_OFFSET.
    rewrite (St_bind_ok _ _ _ (0, b', len f) (put_card (taken d regs (st_world w)) w)); [done|].
    destruct w as [v mgr]. apply below_ok. cbn [drv_receive machine_net fmap option_fmap option_map].
    by rewrite (St_bind_ok _ _ _ _ _ E).
  - rewrite Erx in Hb. rewrite Eb. rewrite !is_bytes_app in *. tauto.
  - cbn [m_regs taken]. rewrite Hregs, reg_set_eq, reg_set_ne by done.
    pose proof (ring_fits _ _ _ _ _ _ (rep_rx _ _ _ _ R1)) as Hfit. pose proof (rep_room _ _ _ _ R1) as Hroom.
    rewrite (rep_rdh _ _ _ _ R1) in *. pose proof (rep_rxc _ _ _ _ R1). cbn [arrived] in *.
    rewrite len_cons in *. replace (len ((fun f => (f, true)) <$> r)) with (len r) in *
      by (unfold len; by rewrite length_fmap). pose proof (len_nonneg r).
    pose proof (Z.mod_pos_bound (m_regs (st_world w) E1000_RDT
      - (rx_current (m_ctx (st_world w)) + (1 + len r)) mod 8) 8 eq_refl). zdm.
Qed.

Lemma answers_few isn g : (length (answers isn g) <= 3)%nat.
Proof using.
  unfold answers, syn_answers, data_answers, fin_answers. rewrite !length_app.
  repeat case_match; cbn; lia.
Qed.

(** One turn answers the oldest frame that arrived: exactly the specification's replies
    are handed to the card, behind those it has. *)
Lemma iteration_answers dev mac log s t f r wire w g :
  serving dev mac log s t (f :: r) wire w -> (length t <= 4)%nat -> request f g ->
  exists s1 w1, http_iteration dev mac log s w = Ok (s1, w1) /\
    serving dev mac log s1 (t ++ replies mac (isn s) g) r wire w1 /\ isn s1 = next_isn (isn s) g.
Proof using HA HB.
  intros Hsv Ht [Hfl Hseg].
  destruct (receive_request dev mac log s t f r wire w Hsv ltac:(lia))
    as (b' & m2 & hd & tl & E & Eb & Hhd & Hbl & Hbb & R2 & Hroom & Hlog).
  unfold http_iteration. rewrite (St_bind_ok _ _ _ _ _ E). cbn [default].
  assert (segment_at b' g) as Hat by (rewrite Eb; by apply Hseg).
  pose proof (segment_at_ok b' g Hbb Hat) as Hg. destruct Hsv as [_ _ _ Hdev [Hm Hmb] Hq Htx _].
  assert (idle log (tx_storage s) (put_card m2 w)) as Hidle.
  { split; [|done]. unfold quiet, klog_tag in *.
    change (con_log (put_card m2 w)) with (con_log m2). by rewrite Hlog. }
  set (laws := stack_laws mem (fun _ => devices) net_drv (Console0 := machine_console)
                 (H := machine_net A B) (NetDriverLaws0 := machine_net_laws A B HB HA)).
  destruct (answers_ok (isn s) g) as (Ha1 & Ha2 & Ha3). pose proof (answers_few (isn s) g) as Hfew.
  assert (Forall answer_ok (answers (isn s) g)) as Hok by (by repeat apply Forall_app_2).
  destruct (transmit_answers_queued dev mac g (answers (isn s) g) (tx_storage s) (put_card m2 w)
    _ Hdev Hm Hg Hok Htx R2) as (rep & w1 & Et & R3 & Hregs); [cbn [to_send]; lia|].
  pose proof (transmit_answers_idle dev mac g log (answers (isn s) g) (tx_storage s) _ rep w1
    Hm Hg Hok Hidle Et) as [Hq1 Hr1].
  exists (HttpState b' rep (next_isn (isn s) g)), w1. split; [|split; [|done]].
  - rewrite (St_bind_ok _ _ _ (rep, next_isn (isn s) g) w1); [done|].
    rewrite (handle_frame_segment dev mac log b' (len f) (tx_storage s) (isn s) g) by
      (done || unfold sizeof_eth_hdr, sizeof_ipv4_hdr, sizeof_tcp_hdr; lia).
    rewrite (handle_tcp_spec dev mac log b' (len f) (tx_storage s) (isn s) g) by done.
    by rewrite (St_bind_ok _ _ _ _ _ Et).
  - split; try done; [|by rewrite !Hregs]. unfold replies. rewrite length_app, length_fmap. lia.
Qed.

(** A turn with no frame there changes nothing. *)
Lemma iteration_waits dev mac log s t wire w : serving dev mac log s t [] wire w ->
  http_iteration dev mac log s w = Ok (s, w).
Proof using.
  intros [R _ _ [h ->] _ _ _ _]. unfold http_iteration.
  rewrite (St_bind_ok _ _ w (-1, Some (rx_storage s, buffer), Some 0) w).
  - by destruct s.
  - cbn [netdev_receive entry_driver entry_context].
    rewrite (St_bind_ok _ _ _ (-1, rx_storage s, 0) w); [done|]. destruct w as [v mgr].
    apply below_ok. cbn [drv_receive machine_net fmap option_fmap option_map].
    by rewrite (St_bind_ok _ _ _ _ _ (receive_empty A B v _ _ _ _ _ R eq_refl)).
Qed.

(** The card's steps change nothing the driver relies on. *)
Lemma send_serves dev mac log s t r wire w f m1 :
  serving dev mac log s t r wire w -> hw_step A (st_world w) (Sent f) m1 ->
  exists t', t = f :: t' /\ serving dev mac log s t' r (wire ++ [f]) (put_card m1 w).
Proof using.
  intros [R Hf Hr Hd Hm Hq Htx Hrx] Hs.
  destruct (sent_represents A B _ _ _ _ R Hs) as (t' & Et & R'). cbn [to_send arrived sent] in *. subst t.
  exists t'. split; [done|]. inversion Hs; subst.
  split; try done. cbn in Hf. lia.
Qed.
Lemma arrival_serves dev mac log s t r wire w f m1 :
  serving dev mac log s t r wire w -> hw_step A (st_world w) (Arrived f true) m1 ->
  serving dev mac log s t (r ++ [f]) wire (put_card m1 w).
Proof using.
  intros [R Hf Hr Hd Hm Hq Htx Hrx] Hs.
  destruct (arrived_represents A B _ _ _ _ _ R Hs) as [_ R']. cbn [to_send arrived sent] in *.
  assert (quiet log (put_card m1 w)) as Hq1 by (inversion Hs; subst; exact Hq).
  split; [by rewrite fmap_app|done| |done..].
  pose proof (rep_rdh _ _ _ _ R') as Hrdh.
  pose proof (rep_rdh _ _ _ _ R) as Hrdh0. pose proof (rep_rdt _ _ _ _ R).
  inversion Hs as [|? h d i buf buf' f0 e -> Hne]; subst.
  cbn [st_world put_card m_regs] in *. rewrite reg_set_ne by done. rewrite reg_set_eq in *.
  destruct (rep_configured _ _ _ _ R) as (_ & _ & _ & Hsz & _). unfold ring_size in *. rewrite Hsz in *.
  change (128 / 16) with 8 in *. rewrite len_app. change (len [f]) with 1.
  assert (0 <= m_regs (st_world w) E1000_RDH < 8) by (rewrite Hrdh0; by apply Z.mod_pos_bound).
  clear Hrdh Hrdh0. zdm.
Qed.

(* ------------------------------------------------------------------ *)
(** ** The server and the card *)

(** The descriptors between the card's head and the driver's tail. *)
Definition pending (m : machine) : Z := (m_regs m E1000_TDT - m_regs m E1000_TDH) mod 8.

(** Frames arrive, the card sends and the loop takes its turns, in any order and any
    number; only the loop does not run more than four frames ahead of the card. *)
Inductive served (dev : device_entry) (mac : bytes) (log : tag_ptr)
    : http_state -> stack (V := machine) -> list bytes -> http_state -> stack (V := machine) -> Prop :=
  | served_nil s w : served dev mac log s w [] s w
  | served_arrival s w f m1 fs s2 w2 :
      hw_step A (st_world w) (Arrived f true) m1 ->
      served dev mac log s (put_card m1 w) fs s2 w2 -> served dev mac log s w (f :: fs) s2 w2
  | served_send s w f m1 fs s2 w2 :
      hw_step A (st_world w) (Sent f) m1 ->
      served dev mac log s (put_card m1 w) fs s2 w2 -> served dev mac log s w fs s2 w2
  | served_turn s w s1 w1 fs s2 w2 :
      pending (st_world w) <= 4 -> http_iteration dev mac log s w = Ok (s1, w1) ->
      served dev mac log s1 w1 fs s2 w2 -> served dev mac log s w fs s2 w2.

Lemma pending_frames dev mac log s t r wire w : serving dev mac log s t r wire w ->
  pending (st_world w) = len t.
Proof using.
  intros [R Hf _ _ _ _ _ _]. unfold pending. rewrite (rep_tdt _ _ _ _ R), (rep_tail _ _ _ _ R).
  pose proof (rep_tdh _ _ _ _ R). cbn [to_send]. unfold len in *. zdm.
Qed.

Lemma server_frames_app mac gs1 : forall isn0 gs2, server_frames mac isn0 (gs1 ++ gs2)
  = server_frames mac isn0 gs1 ++ server_frames mac (foldl next_isn isn0 gs1) gs2.
Proof using.
  induction gs1 as [|g gs1 IH]; intros isn0 gs2; [done|]. cbn. by rewrite IH, app_assoc.
Qed.

(** What has been answered are the first of the segments, in order; the others wait. *)
Lemma served_serves dev mac log s w fs s2 w2 : served dev mac log s w fs s2 w2 ->
  forall t r wire gr gs, serving dev mac log s t r wire w ->
  Forall2 request r gr -> Forall2 request fs gs ->
  exists t2 r2 wire2 gs1 gs2, serving dev mac log s2 t2 r2 wire2 w2 /\
    gr ++ gs = gs1 ++ gs2 /\ Forall2 request r2 gs2 /\
    wire2 ++ t2 = (wire ++ t) ++ server_frames mac (isn s) gs1 /\
    isn s2 = foldl next_isn (isn s) gs1.
Proof using HA HB.
  induction 1 as [s w|s w f m1 fs s2 w2 Hs _ IH|s w f m1 fs s2 w2 Hs _ IH|s w s1 w1 fs s2 w2 Hp E _ IH];
    intros t r wire gr gs Hsv Hr Hfs.
  - inversion Hfs; subst. exists t, r, wire, [], gr. cbn. by rewrite !app_nil_r.
  - inversion Hfs as [|? g ? gs' Hg Hfs']; subst.
    destruct (IH t (r ++ [f]) wire (gr ++ [g]) gs') as (t2 & r2 & wire2 & gs1 & gs2 & H1 & E1 & H');
      [by eapply arrival_serves|by apply Forall2_app; [|constructor]|done|].
    exists t2, r2, wire2, gs1, gs2. split; [done|]. by rewrite <- app_assoc in E1.
  - destruct (send_serves _ _ _ _ _ _ _ _ _ _ Hsv Hs) as (t' & -> & Hsv').
    destruct (IH t' r _ gr gs Hsv' Hr Hfs) as (t2 & r2 & wire2 & gs1 & gs2 & H1 & E1 & H2 & H3 & H4).
    exists t2, r2, wire2, gs1, gs2. split_and!; try done. by rewrite <- (app_assoc wire) in H3.
  - destruct r as [|f r].
    { rewrite (iteration_waits _ _ _ _ _ _ _ Hsv) in E. injection E as <- <-. by apply (IH t [] wire gr gs). }
    inversion Hr as [|? g ? gr' Hg Hr']; subst.
    rewrite (pending_frames _ _ _ _ _ _ _ _ Hsv) in Hp. unfold len in Hp.
    destruct (iteration_answers dev mac log s t f r wire w g Hsv ltac:(lia) Hg) as (s1' & w1' & E' & Hsv' & Hi).
    rewrite E in E'. injection E' as <- <-.
    destruct (IH _ _ _ gr' gs Hsv' Hr' Hfs) as (t2 & r2 & wire2 & gs1 & gs2 & H1 & E1 & H2 & H3 & H4).
    exists t2, r2, wire2, (g :: gs1), gs2. rewrite Hi in *. split_and!; try done; [cbn; by rewrite E1|].
    cbn [server_frames]. rewrite H3. by rewrite <- !app_assoc.
Qed.

(** The card can send what it has. *)
Lemma card_drains dev mac log t : forall s r wire w, serving dev mac log s t r wire w ->
  exists w', serving dev mac log s [] r (wire ++ t) w' /\
    forall fs s2 w2, served dev mac log s w' fs s2 w2 -> served dev mac log s w fs s2 w2.
Proof using.
  induction t as [|f t IH]; intros s r wire w Hsv; [by exists w; rewrite app_nil_r|].
  destruct (sent_enabled A B _ f t _ wire (sv_card _ _ _ _ _ _ _ _ Hsv)) as (m1 & Hs & _).
  { pose proof (sv_few _ _ _ _ _ _ _ _ Hsv). lia. }
  destruct (send_serves _ _ _ _ _ _ _ _ _ _ Hsv Hs) as (t' & [= <-] & Hsv').
  destruct (IH s r _ _ Hsv') as (w' & Hw' & Hk). exists w'. rewrite <- app_assoc in Hw'.
  split; [done|]. intros fs s2 w2 Hfs. eapply served_send; [exact Hs|]. by apply Hk.
Qed.

(** Whatever has arrived can be answered, and the answers sent. *)
Lemma backlog_served dev mac log r : forall gr s t wire w, Forall2 request r gr ->
  serving dev mac log s t r wire w ->
  exists s' w', serving dev mac log s' [] [] ((wire ++ t) ++ server_frames mac (isn s) gr) w' /\
    isn s' = foldl next_isn (isn s) gr /\
    forall fs s2 w2, served dev mac log s' w' fs s2 w2 -> served dev mac log s w fs s2 w2.
Proof using HA HB.
  induction r as [|f r IH]; intros gr s t wire w Hr Hsv; inversion Hr as [|? g ? gr' Hg Hr']; subst.
  - destruct (card_drains _ _ _ _ _ _ _ _ Hsv) as (w' & Hw' & Hk). exists s, w'. by rewrite app_nil_r.
  - destruct (card_drains _ _ _ _ _ _ _ _ Hsv) as (w0 & Hw0 & Hk0).
    destruct (iteration_answers dev mac log s [] f r _ w0 g Hw0 ltac:(cbn; lia) Hg)
      as (s1 & w1 & E & Hsv1 & Hi).
    destruct (IH gr' s1 _ _ w1 Hr' Hsv1) as (s' & w' & Hsv' & Hi' & Hk). exists s', w'.
    cbn [server_frames foldl]. rewrite <- Hi. split; [by rewrite <- !app_assoc in *|]. split; [done|].
    intros fs s2 w2 Hfs. apply Hk0. eapply served_turn; [|exact E|by apply Hk].
    by rewrite (pending_frames _ _ _ _ _ _ _ _ Hw0).
Qed.

(** So any frames can arrive and be served. *)
Lemma all_served dev mac log fs : forall gs s wire w, Forall2 request fs gs -> Forall is_bytes fs ->
  serving dev mac log s [] [] wire w -> exists s2 w2, served dev mac log s w fs s2 w2.
Proof using HA HB.
  induction fs as [|f fs IH]; intros gs s wire w Hfs Hb Hsv; [exists s, w; constructor|].
  inversion Hfs as [|? g ? gs' Hg Hfs']; subst. apply Forall_cons in Hb as [Hfb Hb].
  destruct (arrived_enabled A B _ [] [] wire f (sv_card _ _ _ _ _ _ _ _ Hsv)) as (m1 & Hs & _); [|done|..].
  { intros E. pose proof (sv_room _ _ _ _ _ _ _ _ Hsv) as Hr. by rewrite E, Z.sub_diag in Hr. }
  { destruct Hg as [? _]. unfold E1000_RX_BUFFER_SIZE. lia. }
  pose proof (arrival_serves _ _ _ _ _ _ _ _ _ _ Hsv Hs) as Hsv1.
  destruct (backlog_served dev mac log [f] [g] s [] wire _ ltac:(constructor; [exact Hg|constructor]) Hsv1)
    as (s' & w' & Hsv' & _ & Hk).
  destruct (IH gs' s' _ w' Hfs' Hb Hsv') as (s2 & w2 & Hsd). exists s2, w2.
  eapply served_arrival; [exact Hs|]. by apply Hk.
Qed.

(** C1: The web server works end to end.  Started on an unallocated 82540EM whose driver
    is found through the resource manager, with the log level of its tag below DEBUG,
    app_http_hello acquires and initialises the card.  From then on let TCP segments for
    port 80 arrive, the card send and the loop take its turns, in any order (a turn with
    at most four of the eight transmit descriptors in use, since eight stall the card).
    At any time the frames on the wire and those with the card are the specification's
    answers to the first of the segments, in order, and the other segments wait in the
    receive ring; and from there the server and the card can go on until exactly the
    answers to all of them have been sent.  The answer to data is the HTTP response
    without a FIN: the client closes. *)
Theorem web_server_correct ds m : one_card -> sized (m_ctx m) -> log_follows ds (con_log m) ->
  (length (tag_registry (con_log m)) < MAX_LOG_TAGS)%nat ->
  level_for ds (str "http-hello") LOG_INFO < LOG_DEBUG ->
  exists dev mac log st w1, http_setup net_statics_zero (Stack m boot_manager)
      = Ok (Some (dev, mac, log), st, w1) /\
    forall fs gs isn0, Forall2 request fs gs -> Forall is_bytes fs ->
      (exists s w, served dev mac log (http_start isn0) w1 fs s w) /\
      (forall s w, served dev mac log (http_start isn0) w1 fs s w ->
         (exists gs1 gs2 queued waiting, gs = gs1 ++ gs2 /\
            represents A B (st_world w)
              (Queues queued ((fun f => (f, true)) <$> waiting) (m_wire (st_world w))) /\
            m_wire (st_world w) ++ queued = m_wire m ++ server_frames mac isn0 gs1 /\
            Forall2 request waiting gs2) /\
         (exists s2 w2, served dev mac log s w [] s2 w2 /\
            m_wire (st_world w2) = m_wire m ++ server_frames mac isn0 gs)).
Proof using HA HB.
  intros Hoc Hs Hf Hlt Hlv.
  destruct (setup_serves ds m Hoc Hs Hf Hlt Hlv) as (dev & mac & log & st & w1 & E & Hsv0).
  exists dev, mac, log, st, w1. split; [done|]. intros fs gs isn0 Hreq Hb. specialize (Hsv0 isn0).
  split; [by eapply all_served|]. intros s w Hsd.
  destruct (served_serves _ _ _ _ _ _ _ _ Hsd [] [] (m_wire m) [] gs Hsv0) as
    (t & r & wire & gs1 & gs2 & Hsv & Egs & Hr & Hw & Hi); [constructor|done|].
  cbn [app] in Egs. rewrite app_nil_r in Hw. cbn [isn http_start] in *.
  pose proof (rep_wire _ _ _ _ (sv_card _ _ _ _ _ _ _ _ Hsv)) as Ewire. cbn [sent] in Ewire. split.
  - exists gs1, gs2, t, r. rewrite Ewire. split; [done|]. split; [apply Hsv|done].
  - destruct (backlog_served dev mac log r gs2 s t wire w Hr Hsv) as (s2 & w2 & Hsv2 & _ & Hk).
    exists s2, w2. split; [apply Hk; constructor|].
    rewrite (rep_wire _ _ _ _ (sv_card _ _ _ _ _ _ _ _ Hsv2)). cbn [sent].
    by rewrite Hw, Hi, Egs, server_frames_app, app_assoc.
Qed.
End web_server.

(* ------------------------------------------------------------------ *)
(** ** A computer with one card *)

Module sample_server.
Definition card : device :=
  set_reg (set_ids (sample_device 0 24) PCI_VENDOR_ID_INTEL E1000_DEVICE_ID_82540EM)
    card_sample.B 0x20000.
Definition devices : registry :=
  match add_all [card] registry_empty with Ok r => r | _ => registry_empty end.
Definition no_init : net_driver -> net_ctx -> nat -> machine -> res (Z * machine) :=
  fun _ _ _ _ => UB.

Lemma slot_card i d : slot devices i = Ok d -> d = card.
Proof. destruct i as [|i]; [by intros [= <-]|done]. Qed.

Lemma devices_ok : one_card card_sample.B devices 1.
Proof.
  split.
  - intros [|i] Hi; [|lia]. exists card. split; reflexivity.
  - unfold Devices.MAX_DEVICES. lia.
  - exists 0%nat, card. split; [lia|]. by split_and!.
  - intros i d ->%slot_card. reflexivity.
  - intros i d ->%slot_card. split; [reflexivity|]. split; discriminate.
Qed.

(** A SYN with data, wherever it is received. *)
Lemma syn_request_ok `{Arch} : request http_sample.request http_sample.request_segment.
Proof.
  split; [split; vm_compute; discriminate|]. intros h t Hh.
  destruct h as [|a [|b [|]]]; try (unfold len in Hh; cbn in Hh; lia).
  split; try (vm_compute; reflexivity).
  - pose proof (load_ok ([a; b] ++ take 6 http_sample.request) http_sample.client_mac
      (drop 12 http_sample.request ++ t)) as Hl. vm_compute in Hl |- *. exact Hl.
  - exists 45, 80. split_and!; vm_compute; reflexivity.
Qed.
End sample_server.

Lemma web_server_correct_witness :
  let _ : Arch := RISCV in
  let web := @server_net card_sample.A card_sample.B (fun _ => None) sample_server.devices
               sample_server.no_init in
  exists dev mac log st w1, http_setup net_statics_zero (Stack card_sample.start boot_manager)
      = Ok (Some (dev, mac, log), st, w1) /\
    let serves := served card_sample.A card_sample.B (fun _ => None) sample_server.devices
                    sample_server.no_init dev mac log in
    exists s w s2 w2, serves (http_start 1000) w1 [http_sample.request] s w /\ serves s w [] s2 w2 /\
      m_wire (st_world w2) = server_frames mac 1000 [http_sample.request_segment].
Proof.
  intros arch web.
  destruct (web_server_correct card_sample.A card_sample.B (fun _ => None) sample_server.devices 1
    sample_server.no_init card_sample.B_ok card_sample.A_ok [] card_sample.start
    sample_server.devices_ok card_sample.context_sized log_follows_empty)
    as (dev & mac & log & st & w1 & E & Hserve); [vm_compute; lia|reflexivity|].
  exists dev, mac, log, st, w1. split; [exact E|].
  destruct (Hserve [http_sample.request] [http_sample.request_segment] 1000) as [(s & w & Hs) Hw].
  - constructor; [apply sample_server.syn_request_ok|constructor].
  - constructor; [apply is_bytes_str_check; vm_compute; reflexivity|constructor].
  - destruct (proj2 (Hw s w Hs)) as (s2 & w2 & Hs2 & Hwire). exists s, w, s2, w2.
    split; [exact Hs|]. split; [exact Hs2|exact Hwire].
Defined.
