(* ===== verification/VirtioNetDevice.v ===== *)
(** A legacy virtio network device and the driver of VirtioNet.v: together they
    implement two bounded queues of packets. *)

From S2P Require Export VirtioNet.

Open Scope Z_scope.

(* ------------------------------------------------------------------ *)
(** ** The device: what the virtio specification says of a legacy network device *)

(** The driver context, which the device shares, and what the device itself keeps:
    the page of each queue, its positions in the available rings and the
    descriptors it has taken and not yet returned. *)
Record vstate := VState {
  vs_net : virtio_net;
  vs_debug : Z;
  vs_pfn : Z -> Z;
  vs_rx_pos : Z;
  vs_rx_held : list Z;
  vs_tx_pos : Z;
  vs_tx_held : list Z
}.
Definition set_net (c : virtio_net) (v : vstate) : vstate :=
  VState c (vs_debug v) (vs_pfn v) (vs_rx_pos v) (vs_rx_held v) (vs_tx_pos v) (vs_tx_held v).
Definition set_debug (n : Z) (v : vstate) : vstate :=
  VState (vs_net v) n (vs_pfn v) (vs_rx_pos v) (vs_rx_held v) (vs_tx_pos v) (vs_tx_held v).
Definition set_pfn (f : Z -> Z) (v : vstate) : vstate :=
  VState (vs_net v) (vs_debug v) f (vs_rx_pos v) (vs_rx_held v) (vs_tx_pos v) (vs_tx_held v).
(** What writing zero to the status register does. *)
Definition reset_device (v : vstate) : vstate :=
  VState (vs_net v) (vs_debug v) (fun _ => 0) 0 [] 0 [].

Abbreviation machine := (Driver.machine vstate).

(** What can be observed of the driver and the device. *)
Inductive event :=
  | Transmit (f : bytes) (result : Z)
  | Receive (buffer_size : Z) (got : option bytes)
  | Sent (f : bytes)
  | Arrived (p : bytes)
  | Internal.

(** The specification: frames accepted and not yet sent, buffers the device has
    sent and not yet returned, packets that arrived, each behind its header, the
    buffers the device can still fill, and the frames on the wire. *)
Record queues := Queues {
  to_send : list bytes;
  busy : nat;
  arrived : list bytes;
  room : nat;
  sent : list bytes
}.

Section card.
  (** The address of the context, the base of the registers, the transport. *)
  Context (A B : Z) (t : transport) `{Arch}.

Definition reg_pfn : Z :=
  match t with TRANSPORT_PCI => VIRTIO_PCI_QUEUE_PFN | TRANSPORT_MMIO => VIRTIO_MMIO_QUEUE_PFN end.
Definition reg_sel : Z :=
  match t with TRANSPORT_PCI => VIRTIO_PCI_QUEUE_SEL | TRANSPORT_MMIO => VIRTIO_MMIO_QUEUE_SEL end.
Definition reg_status : Z :=
  match t with TRANSPORT_PCI => VIRTIO_PCI_STATUS | TRANSPORT_MMIO => VIRTIO_MMIO_STATUS end.
Definition reg_size : Z :=
  match t with
  | TRANSPORT_PCI => VIRTIO_PCI_QUEUE_NUM | TRANSPORT_MMIO => VIRTIO_MMIO_QUEUE_NUM_MAX
  end.
(** The bytes a header and a packet may take in a buffer. *)
Definition max_len : Z := VIRTIO_NET_MAX_PACKET_SIZE - VIRTIO_NET_RX_BUFFER_OFFSET.
Definition rx_addr (i : Z) : Z :=
  A + offsetof_rx_buffers + i * VIRTIO_NET_MAX_PACKET_SIZE + VIRTIO_NET_RX_BUFFER_OFFSET.
Definition tx_addr (i : Z) : Z :=
  A + offsetof_tx_buffers + i * VIRTIO_NET_MAX_PACKET_SIZE + VIRTIO_NET_RX_BUFFER_OFFSET.

#[local] Instance device_ctx : CtxMem unit virtio_net machine := {
  ctx_get _ m := vs_net (m_ctx m);
  ctx_put _ c m := with_ctx (set_net c (m_ctx m)) m;
  ctx_address _ := A
}.
#[local] Instance device_debug : DebugCount machine := {
  debug_count m := vs_debug (m_ctx m);
  set_debug_count n m := with_ctx (set_debug n (m_ctx m)) m
}.
(** A register write: the page register belongs to the selected queue. *)
Definition reg_write (off v : Z) (m : machine) : machine :=
  if off =? reg_pfn
  then with_ctx (set_pfn (reg_set (vs_pfn (m_ctx m)) (m_regs m reg_sel) v) (m_ctx m)) m
  else if (off =? reg_status) && (v =? 0)
  then poke off v (with_ctx (reset_device (m_ctx m)) m)
  else poke off v m.
Definition reg_read (off : Z) (m : machine) : Z :=
  if off =? reg_pfn then vs_pfn (m_ctx m) (m_regs m reg_sel) else m_regs m off.
#[local] Instance device_bus : Bus machine := {
  bus_read a addr m := Ok (reg_read (addr - B) m mod (access_max a + 1), m);
  bus_write _ addr v m := Ok (tt, reg_write (addr - B) v m)
}.

(** The device runs: DRIVER_OK is set and it knows the queues. *)
Definition live (m : machine) : Prop :=
  Z.testbit (m_regs m reg_status) 2 = true /\
  vs_pfn (m_ctx m) 0 * 4096 = A + offsetof_rx_queue /\
  vs_pfn (m_ctx m) 1 * 4096 = A + offsetof_tx_queue.

(** The device's steps: it takes the next descriptor off an available ring; it sends
    what the buffer of a transmit descriptor holds behind the header when taking it;
    it returns transmit descriptors in any order; an arriving packet, at most as
    long as a descriptor says, is written into any of the buffers it has taken. *)
Inductive hw_step : machine -> event -> machine -> Prop :=
  | hw_fetch m id c v : live m -> v = m_ctx m -> c = vs_net v ->
      avail_idx (rx_queue c) <> vs_rx_pos v ->
      avail_ring (rx_queue c) !! Z.to_nat (vs_rx_pos v mod ring_len t) = Some id ->
      hw_step m Internal
        (with_ctx (VState c (vs_debug v) (vs_pfn v) (u16 (vs_rx_pos v + 1)) (id :: vs_rx_held v)
                     (vs_tx_pos v) (vs_tx_held v)) m)
  | hw_arrived m id ids i d buf buf' p c v : live m -> v = m_ctx m -> c = vs_net v ->
      vs_rx_held v ≡ₚ id :: ids ->
      vr_desc (rx_queue c) !! Z.to_nat id = Some d -> vd_flags d = VRING_DESC_F_WRITE ->
      vd_addr d = rx_addr (Z.of_nat i) -> is_bytes p -> len p <= vd_len d ->
      rx_buffers c !! i = Some buf -> store buf VIRTIO_NET_RX_BUFFER_OFFSET p = Ok buf' ->
      hw_step m (Arrived p)
        (with_ctx (VState
           (VirtioNet (io_base c) (initialized c) (net_transport c) (mac_addr c)
              (returns (ring_len t) (UsedElem id (len p)) (rx_queue c)) (tx_queue c)
              (<[i := buf']> (rx_buffers c)) (tx_buffers c) (rx_desc_in_use c) (tx_desc_in_use c)
              (rx_last_used_idx c) (tx_last_used_idx c))
           (vs_debug v) (vs_pfn v) (vs_rx_pos v) ids (vs_tx_pos v) (vs_tx_held v)) m)
  | hw_sent m id i d buf header f c v : live m -> v = m_ctx m -> c = vs_net v ->
      avail_idx (tx_queue c) <> vs_tx_pos v ->
      avail_ring (tx_queue c) !! Z.to_nat (vs_tx_pos v mod ring_len t) = Some id ->
      vr_desc (tx_queue c) !! Z.to_nat id = Some d -> vd_addr d = tx_addr (Z.of_nat i) ->
      tx_buffers c !! i = Some buf ->
      load buf VIRTIO_NET_RX_BUFFER_OFFSET (vd_len d) = Ok (header ++ f) ->
      len header = sizeof_hdr ->
      hw_step m (Sent f)
        (Machine (VState c (vs_debug v) (vs_pfn v) (vs_rx_pos v) (vs_rx_held v)
                    (u16 (vs_tx_pos v + 1)) (id :: vs_tx_held v))
           (m_regs m) (m_wire m ++ [f]) (m_console m) (m_tag m))
  | hw_done m e ids c v : live m -> v = m_ctx m -> c = vs_net v ->
      vs_tx_held v ≡ₚ used_id e :: ids ->
      hw_step m Internal
        (with_ctx (VState
           (set_tx (returns (ring_len t) e (tx_queue c)) (tx_buffers c) (tx_desc_in_use c)
              (tx_last_used_idx c) c)
           (vs_debug v) (vs_pfn v) (vs_rx_pos v) (vs_rx_held v) (vs_tx_pos v) ids) m).

(** The specification of both.  A packet the driver drops takes its buffer along. *)
Inductive spec_step : queues -> event -> queues -> Prop :=
  | q_accept ts b a r s f : (length ts + b < 16)%nat -> 0 < len f <= max_len - sizeof_hdr ->
      spec_step (Queues ts b a r s) (Transmit f 0) (Queues (ts ++ [f]) b a r s)
  | q_refuse ts b a r s f :
      (length ts + b = 16)%nat \/ len f = 0 \/ VIRTIO_NET_MAX_PACKET_SIZE < len f ->
      spec_step (Queues ts b a r s) (Transmit f (-1)) (Queues ts b a r s)
  | q_sent f ts b a r s :
      spec_step (Queues (f :: ts) b a r s) (Sent f) (Queues ts (S b) a r (s ++ [f]))
  | q_done ts b a r s : spec_step (Queues ts (S b) a r s) Internal (Queues ts b a r s)
  | q_internal q : spec_step q Internal q
  | q_arrived ts b a r s p : is_bytes p -> len p <= max_len ->
      spec_step (Queues ts b a (S r) s) (Arrived p) (Queues ts b (a ++ [p]) r s)
  | q_received ts b h f a r s n : len h = sizeof_hdr -> len f <= n ->
      spec_step (Queues ts b ((h ++ f) :: a) r s) (Receive n (Some f)) (Queues ts b a (S r) s)
  | q_nothing ts b r s n :
      spec_step (Queues ts b [] r s) (Receive n None) (Queues ts b [] r s)
  | q_dropped ts b p a r s n : len p < sizeof_hdr \/ n < len p - sizeof_hdr ->
      spec_step (Queues ts b (p :: a) r s) (Receive n None) (Queues ts b a r s).

(* ------------------------------------------------------------------ *)
(** ** The representation *)

(** A transmit buffer that holds a frame behind a zero header. *)
Definition tx_full (c : virtio_net) (id : Z) (f : bytes) : Prop :=
  vr_desc (tx_queue c) !! Z.to_nat id = Some (VDesc (tx_addr id) (sizeof_hdr + len f) 0 0) /\
  exists buf, tx_buffers c !! Z.to_nat id = Some buf /\
    load buf VIRTIO_NET_RX_BUFFER_OFFSET (sizeof_hdr + len f) = Ok (replicate 10 0 ++ f).
(** A returned receive buffer that holds a packet. *)
Definition rx_full (c : virtio_net) (e : used_elem) (p : bytes) : Prop :=
  used_len e = len p /\ len p <= max_len /\ is_bytes p /\
  exists buf, rx_buffers c !! Z.to_nat (used_id e) = Some buf /\
    load buf VIRTIO_NET_RX_BUFFER_OFFSET (len p) = Ok p.

Record tx_ok (c : virtio_net) (pos : Z) (taken : list Z) (ts : list bytes) (b : nat) (s : vq)
    : Prop := TxOk {
  tx_vq : vq_ok (ring_len t) 16 (tx_queue c) pos (tx_last_used_idx c) s;
  tx_taken : held s = taken;
  tx_busy : b = length taken;
  tx_in_use : forall i, 0 <= i < 16 ->
    tx_desc_in_use c !! Z.to_nat i = Some (bool_decide (i ∈ outstanding s));
  tx_frames : Forall2 (tx_full c) (offered s) ts
}.
Record rx_ok (c : virtio_net) (pos : Z) (taken : list Z) (a : list bytes) (r : nat) (s : vq)
    : Prop := RxOk {
  rx_vq : vq_ok (ring_len t) 16 (rx_queue c) pos (rx_last_used_idx c) s;
  rx_taken : held s = taken;
  rx_room : r = (length (offered s) + length taken)%nat;
  rx_descs : forall i, 0 <= i < 16 -> vr_desc (rx_queue c) !! Z.to_nat i
    = Some (VDesc (rx_addr i) max_len VRING_DESC_F_WRITE 0);
  rx_packets : Forall2 (rx_full c) (returned s) a
}.
Record sized (c : virtio_net) : Prop := Sized {
  rx_buffers_len : length (rx_buffers c) = 16%nat;
  tx_buffers_len : length (tx_buffers c) = 16%nat;
  rx_buffers_size : Forall (fun b => len b = VIRTIO_NET_MAX_PACKET_SIZE) (rx_buffers c);
  tx_buffers_size : Forall (fun b => len b = VIRTIO_NET_MAX_PACKET_SIZE) (tx_buffers c);
  tx_use_len : length (tx_desc_in_use c) = 16%nat;
  mac_len : len (mac_addr c) = 6
}.
Record represents (m : machine) (q : queues) : Prop := Represents {
  rep_init : initialized (vs_net (m_ctx m)) = true;
  rep_base : io_base (vs_net (m_ctx m)) = B;
  rep_transport : net_transport (vs_net (m_ctx m)) = t;
  rep_live : live m;
  rep_sized : sized (vs_net (m_ctx m));
  rep_wire : m_wire m = sent q;
  rep_tx : exists s, tx_ok (vs_net (m_ctx m)) (vs_tx_pos (m_ctx m)) (vs_tx_held (m_ctx m))
             (to_send q) (busy q) s;
  rep_rx : exists s, rx_ok (vs_net (m_ctx m)) (vs_rx_pos (m_ctx m)) (vs_rx_held (m_ctx m))
             (arrived q) (room q) s
}.

Lemma ring_len_ok : 16 <= ring_len t /\ (ring_len t | 2 ^ 16).
Proof using.
  destruct t; split; try discriminate; [by exists 4096|by exists 256].
Qed.

Lemma offset_range : VIRTIO_NET_RX_BUFFER_OFFSET = 0 \/ VIRTIO_NET_RX_BUFFER_OFFSET = 2.
Proof using. unfold VIRTIO_NET_RX_BUFFER_OFFSET. case_bool_decide; auto. Qed.

(** The address of a register is in the range of its transport. *)
Definition offset_ok (off : Z) : Prop :=
  match t with TRANSPORT_PCI => 0 <= off < 0x100 | TRANSPORT_MMIO => 0 <= off < 0x200 end.

Lemma offset_ok_low off : 0 <= off < 0x100 -> offset_ok off.
Proof using. unfold offset_ok. destruct t; lia. Qed.

  Hypothesis HB : match t with
    | TRANSPORT_PCI => the_arch = AMD64 /\ 0 <= B <= 0xFF00
    | TRANSPORT_MMIO => 0x10000 <= B /\ B + 0x200 <= 2 ^ 64
    end.
  Hypothesis HA : 0 <= A /\ (4096 | A) /\ A + 0x20000 <= 2 ^ 44.

Lemma on_pci_t : on_pci t = bool_decide (t = TRANSPORT_PCI).
Proof using HB.
  unfold on_pci, x86. destruct t; [by rewrite andb_false_r|]. destruct HB as [-> _]. done.
Qed.

Lemma port_offset off : t = TRANSPORT_PCI -> 0 <= off < 0x100 -> u16 (u16 B + off) = B + off.
Proof using HB.
  intros E Ho. destruct t; [done|]. destruct HB as [_ Hr].
  rewrite (u16_id B) by (unfold is_u16; lia). apply u16_id. unfold is_u16. lia.
Qed.
Lemma mmio_offset off : t = TRANSPORT_MMIO -> 0 <= off < 0x200 -> u64 (B + off) = B + off.
Proof using HB.
  intros E Ho. destruct t; [|done]. apply u64_id. unfold is_u64. lia.
Qed.

(** The context is at its device. *)
Definition attached (m : machine) : Prop :=
  io_base (vs_net (m_ctx m)) = B /\ net_transport (vs_net (m_ctx m)) = t.

Lemma vwrite_ok (m : machine) port w off v : attached m -> offset_ok off ->
  (forall p, port p v = bus_write w (u16 p) v) -> is_u32 v ->
  virtio_write (P := unit) port tt off v m = Ok (tt, reg_write off v m).
Proof using HB.
  intros [Hb Ht] Ho Hp Hv. unfold virtio_write. erewrite St_bind_ok by reflexivity.
  cbn [ctx_get device_ctx]. rewrite Hb, Ht, on_pci_t. unfold offset_ok in Ho.
  case_bool_decide as E.
  - rewrite E in Ho. rewrite Hp, port_offset by done. cbn. by replace (B + off - B) with off by lia.
  - assert (t = TRANSPORT_MMIO) as E' by (by destruct t). rewrite E' in Ho.
    unfold mmio_write32. rewrite mmio_offset, u32_id by done. cbn.
    by replace (B + off - B) with off by lia.
Qed.

Lemma vwrite32_ok m off v : attached m -> offset_ok off -> is_u32 v ->
  virtio_write32 tt off v m = Ok (tt, reg_write off v m).
Proof using HB.
  intros. apply (vwrite_ok _ _ Port32); try done. intros p. unfold io_outl. by rewrite u32_id.
Qed.
Lemma vwrite16_ok m off v : attached m -> offset_ok off -> is_u16 v ->
  virtio_write16 tt off v m = Ok (tt, reg_write off v m).
Proof using HB.
  intros. unfold virtio_write16. rewrite u16_id by done.
  apply (vwrite_ok _ _ Port16); try done; [|unfold_ints; lia]. intros p. unfold io_outw.
  by rewrite (u16_id v).
Qed.
Lemma write8_ok m off v : attached m -> offset_ok off -> is_u8 v ->
  virtio_write8 tt off v m = Ok (tt, reg_write off v m).
Proof using HB.
  intros. unfold virtio_write8. rewrite u8_id by done.
  apply (vwrite_ok _ _ Port8); try done; [|unfold_ints; lia]. intros p. unfold io_outb.
  by rewrite (u8_id v).
Qed.

Lemma vread_ok (m : machine) (trunc : Z -> Z) port w off : attached m -> offset_ok off ->
  (forall p, port p m = bus_read w (u16 p) m) ->
  (forall x, trunc (x mod 2 ^ 32) = x mod (access_max w + 1)) ->
  virtio_read (P := unit) trunc port tt off m
  = Ok (reg_read off m mod (access_max w + 1), m).
Proof using HB.
  intros [Hb Ht] Ho Hp Hv. unfold virtio_read. erewrite St_bind_ok by reflexivity.
  cbn [ctx_get device_ctx]. rewrite Hb, Ht, on_pci_t. unfold offset_ok in Ho.
  case_bool_decide as E.
  - rewrite E in Ho. rewrite Hp, port_offset by done. cbn. by replace (B + off - B) with off by lia.
  - assert (t = TRANSPORT_MMIO) as E' by (by destruct t). rewrite E' in Ho.
    unfold mmio_read32. rewrite mmio_offset by done. erewrite St_bind_ok by reflexivity.
    cbn [access_max]. replace (B + off - B) with off by lia.
    unfold mret, St_ret. do 2 f_equal. apply Hv.
Qed.

Lemma read32_ok m off : attached m -> offset_ok off ->
  virtio_read32 tt off m = Ok (u32 (reg_read off m), m).
Proof using HB. intros. by apply (vread_ok _ _ _ Port32). Qed.
Lemma vread16_ok m off : attached m -> offset_ok off ->
  virtio_read16 tt off m = Ok (u16 (reg_read off m), m).
Proof using HB.
  intros. apply (vread_ok _ _ _ Port16); try done. intros x. unfold u16. cbn [access_max]. zdm.
Qed.
Lemma vread8_ok m off : attached m -> offset_ok off ->
  virtio_read8 tt off m = Ok (u8 (reg_read off m), m).
Proof using HB.
  intros. apply (vread_ok _ _ _ Port8); try done. intros x. unfold u8. cbn [access_max]. zdm.
Qed.

(** Two machines between which nothing changed that matters to the queues. *)
Record same (m m' : machine) : Prop := Same {
  same_ctx : exists n, m_ctx m' = set_debug n (m_ctx m);
  same_status : m_regs m' reg_status = m_regs m reg_status;
  same_size : m_regs m' reg_size = m_regs m reg_size;
  same_wire : m_wire m' = m_wire m
}.

#[local] Instance same_preorder : PreOrder same.
Proof using.
  split.
  - intros m. split; [|done..]. exists (vs_debug (m_ctx m)). by destruct m as [[]].
  - intros m1 m2 m3 [[n E] ? ? ?] [[n' E'] ? ? ?]. split; [|congruence..].
    exists n'. by rewrite E', E.
Qed.

Lemma represents_same m m' q : same m m' -> represents m q -> represents m' q.
Proof using.
  intros [[n E] Es _ Ew] []. split; rewrite ?E, ?Ew; try done. unfold live.
  by rewrite Es, E.
Qed.

(** Output changes neither context nor registers. *)
Record quietly (m m' : machine) : Prop := Quietly {
  quiet_ctx : m_ctx m' = m_ctx m;
  quiet_regs : m_regs m' = m_regs m;
  quiet_wire : m_wire m' = m_wire m
}.

Lemma quietly_same m m' : quietly m m' -> same m m'.
Proof using.
  intros [E Er Ew]. split; rewrite ?Er, ?Ew; try done. exists (vs_debug (m_ctx m)).
  rewrite E. by destruct (m_ctx m).
Qed.

Lemma vnet_print_ok level msg s m : 0 <= level -> msg = Ok s ->
  exists m', vnet_print level msg m = Ok (tt, m') /\ quietly m m'.
Proof using.
  intros Hl ->. unfold vnet_print. erewrite St_bind_ok by reflexivity.
  erewrite St_bind_ok by reflexivity.
  destruct (log_enabled _ level); cbn [when]; [|by exists m].
  destruct (klog_prefix_ok (tag_var "vnet_log" m) level m Hl) as [x E].
  rewrite (St_bind_ok _ _ _ _ _ E). eexists. split; [reflexivity|done].
Qed.

Lemma vnet_debug_ok msg m : exists m', vnet_debug msg m = Ok (tt, m') /\ quietly m m'.
Proof using.
  unfold vnet_debug. erewrite St_bind_ok by reflexivity.
  destruct (klog_msg_ok (tag_var "vnet_log" m) LOG_DEBUG msg m) as [s E]; [done|].
  change (klog_debug ?p ?t ?w) with (klog_msg p LOG_DEBUG t w). rewrite E. eexists.
  split; [reflexivity|done].
Qed.

Lemma log_rx_check_same a b m : exists m', log_rx_check a b m = Ok (tt, m') /\ same m m'.
Proof using.
  unfold log_rx_check. erewrite St_bind_ok by reflexivity.
  destruct (debug_count m <? 5); [|by exists m].
  edestruct (vnet_print_ok LOG_DEBUG) as (m' & E & Hs); [| |rewrite (St_bind_ok _ _ _ _ _ E)];
    [done|reflexivity|].
  eexists. split; [reflexivity|]. etransitivity; [by apply quietly_same|]. by split; [eexists|..].
Qed.

(** Registers other than the queue's page and the status only hold their value. *)
Lemma reg_write_same off v m : off <> reg_pfn -> off <> reg_status -> off <> reg_size ->
  same m (reg_write off v m).
Proof using.
  intros Hp Hs Hz. unfold reg_write. destruct (Z.eqb_spec off reg_pfn); [done|].
  destruct (Z.eqb_spec off reg_status); [done|]. cbn [andb].
  split; [|cbn; unfold reg_set; by rewrite decide_False..|done].
  exists (vs_debug (m_ctx m)). by destruct m as [[]].
Qed.

Lemma same_attached m m' : same m m' -> attached m -> attached m'.
Proof using. intros [[n E] _ _ _]. unfold attached. by rewrite E. Qed.

Ltac low := apply offset_ok_low; split; [discriminate|reflexivity].

Lemma notify_same i m : attached m -> i = 0 \/ i = 1 ->
  exists m', notify tt i m = Ok (tt, m') /\ same m m'.
Proof using HB.
  intros Ha Hi. assert (is_u16 i /\ is_u32 i) as [? ?] by (unfold_ints; lia).
  unfold notify. erewrite St_bind_ok by reflexivity. cbn [ctx_get device_ctx].
  rewrite (proj2 Ha), on_pci_t.
  case_bool_decide as E.
  - assert (same m (reg_write VIRTIO_PCI_QUEUE_SEL i m)) as Hsel
      by (apply reg_write_same; unfold reg_pfn, reg_status, reg_size; by rewrite E).
    eexists. split.
    + erewrite St_bind_ok by (apply vwrite16_ok; [done|low|done]).
      apply vwrite16_ok; [by eapply same_attached|low|done].
    + etransitivity; [exact Hsel|]. apply reg_write_same; unfold reg_pfn, reg_status, reg_size; by rewrite E.
  - assert (t = TRANSPORT_MMIO) as E' by (by destruct t).
    eexists. split; [apply vwrite32_ok; [done|low|done]|].
    apply reg_write_same; unfold reg_pfn, reg_status, reg_size; by rewrite E'.
Qed.

(* ------------------------------------------------------------------ *)
(** ** Transmission *)

(** A change of one flag along with the outstanding descriptors. *)
Lemma in_use_insert (l : list bool) i (b : bool) (ids ids' : list Z) :
  0 <= i < 16 -> length l = 16%nat ->
  (forall j, 0 <= j < 16 -> l !! Z.to_nat j = Some (bool_decide (j ∈ ids))) ->
  (forall j, j <> i -> j ∈ ids' <-> j ∈ ids) -> (i ∈ ids' <-> b = true) ->
  forall j, 0 <= j < 16 -> <[Z.to_nat i := b]> l !! Z.to_nat j = Some (bool_decide (j ∈ ids')).
Proof using.
  intros Hi Hl Hin Hne Hb j Hj. destruct (decide (j = i)) as [->|].
  - rewrite list_lookup_insert_eq by lia. f_equal. destruct b; symmetry.
    + by apply bool_decide_eq_true, Hb.
    + apply bool_decide_eq_false. intros H'. by apply Hb in H'.
  - rewrite list_lookup_insert_ne by lia. rewrite Hin by done. f_equal.
    apply bool_decide_ext. symmetry. by apply Hne.
Qed.

Lemma Forall2_impl_in {X Y} (Q R : X -> Y -> Prop) l k :
  Forall2 Q l k -> (forall x y, x ∈ l -> Q x y -> R x y) -> Forall2 R l k.
Proof using.
  induction 1 as [|x y l k Hxy _ IH]; intros Hi; constructor.
  - apply Hi; [apply list_elem_of_here|done].
  - apply IH. intros. apply Hi; [by apply list_elem_of_further|done].
Qed.

(** The driver takes back every descriptor the device returned. *)
Lemma reclaim_ok es : forall c pos taken ts b s fuel, net_transport c = t ->
  tx_ok c pos taken ts b s -> returned s = es -> length (tx_desc_in_use c) = 16%nat ->
  (length es <= fuel)%nat ->
  exists u last, let c' := set_tx (tx_queue c) (tx_buffers c) u last c in
    reclaim_loop fuel (used_idx (tx_queue c)) c = Ok c' /\ length u = 16%nat /\
    tx_ok c' pos taken ts b (Vq (offered s) (held s) []).
Proof using HA HB.
  induction es as [|e es IH]; intros c pos taken ts b s fuel Ht Htx He Hu Hf; pose proof Htx as [].
  - exists (tx_desc_in_use c), (tx_last_used_idx c). destruct s as [o h r]. cbn in He. subst r.
    assert (set_tx (tx_queue c) (tx_buffers c) (tx_desc_in_use c) (tx_last_used_idx c) c = c) as ->
      by (by destruct c).
    split; [|done]. destruct fuel; cbn [reclaim_loop];
      by rewrite (vq_none _ _ _ _ _ _ tx_vq0 eq_refl), Z.eqb_refl.
  - destruct (vq_take _ _ _ _ _ _ tx_vq0 e es He) as (Hok & Hrd & Hne & Hid & Hni & Hperm).
    destruct fuel as [|fuel]; [cbn in Hf; lia|]. cbn [reclaim_loop].
    destruct (Z.eqb_spec (tx_last_used_idx c) (used_idx (tx_queue c))); [congruence|].
    pose proof (vq_slots _ _ _ _ _ _ tx_vq0) as [Hn _]. rewrite Ht.
    rewrite (rd_ok _ _ e) by (done || (apply Z.mod_pos_bound; lia)). cbn [mbind res_bind].
    destruct (Z.ltb_spec (used_id e) VIRTIO_NET_QUEUE_SIZE); [|unfold VIRTIO_NET_QUEUE_SIZE in *; lia].
    rewrite wr_insert by llia. cbn [mbind res_bind].
    destruct (IH (set_tx (tx_queue c) (tx_buffers c) (<[Z.to_nat (used_id e) := false]> (tx_desc_in_use c))
        (u16 (tx_last_used_idx c + 1)) c) pos taken ts b (Vq (offered s) (held s) es) fuel)
      as (u & last & Hrun & Hl & Hok'); cbn [tx_desc_in_use set_tx returned];
      [done| |done|by rewrite length_insert|cbn in Hf; lia|].
    + split; cbn [tx_queue tx_last_used_idx tx_desc_in_use set_tx held offered]; try done.
      apply (in_use_insert _ _ _ (outstanding s)); [done..| |].
      * intros j Hj. rewrite Hperm, elem_of_cons. naive_solver.
      * split; [|done]. by intros ?%Hni.
    + exists u, last. done.
Qed.

(** A frame is put into a descriptor the driver has. *)
Lemma send_buffer_ok c pos taken ts k s b o n f j : net_transport c = t -> sized c ->
  tx_ok c pos taken ts k s -> 0 <= j < 16 -> j ∉ outstanding s ->
  load b o n = Ok f -> sizeof_hdr + n <= max_len ->
  exists q bs u, let c' := set_tx q bs u (tx_last_used_idx c) c in
    send_buffer A b o n j c = Ok c' /\ sized c' /\
    tx_ok c' pos taken (ts ++ [f]) k (Vq (offered s ++ [j]) (held s) (returned s)).
Proof using HA.
  intros Ht Hsz Htx Hj Hni Hf Hn. pose proof Htx as []. pose proof Hsz as [].
  pose proof (load_len _ _ _ _ Hf) as Hfl. pose proof (len_nonneg f).
  pose proof ring_len_ok as [Hrl _]. pose proof offset_range as Hoff.
  unfold max_len, VIRTIO_NET_MAX_PACKET_SIZE, sizeof_hdr in Hn.
  destruct (lookup_lt_is_Some_2 (tx_buffers c) (Z.to_nat j)) as [tx Htxb]; [lia|].
  pose proof tx_buffers_size0 as Hsize. rewrite Forall_lookup in Hsize.
  pose proof (Hsize _ _ Htxb) as Hlen. unfold VIRTIO_NET_MAX_PACKET_SIZE in Hlen.
  destruct (store_in_range tx VIRTIO_NET_RX_BUFFER_OFFSET (replicate 10 0 ++ f)) as [tx' Hst];
    [lia|rewrite len_app; change (len (replicate 10 0)) with 10; lia|].
  set (d := VDesc (u64 (A + offsetof_tx_buffers + j * VIRTIO_NET_MAX_PACKET_SIZE
               + VIRTIO_NET_RX_BUFFER_OFFSET)) (u32 (sizeof_hdr + n)) 0 0).
  destruct (vq_set_desc _ _ _ _ _ _ tx_vq0 j d) as (q1 & E1 & Hq1 & Hd1); [lia|].
  destruct (vq_offer _ _ _ _ _ _ Hq1 j) as (q2 & E2 & Hq2 & Hd2); [done..|].
  exists q2, (<[Z.to_nat j := tx']> (tx_buffers c)), (<[Z.to_nat j := true]> (tx_desc_in_use c)).
  assert (Hd : d = VDesc (tx_addr j) (sizeof_hdr + len f) 0 0).
  { unfold d. destruct HA as (? & _ & ?). unfold tx_addr, sizeof_hdr. rewrite u64_id, u32_id, Hfl; [done|..];
      unfold is_u32, is_u64, offsetof_tx_buffers, offsetof_rx_buffers, offsetof_tx_queue,
      offsetof_rx_queue, VIRTIO_NET_QUEUE_SIZE, VIRTIO_NET_MAX_PACKET_SIZE in *; lia. }
  split; [|split].
  - unfold send_buffer. rewrite wr_insert by llia. cbn [mbind res_bind].
    rewrite (rd_ok _ _ tx) by (done || lia). cbn [mbind res_bind].
    pose proof (store_seq tx VIRTIO_NET_RX_BUFFER_OFFSET (replicate 10 0) f
      (VIRTIO_NET_RX_BUFFER_OFFSET + sizeof_hdr) eq_refl) as Hseq.
    destruct (memset_store (Z.to_nat sizeof_hdr) tx VIRTIO_NET_RX_BUFFER_OFFSET 0) as [->|]; [lia| |done].
    change (replicate (Z.to_nat sizeof_hdr) (u8 0)) with (replicate 10 0).
    rewrite Hst in Hseq. destruct (store tx VIRTIO_NET_RX_BUFFER_OFFSET (replicate 10 0)) as [tx1| |] eqn:E0;
      [|done..]. cbn [mbind res_bind] in *.
    rewrite (memcpy_store _ _ _ _ _ f), Hseq by
      (rewrite ?Z2Nat.id by lia; rewrite ?(store_len _ _ _ _ E0); unfold sizeof_hdr; done || lia).
    cbn [mbind res_bind]. rewrite wr_insert by llia. cbn [mbind res_bind]. fold d.
    rewrite E1. cbn [mbind res_bind]. rewrite Ht, E2. reflexivity.
  - split; cbn; rewrite ?length_insert; try done. apply Forall_insert; [done|].
    by rewrite (store_len _ _ _ _ Hst).
  - split; cbn [tx_queue tx_last_used_idx tx_desc_in_use tx_buffers set_tx held offered]; try done.
    + apply (in_use_insert _ _ _ (outstanding s)); [done..| |]; unfold outstanding; cbn;
        intros; rewrite !elem_of_app, list_elem_of_singleton; naive_solver.
    + apply Forall2_app; [|constructor; [|constructor]].
      * eapply Forall2_impl_in; [exact tx_frames0|]. intros x y Hx (Hdx & bx & Hbx & Hl).
        assert (x <> j) as Hne.
        { intros ->. apply Hni. unfold outstanding. rewrite elem_of_app. by left. }
        assert (0 <= x) as Hx0.
        { pose proof (vq_range _ _ _ _ _ _ tx_vq0) as Hr. rewrite Forall_forall in Hr.
          apply Hr. unfold outstanding. rewrite elem_of_app. by left. }
        unfold tx_full. cbn [tx_queue tx_buffers set_tx]. rewrite Hd2, Hd1.
        rewrite !list_lookup_insert_ne by lia. eauto.
      * unfold tx_full. cbn [tx_queue tx_buffers set_tx].
        pose proof (vq_desc_len _ _ _ _ _ _ tx_vq0).
        rewrite Hd2, Hd1, !list_lookup_insert_eq by llia. split; [by rewrite Hd|].
        exists tx'. split; [done|]. pose proof (load_store_at _ _ _ _ Hst) as E.
        by rewrite len_app in E.
Qed.

(** A free descriptor is found exactly when not all are outstanding. *)
Lemma free_or_full c pos taken ts k s : tx_ok c pos taken ts k s -> returned s = [] ->
  length (tx_desc_in_use c) = 16%nat ->
  match first_free (tx_desc_in_use c) (Z.to_nat VIRTIO_NET_QUEUE_SIZE) 0 with
  | Ok (Some j) => 0 <= j < 16 /\ j ∉ outstanding s /\ (length ts + k < 16)%nat
  | Ok None => (length ts + k = 16)%nat
  | _ => False
  end.
Proof using.
  clear HA HB. intros [] Hr Hl. change (Z.to_nat VIRTIO_NET_QUEUE_SIZE) with 16%nat.
  pose proof (outstanding_len s) as Hlen. rewrite Hr, len_nil in Hlen.
  pose proof (Forall2_length _ _ _ tx_frames0) as Hts. subst.
  pose proof (outstanding_bound _ _ _ _ _ _ tx_vq0) as Hb.
  pose proof (first_free_spec 16 (tx_desc_in_use c) 0) as Hf.
  destruct (first_free _ _ _) as [[j|]| |]; [| |apply Hf; llia..].
  - destruct Hf as (Hj & Hfree & _); [lia|llia|]. rewrite tx_in_use0 in Hfree by lia.
    injection Hfree as Hni%bool_decide_eq_false. split; [lia|]. split; [done|].
    destruct tx_vq0. assert (NoDup (j :: outstanding s)) as Hnd by (by constructor).
    pose proof (ids_bounded 16 _ ltac:(lia) Hnd) as Hb'. rewrite len_cons in Hb'.
    assert (1 + len (outstanding s) <= 16); [apply Hb'; constructor; [lia|done]|llia].
  - assert (forall i, 0 <= i < 16 -> i ∈ outstanding s) as Hall.
    { intros i Hi. specialize (Hf ltac:(lia) ltac:(llia) i ltac:(lia)).
      rewrite tx_in_use0 in Hf by done. injection Hf as ?%bool_decide_eq_true. done. }
    assert (16 <= length (outstanding s))%nat; [|llia].
    change 16%nat with (length (seqZ 0 16)). apply submseteq_length, NoDup_submseteq.
    + apply NoDup_seqZ.
    + intros x Hx%elem_of_seqZ. apply Hall. lia.
Qed.

(** Each half of the driver leaves the other alone. *)
Lemma rx_ok_ext c c' pos taken a r s :
  rx_queue c' = rx_queue c -> rx_last_used_idx c' = rx_last_used_idx c ->
  rx_buffers c' = rx_buffers c -> rx_ok c pos taken a r s -> rx_ok c' pos taken a r s.
Proof using.
  intros Eq El Eb []. split; rewrite ?Eq, ?El; try done.
  eapply Forall2_impl; [exact rx_packets0|]. unfold rx_full. by rewrite Eb.
Qed.
Lemma tx_ok_ext c c' pos taken ts b s :
  tx_queue c' = tx_queue c -> tx_last_used_idx c' = tx_last_used_idx c ->
  tx_buffers c' = tx_buffers c -> tx_desc_in_use c' = tx_desc_in_use c ->
  tx_ok c pos taken ts b s -> tx_ok c' pos taken ts b s.
Proof using.
  intros Eq El Eb Eu []. split; rewrite ?Eq, ?El, ?Eu; try done.
  eapply Forall2_impl; [exact tx_frames0|]. unfold tx_full. by rewrite Eb, Eq.
Qed.

Lemma reclaim_represents m q : represents m q ->
  exists m' s, virtio_net_reclaim_tx tt m = Ok (tt, m') /\ represents m' q /\
    tx_ok (vs_net (m_ctx m')) (vs_tx_pos (m_ctx m')) (vs_tx_held (m_ctx m')) (to_send q) (busy q) s /\
    returned s = [].
Proof using HA HB.
  intros R. destruct (rep_tx _ _ R) as [s Htx]. pose proof (rep_sized _ _ R) as [].
  pose proof (outstanding_bound _ _ _ _ _ _ (tx_vq _ _ _ _ _ _ Htx)) as Hb.
  rewrite outstanding_len in Hb. pose proof (len_nonneg (offered s)). pose proof (len_nonneg (held s)).
  destruct (reclaim_ok _ _ _ _ _ _ s (Z.to_nat (2 ^ 16)) (rep_transport _ _ R) Htx eq_refl)
    as (u & last & Hrun & Hl & Hok); [done|llia|].
  exists (with_ctx (set_net (set_tx (tx_queue (vs_net (m_ctx m))) (tx_buffers (vs_net (m_ctx m))) u last
            (vs_net (m_ctx m))) (m_ctx m)) m). eexists. split; [|split; [|split; [exact Hok|done]]].
  - unfold virtio_net_reclaim_tx. by erewrite ctx_update_ok by exact Hrun.
  - destruct R. split; try done; [by eexists|]. destruct rep_rx0 as [sr Hrx]. exists sr. by eapply rx_ok_ext; [..|exact Hrx].
Qed.

(** A packet that does not fit behind its header overruns the buffer. *)
Lemma send_buffer_overruns c b o n f j : sized c -> 0 <= j < 16 -> load b o n = Ok f ->
  max_len < sizeof_hdr + n -> 0 < n -> send_buffer A b o n j c = UB.
Proof using.
  clear HA HB. intros [] Hj Hf Hn Hn0. pose proof offset_range as Hoff.
  unfold max_len, VIRTIO_NET_MAX_PACKET_SIZE, sizeof_hdr in Hn.
  destruct (lookup_lt_is_Some_2 (tx_buffers c) (Z.to_nat j)) as [tx Htxb]; [lia|].
  rewrite Forall_lookup in tx_buffers_size0. specialize (tx_buffers_size0 _ _ Htxb).
  unfold VIRTIO_NET_MAX_PACKET_SIZE in *.
  unfold send_buffer. rewrite wr_insert by llia. cbn [mbind res_bind].
  rewrite (rd_ok _ _ tx) by (done || lia). cbn [mbind res_bind].
  destruct (memset_store (Z.to_nat sizeof_hdr) tx VIRTIO_NET_RX_BUFFER_OFFSET 0) as [->|]; [lia| |done].
  change (replicate (Z.to_nat sizeof_hdr) (u8 0)) with (replicate 10 0).
  destruct (store_in_range tx VIRTIO_NET_RX_BUFFER_OFFSET (replicate 10 0)) as [tx1 E];
    [lia|change (len (replicate 10 0)) with 10; lia|].
  rewrite E. cbn [mbind res_bind].
  rewrite (memcpy_overrun _ _ _ _ _ f); [done|by rewrite Z2Nat.id by lia|..];
    rewrite (store_len _ _ _ _ E); unfold sizeof_hdr; lia.
Qed.

Lemma transmit_step m q b o n f : represents m q -> load b o n = Ok f ->
  0 < n <= VIRTIO_NET_MAX_PACKET_SIZE ->
  if decide (length (to_send q) + busy q = 16)%nat
  then exists m', virtio_net_transmit (Some tt) (Some (b, o)) n m = Ok (-1, m') /\ represents m' q
  else if decide (sizeof_hdr + n <= max_len)
  then exists m', virtio_net_transmit (Some tt) (Some (b, o)) n m = Ok (0, m') /\
    represents m' (Queues (to_send q ++ [f]) (busy q) (arrived q) (room q) (sent q))
  else virtio_net_transmit (Some tt) (Some (b, o)) n m = UB.
Proof using HA HB.
  intros R Hf Hn. destruct (reclaim_represents m q R) as (m1 & s & E & R1 & Htx & Hret).
  pose proof (rep_sized _ _ R1) as Hsz.
  pose proof (free_or_full _ _ _ _ _ _ Htx Hret (tx_use_len _ Hsz)) as Hff.
  assert (Hrun : virtio_net_transmit (Some tt) (Some (b, o)) n m =
    (free ← lift (first_free (tx_desc_in_use (vs_net (m_ctx m1))) (Z.to_nat VIRTIO_NET_QUEUE_SIZE) 0);
     match free with
     | None => mret (-1)
     | Some j => _ ← ctx_update tt (send_buffer A b o n j); _ ← notify tt 1; mret 0
     end) m1).
  { unfold virtio_net_transmit. destruct (Z.eqb_spec n 0); [lia|].
    destruct (Z.ltb_spec VIRTIO_NET_MAX_PACKET_SIZE n); [lia|]. cbn [orb].
    erewrite St_bind_ok by reflexivity. cbn [ctx_get device_ctx]. rewrite (rep_init _ _ R).
    cbn [negb]. rewrite (St_bind_ok _ _ _ _ _ E). by erewrite St_bind_ok by reflexivity. }
  destruct (first_free _ _ _) as [[j|]| |]; [| |done..]; unfold lift in Hrun.
  - destruct Hff as (Hj & Hni & Hlt). rewrite decide_False by lia.
    erewrite St_bind_ok in Hrun by reflexivity. cbn beta iota in Hrun. rewrite Hrun. clear Hrun.
    case_decide as Hfit.
    + destruct (send_buffer_ok _ _ _ _ _ _ b o n f j (rep_transport _ _ R1) Hsz Htx Hj Hni Hf Hfit)
        as (q' & bs & u & Eb & Hsz' & Htx').
      rewrite (St_bind_ok _ _ _ _ _ (ctx_update_ok (tt : unit) _ _ m1 Eb)). cbn [ctx_put device_ctx].
      edestruct (notify_same 1) as (m2 & En & Hs); [| |rewrite (St_bind_ok _ _ _ _ _ En)];
        [split; apply R1|by right|].
      exists m2. split; [done|]. apply (represents_same _ _ _ Hs). destruct R1.
      split; try done; [by eexists|]. destruct rep_rx0 as [sr Hrx]. exists sr. by eapply rx_ok_ext; [..|exact Hrx].
    + unfold mbind, St_bind, ctx_update. cbn [ctx_get device_ctx].
      assert (send_buffer A b o n j (vs_net (m_ctx m1)) = UB) as ->; [|done].
      apply (send_buffer_overruns _ _ _ _ f j Hsz); done || lia.
  - rewrite decide_True by done. erewrite St_bind_ok in Hrun by reflexivity. rewrite Hrun. by exists m1.
Qed.

(* ------------------------------------------------------------------ *)
(** ** Reception *)

Lemma load_drop {X} (b : list X) o n p (k : nat) : load b o n = Ok p -> Z.of_nat k <= n ->
  load b (o + Z.of_nat k) (n - Z.of_nat k) = Ok (drop k p).
Proof using.
  intros (Hl & h & x & -> & <-)%load_inv Hk.
  rewrite <- (take_drop k p) at 1. rewrite <- app_assoc, (app_assoc h).
  replace (len h + Z.of_nat k) with (len (h ++ take k p)).
  - replace (n - Z.of_nat k) with (len (drop k p)); [apply load_ok|].
    unfold len in *. rewrite length_drop. lia.
  - rewrite len_app. unfold len in *. rewrite length_take. lia.
Qed.

(** The oldest packet leaves the used ring, and its buffer the device. *)
Lemma rx_ok_drop c pos taken p a r s : rx_ok c pos taken (p :: a) r s ->
  exists e, used_ring (rx_queue c) !! Z.to_nat (rx_last_used_idx c mod ring_len t) = Some e /\
    used_idx (rx_queue c) <> rx_last_used_idx c /\ rx_full c e p /\ 0 <= used_id e < 16 /\
    exists s', used_id e ∉ outstanding s' /\ rx_ok (next_rx c) pos taken a r s'.
Proof using.
  clear HA HB. intros []. inversion rx_packets0 as [|e p' es a' Hfull Hrest He]. subst p' a'.
  destruct (vq_take _ _ _ _ _ _ rx_vq0 e es (eq_sym He)) as (Hok & Hrd & Hne & Hid & Hni & _).
  exists e. split; [done|]. split; [done|]. split; [done|]. split; [done|].
  exists (Vq (offered s) (held s) es). split; [done|]. by split.
Qed.

(** A buffer the driver has goes back to the device. *)
Lemma rx_ok_offer c pos taken a r s id : rx_ok c pos taken a r s -> 0 <= id < 16 ->
  id ∉ outstanding s -> exists q, offer (ring_len t) id (rx_queue c) = Ok q /\ exists s',
    rx_ok (set_rx q (rx_desc_in_use c) (rx_last_used_idx c) c) pos taken a (S r) s'.
Proof using.
  clear HA HB. intros [] Hid Hni. destruct (vq_offer _ _ _ _ _ _ rx_vq0 id Hid Hni) as (q & E & Hok & Hd).
  exists q. split; [done|]. eexists. split; [exact Hok|done| | |done].
  - cbn. rewrite length_app. cbn. lia.
  - intros i Hi. cbn [rx_queue set_rx]. rewrite Hd. by apply rx_descs0.
Qed.

(** The machine after a change of the receive half. *)
Definition with_rx (c : virtio_net) (m : machine) : machine := with_ctx (set_net c (m_ctx m)) m.

Lemma with_rx_represents m q a r qu u last :
  represents m q ->
  (exists s, rx_ok (set_rx qu u last (vs_net (m_ctx m))) (vs_rx_pos (m_ctx m)) (vs_rx_held (m_ctx m)) a r s) ->
  represents (with_rx (set_rx qu u last (vs_net (m_ctx m))) m)
    (Queues (to_send q) (busy q) a r (sent q)).
Proof using.
  intros [] Hrx. destruct rep_tx0 as [s Htx]. destruct rep_sized0.
  split; try done. exists s. by eapply tx_ok_ext; [..|exact Htx].
Qed.

Lemma receive_step m q b o n l : represents m q -> 0 <= o -> 0 <= n -> o + n <= len b ->
  exists r b' l' m', virtio_net_receive (Some tt) (Some (b, o)) n (Some l) m
    = Ok (r, Some (b', o), Some l', m') /\
  match arrived q with
  | [] => r = -1 /\ b' = b /\ l' = l /\ represents m' q
  | p :: a =>
      if decide (sizeof_hdr <= len p /\ len p - sizeof_hdr <= n)
      then r = 0 /\ l' = len p - sizeof_hdr /\ store b o (drop 10 p) = Ok b' /\
        represents m' (Queues (to_send q) (busy q) a (S (room q)) (sent q))
      else r = -1 /\ b' = b /\ l' = l /\
        represents m' (Queues (to_send q) (busy q) a (room q) (sent q))
  end.
Proof using HA HB.
  intros R Ho Hn Hb. set (c := vs_net (m_ctx m)).
  destruct (log_rx_check_same (rx_last_used_idx c) (used_idx (rx_queue c)) m) as (m1 & El & Hs).
  pose proof (represents_same _ _ _ Hs R) as R1.
  assert (vs_net (m_ctx m1) = c) as Hc by (destruct Hs as [[? ->] _ _ _]; done).
  assert (Hrun : forall k, (_ ← log_rx_check (rx_last_used_idx c) (used_idx (rx_queue c)); k) m
    = (k : St machine (Z * option (bytes * Z) * option Z)) m1)
    by (intros k; by rewrite (St_bind_ok _ _ _ _ _ El)).
  unfold virtio_net_receive. erewrite St_bind_ok by reflexivity. cbn [ctx_get device_ctx].
  rewrite (rep_init _ _ R). cbn [negb]. fold c. rewrite Hrun. clear Hrun El.
  destruct (rep_rx _ _ R1) as [s Hrx]. rewrite Hc in Hrx.
  destruct (arrived q) as [|p a] eqn:Ea.
  { inversion Hrx. inversion rx_packets0 as [He|]. 
    rewrite (vq_none _ _ _ _ _ _ rx_vq0 (eq_sym He)), Z.eqb_refl. by eexists _, _, _, m1. }
  destruct (rx_ok_drop _ _ _ _ _ _ _ Hrx) as (e & Hrd & Hne & Hfull & Hid & s' & Hni & Hrx').
  assert (Hdrop : exists m', (_ ← ctx_modify tt next_rx; mret (M := St machine)
      (-1, Some (b, o), Some l)) m1 = Ok (-1, Some (b, o), Some l, m') /\
    represents m' (Queues (to_send q) (busy q) a (room q) (sent q))).
  { eexists. split; [reflexivity|]. cbn [ctx_get ctx_put device_ctx].
    apply with_rx_represents; [done|]. exists s'. by rewrite Hc. }
  destruct (Z.eqb_spec (used_idx (rx_queue c)) (rx_last_used_idx c)); [done|].
  pose proof (rep_transport _ _ R) as Ht. fold c in Ht. rewrite Ht.
  pose proof ring_len_ok as [Hrl _].
  erewrite St_bind_ok by (apply lift_ok, (rd_ok _ _ e); [apply Z.mod_pos_bound; lia|exact Hrd]).
  destruct Hfull as (Hlen & Hmax & Hpb & buf & Hbuf & Hload). rewrite Hlen.
  pose proof offset_range as Hoff. pose proof (len_nonneg p).
  unfold max_len, VIRTIO_NET_MAX_PACKET_SIZE, VIRTIO_NET_QUEUE_SIZE, sizeof_hdr in *.
  destruct (Z.leb_spec 16 (used_id e)); [lia|].
  destruct (Z.ltb_spec 2048 (len p)); [lia|]. rewrite orb_false_r.
  case_decide as Hfit; last first.
  { destruct Hdrop as (m' & E & R'). exists (-1), b, l, m'. split; [|done].
    destruct (Z.eqb_spec (len p) 0); [done|]. destruct (Z.ltb_spec (len p) 10); [done|].
    destruct (Z.ltb_spec n (len p - 10)); [done|lia]. }
  destruct (Z.eqb_spec (len p) 0); [lia|]. destruct (Z.ltb_spec (len p) 10); [lia|].
  destruct (Z.ltb_spec n (len p - 10)); [lia|].
  pose proof (load_drop _ _ _ _ 10 Hload ltac:(lia)) as Hl10. cbn [Z.of_nat Pos.of_succ_nat Pos.succ] in Hl10.
  pose proof (load_len _ _ _ _ Hl10) as Hdl.
  destruct (store_in_range b o (drop 10 p)) as [b' Hb']; [lia|lia|].
  destruct (rx_ok_offer _ _ _ _ _ _ (used_id e) Hrx' Hid Hni) as (qu & Eq & s2 & Hrx2).
  erewrite St_bind_ok by (apply lift_ok; rewrite (rd_ok _ _ buf) by (done || lia);
    cbn [mbind res_bind]; rewrite (memcpy_store _ _ _ _ _ (drop 10 p))
      by (rewrite ?Z2Nat.id by lia; done || lia); exact Hb').
  erewrite St_bind_ok by reflexivity. cbn [ctx_get ctx_put device_ctx]. rewrite Hc.
  erewrite St_bind_ok; cycle 1.
  { apply ctx_update_ok. cbn [ctx_get device_ctx vs_net set_net m_ctx with_ctx].
    change (net_transport (next_rx c)) with (net_transport c).
    rewrite Ht, u16_id, Eq by (unfold is_u16; lia). reflexivity. }
  cbn [ctx_put device_ctx].
  edestruct (notify_same 0) as (m2 & En & Hs2); [| |rewrite (St_bind_ok _ _ _ _ _ En)];
    [|by left|].
  { split; cbn; [exact (rep_base _ _ R)|exact Ht]. }
  exists 0, b', (len p - 10), m2. split; [done|]. split; [done|]. split; [done|]. split; [done|].
  apply (represents_same _ _ _ Hs2).
  pose proof (with_rx_represents m1 q a (S (room q)) qu (rx_desc_in_use (next_rx c))
    (rx_last_used_idx (next_rx c)) R1) as HR. rewrite Hc in HR. apply HR. by exists s2.
Qed.

(* ------------------------------------------------------------------ *)
(** ** The device keeps the representation *)

Lemma addr_inj base i id : 0 <= id -> base + id * VIRTIO_NET_MAX_PACKET_SIZE + VIRTIO_NET_RX_BUFFER_OFFSET
  = base + Z.of_nat i * VIRTIO_NET_MAX_PACKET_SIZE + VIRTIO_NET_RX_BUFFER_OFFSET -> i = Z.to_nat id.
Proof using. clear. unfold VIRTIO_NET_MAX_PACKET_SIZE. lia. Qed.

(** The device takes a receive buffer. *)
Lemma fetch_rx c pos taken a r s id : rx_ok c pos taken a r s ->
  avail_idx (rx_queue c) <> pos ->
  avail_ring (rx_queue c) !! Z.to_nat (pos mod ring_len t) = Some id ->
  exists s', rx_ok c (u16 (pos + 1)) (id :: taken) a r s'.
Proof using.
  clear HA HB. intros [] Hne Hid. destruct (vq_next _ _ _ _ _ _ rx_vq0 id Hne Hid) as [ids E].
  destruct (vq_fetch _ _ _ _ _ _ rx_vq0 id ids E) as [Hok _].
  eexists. split; [exact Hok|by subst| |done|done]. rewrite rx_room0, E. cbn. lia.
Qed.

(** The device takes a transmit buffer, which holds the oldest frame. *)
Lemma fetch_tx c pos taken ts b s id : tx_ok c pos taken ts b s ->
  avail_idx (tx_queue c) <> pos ->
  avail_ring (tx_queue c) !! Z.to_nat (pos mod ring_len t) = Some id ->
  exists f ts' s', ts = f :: ts' /\ tx_full c id f /\ 0 <= id /\
    tx_ok c (u16 (pos + 1)) (id :: taken) ts' (S b) s'.
Proof using.
  clear HA HB. intros [] Hne Hid. destruct (vq_next _ _ _ _ _ _ tx_vq0 id Hne Hid) as [ids E].
  destruct (vq_fetch _ _ _ _ _ _ tx_vq0 id ids E) as [Hok Hperm].
  rewrite E in tx_frames0. inversion tx_frames0 as [|x f y ts' Hfull Hrest]. subst.
  assert (0 <= id) as Hid0.
  { pose proof (vq_range _ _ _ _ _ _ tx_vq0) as Hr. rewrite Forall_forall in Hr. apply Hr.
    unfold outstanding. rewrite E. apply list_elem_of_here. }
  eexists f, ts', _. split; [done|]. split; [done|]. split; [done|].
  split; [exact Hok|done|done| |done]. intros i Hi. rewrite tx_in_use0 by done.
  f_equal. apply bool_decide_ext. by rewrite Hperm.
Qed.

(** The device returns a transmit buffer. *)
Lemma return_tx c pos taken ts b s e ids : tx_ok c pos taken ts b s -> taken ≡ₚ used_id e :: ids ->
  exists b' s', b = S b' /\
    tx_ok (set_tx (returns (ring_len t) e (tx_queue c)) (tx_buffers c) (tx_desc_in_use c)
             (tx_last_used_idx c) c) pos ids ts b' s'.
Proof using.
  clear HA HB. intros [] Hp. subst.
  destruct (vq_return _ _ _ _ _ _ tx_vq0 e ids Hp) as [Hok Hperm].
  exists (length ids). eexists. split; [by rewrite Hp|]. split; [exact Hok|done|done| |done].
  intros i Hi. cbn [tx_desc_in_use set_tx]. rewrite tx_in_use0 by done.
  f_equal. apply bool_decide_ext. by rewrite Hperm.
Qed.

(** The device fills a receive buffer and returns it. *)
Lemma return_rx c c' pos taken a r s id ids buf buf' p :
  rx_ok c pos taken a r s -> taken ≡ₚ id :: ids -> is_bytes p -> len p <= max_len ->
  rx_queue c' = returns (ring_len t) (UsedElem id (len p)) (rx_queue c) ->
  rx_last_used_idx c' = rx_last_used_idx c ->
  rx_buffers c' = <[Z.to_nat id := buf']> (rx_buffers c) ->
  rx_buffers c !! Z.to_nat id = Some buf -> store buf VIRTIO_NET_RX_BUFFER_OFFSET p = Ok buf' ->
  exists r' s', r = S r' /\ rx_ok c' pos ids (a ++ [p]) r' s'.
Proof using.
  clear HA HB. intros [] Hp Hpb Hpl Eq El Eb Hbuf Hst. subst.
  destruct (vq_return _ _ _ _ _ _ rx_vq0 (UsedElem id (len p)) ids Hp) as [Hok Hperm].
  exists (length (offered s) + length ids)%nat. eexists. split; [rewrite Hp; cbn; lia|].
  split; rewrite ?El, ?Eq; [exact Hok|done|done|exact rx_descs0|].
  apply Forall2_app; [|constructor; [|constructor]].
  - eapply Forall2_impl_in; [exact rx_packets0|]. intros e x He (Hl & Hm & Hb & bx & Hbx & Hlx).
    split; [done|]. split; [done|]. split; [done|]. exists bx. split; [|done].
    rewrite Eb, list_lookup_insert_ne; [done|]. intros Eid.
    pose proof (vq_nodup _ _ _ _ _ _ rx_vq0) as Hnd. unfold outstanding in Hnd.
    apply NoDup_app in Hnd as (_ & _ & Hnd). apply NoDup_app in Hnd as (_ & Hnd & _).
    pose proof (vq_range _ _ _ _ _ _ rx_vq0) as Hr. rewrite Forall_forall in Hr.
    assert (id ∈ held s) as Hin by (rewrite Hp; apply list_elem_of_here).
    assert (used_id e ∈ used_id <$> returned s) as Hue by (by apply list_elem_of_fmap_2).
    apply (Hnd id Hin). replace id with (used_id e); [done|].
    assert (0 <= id < 16) by (apply Hr; unfold outstanding; rewrite !elem_of_app; auto).
    assert (0 <= used_id e < 16) by (apply Hr; unfold outstanding; rewrite !elem_of_app; auto).
    lia.
  - split; [done|]. split; [done|]. split; [done|]. exists buf'. cbn [used_id].
    rewrite Eb, list_lookup_insert_eq by (by eapply lookup_lt_Some). split; [done|].
    by eapply load_store_at.
Qed.

Lemma hw_keeps m ev m' q : represents m q -> hw_step m ev m' ->
  exists q', spec_step q ev q' /\ represents m' q'.
Proof using.
  clear HA HB. intros R Hs. pose proof R as [Hi Hb Ht Hl Hsz Hw [st Htx] [sr Hrx]].
  destruct q as [ts b a r s]. cbn [to_send busy arrived room sent] in *.
  inversion Hs as [m0 id c v Hlv Ev Ec Hne Hav | m0 id ids i d buf buf' p c v Hlv Ev Ec Hp Hd Hfl Ha Hpb Hpl Hbuf Hst
    | m0 id i d buf h f c v Hlv Ev Ec Hne Hav Hd Ha Hbuf Hload Hh | m0 e ids c v Hlv Ev Ec Hp]; subst m0 ev c v.
  - destruct (fetch_rx _ _ _ _ _ _ _ Hrx Hne Hav) as [s' Hrx'].
    exists (Queues ts b a r s). split; [constructor|]. split; try done; [by exists st|by exists s'].
  - assert (0 <= id < 16) as Hid.
    { destruct Hrx. pose proof (vq_range _ _ _ _ _ _ rx_vq0) as Hr. rewrite Forall_forall in Hr.
      apply Hr. unfold outstanding. rewrite rx_taken0, Hp, !elem_of_app. right. left.
      apply list_elem_of_here. }
    rewrite (rx_descs _ _ _ _ _ _ Hrx id Hid) in Hd. injection Hd as <-. cbn [vd_addr vd_len] in *.
    apply addr_inj in Ha as ->; [|lia].
    match goal with |- context [with_ctx (VState ?c' _ _ _ _ _ _) m] =>
      destruct (return_rx _ c' _ _ _ _ _ _ _ _ buf' p Hrx Hp Hpb Hpl eq_refl eq_refl eq_refl Hbuf Hst)
        as (r' & s' & -> & Hrx') end.
    exists (Queues ts b (a ++ [p]) r' s). split; [by constructor|]. destruct Hsz.
    split; try done; [|exists st; by eapply tx_ok_ext; [..|exact Htx]|by exists s'].
    split; cbn; rewrite ?length_insert; try done. apply Forall_insert; [done|].
    rewrite (store_len _ _ _ _ Hst). rewrite Forall_lookup in rx_buffers_size0. eauto.
  - destruct (fetch_tx _ _ _ _ _ _ _ Htx Hne Hav) as (f' & ts' & s' & -> & Hfull & Hid & Htx').
    destruct Hfull as (Hd' & buf1 & Hbuf1 & Hl1). rewrite Hd' in Hd. injection Hd as <-.
    cbn [vd_addr vd_len] in *. apply addr_inj in Ha as ->; [|done].
    rewrite Hbuf1 in Hbuf. injection Hbuf as ->. rewrite Hl1 in Hload. apply (f_equal (fun x => match x with Ok l => l | _ => [] end)) in Hload.
    apply (app_inj_1 (replicate 10 0)) in Hload as [_ ->]; [|unfold len, sizeof_hdr in Hh; cbn; lia].
    exists (Queues ts' (S b) a r (s ++ [f])). split; [constructor|].
    split; try done; [cbn; by rewrite Hw|by exists s'|by exists sr].
  - destruct (return_tx _ _ _ _ _ _ _ _ Htx Hp) as (b' & s' & -> & Htx').
    exists (Queues ts b' a r s). split; [constructor|].
    split; try done; [by destruct Hsz|by exists s'|exists sr; by eapply rx_ok_ext; [..|exact Hrx]].
Qed.

(* ------------------------------------------------------------------ *)
(** ** Initialisation *)

(** What the device offers before initialisation: on the PCI transport, whose
    layout the queue size fixes, 256 entries; on the MMIO transport at least 16. *)
Definition present (m : machine) : Prop :=
  match t with
  | TRANSPORT_PCI => m_regs m reg_size = 256
  | TRANSPORT_MMIO => 16 <= m_regs m reg_size < 2 ^ 32
  end.

Lemma regs_differ : reg_pfn <> reg_status /\ reg_pfn <> reg_sel /\ reg_pfn <> reg_size /\
  reg_status <> reg_sel /\ reg_status <> reg_size /\ reg_sel <> reg_size.
Proof using. clear HA HB. unfold reg_pfn, reg_status, reg_sel, reg_size. by destruct t. Qed.

Lemma reg_pfn_ok : offset_ok reg_pfn /\ offset_ok reg_status /\ offset_ok reg_sel /\
  offset_ok reg_size.
Proof using.
  clear HA HB. unfold offset_ok, reg_pfn, reg_status, reg_sel, reg_size.
  destruct t; cbv -[Z.le Z.lt]; lia.
Qed.

(** A register that is neither page nor status holds what is written. *)
Lemma reg_write_other off v m : off <> reg_pfn -> off <> reg_status ->
  reg_write off v m = poke off v m.
Proof using.
  intros Hp Hs. unfold reg_write. destruct (Z.eqb_spec off reg_pfn); [done|].
  by destruct (Z.eqb_spec off reg_status).
Qed.
Lemma reg_write_status v m : v <> 0 -> reg_write reg_status v m = poke reg_status v m.
Proof using.
  intros Hv. pose proof regs_differ as (? & _). unfold reg_write.
  destruct (Z.eqb_spec reg_status reg_pfn); [congruence|].
  destruct (Z.eqb_spec v 0); [done|]. by rewrite andb_false_r.
Qed.
Lemma reg_write_reset m : reg_write reg_status 0 m
  = poke reg_status 0 (with_ctx (reset_device (m_ctx m)) m).
Proof using.
  pose proof regs_differ as (? & _). unfold reg_write.
  destruct (Z.eqb_spec reg_status reg_pfn); [congruence|]. by rewrite Z.eqb_refl.
Qed.
Lemma reg_read_other off m : off <> reg_pfn -> reg_read off m = m_regs m off.
Proof using. intros Hp. unfold reg_read. by destruct (Z.eqb_spec off reg_pfn). Qed.

(** A step of the initialisation: it leaves wire and queue size alone. *)
Record advances (m : machine) (v : vstate) (m' : machine) : Prop := Advances {
  adv_ctx : m_ctx m' = v;
  adv_size : m_regs m' reg_size = m_regs m reg_size;
  adv_wire : m_wire m' = m_wire m
}.

Lemma attached_poke off v m : attached m -> attached (poke off v m).
Proof using. done. Qed.

Lemma handshake_ok m f1 f2 : attached m -> offset_ok f1 -> offset_ok f2 ->
  f2 <> reg_pfn -> f2 <> reg_status -> f2 <> reg_size ->
  exists m', handshake tt reg_status f1 f2 m = Ok (true, m') /\
    advances m (reset_device (m_ctx m)) m'.
Proof using HB.
  intros Ha Hf1 Hf2 Hn1 Hn2 Hn3. pose proof reg_pfn_ok as (Op & Os & Osel & Osz).
  pose proof regs_differ as (? & ? & ? & ? & ? & ?). unfold handshake.
  erewrite St_bind_ok by (apply write8_ok; [done|done|split; [discriminate|reflexivity]]).
  rewrite reg_write_reset.
  erewrite St_bind_ok by (apply write8_ok; [done|done|split; [discriminate|reflexivity]]).
  rewrite reg_write_status by done.
  erewrite St_bind_ok by (apply write8_ok; [done|done|split; [discriminate|reflexivity]]).
  rewrite reg_write_status by done.
  erewrite St_bind_ok by (by apply read32_ok).
  erewrite St_bind_ok by (apply vwrite32_ok; [done|done|split; [discriminate|reflexivity]]).
  rewrite reg_write_other by done.
  erewrite St_bind_ok by (apply write8_ok; [done|done|split; [discriminate|reflexivity]]).
  rewrite reg_write_status by done.
  erewrite St_bind_ok by (by apply vread8_ok).
  rewrite reg_read_other by done.
  assert (forall v (m1 : machine), m_regs (poke reg_status v m1) reg_status = v) as Hread.
  { intros. cbn. unfold reg_set. by rewrite decide_True. }
  rewrite Hread. eexists. split; [reflexivity|].
  split; [done| |done]. cbn. unfold reg_set. rewrite !decide_False by done. done.
Qed.

Lemma program_queue_ok m i addr : attached m -> m_regs m reg_sel = i -> 0 <= addr < 2 ^ 44 ->
  exists m', program_queue tt reg_pfn addr m = Ok (0, m') /\
    advances m (set_pfn (reg_set (vs_pfn (m_ctx m)) i (addr / 4096)) (m_ctx m)) m'.
Proof using HB.
  intros Ha Hi Hr. pose proof reg_pfn_ok as (Op & _). unfold program_queue.
  assert (u32 (Z.shiftr addr 12) = addr / 4096) as ->.
  { rewrite Z.shiftr_div_pow2 by lia. apply u32_id. unfold is_u32. zdm. }
  edestruct (vnet_print_ok LOG_DEBUG) as (m1 & E & [Ec Er Ew]); [| |rewrite (St_bind_ok _ _ _ _ _ E)];
    [done|reflexivity|]. clear E.
  assert (attached m1) as Ha1 by (unfold attached; by rewrite Ec).
  erewrite St_bind_ok by (apply vwrite32_ok; [done|done|unfold is_u32; zdm]).
  assert (Hw : reg_write reg_pfn (addr / 4096) m1
    = with_ctx (set_pfn (reg_set (vs_pfn (m_ctx m)) i (addr / 4096)) (m_ctx m)) m1).
  { unfold reg_write. by rewrite Z.eqb_refl, Er, Hi, Ec. }
  rewrite Hw. erewrite St_bind_ok by (apply read32_ok; [|done]; exact Ha).
  assert (Hrd : reg_read reg_pfn (with_ctx (set_pfn (reg_set (vs_pfn (m_ctx m)) i (addr / 4096))
      (m_ctx m)) m1) = addr / 4096).
  { unfold reg_read. rewrite Z.eqb_refl. cbn. rewrite Er, Hi. unfold reg_set. by rewrite decide_True. }
  rewrite Hrd, u32_id, Z.eqb_refl by (unfold is_u32; zdm). cbn [negb].
  eexists. split; [reflexivity|]. split; [done|by cbn; rewrite Er|by cbn; rewrite Ew].
Qed.

Definition queue_offset (i : Z) : Z := if i =? 0 then offsetof_rx_queue else offsetof_tx_queue.

Lemma init_virtqueue_ok m i : attached m -> present m -> i = 0 \/ i = 1 ->
  exists m', virtio_net_init_virtqueue tt i m = Ok (0, m') /\
    advances m (set_pfn (reg_set (vs_pfn (m_ctx m)) i ((A + queue_offset i) / 4096))
                 (set_net (clear_queue i (vs_net (m_ctx m))) (m_ctx m))) m'.
Proof using HA HB.
  intros Ha Hp Hi. pose proof Ha as [Hb Ht]. pose proof regs_differ as (? & ? & ? & ? & ? & ?).
  pose proof reg_pfn_ok as (Op & Os & Osel & Osz). destruct HA as (? & _ & ?).
  assert (is_u16 i /\ is_u32 i) as [? ?] by (unfold_ints; lia).
  assert (0 <= A + queue_offset i < 2 ^ 44) as Haddr.
  { unfold queue_offset, offsetof_tx_queue, offsetof_rx_queue. destruct (i =? 0); lia. }
  set (m2 := with_ctx (set_net (clear_queue i (vs_net (m_ctx m))) (m_ctx m)) (poke reg_sel i m)).
  assert (attached m2) as Ha2.
  { split; cbn; unfold clear_queue; by destruct (i =? 0). }
  assert (m_regs m2 reg_sel = i) as Hsel by (cbn; unfold reg_set; by rewrite decide_True).
  assert (forall m3, m_ctx m3 = m_ctx m2 -> m_regs m3 reg_sel = i ->
    m_regs m3 reg_size = m_regs m reg_size -> m_wire m3 = m_wire m ->
    exists m', program_queue tt reg_pfn (A + queue_offset i) m3 = Ok (0, m') /\
      advances m (set_pfn (reg_set (vs_pfn (m_ctx m)) i ((A + queue_offset i) / 4096))
                 (set_net (clear_queue i (vs_net (m_ctx m))) (m_ctx m))) m') as Hend.
  { intros m3 E3 Hs3 Hz3 Hw3.
    destruct (program_queue_ok m3 i (A + queue_offset i)) as (m' & E & [Ec Ez Ew]); [|done|done|].
    - unfold attached. rewrite E3. exact Ha2.
    - exists m'. split; [done|]. split; [|congruence..]. rewrite Ec, E3. done. }
  unfold virtio_net_init_virtqueue. erewrite St_bind_ok by reflexivity.
  cbn [ctx_get device_ctx ctx_address]. rewrite Ht, on_pci_t.
  change (if i =? 0 then offsetof_rx_queue else offsetof_tx_queue) with (queue_offset i).
  unfold present in Hp. case_bool_decide as Et.
  - rewrite Et in Hp.
    replace VIRTIO_PCI_QUEUE_SEL with reg_sel by (unfold reg_sel; by rewrite Et).
    replace VIRTIO_PCI_QUEUE_NUM with reg_size by (unfold reg_size; by rewrite Et).
    replace VIRTIO_PCI_QUEUE_PFN with reg_pfn by (unfold reg_pfn; by rewrite Et).
    erewrite St_bind_ok by (by apply vwrite16_ok).
    rewrite reg_write_other by congruence.
    erewrite St_bind_ok by (by apply vread16_ok).
    rewrite reg_read_other by congruence. cbn [m_regs poke].
    unfold reg_set at 1 2. rewrite decide_False by congruence. rewrite Hp.
    change ((u16 256 =? 0) || (u16 256 <? VIRTIO_NET_QUEUE_SIZE)) with false. cbn beta iota.
    erewrite St_bind_ok by reflexivity. cbn [ctx_get ctx_put device_ctx].
    apply Hend; try done. cbn. unfold reg_set. by rewrite decide_False by congruence.
  - assert (t = TRANSPORT_MMIO) as Et' by (by destruct t). rewrite Et' in Hp.
    replace VIRTIO_MMIO_QUEUE_SEL with reg_sel by (unfold reg_sel; by rewrite Et').
    replace VIRTIO_MMIO_QUEUE_NUM_MAX with reg_size by (unfold reg_size; by rewrite Et').
    replace VIRTIO_MMIO_QUEUE_PFN with reg_pfn by (unfold reg_pfn; by rewrite Et').
    erewrite St_bind_ok by reflexivity. cbn [ctx_get ctx_put device_ctx].
    erewrite St_bind_ok by (by apply vwrite16_ok).
    rewrite reg_write_other by congruence.
    erewrite St_bind_ok by (apply read32_ok; [exact Ha2|done]).
    rewrite reg_read_other by congruence. cbn [m_regs poke with_ctx].
    unfold reg_set at 1 2. rewrite decide_False by congruence. rewrite u32_id by (unfold is_u32; lia).
    destruct (Z.eqb_spec (m_regs m reg_size) 0); [lia|].
    destruct (Z.ltb_spec (m_regs m reg_size) VIRTIO_NET_QUEUE_SIZE);
      [unfold VIRTIO_NET_QUEUE_SIZE in *; lia|]. cbn [orb].
    erewrite St_bind_ok by (apply vwrite32_ok; [exact Ha2|low|split; [discriminate|reflexivity]]).
    rewrite reg_write_other by (unfold reg_pfn, reg_status; by rewrite Et').
    erewrite St_bind_ok by (apply vwrite32_ok; [exact Ha2|low|split; [discriminate|reflexivity]]).
    rewrite reg_write_other by (unfold reg_pfn, reg_status; by rewrite Et').
    assert (VIRTIO_MMIO_QUEUE_NUM <> reg_sel /\ VIRTIO_MMIO_QUEUE_NUM <> reg_size /\
      VIRTIO_MMIO_QUEUE_ALIGN <> reg_sel /\ VIRTIO_MMIO_QUEUE_ALIGN <> reg_size) as (? & ? & ? & ?)
      by (unfold reg_sel, reg_size; by rewrite Et').
    apply Hend; try done; cbn; unfold reg_set.
    + rewrite !(decide_False (P := reg_sel = _)) by congruence. by rewrite decide_True.
    + by rewrite !decide_False by congruence.
Qed.

(** After the loop every receive buffer is offered. *)
Lemma populate_loop n m : (n <= 16)%nat -> vs_net (m_ctx m) = net_zero B t ->
  exists q u, for_n n (fun i _ => ctx_update tt (populate A (Z.of_nat i))) tt m
    = Ok (tt, with_rx (set_rx q u 0 (net_zero B t)) m) /\
  vq_ok (ring_len t) 16 q 0 0 (Vq (seqZ 0 (Z.of_nat n)) [] []) /\ length u = 16%nat /\
  (forall i, 0 <= i < Z.of_nat n -> vr_desc q !! Z.to_nat i
    = Some (VDesc (rx_addr i) max_len VRING_DESC_F_WRITE 0)).
Proof using HA.
  intros Hn Hc. pose proof ring_len_ok as [Hrl Hdiv]. pose proof offset_range as Hoff.
  induction n as [|n IH].
  - exists (rx_queue (net_zero B t)), (rx_desc_in_use (net_zero B t)). split; [|split; [|split; [done|lia]]].
    + unfold for_n. cbn. unfold mret, St_ret. do 2 f_equal. unfold with_rx.
      destruct m as [[]]. cbn in *. by subst.
    + cbn [net_zero rx_queue]. rewrite <- (Z2Nat.id (ring_len t)) at 1 by lia.
      apply vq_init; rewrite Z2Nat.id by lia; [lia|done].
  - destruct IH as (q & u & E & Hok & Hl & Hd); [lia|]. unfold for_n in *.
    rewrite seq_S, foldl_snoc. rewrite (St_bind_ok _ _ _ _ _ E). cbn [Nat.add]. clear E.
    set (d := VDesc (rx_addr (Z.of_nat n)) max_len VRING_DESC_F_WRITE 0).
    destruct (vq_set_desc _ _ _ _ _ _ Hok (Z.of_nat n) d) as (q1 & E1 & Hok1 & Hd1); [lia|].
    destruct (vq_offer _ _ _ _ _ _ Hok1 (Z.of_nat n)) as (q2 & E2 & Hok2 & Hd2); [lia| |].
    { unfold outstanding. cbn. rewrite app_nil_r, elem_of_seqZ. lia. }
    exists q2, (<[n := true]> u). split; [|split; [|split; [by rewrite length_insert|]]].
    + unfold ctx_update. cbn [ctx_get device_ctx with_rx m_ctx with_ctx vs_net set_net].
      unfold populate. cbn [rx_queue set_rx net_transport net_zero rx_desc_in_use rx_last_used_idx].
      fold (rx_addr (Z.of_nat n)). rewrite (u64_id (rx_addr _)).
      * fold max_len. fold d. rewrite E1. cbn [mbind res_bind]. rewrite E2. cbn [mbind res_bind].
        rewrite wr_insert by llia. cbn [mbind res_bind]. rewrite Nat2Z.id. reflexivity.
      * destruct HA as (? & _ & ?). unfold is_u64, rx_addr, offsetof_rx_buffers, offsetof_tx_queue,
          offsetof_rx_queue, VIRTIO_NET_MAX_PACKET_SIZE. lia.
    + replace (Z.of_nat (S n)) with (Z.of_nat n + 1) by lia. rewrite seqZ_app by lia. exact Hok2.
    + intros i Hi. rewrite Hd2, Hd1. destruct (decide (i = Z.of_nat n)) as [->|].
      * pose proof (vq_desc_len _ _ _ _ _ _ Hok). by rewrite list_lookup_insert_eq by llia.
      * rewrite list_lookup_insert_ne by lia. apply Hd. lia.
Qed.

Lemma driver_ok_ok m : attached m ->
  exists m', driver_ok tt m = Ok (true, m') /\ m_ctx m' = m_ctx m /\
    Z.testbit (m_regs m' reg_status) 2 = true /\ m_wire m' = m_wire m.
Proof using HB.
  intros Ha. pose proof regs_differ as (? & ? & ? & ? & ? & ?). pose proof reg_pfn_ok as (Op & Os & _).
  assert (forall v (m1 : machine), m_regs (poke reg_status v m1) reg_status = v) as Hread.
  { intros. cbn. unfold reg_set. by rewrite decide_True. }
  unfold driver_ok. erewrite St_bind_ok by reflexivity. cbn [ctx_get device_ctx].
  rewrite (proj2 Ha), on_pci_t. case_bool_decide as Et.
  - replace VIRTIO_PCI_STATUS with reg_status by (unfold reg_status; by rewrite Et).
    erewrite St_bind_ok by (apply write8_ok; [done|done|split; [discriminate|reflexivity]]).
    rewrite reg_write_status by done.
    erewrite St_bind_ok by (by apply vread8_ok). rewrite reg_read_other, Hread by congruence.
    eexists. split; [reflexivity|]. split; [done|]. split; [by rewrite Hread|done].
  - assert (t = TRANSPORT_MMIO) as Et' by (by destruct t).
    replace VIRTIO_MMIO_STATUS with reg_status by (unfold reg_status; by rewrite Et').
    erewrite St_bind_ok by (apply write8_ok; [done|done|split; [discriminate|reflexivity]]).
    rewrite reg_write_status by done.
    erewrite St_bind_ok by (by apply vread8_ok). rewrite reg_read_other, Hread by congruence.
    change (Z.land (u8 _) VIRTIO_STATUS_DRIVER_OK =? 0) with false. cbn beta iota.
    erewrite St_bind_ok by (apply vwrite32_ok; [done|low|split; [discriminate|reflexivity]]).
    rewrite reg_write_other by (unfold reg_pfn, reg_status; by rewrite Et').
    eexists. split; [reflexivity|]. split; [done|]. split; [|done]. cbn [m_regs poke].
    unfold reg_set. rewrite decide_False by (unfold reg_status; by rewrite Et').
    by rewrite decide_True.
Qed.

Lemma config_byte_ok m i : attached m -> 0 <= i < 6 ->
  exists v, config_byte tt i m = Ok (v, m) /\ is_u8 v.
Proof using HB.
  intros [Hb Ht] Hi. unfold config_byte. erewrite St_bind_ok by reflexivity.
  cbn [ctx_get device_ctx]. rewrite Ht, on_pci_t.
  case_bool_decide; eexists; (split; [reflexivity|]); apply (Z.mod_pos_bound _ 256); lia.
Qed.

Lemma vread_mac_ok m : attached m -> len (mac_addr (vs_net (m_ctx m))) = 6 ->
  exists mac, read_mac tt m = Ok (tt, with_rx (set_mac mac (vs_net (m_ctx m))) m) /\ len mac = 6.
Proof using HB.
  intros Ha Hl. unfold read_mac, for_n. change 6%nat with (Z.to_nat 6).
  assert (forall n, Z.of_nat n <= 6 -> exists mac,
    foldl (fun (x : St machine unit) i => x ≫= fun _ =>
      (v ← config_byte tt (Z.of_nat i);
       ctx_update tt (fun c => mac ← wr (mac_addr c) (Z.of_nat i) v; mret (set_mac mac c))))
      (mret tt) (seq 0 n) m = Ok (tt, with_rx (set_mac mac (vs_net (m_ctx m))) m) /\ len mac = 6) as H0;
    [|by apply H0].
  induction n as [|n IH]; intros Hn.
  - exists (mac_addr (vs_net (m_ctx m))). split; [|done]. cbn. unfold mret, St_ret, with_rx.
    do 2 f_equal. by destruct m as [[[]]].
  - destruct IH as (mac & E & Hm); [lia|]. rewrite seq_S, foldl_snoc.
    rewrite (St_bind_ok _ _ _ _ _ E). cbn [Nat.add].
    destruct (config_byte_ok (with_rx (set_mac mac (vs_net (m_ctx m))) m) (Z.of_nat n))
      as (v & Ev & _); [exact Ha|lia|]. rewrite (St_bind_ok _ _ _ _ _ Ev).
    exists (<[n := v]> mac). split; [|unfold len in *; by rewrite length_insert].
    unfold ctx_update. cbn [ctx_get device_ctx with_rx m_ctx with_ctx vs_net set_net mac_addr set_mac].
    rewrite wr_insert by lia. cbn [mbind res_bind]. by rewrite Nat2Z.id.
Qed.

(** Negotiation, with the registers of the transport, and the page size. *)
Lemma negotiate_ok m : attached m -> exists m1 m',
  (if on_pci t
   then handshake tt VIRTIO_PCI_STATUS VIRTIO_PCI_DEVICE_FEATURES VIRTIO_PCI_DRIVER_FEATURES
   else handshake tt VIRTIO_MMIO_STATUS VIRTIO_MMIO_DEVICE_FEATURES VIRTIO_MMIO_DRIVER_FEATURES) m
  = Ok (true, m1) /\
  when (negb (on_pci t)) (virtio_write32 tt VIRTIO_MMIO_GUEST_PAGE_SIZE 4096) m1 = Ok (tt, m') /\
  advances m (reset_device (m_ctx m)) m'.
Proof using HB.
  intros Ha. rewrite on_pci_t. case_bool_decide as Et.
  - replace VIRTIO_PCI_STATUS with reg_status by (unfold reg_status; by rewrite Et).
    destruct (handshake_ok m VIRTIO_PCI_DEVICE_FEATURES VIRTIO_PCI_DRIVER_FEATURES) as (m' & E & Hadv);
      [done|low|low|unfold reg_pfn, reg_status, reg_size; by rewrite Et..|].
    by exists m', m'.
  - assert (t = TRANSPORT_MMIO) as Et' by (by destruct t).
    replace VIRTIO_MMIO_STATUS with reg_status by (unfold reg_status; by rewrite Et').
    destruct (handshake_ok m VIRTIO_MMIO_DEVICE_FEATURES VIRTIO_MMIO_DRIVER_FEATURES)
      as (m' & E & [Ec Ez Ew]); [done|low|low|unfold reg_pfn, reg_status, reg_size; by rewrite Et'..|].
    assert (attached m') as Ha' by (unfold attached; by rewrite Ec).
    eexists m', _. split; [exact E|]. split; [apply vwrite32_ok; [done|low|split; [discriminate|reflexivity]]|].
    rewrite reg_write_other by (unfold reg_pfn, reg_status; by rewrite Et').
    split; [done| |done]. cbn. unfold reg_set.
    rewrite decide_False; [done|]. unfold reg_size. by rewrite Et'.
Qed.

(** Both queues are set up, the receive buffers offered. *)
Definition with_queues (c : virtio_net) (m : machine) : Prop :=
  (exists q u, c = set_rx q u 0 (net_zero B t) /\
     vq_ok (ring_len t) 16 q 0 0 (Vq (seqZ 0 16) [] []) /\ length u = 16%nat /\
     (forall i, 0 <= i < 16 -> vr_desc q !! Z.to_nat i
       = Some (VDesc (rx_addr i) max_len VRING_DESC_F_WRITE 0))) /\
  m_ctx m = VState c (vs_debug (m_ctx m)) (vs_pfn (m_ctx m)) 0 [] 0 [] /\
  vs_pfn (m_ctx m) 0 * 4096 = A + offsetof_rx_queue /\
  vs_pfn (m_ctx m) 1 * 4096 = A + offsetof_tx_queue.

Lemma with_queues_represents c m mac : with_queues c m -> len mac = 6 ->
  Z.testbit (m_regs m reg_status) 2 = true ->
  represents (with_rx (set_initialized true (set_mac mac c)) m) (Queues [] 0 [] 16 (m_wire m)).
Proof using.
  clear HA HB. intros ((q & u & -> & Hok & Hu & Hd) & Em & Hrx & Htx) Hmac Hst. pose proof ring_len_ok as [Hrl Hdiv].
  assert (Forall (fun b => len b = VIRTIO_NET_MAX_PACKET_SIZE) (replicate 16 (replicate 2048 0))) as Hb
    by (apply Forall_replicate; vm_compute; reflexivity).
  split; cbn [m_ctx m_wire m_regs with_rx with_ctx vs_net set_net vs_tx_pos vs_tx_held vs_rx_pos vs_rx_held
    to_send busy arrived room sent]; try done; rewrite Em; cbn [vs_tx_pos vs_tx_held vs_rx_pos vs_rx_held].
  - exists (Vq [] [] []). split; cbn; try done.
    + rewrite <- (Z2Nat.id (ring_len t)) at 1 by lia.
      apply vq_init; rewrite Z2Nat.id by lia; [lia|done].
    + intros i Hi. change (replicate 16 false !! Z.to_nat i = Some (bool_decide (i ∈ @nil Z))).
      rewrite bool_decide_eq_false_2 by apply not_elem_of_nil. apply lookup_replicate_2. lia.
  - exists (Vq (seqZ 0 16) [] []). split; cbn; try done.
Qed.

Lemma present_size m m' : m_regs m' reg_size = m_regs m reg_size -> present m -> present m'.
Proof using. unfold present. by intros ->. Qed.

Lemma page_mul off : (4096 | off) -> (A + off) / 4096 * 4096 = A + off.
Proof using HA.
  intros [k ->]. destruct HA as (_ & [q E] & _). rewrite E, <- Z.mul_add_distr_r.
  by rewrite Z.div_mul by lia.
Qed.

Lemma init_ok m dev : present m -> reg_base dev = B ->
  exists m', virtio_net_init_context (Some tt) (Some dev) m = Ok (0, m') /\
    represents m' (Queues [] 0 [] 16 (m_wire m)).
Proof using HA HB.
  intros Hp Hdev. unfold virtio_net_init_context.
  destruct (register_ok "vnet_log" "virtio-net" LOG_INFO m) as (m0 & E0 & Ec0 & Er0 & Ew0).
  rewrite (St_bind_ok _ _ _ _ _ E0). erewrite St_bind_ok by reflexivity.
  assert ((if reg_base dev <? 0x10000 then TRANSPORT_PCI else TRANSPORT_MMIO) = t) as ->.
  { rewrite Hdev. destruct t, (Z.ltb_spec B 0x10000); done || lia. }
  rewrite Hdev. cbn [ctx_get ctx_put device_ctx].
  set (m1 := with_ctx (set_net (net_zero B t) (m_ctx m0)) m0).
  assert (attached m1) as Ha1 by done.
  destruct (negotiate_ok m1 Ha1) as (m2 & m3 & E2 & E3 & [Ec3 Ez3 Ew3]).
  rewrite (St_bind_ok _ _ _ _ _ E2). cbn [negb]. rewrite (St_bind_ok _ _ _ _ _ E3). clear E2 E3.
  edestruct vnet_debug_ok as (m4 & E & [Ec4 Er4 Ew4]). rewrite (St_bind_ok _ _ _ _ _ E). clear E.
  destruct (init_virtqueue_ok m4 0) as (m5 & E & [Ec5 Ez5 Ew5]);
    [unfold attached; by rewrite Ec4, Ec3|eapply present_size, Hp; by rewrite Er4, Ez3; cbn; rewrite Er0
    |by left|].
  rewrite (St_bind_ok _ _ _ _ _ E). clear E. cbn [Z.eqb negb].
  edestruct vnet_debug_ok as (m6 & E & [Ec6 Er6 Ew6]). rewrite (St_bind_ok _ _ _ _ _ E). clear E.
  edestruct vnet_debug_ok as (m7 & E & [Ec7 Er7 Ew7]). rewrite (St_bind_ok _ _ _ _ _ E). clear E.
  assert (m_ctx m7 = VState (net_zero B t) (vs_debug (m_ctx m0))
    (reg_set (fun _ => 0) 0 ((A + queue_offset 0) / 4096)) 0 [] 0 []) as Ec
    by (rewrite Ec7, Ec6, Ec5, Ec4, Ec3; reflexivity).
  destruct (init_virtqueue_ok m7 1) as (m8 & E & [Ec8 Ez8 Ew8]);
    [unfold attached; by rewrite Ec|eapply present_size, Hp; rewrite Er7, Er6, Ez5, Er4, Ez3; cbn; by rewrite Er0
    |by right|].
  rewrite (St_bind_ok _ _ _ _ _ E). clear E. cbn [Z.eqb negb].
  edestruct vnet_debug_ok as (m9 & E & [Ec9 Er9 Ew9]). rewrite (St_bind_ok _ _ _ _ _ E). clear E.
  assert (m_ctx m9 = VState (net_zero B t) (vs_debug (m_ctx m0))
    (reg_set (reg_set (fun _ => 0) 0 ((A + queue_offset 0) / 4096)) 1 ((A + queue_offset 1) / 4096))
    0 [] 0 []) as Ec' by (rewrite Ec9, Ec8, Ec; reflexivity).
  destruct (populate_loop 16 m9) as (q & u & E & Hok & Hu & Hd); [lia|by rewrite Ec'|].
  unfold populate_rx. rewrite (St_bind_ok _ _ _ _ _ E). clear E.
  set (c := set_rx q u 0 (net_zero B t)) in *. set (m10 := with_rx c m9).
  erewrite St_bind_ok by reflexivity.
  match goal with |- context [vnet_print LOG_DEBUG ?msg] =>
    destruct (vnet_print_ok LOG_DEBUG msg _ m10 ltac:(done) eq_refl) as (m11 & E & [Ec11 Er11 Ew11]) end.
  rewrite (St_bind_ok _ _ _ _ _ E). clear E.
  destruct (driver_ok_ok m11) as (m12 & E & Ec12 & Hst & Ew12);
    [unfold attached; by rewrite Ec11|].
  rewrite (St_bind_ok _ _ _ _ _ E). clear E. cbn [negb].
  assert (Hq : m_ctx m12 = set_net c (m_ctx m9)) by (by rewrite Ec12, Ec11).
  destruct (vread_mac_ok m12) as (mac & E & Hmac);
    [unfold attached; rewrite Hq; done|by rewrite Hq|].
  rewrite (St_bind_ok _ _ _ _ _ E). clear E. erewrite St_bind_ok by reflexivity.
  cbn [ctx_get ctx_put device_ctx].
  edestruct (tag_info_ok (C := vstate)) as (m13 & E & Ec13 & Er13 & Ew13).
  rewrite (St_bind_ok _ _ _ _ _ E). exists m13. split; [done|].
  assert (m_wire m = m_wire m12) as ->.
  { rewrite Ew12, Ew11. cbn. rewrite Ew9, Ew8, Ew7, Ew6, Ew5, Ew4, Ew3. cbn. by rewrite Ew0. }
  eapply represents_same; [apply quietly_same; split; [exact Ec13|exact Er13|exact Ew13]|].
  assert (with_queues c m12) as Hwq.
  { split; [by exists q, u|]. rewrite Hq, Ec'. split; [done|]. cbn.
    split; [rewrite reg_set_ne, reg_set_eq by done|rewrite reg_set_eq]; apply page_mul; [by exists 1|by exists 4]. }
  pose proof (with_queues_represents c m12 mac Hwq Hmac Hst) as HR.
  replace (vs_net (m_ctx m12)) with c by (by rewrite Hq). exact HR.
Qed.

(* ------------------------------------------------------------------ *)
(** ** Progress of the device *)

Lemma hw_fetch_enabled m q : represents m q ->
  (exists s id ids, rx_ok (vs_net (m_ctx m)) (vs_rx_pos (m_ctx m)) (vs_rx_held (m_ctx m))
     (arrived q) (room q) s /\ offered s = id :: ids) ->
  exists m', hw_step m Internal m' /\ vs_rx_held (m_ctx m') <> [] /\ represents m' q.
Proof using.
  clear HA HB. intros R (s & id & ids & Hrx & E). pose proof (rx_vq _ _ _ _ _ _ Hrx) as Hok.
  assert (Hne : avail_idx (rx_queue (vs_net (m_ctx m))) <> vs_rx_pos (m_ctx m)).
  { pose proof (outstanding_bound _ _ _ _ _ _ Hok) as Hb. rewrite outstanding_len, E, len_cons in Hb.
    pose proof (len_nonneg ids). pose proof (len_nonneg (held s)). pose proof (len_nonneg (returned s)).
    rewrite (vq_avail_idx _ _ _ _ _ _ Hok), E, len_cons. pose proof (vq_pos _ _ _ _ _ _ Hok).
    unfold is_u16, u16 in *. zdm. }
  assert (Hav : avail_ring (rx_queue (vs_net (m_ctx m))) !! Z.to_nat (vs_rx_pos (m_ctx m) mod ring_len t)
    = Some id).
  { rewrite <- (Z.add_0_r (vs_rx_pos _)). apply (vq_avail _ _ _ _ _ _ Hok O). by rewrite E. }
  destruct (fetch_rx _ _ _ _ _ _ _ Hrx Hne Hav) as [s' Hrx'].
  eexists. split; [by eapply hw_fetch; [exact (rep_live _ _ R)|..]|]. split; [done|].
  destruct R. split; try done. by exists s'.
Qed.

Lemma hw_arrived_enabled m q p : represents m q -> vs_rx_held (m_ctx m) <> [] ->
  is_bytes p -> len p <= max_len -> exists m', hw_step m (Arrived p) m'.
Proof using.
  clear HA HB. intros R Hh Hb Hl. destruct (rep_rx _ _ R) as [s Hrx]. pose proof Hrx as [].
  destruct (vs_rx_held (m_ctx m)) as [|id ids] eqn:E; [done|].
  assert (0 <= id < 16) as Hid.
  { pose proof (vq_range _ _ _ _ _ _ rx_vq0) as Hr. rewrite Forall_forall in Hr. apply Hr.
    unfold outstanding. rewrite rx_taken0, !elem_of_app. right. left. apply list_elem_of_here. }
  pose proof (rep_sized _ _ R) as [].
  destruct (lookup_lt_is_Some_2 (rx_buffers (vs_net (m_ctx m))) (Z.to_nat id)) as [buf Hbuf]; [lia|].
  rewrite Forall_lookup in rx_buffers_size0. pose proof (rx_buffers_size0 _ _ Hbuf) as Hsz.
  pose proof offset_range as Hoff. unfold max_len, VIRTIO_NET_MAX_PACKET_SIZE in *.
  destruct (store_in_range buf VIRTIO_NET_RX_BUFFER_OFFSET p) as [buf' Hst]; [lia|lia|].
  eexists. eapply (hw_arrived m id ids (Z.to_nat id) (VDesc (rx_addr id) max_len VRING_DESC_F_WRITE 0) buf buf');
    try done; [exact (rep_live _ _ R)|by rewrite E
    |by apply rx_descs0|cbn [vd_addr]; by rewrite Z2Nat.id by lia].
Qed.

Lemma hw_sent_enabled m q f ts : represents m q -> to_send q = f :: ts ->
  exists m', hw_step m (Sent f) m'.
Proof using.
  clear HA HB. intros R Eq. destruct (rep_tx _ _ R) as [s Htx]. pose proof Htx as [].
  rewrite Eq in tx_frames0. inversion tx_frames0 as [|id f' ids ts' Hfull Hrest Eo]. subst f' ts'.
  destruct Hfull as (Hd & buf & Hbuf & Hload).
  assert (Hne : avail_idx (tx_queue (vs_net (m_ctx m))) <> vs_tx_pos (m_ctx m)).
  { pose proof (outstanding_bound _ _ _ _ _ _ tx_vq0) as Hb. rewrite outstanding_len, <- Eo, len_cons in Hb.
    pose proof (len_nonneg ids). pose proof (len_nonneg (held s)). pose proof (len_nonneg (returned s)).
    rewrite (vq_avail_idx _ _ _ _ _ _ tx_vq0), <- Eo, len_cons. pose proof (vq_pos _ _ _ _ _ _ tx_vq0).
    unfold is_u16, u16 in *. zdm. }
  assert (0 <= id) as Hid.
  { pose proof (vq_range _ _ _ _ _ _ tx_vq0) as Hr. rewrite Forall_forall in Hr. apply Hr.
    unfold outstanding. rewrite <- Eo, elem_of_app. left. apply list_elem_of_here. }
  eexists. eapply (hw_sent m id (Z.to_nat id) _ buf (replicate 10 0)); try done.
  - exact (rep_live _ _ R).
  - rewrite <- (Z.add_0_r (vs_tx_pos _)). apply (vq_avail _ _ _ _ _ _ tx_vq0 O). by rewrite <- Eo.
  - cbn [vd_addr]. by rewrite Z2Nat.id.
Qed.

(* ------------------------------------------------------------------ *)
(** ** Properties *)

Lemma free_count m q : represents m q -> (length (to_send q) + busy q <= 16)%nat.
Proof using.
  clear HA HB. intros R. destruct (rep_tx _ _ R) as [s []].
  pose proof (outstanding_bound _ _ _ _ _ _ tx_vq0) as Hb. rewrite outstanding_len in Hb.
  pose proof (len_nonneg (returned s)). pose proof (Forall2_length _ _ _ tx_frames0).
  subst. rewrite tx_busy0, <- tx_taken0. llia.
Qed.

(** C2: The driver and the device together implement two bounded queues.  After
    virtio_net_init_context on a device with large enough queues both are empty and
    sixteen receive buffers wait.  From then on, whatever the interleaving and in
    whatever order the device returns buffers: a transmit of a packet that fits a
    buffer behind its header is accepted exactly when one of the sixteen buffers is
    not in use, and appends its bytes; what the device sends are the accepted
    packets in order, unaltered, behind a zero header; a receive yields exactly the
    oldest packet that arrived, less its header, unless it is too short or too
    long, when it is dropped. *)
Theorem virtio_net_refines_queues :
  (forall m dev, present m -> reg_base dev = B ->
    exists m', virtio_net_init_context (Some tt) (Some dev) m = Ok (0, m') /\
      represents m' (Queues [] 0 [] 16 (m_wire m))) /\
  (forall m q, represents m q ->
    (forall b o n f, load b o n = Ok f ->
      n <= max_len - sizeof_hdr \/ VIRTIO_NET_MAX_PACKET_SIZE < n -> exists r m' q',
      virtio_net_transmit (Some tt) (Some (b, o)) n m = Ok (r, m') /\
      spec_step q (Transmit f r) q' /\ represents m' q') /\
    (forall b o n l, 0 <= o -> 0 <= n -> o + n <= len b -> exists got r b' l' m' q',
      virtio_net_receive (Some tt) (Some (b, o)) n (Some l) m = Ok (r, Some (b', o), Some l', m') /\
      match got with
      | Some f => r = 0 /\ l' = len f /\ store b o f = Ok b'
      | None => r = -1 /\ l' = l /\ b' = b
      end /\ spec_step q (Receive n got) q' /\ represents m' q') /\
    (forall ev m', hw_step m ev m' -> exists q', spec_step q ev q' /\ represents m' q')).
Proof using HA HB.
  split; [exact init_ok|]. intros m q R. split_and!; [| |intros; by eapply hw_keeps].
  - intros b o n f Hf Hn. destruct q as [ts k a r s]. pose proof (load_len _ _ _ _ Hf) as <-.
    pose proof (len_nonneg f). pose proof offset_range as Hoff.
    destruct (decide (len f = 0 \/ VIRTIO_NET_MAX_PACKET_SIZE < len f)) as [Hbad|Hgood].
    + exists (-1), m, (Queues ts k a r s). split; [|split; [by constructor; auto|done]].
      unfold virtio_net_transmit. destruct (Z.eqb_spec (len f) 0); [done|].
      destruct (Z.ltb_spec VIRTIO_NET_MAX_PACKET_SIZE (len f)); [done|lia].
    + pose proof (transmit_step m _ b o _ f R Hf ltac:(lia)) as Hst. cbn [to_send busy arrived room sent] in Hst.
      unfold max_len, VIRTIO_NET_MAX_PACKET_SIZE, sizeof_hdr in *.
      case_decide; [|rewrite decide_True in Hst by lia];
        destruct Hst as (m' & E & R'); eexists _, m', _; (split; [exact E|]); (split; [|exact R']);
        constructor; auto; unfold max_len, VIRTIO_NET_MAX_PACKET_SIZE, sizeof_hdr; try lia.
      pose proof (free_count m _ R) as Hfc. cbn [to_send busy] in Hfc. lia.
  - intros b o n l Ho Hn Hb. destruct q as [ts k a r s].
    destruct (receive_step m _ b o n l R Ho Hn Hb) as (x & b' & l' & m' & E & Hst).
    cbn [to_send busy arrived room sent] in Hst. destruct a as [|p a].
    + destruct Hst as (-> & -> & -> & R'). exists None, (-1), b, l, m', (Queues ts k [] r s).
      split; [done|]. split; [done|]. split; [constructor|done].
    + case_decide as Hfit.
      * destruct Hfit as [H1 H2]. destruct Hst as (-> & -> & Hst & R'). unfold sizeof_hdr in *.
        assert (len (take 10 p) = 10 /\ len (drop 10 p) = len p - 10) as [Ht Hd]
          by (unfold len in *; rewrite length_take, length_drop; lia).
        exists (Some (drop 10 p)), 0, b', (len p - 10), m'. eexists. split; [done|]. split; [done|].
        split; [|exact R']. rewrite <- (take_drop 10 p) at 1. constructor; [done|lia].
      * destruct Hst as (-> & -> & -> & R'). exists None, (-1), b, l, m'. eexists. split; [done|].
        split; [done|]. split; [|exact R']. constructor. lia.
Qed.

(** Steps of the device alone. *)
Inductive hw_run : machine -> list event -> machine -> Prop :=
  | run_nil m : hw_run m [] m
  | run_cons m ev m1 evs m2 : hw_step m ev m1 -> hw_run m1 evs m2 -> hw_run m (ev :: evs) m2.

(** The device can send everything that was accepted, without the driver's help. *)
Theorem virtio_net_tx_drains ts : forall m b a r s,
  represents m (Queues ts b a r s) ->
  exists m', hw_run m (Sent <$> ts) m' /\
    represents m' (Queues [] (b + length ts) a r (s ++ ts)).
Proof using.
  clear HA HB. induction ts as [|f ts IH]; intros m b a r s R.
  - exists m. rewrite app_nil_r, Nat.add_0_r. split; [constructor|done].
  - destruct (hw_sent_enabled m _ f ts R eq_refl) as [m1 Hs].
    destruct (hw_keeps _ _ _ _ R Hs) as (q' & Hq & R1). inversion Hq; subst.
    destruct (IH m1 _ _ _ _ R1) as (m' & Hrun & R').
    exists m'. split; [by econstructor|]. rewrite <- app_assoc in R'. cbn [length].
    by replace (b + S (length ts))%nat with (S b + length ts)%nat by lia.
Qed.

(** A packet arrives that a receive with a buffer of [n] bytes refuses. *)
Definition lost (n : Z) (m m' : machine) : Prop := exists p b m1 m2,
  (m1 = m \/ hw_step m Internal m1) /\ hw_step m1 (Arrived p) m2 /\
  virtio_net_receive (Some tt) (Some (b, 0)) n (Some 0) m2 = Ok (-1, Some (b, 0), Some 0, m').

(** The device has a receive buffer, or can take one. *)
Lemma arrival_possible m q : represents m q -> (0 < room q)%nat ->
  exists m1, (m1 = m \/ hw_step m Internal m1) /\ vs_rx_held (m_ctx m1) <> [] /\ represents m1 q.
Proof using.
  clear HA HB. intros R Hr. destruct (rep_rx _ _ R) as [s Hrx].
  destruct (vs_rx_held (m_ctx m)) as [|id ids] eqn:E.
  - pose proof (rx_room _ _ _ _ _ _ Hrx) as Hroom. cbn in Hroom.
    destruct (offered s) as [|id ids] eqn:Eo; [cbn in Hroom; lia|].
    destruct (hw_fetch_enabled m q R) as (m1 & Hs & Hne & R1);
      [exists s, id, ids; by rewrite E|]. exists m1. eauto.
  - exists m. split; [by left|]. split; [by rewrite E|done].
Qed.

Lemma lost_step m q n : represents m q -> arrived q = [] -> (0 < room q)%nat ->
  0 <= n < max_len - sizeof_hdr ->
  exists m', lost n m m' /\
    represents m' (Queues (to_send q) (busy q) [] (pred (room q)) (sent q)).
Proof using HA HB.
  intros R Ha Hr Hn. destruct (arrival_possible m q R Hr) as (m1 & Hs1 & Hne & R1).
  set (p := replicate (Z.to_nat (n + 11)) 0).
  assert (len p = n + 11) as Hp by (unfold len, p; rewrite length_replicate; lia).
  destruct (hw_arrived_enabled m1 q p R1 Hne) as [m2 Hs2];
    [by apply Forall_replicate|unfold sizeof_hdr in *; lia|].
  destruct (hw_keeps _ _ _ _ R1 Hs2) as (q' & Hq & R2). destruct q as [ts b a r s].
  cbn [to_send busy arrived room sent] in *. inversion Hq; subst. cbn [app] in R2.
  destruct (receive_step m2 _ (replicate (Z.to_nat n) 0) 0 n 0 R2) as (x & b' & l' & m' & E & Hst);
    [lia|lia|unfold len; rewrite length_replicate; lia|].
  cbn [to_send busy arrived room sent] in Hst.
  rewrite decide_False in Hst by (unfold sizeof_hdr; lia). destruct Hst as (-> & -> & -> & R').
  exists m'. split; [|exact R']. by exists p, (replicate (Z.to_nat n) 0), m1, m2.
Qed.

(** C33: Where the driver breaks.  A packet that is accepted by its length check but does
    not fit behind the header is written past the end of its buffer.  And the
    buffer of a packet a receive refuses is never offered again: from every
    state with no packet waiting, packets longer than the caller's buffer lead to a
    state in which the device has no receive buffer left and nothing can ever
    arrive. *)
Theorem virtio_net_limits m q : represents m q ->
  (forall b o n f, load b o n = Ok f -> max_len - sizeof_hdr < n <= VIRTIO_NET_MAX_PACKET_SIZE ->
    (length (to_send q) + busy q < 16)%nat ->
    virtio_net_transmit (Some tt) (Some (b, o)) n m = UB) /\
  (arrived q = [] -> forall n, 0 <= n < max_len - sizeof_hdr -> exists m',
    rtc (lost n) m m' /\ represents m' (Queues (to_send q) (busy q) [] 0 (sent q)) /\
    forall p m2, ~ hw_step m' (Arrived p) m2).
Proof using HA HB.
  intros R. split.
  - intros b o n f Hf Hn Hl. pose proof offset_range as Hoff.
    unfold max_len, VIRTIO_NET_MAX_PACKET_SIZE, sizeof_hdr in *.
    assert (0 < n <= VIRTIO_NET_MAX_PACKET_SIZE) as Hn' by (unfold VIRTIO_NET_MAX_PACKET_SIZE; lia).
    pose proof (transmit_step m q b o n f R Hf Hn') as Hst.
    rewrite decide_False in Hst by lia. rewrite decide_False in Hst; [exact Hst|].
    unfold max_len, VIRTIO_NET_MAX_PACKET_SIZE, sizeof_hdr. lia.
  - remember (room q) as k eqn:Ek. revert m q R Ek. induction k as [|k IH]; intros m q R Ek Ha n Hn.
    + exists m. split; [constructor|]. destruct q as [ts b a r s]. cbn in *. subst.
      split; [done|]. intros p m2 Hs. destruct (hw_keeps _ _ _ _ R Hs) as (q' & Hq & _). inversion Hq.
    + destruct (lost_step m q n R Ha) as (m1 & Hl & R1); [lia|done|].
      destruct (IH m1 _ R1) with (n := n) as (m' & Hrun & R' & Hdead); [cbn; lia|done|done|].
      exists m'. split; [by eapply rtc_l|]. done.
Qed.

(* ------------------------------------------------------------------ *)
(** ** The driver keeps the contract of the network device layer *)

(** The layer over this device; the other drivers have none here. *)
#[local] Instance machine_net : NetDriver machine := {
  drv_get_mac k c mac :=
    match k with
    | VIRTIO_NET =>
        '(r, m) ← virtio_net_get_mac ((fun _ => tt) <$> c) (Some mac); mret (r, default mac m)
    | _ => mret (-1, mac)
    end;
  drv_transmit k c b o n :=
    match k with
    | VIRTIO_NET => virtio_net_transmit ((fun _ => tt) <$> c) (Some (b, o)) n
    | _ => mret (-1)
    end;
  drv_receive k c b o n l :=
    match k with
    | VIRTIO_NET =>
        '(r, buf, got) ← virtio_net_receive ((fun _ => tt) <$> c) (Some (b, o)) n (Some l);
        mret (r, default b (fst <$> buf), default l got)
    | _ => mret (-1, b, l)
    end;
  net_acquire _ _ := mret None;
  net_print_tag _ _ := Ok []
}.

Lemma write_keeps_log l off v : keeps (fun m : machine => con_log m = l) (virtio_write16 tt off v) /\
  keeps (fun m : machine => con_log m = l) (virtio_write32 tt off v).
Proof using.
  assert (forall w a x, keeps (fun m : machine => con_log m = l) (bus_write w a x)) as Hw.
  { intros w a x m r m' Hm [= _ <-]. unfold reg_write.
    destruct (_ =? _); [done|]. by destruct (_ && _). }
  split; (apply keeps_bind; [apply keeps_gets|]); intros c; apply keeps_if; apply Hw.
Qed.

Lemma notify_keeps_log l i : keeps (fun m : machine => con_log m = l) (notify tt i).
Proof using.
  unfold notify. pose proof (write_keeps_log l) as Hw.
  apply keeps_bind; [apply keeps_gets|]. intros c. apply keeps_if; [|apply Hw].
  apply keeps_bind; [apply Hw|]. intros _. apply Hw.
Qed.

Lemma vnet_transmit_keeps_log c b o n l :
  keeps (fun m : machine => con_log m = l) (virtio_net_transmit c (Some (b, o)) n).
Proof using.
  pose proof (notify_keeps_log l). unfold virtio_net_transmit, virtio_net_reclaim_tx.
  destruct c as [[]|]; [|apply keeps_ret]. solve_keeps.
  match goal with |- keeps _ (match ?x with _ => _ end) => destruct x end; solve_keeps.
Qed.

Lemma receive_keeps_log c b o n x l :
  keeps (fun m : machine => con_log m = l) (virtio_net_receive c (Some (b, o)) n (Some x)).
Proof using.
  pose proof (notify_keeps_log l).
  assert (forall level msg, keeps (fun m : machine => con_log m = l) (vnet_print level msg)) as Hp.
  { intros level msg. unfold vnet_print, when. apply keeps_bind; [apply keeps_gets|]. intros p.
    apply keeps_bind; [apply keeps_gets|]. intros e. apply keeps_if; [|apply keeps_skip].
    apply keeps_bind; [|intros; by apply keeps_kput].
    intros m. by apply (keeps_kput (fun m : machine => con_log m = l)). }
  unfold virtio_net_receive, log_rx_check. destruct c as [[]|]; [|apply keeps_ret]. solve_keeps.
Qed.

Lemma vnet_receive_contract m q b o n l : represents m q -> 0 <= o -> 0 <= n -> o + n <= len b ->
  is_bytes b -> exists r b' l' m' q',
    virtio_net_receive (Some tt) (Some (b, o)) n (Some l) m = Ok (r, Some (b', o), Some l', m') /\
    represents m' q' /\ con_log m' = con_log m /\ len b' = len b /\ is_bytes b'.
Proof using HA HB.
  intros R Ho Hn Hb Hbb.
  destruct (receive_step m q b o n l R Ho Hn Hb) as (r & b' & l' & m' & E & Hst).
  assert (exists q', represents m' q' /\ len b' = len b /\ is_bytes b') as (q' & R' & Hl & Hby).
  { destruct (arrived q) as [|p a] eqn:Ea; [destruct Hst as (_ & -> & _ & R'); by exists q|].
    case_decide; [|destruct Hst as (_ & -> & _ & R'); by eexists].
    destruct Hst as (_ & _ & Hst & R'). eexists. split; [exact R'|]. split; [by eapply store_len|].
    assert (is_bytes p) as Hp.
    { destruct (rep_rx _ _ R) as [s []]. rewrite Ea in rx_packets0.
      inversion rx_packets0 as [|e p' es a' Hfull]. apply Hfull. }
    apply store_inv in Hst as (h & mid & tl & -> & _ & _ & ->). rewrite !is_bytes_app in Hbb |- *.
    destruct Hbb as (? & _ & ?). split_and!; try done. by apply Forall_drop. }
  exists r, b', l', m', q'. split; [done|]. split; [done|]. split; [|done].
  by eapply (receive_keeps_log (Some tt)).
Qed.

(** The contract, for frames of Ethernet size: a context is ready while memory and
    registers represent some queues. *)
Definition machine_net_laws : NetDriverLaws machine.
Proof using HA HB.
  refine {| net_ready _ _ m := exists q, represents m q |}.
  - intros k c s m [q R]. exists q. eapply represents_same; [|exact R].
    split; [exists (vs_debug (m_ctx m)); by destruct m as [[]]|done..].
  - intros k c b o n w r w' E. destruct k; [by injection E as _ <-| |by injection E as _ <-].
    exact (vnet_transmit_keeps_log _ b o n (con_log w) w r w' eq_refl E).
  - intros k c b o n m [q R] Ho Hn Hl Hb. destruct k; [by eexists _, m; eauto| |by eexists _, m; eauto].
    destruct c as [c|]; [|eexists _, m; eauto]. cbn [drv_transmit machine_net fmap option_fmap option_map].
    destruct (split_at b o n) as (h & f & tl & -> & <- & <-); [lia..|].
    pose proof offset_range as Hoff. unfold ETH_FRAME_MAX in Hn.
    assert (0 < len f <= VIRTIO_NET_MAX_PACKET_SIZE) as Hn' by (unfold VIRTIO_NET_MAX_PACKET_SIZE; lia).
    pose proof (transmit_step m q _ _ _ f R (load_ok h f tl) Hn') as Hst.
    case_decide; [destruct Hst as (m' & E & R'); eauto 10|].
    rewrite decide_True in Hst by (unfold max_len, VIRTIO_NET_MAX_PACKET_SIZE, sizeof_hdr; lia).
    destruct Hst as (m' & E & R'). eauto 10.
  - intros k c b o n l m [q R] Ho Hn Hl Hb.
    destruct k; [eexists _, _, _, m; by eauto 10| |eexists _, _, _, m; by eauto 10].
    destruct c as [c|]; [|by eexists _, _, _, m; eauto 10].
    cbn [drv_receive machine_net fmap option_fmap option_map].
    destruct (vnet_receive_contract m q b o n l R) as (r & b' & l' & m' & q' & E & R' & H'); [done..|].
    exists r, b', l', m'. split; [by rewrite (St_bind_ok _ _ _ _ _ E)|]. split; [by exists q'|done].
Defined.
End card.

(* ------------------------------------------------------------------ *)
(** ** A device behind memory-mapped registers on ARM64 *)

Module net_sample.
Definition A : Z := 0x400000.
Definition B : Z := 0x0A003E00.
#[export] Instance arm : Arch := ARM64.
Definition start : machine :=
  Machine (VState (net_zero 0 TRANSPORT_PCI) 0 (fun _ => 0) 0 [] 0 [])
    (reg_set (fun _ => 0) VIRTIO_MMIO_QUEUE_NUM_MAX 1024) [] (ConsoleState [] log_empty) None.
Definition dev : device := set_reg device_zero B 0x200.
Definition rep : machine -> queues -> Prop := represents A B TRANSPORT_MMIO.

Lemma B_mapped : 0x10000 <= B /\ B + 0x200 <= 2 ^ 64.
Proof. split; discriminate. Qed.
Lemma A_mapped : 0 <= A /\ (4096 | A) /\ A + 0x20000 <= 2 ^ 44.
Proof. split; [discriminate|]. split; [by exists 0x400|discriminate]. Qed.
Lemma start_present : present TRANSPORT_MMIO start.
Proof. split; [discriminate|reflexivity]. Qed.

Lemma net_initialised : exists m, rep m (Queues [] 0 [] 16 []).
Proof.
  destruct (init_ok A B TRANSPORT_MMIO B_mapped A_mapped start dev start_present eq_refl)
    as (m & _ & R). by exists m.
Qed.

Lemma net_pending : exists m, rep m (Queues [[1; 2; 3]] 0 [] 16 []).
Proof.
  destruct net_initialised as [m R].
  assert (0 < 3 <= VIRTIO_NET_MAX_PACKET_SIZE) as Hn by (split; [reflexivity|discriminate]).
  pose proof (transmit_step A B TRANSPORT_MMIO B_mapped A_mapped m _ [1; 2; 3] 0 3 [1; 2; 3] R eq_refl Hn)
    as Hst.
  rewrite decide_False, decide_True in Hst by (done || discriminate).
  destruct Hst as (m' & _ & R'). by exists m'.
Qed.
End net_sample.
Import net_sample.

Lemma virtio_net_refines_queues_witness :
  exists m, @virtio_net_init_context machine unit ARM64 _ _
      (device_bus B TRANSPORT_MMIO) (device_ctx A) (Some tt) (Some dev) start = Ok (0, m) /\
    rep m (Queues [] 0 [] 16 []).
Proof.
  exact (proj1 (virtio_net_refines_queues A B TRANSPORT_MMIO B_mapped A_mapped) start dev
    start_present eq_refl).
Defined.

Lemma virtio_net_tx_drains_witness :
  exists m m', rep m (Queues [[1; 2; 3]] 0 [] 16 []) /\
    hw_run A TRANSPORT_MMIO m [Sent [1; 2; 3]] m' /\ rep m' (Queues [] 1 [] 16 [[1; 2; 3]]).
Proof.
  destruct net_pending as [m R]. exists m.
  destruct (virtio_net_tx_drains A B TRANSPORT_MMIO [[1; 2; 3]] m _ _ _ _ R) as (m' & Hrun & R').
  by exists m'.
Defined.

Lemma virtio_net_limits_witness :
  exists m, rep m (Queues [] 0 [] 16 []) /\ exists m',
    rtc (lost A B TRANSPORT_MMIO 1514) m m' /\ rep m' (Queues [] 0 [] 0 []).
Proof.
  destruct net_initialised as [m R]. exists m. split; [exact R|].
  destruct (proj2 (virtio_net_limits A B TRANSPORT_MMIO B_mapped A_mapped m _ R) eq_refl 1514)
    as (m' & Hrun & R' & _).
  - split; [discriminate|reflexivity].
  - by exists m'.
Defined.
